(* ===== verification/_CoqProject ===== *)
-Q . S2P
Prelude.v
Bytes.v
BtcTypes.v
BtcCompact.v
BtcFormat.v
BtcParse.v
BtcRoundtrip.v
BtcParseTotal.v
BtcMerkle.v
BtcMerkleTree.v
BtcMerkleProofs.v
BtcBuild.v
Security.v
Relay.v
RelayVerify.v
RelayInclusion.v
RelayPayments.v
RelayReorder.v
Primitives.v
Escrow.v
EscrowProps.v
FixedPoint.v
Reward.v
RewardProps.v
RewardExamples.v
Staking.v
StakingProps.v
StakingExamples.v
EscrowReward.v
EscrowRange.v
EscrowRewardProps.v
Tokens.v
Amount.v
BridgeStores.v
LoansStore.v
Bridge.v
Oracle.v
Fee.v
Registry.v
Collateral.v
Nomination.v
VaultRegistry.v
Issue.v
Redeem.v
Replace.v
TokenWeight.v
TokenMoves.v
TokenLaws.v
LiquidationSpec.v
BridgeLaws.v
BridgeStep.v
VaultQueries.v
BridgeProps.v
CollateralProps.v
IssueProps.v
LoansRate.v
Loans.v
LoansProps.v
LoansStep.v
LoansDeposits.v
BridgeExamples.v
LoansExamples.v
BridgeCases.v
Frames.v
DexStore.v
DexMath.v
DexGeneral.v
DexSwap.v
DexCall.v
DexSupply.v
DexProps.v
DexExamples.v
Farming.v
FarmingProps.v
FarmingExamples.v
Emission.v
EmissionProps.v
EmissionExamples.v
