(* ===== verification/Prelude.v ===== *)
(** * interBTC: a verification library of the bridge pallets

    interBTC ([src/]) is a parachain that issues tokens backed by bitcoin.  A
    relay follows the Bitcoin chain ([btc-relay], on the crate [bitcoin]);
    vaults lock collateral ([vault-registry], [nomination], [staking]); users
    pay bitcoin to a vault and are issued tokens ([issue]), give tokens back for
    bitcoin ([redeem]), and vaults hand their tokens to each other ([replace]).
    Prices come from the [oracle], fees and rewards go through [fee], [reward]
    and [staking]; voting power comes from locked tokens ([escrow]).
    A lending market ([loans]) and an exchange ([dex-general]) trade the tokens;
    [supply] and [annuity] mint and spread block rewards, [farming] rewards those
    who hold shares of the exchange.  This library is a shallow embedding of that
    code and the theorems about it.

    ** How the code is modelled

    A Rust function that returns a [Result] is a computation ending in one of
    the four values of [outcome] (below): [Ok], [Err], [Panic] (an index out of
    range, a failed [expect], an overflow that the type panics on) or [NoFuel],
    which no Rust code returns.  A function that writes storage is a state
    monad [M S E] over the record of the pallet's storage items; a getter is a
    function of the record.  Storage maps are [gmap]s, machine integers are [Z]
    with their range, their wrap-around or their checked failure written out,
    bytes are Stdlib's [byte].  An extrinsic that fails is rolled back, so a
    step of a run is a call that ended in [Ok].

    What is not under [src/] is a parameter, a type class with its documented
    laws: SHA-256 ([Sha256]), the secp256k1 curve and RIPEMD-160 ([Curve]), the
    128-bit fixed-point products of [sp_arithmetic] ([SignedFixedPoint] and
    [Rational128], exact to one unit), the token ledger of [orml_tokens]
    ([MultiCurrency]), the order in which a
    storage map is visited ([StorageIter], [ChainsIter]), the derived order of
    currencies and the accounts derived from a pallet id ([DexEnv], [FarmEnv],
    [EmissionEnv]), the integer square root ([IntegerSqrt]).  Each has an instance,
    at which the examples and the witnesses are evaluated.

    ** Parts and files

    Bitcoin ([src/crates/bitcoin]).  [Bytes] slices and little-endian integers;
    [BtcTypes] data; [BtcCompact] targets and retargeting (math.rs, pow.rs);
    [BtcFormat] serialization (formatter.rs, script.rs,
    address.rs); [BtcParse] the parser (parser.rs), [BtcRoundtrip] that it
    inverts the formatter, [BtcParseTotal] that it terminates and where it
    panics; [BtcMerkle] Merkle proofs (merkle.rs), [BtcMerkleTree] the reference
    tree, [BtcMerkleProofs] soundness and completeness; [BtcBuild] builders and
    deposit keys.

    Relay.  [Security] (crates/security): request ids, the block counter.
    [Relay] (crates/btc-relay): headers, forks, reorganisation; [RelayVerify]
    confirmations, inclusion, payments.  [RelayInclusion] what an accepted proof
    means, [RelayPayments] which payments are accepted, [RelayReorder] the
    reorganisations that leave the chains unsorted.

    Escrow, rewards, staking.  [Primitives] (src/primitives) currencies, vault
    ids and requests; [FixedPoint].  [Escrow],
    [EscrowProps] (crates/escrow); [Reward], [RewardProps],
    [RewardExamples] (crates/reward); [Staking], [StakingProps],
    [StakingExamples] (crates/staking); [EscrowReward], [EscrowRewardProps] the
    composition of escrow and reward, and its refinement of an abstract machine;
    [EscrowRange] the ranges of what its checkpoints store.

    Bridge.  [Tokens] the error enums and the ledger; [Amount]
    (crates/currency); [BridgeStores] the storage of the pallets; [Bridge] one
    [Runtime] state and the monad [B] over it, since the pallets write each
    other's storage; [Oracle], [Fee]; the vault registry in [Registry] (vaults
    and their counters), [Collateral] (thresholds and pools), [VaultRegistry]
    (operations, liquidation, extrinsics) and [VaultQueries] (off-chain worker,
    vault lists, integrity checks); [Nomination], [Issue], [Redeem], [Replace],
    each the crate of that name.  [BridgeStep] is the whole: [dispatch] over the
    45 extrinsics and the relation [step].

    Proofs on the bridge.  [TokenWeight], [TokenMoves], [TokenLaws],
    [BridgeLaws] say by how much every
    operation moves a weighted sum of token counters, pending requests and
    supply; [BridgeProps] reads three invariants of all reachable states off
    them.  [LiquidationSpec] is the effect of a liquidation, [CollateralProps]
    conversion, median and thresholds, [IssueProps] requests
    that get stuck.  [BridgeExamples] and [BridgeCases] run the extrinsics on a
    concrete state; the witnesses are read off these runs.

    Loans.  [LoansStore] storage, [LoansRate] interest rate models and accrual
    (rate_model.rs, interest.rs), [Loans] (crates/loans) the rest: the modules
    [Interest], [Farming], [LendTokens] (callbacks of the ledger), [Loans]
    (liquidity), [Lending] (operations) and [LoansCalls] (extrinsics).  The
    oracle and the fee pallet reach the market through the class [LoansApi], of
    which [Interest] has the instance.  [LoansStep] is dispatch and the relation
    [loans_step]; [LoansProps] rates, accrual and conversion; [LoansDeposits]
    two invariants of reachable states; [LoansExamples] a run.

    Exchange of pairs.  [DexStore] storage (primitives.rs, lib.rs), [DexMath]
    prices and shares, [DexGeneral] (crates/dex-general) the operations of
    swap/mod.rs, with the extrinsics and queries in its module [DexCalls];
    [DexCall] dispatch and the relation [dex_step].  [Frames] says what a
    computation leaves alone, by its structure; [DexSwap] bounds on prices,
    fees and claims, and a swap along a path; [DexSupply] the invariant of
    reachable states, changes of liquidity and claims;
    [DexProps] the guarantees; [DexExamples] a run.

    Farming and block rewards.  [inside] (in [Frames]) runs an operation of one
    component on its part of a larger state.  [Farming] (crates/farming) the
    pallet with dispatch and [farming_step]; [FarmingProps] stakes, payments and
    funds; [FarmingExamples] a run.  [Emission] (crates/supply, crates/annuity and
    the providers of parachain/runtime/interlay): the modules [Supply], [Annuity]
    (for an instance of the pallet) and [Providers]; [EmissionProps],
    [EmissionExamples].

    ** What the theorems show

    - Supply: in every reachable state the issuance of a wrapped currency is
      what vaults and liquidation vaults have issued; tokens set aside are those
      of pending requests ([supply_is_issued], [to_be_issued_is_pending],
      [to_be_redeemed_is_pending]).
    - Collateral: a liquidation moves exactly the counters it should
      ([liquidate_vault_spec]); a vault takes on only what its collateral
      covers ([request_is_covered]); the two computations of a threshold differ
      by less than a unit ([threshold_agrees]); both for collateral that is not
      a lend token.
    - Payments: an accepted inclusion proof shows a transaction of the block,
      unless something that is hashed when the proof is verified is a second
      preimage ([transaction_inclusion_sound], [verify_proof_sound]); a header
      is confirmed under exactly the checks of the code, which look at one fork
      ([verify_block_header_inclusion_iff]); every transaction
      of a block has one ([merkle_proof_complete]), and the accepted payments
      are characterised ([validate_op_return_transaction_iff]).
    - Encoding: round trips of transactions, addresses and targets; the parser
      is total.
    - Money: rewards and stakes are conserved up to a stated rounding; stored
      points stay in range ([reachable_well_formed]); a lock that has ended can
      be withdrawn ([locked_funds_released]); conversions never gain; the median is an honest price.
    - Lending: deposited lend tokens are those reserved, markets and lend tokens
      correspond ([deposits_are_reserved], [markets_have_own_lend_token]);
      interest only adds to what suppliers can redeem
      ([accrual_protects_suppliers]), at a rate within its model
      ([jump_rate_bounds]); conversion and back never gains ([lend_round_trip]).
    - Exchange: the recorded supply of a pair is the issuance of its liquidity
      token ([lp_supply_is_issuance]); swaps keep the product of the reserves
      ([swaps_keep_products]) and the two directions of a quote agree
      ([quotes_agree]); without a receiver of fees no change of liquidity lowers
      what a share stands for ([liquidity_keeps_share_value]); a removal pays
      what the query says ([remove_pays_preview]); the claims on a bootstrap are
      covered ([claims_within_minted]).
    - Farming and block rewards: stakes are what is reserved
      ([stakes_are_reserved]); a payment moves from the schedules to the pools
      what it should ([round_pays_schedules]); an inflation is handed out whole
      ([inflation_goes_out]) and is all that is minted ([block_mints_inflation]);
      the vault annuity pays for a whole period ([vault_rewards_last]).
    - Behaviour that is not what the code means: each is a theorem on a
      reachable state or on all states of a shape ([overpaid_issue_blocked],
      [recovery_strands_issue], [nomination_refund_breaks_total],
      [premium_above_threshold], [reorganize_chains_leaves_unsorted],
      [total_supply_diverges], [stale_withdrawal_overdraws],
      [coinbase_height_overflow_panics], [redeem_lowers_exchange_rate],
      [update_market_skips_reserved_factor], [repeated_pair_lowers_product],
      [removal_strands_protocol_fee], [unclaimed_rewards_counted_twice],
      [escrow_rewards_counted_twice], [failed_distribution_keeps_transfer], [compact_uint_65535_reencoded]).

    ** Bounds and fuel

    Loops over lists, heights and maps are structural.  Where the source loops
    on a condition the model takes fuel and a theorem shows that it is enough:
    the parsers use the length of the input ([parse_Transaction_total]), the
    checkpoint of escrow the number of spans since the last point
    ([checkpoint_total]).  Merkle heights are below 32 by the width of their
    type.

    ** Not modelled

    Weights and benchmarks, genesis and migrations, serialization of extrinsics,
    RPC servers, the node, and the runtimes' configuration are glue or
    generated.
    In the loans files the ledger's callbacks run around transfers,
    deposits and slashes of lend tokens; the bridge files use the ledger
    without them, so for collateral in lend tokens they leave out reward
    indices and automatic deposits.  Balances are not
    frozen, so all free balance of the lending account counts as cash.  The
    listeners to exchange rates are a parameter of [LoansEnv].  The start of a
    block runs supply and the two annuities only.  The stable exchange and the
    router, governance and block production pallets are left out, see the
    manifest. *)

From Stdlib Require Import ZArith Lia.
From stdpp Require Import base tactics option list gmap numbers.

#[export] Set Default Goal Selector "!".

(** ** Outcomes of a Rust computation

    A Rust function returning [Result<A, E>] ends in [Ok] or [Err]; it may also
    panic (slice index out of range, failed [expect], overflow of a checked
    operator of a library type).  [NoFuel] is never the result of Rust code: it
    marks that the model ran out of the fuel of a loop, and the termination
    theorems show that it is unreachable. *)

Inductive outcome (E A : Type) : Type :=
  | Ok (a : A)
  | Err (e : E)
  | Panic
  | NoFuel.
Arguments Ok {E A} a.
Arguments Err {E A} e.
Arguments Panic {E A}.
Arguments NoFuel {E A}.

#[export] Instance outcome_ret E : MRet (outcome E) := λ A a, Ok a.
#[export] Instance outcome_bind E : MBind (outcome E) := λ A B f c,
  match c with
  | Ok a => f a
  | Err e => Err e
  | Panic => Panic
  | NoFuel => NoFuel
  end.
#[export] Instance outcome_fmap E : FMap (outcome E) := λ A B f c,
  match c with
  | Ok a => Ok (f a)
  | Err e => Err e
  | Panic => Panic
  | NoFuel => NoFuel
  end.

(** [ensure!(b, e)] and [o.ok_or(e)?]. *)
Definition ensure {E} (b : bool) (e : E) : outcome E unit :=
  if b then Ok tt else Err e.
Definition ok_or {E A} (o : option A) (e : E) : outcome E A :=
  match o with Some a => Ok a | None => Err e end.
Definition map_err {E F A} (f : E → F) (c : outcome E A) : outcome F A :=
  match c with
  | Ok a => Ok a
  | Err e => Err (f e)
  | Panic => Panic
  | NoFuel => NoFuel
  end.
(** [o.unwrap()] / [o.expect(..)] and indexing: [None] panics. *)
Definition unwrap {E A} (o : option A) : outcome E A :=
  match o with Some a => Ok a | None => Panic end.

Definition is_ok {E A} (c : outcome E A) : bool :=
  match c with Ok _ => true | _ => false end.

(** ** State and errors together

    A pallet function reads and writes storage and may fail: it is a function
    from the storage to an outcome carrying the new storage.  On [Err] the
    storage is dropped, which is what the [#[transactional]] extrinsics do. *)
Definition M (S E A : Type) : Type := S → outcome E (A * S).

#[export] Instance M_ret S E : MRet (M S E) := λ A a s, Ok (a, s).
#[export] Instance M_bind S E : MBind (M S E) := λ A B f c s,
  match c s with
  | Ok (a, s') => f a s'
  | Err e => Err e
  | Panic => Panic
  | NoFuel => NoFuel
  end.

Definition gets {S E A} (f : S → A) : M S E A := λ s, Ok (f s, s).
Definition modify {S E} (f : S → S) : M S E unit := λ s, Ok (tt, f s).
Definition lift {S E A} (c : outcome E A) : M S E A := λ s,
  match c with
  | Ok a => Ok (a, s)
  | Err e => Err e
  | Panic => Panic
  | NoFuel => NoFuel
  end.
(** A function that only reads the state. *)
Definition query {S E A} (f : S → outcome E A) : M S E A := λ s, lift (f s) s.
Definition fail {S E A} (e : E) : M S E A := λ _, Err e.
Definition no_fuel {S E A} : M S E A := λ _, NoFuel.
Definition ensureM {S E} (b : bool) (e : E) : M S E unit := lift (ensure b e).
Definition whenM {S E} (b : bool) (c : M S E unit) : M S E unit :=
  if b then c else mret tt.

(** [for x in l { f(x)?; }] *)
Fixpoint for_each {S E A} (f : A → M S E unit) (l : list A) : M S E unit :=
  match l with
  | [] => mret tt
  | x :: l => f x;; for_each f l
  end.

(** A closed equation, decided by evaluation in the kernel. *)
Ltac vm_refl := match goal with |- _ = ?b => vm_cast_no_check (eq_refl b) end.

(** ** Machine integers

    A [w]-bit unsigned integer is a [Z] in [[0, 2^w)]. *)
Definition fits (w z : Z) : Prop := (0 ≤ z < 2 ^ w)%Z.
Definition fitsb (w z : Z) : bool := ((0 <=? z) && (z <? 2 ^ w))%Z.
Definition wrap (w z : Z) : Z := (z mod 2 ^ w)%Z.
Definition checked (w z : Z) : option Z := if fitsb w z then Some z else None.
Definition checked_add (w a b : Z) : option Z := checked w (a + b)%Z.
(** Unsigned: fails exactly when the difference would be negative. *)
Definition checked_sub (a b : Z) : option Z := (if b <=? a then Some (a - b) else None)%Z.
Definition checked_mul (w a b : Z) : option Z := checked w (a * b)%Z.
Definition saturating_add (w a b : Z) : Z := Z.min (a + b) (2 ^ w - 1)%Z.
Definition saturating_sub (a b : Z) : Z := Z.max (a - b) 0%Z.
Definition umax (w : Z) : Z := (2 ^ w - 1)%Z.
(** Two's complement reading of a [w]-bit pattern. *)
Definition fits_signed (w z : Z) : Prop := (- 2 ^ (w - 1) ≤ z < 2 ^ (w - 1))%Z.
Definition to_signed (w z : Z) : Z :=
  (if z <? 2 ^ (w - 1) then z else z - 2 ^ w)%Z.

(** ** Automation *)

Create HintDb interbtc.
Create Rewrite HintDb interbtc.

Section outcome_lemmas.
Context {E A B : Type}.

Lemma bind_Ok (c : outcome E A) (f : A → outcome E B) b :
  (c ≫= f) = Ok b ↔ ∃ a, c = Ok a ∧ f a = Ok b.
Proof.
  destruct c; (split; [intros Hb; try discriminate Hb; eauto | by intros (? & [= <-] & ?)]).
Qed.

Lemma bind_assoc {C} (c : outcome E A) (f : A → outcome E B) (g : B → outcome E C) :
  ((c ≫= f) ≫= g) = (c ≫= λ a, f a ≫= g).
Proof. by destruct c. Qed.

Lemma ensure_Ok (b : bool) (e : E) u : ensure b e = Ok u ↔ b = true.
Proof. destruct b, u; split; done. Qed.

Lemma ok_or_Ok (o : option A) (e : E) a : ok_or o e = Ok a ↔ o = Some a.
Proof. destruct o; split; try done; by intros [= ->]. Qed.

Lemma map_err_Ok {F} (f : E → F) (c : outcome E A) a :
  map_err f c = Ok a ↔ c = Ok a.
Proof. destruct c; split; try done; by intros [= ->]. Qed.

Lemma M_bind_Ok {S} (c : M S E A) (f : A → M S E B) s b s' :
  (c ≫= f) s = Ok (b, s') ↔ ∃ a s1, c s = Ok (a, s1) ∧ f a s1 = Ok (b, s').
Proof.
  unfold mbind, M_bind.
  destruct (c s) as [[]| | |]; (split; [intros Hb; try discriminate Hb; eauto
    | by intros (? & ? & [= <- <-] & ?)]).
Qed.

Lemma lift_Ok {S} (c : outcome E A) (s : S) a s' :
  lift c s = Ok (a, s') ↔ c = Ok a ∧ s' = s.
Proof.
  unfold lift. destruct c; (split; [by intros [= -> ->] | by intros [[= ->] ->]]).
Qed.

Lemma gets_Ok {S} (f : S → A) (s : S) a s' :
  gets (E:=E) f s = Ok (a, s') ↔ a = f s ∧ s' = s.
Proof. unfold gets. split; [by intros [= -> ->] | by intros [-> ->]]. Qed.

Lemma modify_Ok {S} (f : S → S) (s : S) u s' :
  modify (E:=E) f s = Ok (u, s') ↔ s' = f s.
Proof. unfold modify. destruct u. split; [by intros [=] | by intros ->]. Qed.
End outcome_lemmas.

Lemma query_Ok {S E A} (f : S → outcome E A) (s : S) a s' :
  query f s = Ok (a, s') ↔ f s = Ok a ∧ s' = s.
Proof. apply lift_Ok. Qed.

Lemma ensureM_Ok {S E} (b : bool) (e : E) (s : S) u s' :
  ensureM b e s = Ok (u, s') ↔ b = true ∧ s' = s.
Proof. unfold ensureM. by rewrite lift_Ok, ensure_Ok. Qed.

(** ** Running a computation forwards *)
Section run.
Context {S E A B : Type}.
Implicit Types (s : S).

Lemma run_bind (c : M S E A) (k : A → M S E B) s a s' :
  c s = Ok (a, s') → (c ≫= k) s = k a s'.
Proof. intros Hc. unfold mbind, M_bind. by rewrite Hc. Qed.
Lemma run_gets (f : S → A) (k : A → M S E B) s : (gets f ≫= k) s = k (f s) s.
Proof. done. Qed.
Lemma run_modify (f : S → S) (k : unit → M S E B) s : (modify f ≫= k) s = k tt (f s).
Proof. done. Qed.
Lemma run_ret (a : A) (k : A → M S E B) s : (mret a ≫= k) s = k a s.
Proof. done. Qed.
Lemma run_lift (a : A) (k : A → M S E B) s : (lift (Ok a) ≫= k) s = k a s.
Proof. done. Qed.
Lemma run_query (f : S → outcome E A) (k : A → M S E B) s a :
  f s = Ok a → (query f ≫= k) s = k a s.
Proof. intros Hf. unfold mbind, M_bind, query. by rewrite Hf. Qed.
Lemma run_ensure (b : bool) (e : E) (k : unit → M S E B) s :
  b = true → (ensureM b e ≫= k) s = k tt s.
Proof. by intros ->. Qed.
Lemma run_assoc {C} (c : M S E A) (k : A → M S E B) (k' : B → M S E C) s :
  ((c ≫= k) ≫= k') s = (c ≫= λ a, k a ≫= k') s.
Proof. unfold mbind, M_bind. by destruct (c s) as [[]| | |]. Qed.
End run.

Lemma when_modify_Ok {S E} (b : bool) (f : S → S) s u s' :
  whenM (E:=E) b (modify f) s = Ok (u, s') → s' = if b then f s else s.
Proof. destruct b; by intros [=]. Qed.

Lemma for_each_keeps {S E A X} (π : S → X) (f : A → M S E unit) l s s' :
  (∀ x s s', f x s = Ok (tt, s') → π s' = π s) → for_each f l s = Ok (tt, s') → π s' = π s.
Proof.
  intros Hf. revert s. induction l as [| x l IH]; intros s; cbn [for_each]; [by intros [= ->] |].
  intros Hr. apply M_bind_Ok in Hr as ([] & s1 & Hx & Hr). rewrite (IH _ Hr). by apply (Hf x).
Qed.

Lemma run_when {S E B} (b : bool) (f : S → S) (k : unit → M S E B) s :
  (whenM b (modify f) ≫= k) s = k tt (if b then f s else s).
Proof. by destruct b. Qed.

(** One pass over the leading [gets], [modify], [mret] and successful [lift]s. *)
Ltac run_step :=
  first [ rewrite run_gets | rewrite run_modify | rewrite run_ret | rewrite run_lift
        | rewrite run_when ];
  cbv beta.
Ltac run := repeat run_step.

(** Decompose every hypothesis [(c1 ≫= c2) = Ok _] and [(c1 ≫= c2) s = Ok _]. *)
Ltac outcome_inv :=
  repeat match goal with
  | H : (_ ≫= _) _ = Ok _ |- _ =>
      apply M_bind_Ok in H; destruct H as (? & ? & ? & H)
  | H : (_ ≫= _) = Ok _ |- _ =>
      apply bind_Ok in H; destruct H as (? & ? & H)
  | H : lift _ _ = Ok _ |- _ => apply lift_Ok in H; destruct H as [H ->]
  | H : query _ _ = Ok _ |- _ => apply query_Ok in H; destruct H as [H ->]
  | H : ensureM _ _ _ = Ok _ |- _ => apply ensureM_Ok in H; destruct H as [H ->]
  | H : gets _ _ = Ok _ |- _ => apply gets_Ok in H; destruct H as [-> ->]
  | H : modify _ _ = Ok _ |- _ => apply modify_Ok in H; subst
  | H : ensure _ _ = Ok _ |- _ => apply ensure_Ok in H
  | H : ok_or _ _ = Ok _ |- _ => apply ok_or_Ok in H
  | H : map_err _ _ = Ok _ |- _ => apply map_err_Ok in H
  | H : fail _ _ = Ok _ |- _ => discriminate H
  | H : mret _ _ = Ok _ |- _ => unfold mret, M_ret in H
  | H : mret _ = Ok _ |- _ => unfold mret, outcome_ret in H
  | H : Ok _ = Ok _ |- _ => injection H as H; subst
  | H : Err _ = Ok _ |- _ => discriminate H
  | H : Panic = Ok _ |- _ => discriminate H
  | H : NoFuel = Ok _ |- _ => discriminate H
  | H : (_, _) = (_, _) |- _ => injection H as ? ?; subst
  end.

(** ** A small program logic

    [post pn Q c]: [c] ends in a value satisfying [Q], in an error, in a panic
    only if [pn], and never in [NoFuel].  [triple pn P m Q] is the same for a
    stateful computation started in a state satisfying [P]. *)
Definition post {E A} (pn : Prop) (Q : A → Prop) (c : outcome E A) : Prop :=
  match c with
  | Ok a => Q a
  | Err _ => True
  | Panic => pn
  | NoFuel => False
  end.

Definition triple {S E A} (pn : Prop) (P : S → Prop) (m : M S E A) (Q : A → S → Prop) : Prop :=
  ∀ s, P s → post pn (λ r, Q r.1 r.2) (m s).

Section post_lemmas.
Context {E A B : Type}.

Lemma post_mono (pn pn' : Prop) (Q Q' : A → Prop) (c : outcome E A) :
  post pn Q c → (pn → pn') → (∀ a, Q a → Q' a) → post pn' Q' c.
Proof. destruct c; cbn; auto. Qed.

Lemma post_bind pn (P : A → Prop) (Q : B → Prop) (c : outcome E A) (f : A → outcome E B) :
  post pn P c → (∀ a, P a → post pn Q (f a)) → post pn Q (c ≫= f).
Proof. destruct c; cbn; auto. Qed.

Lemma post_ok_or pn (Q : A → Prop) (o : option A) (e : E) :
  (∀ a, o = Some a → Q a) → post pn Q (ok_or o e).
Proof. destruct o; cbn; auto. Qed.

Lemma post_ensure pn (b : bool) (e : E) (Q : unit → Prop) :
  (b = true → Q tt) → post pn Q (ensure b e).
Proof. destruct b; cbn; auto. Qed.

Lemma post_Ok pn (Q : A → Prop) (c : outcome E A) a : post pn Q c → c = Ok a → Q a.
Proof. by intros Hc ->. Qed.
End post_lemmas.

Section triple_lemmas.
Context {S E A B : Type}.
Implicit Types (P : S → Prop) (pn : Prop).

Lemma triple_ret pn P (a : A) (Q : A → S → Prop) :
  (∀ s, P s → Q a s) → triple (E:=E) pn P (mret a) Q.
Proof. intros HQ s Hs. by apply HQ. Qed.

Lemma triple_bind pn P (m : M S E A) (Q : A → S → Prop) (f : A → M S E B) (R : B → S → Prop) :
  triple pn P m Q → (∀ a, triple pn (Q a) (f a) R) → triple pn P (m ≫= f) R.
Proof.
  intros Hm Hf s Hs. specialize (Hm s Hs). unfold mbind, M_bind.
  destruct (m s) as [[a s'] | | |]; try done. by apply Hf.
Qed.

Lemma triple_conseq pn P P' (m : M S E A) (Q Q' : A → S → Prop) :
  triple pn P' m Q' → (∀ s, P s → P' s) → (∀ a s, Q' a s → Q a s) → triple pn P m Q.
Proof.
  intros Hm HP HQ s Hs. eapply post_mono; [by apply Hm, HP | done |].
  intros [a s'] ?. by apply HQ.
Qed.

Lemma triple_lift pn P (c : outcome E A) (Q : A → S → Prop) :
  (∀ s, P s → post pn (λ a, Q a s) c) → triple pn P (lift c) Q.
Proof. intros Hc s Hs. specialize (Hc s Hs). by destruct c. Qed.

Lemma triple_query pn P (f : S → outcome E A) (Q : A → S → Prop) :
  (∀ s, P s → post pn (λ a, Q a s) (f s)) → triple pn P (query f) Q.
Proof. intros Hf s Hs. specialize (Hf s Hs). unfold query. by destruct (f s). Qed.

Lemma triple_gets pn P (g : S → A) (Q : A → S → Prop) :
  (∀ s, P s → Q (g s) s) → triple (E:=E) pn P (gets g) Q.
Proof. intros HQ s Hs. by apply HQ. Qed.

Lemma triple_modify pn P (f : S → S) (Q : unit → S → Prop) :
  (∀ s, P s → Q tt (f s)) → triple (E:=E) pn P (modify f) Q.
Proof. intros HQ s Hs. by apply HQ. Qed.

Lemma triple_Ok pn P (m : M S E A) (Q : A → S → Prop) s a s' :
  triple pn P m Q → P s → m s = Ok (a, s') → Q a s'.
Proof. intros Hm Hs Hr. specialize (Hm s Hs). by rewrite Hr in Hm. Qed.
End triple_lemmas.

Section int_lemmas.
Local Open Scope Z_scope.

Lemma fitsb_spec w z : fitsb w z = true ↔ fits w z.
Proof. unfold fitsb, fits. rewrite andb_true_iff, Z.leb_le, Z.ltb_lt. lia. Qed.

Lemma checked_Some w z x : checked w z = Some x ↔ x = z ∧ fits w z.
Proof.
  unfold checked. rewrite <- fitsb_spec.
  destruct (fitsb w z); (split; [intros Hc; by simplify_eq | by intros [-> ?]]).
Qed.

Lemma checked_fits w z : fits w z → checked w z = Some z.
Proof. intros. by apply checked_Some. Qed.

Lemma checked_sub_Some a b x : checked_sub a b = Some x ↔ x = a - b ∧ b ≤ a.
Proof.
  unfold checked_sub. destruct (Z.leb_spec b a); (split; [intros Hc; by simplify_eq |]);
    intros [-> ?]; [done | lia].
Qed.

Lemma checked_None w z : checked w z = None ↔ ¬ fits w z.
Proof.
  unfold checked. rewrite <- fitsb_spec. destruct (fitsb w z); naive_solver.
Qed.

Lemma wrap_fits w z : 0 ≤ w → fits w (wrap w z).
Proof. intros. apply Z.mod_pos_bound. lia. Qed.

Lemma wrap_small w z : fits w z → wrap w z = z.
Proof. intros. by apply Z.mod_small. Qed.

Lemma to_signed_wrap w z : 0 < w → fits_signed w z → to_signed w (wrap w z) = z.
Proof.
  unfold fits_signed, to_signed, wrap. intros Hw Hz.
  assert (2 ^ w = 2 * 2 ^ (w - 1)) as Hp.
  { rewrite <- Z.pow_succ_r by lia. f_equal. lia. }
  destruct (Z.ltb_spec (z mod 2 ^ w) (2 ^ (w - 1))).
  - destruct (Z.le_gt_cases 0 z); [apply Z.mod_small; lia |].
    assert (z mod 2 ^ w = z + 2 ^ w) as Heq; [| lia].
    rewrite <- (Z.mod_add z 1) by lia. rewrite Z.mul_1_l. apply Z.mod_small. lia.
  - destruct (Z.le_gt_cases 0 z); [rewrite Z.mod_small in *; lia |].
    assert (z mod 2 ^ w = z + 2 ^ w) as Heq; [| lia].
    rewrite <- (Z.mod_add z 1) by lia. rewrite Z.mul_1_l. apply Z.mod_small. lia.
Qed.
End int_lemmas.

#[export] Hint Resolve wrap_fits checked_fits : interbtc.
#[export] Hint Rewrite wrap_small using (done || lia) : interbtc.

(** ** Sums over finite maps: how a sum changes with one entry *)

Section msum.
Local Open Scope Z_scope.
Context `{Countable K} {A : Type}.
Implicit Types (f g : K → A → Z) (m : gmap K A).

Definition msum f m : Z := map_fold (λ k v acc, f k v + acc) 0 m.

Lemma msum_empty f : msum f ∅ = 0.
Proof. apply map_fold_empty. Qed.

Lemma msum_fresh f m k v : m !! k = None → msum f (<[k := v]> m) = f k v + msum f m.
Proof.
  intros Hk. unfold msum. apply (map_fold_insert_L (λ k v acc, f k v + acc)); [| done].
  intros; lia.
Qed.

(** The sum of the entry at a key, absent entries counting zero. *)
Definition entry f m k : Z := from_option (f k) 0 (m !! k).

Lemma msum_delete f m k : msum f (delete k m) = msum f m - entry f m k.
Proof.
  unfold entry. destruct (m !! k) as [v |] eqn:Hk; cbn [from_option].
  - rewrite <- (insert_delete_id m k v Hk) at 2. rewrite msum_fresh by apply lookup_delete_eq. lia.
  - rewrite delete_id by done. lia.
Qed.

Lemma msum_insert f m k v : msum f (<[k := v]> m) = msum f m + f k v - entry f m k.
Proof.
  rewrite <- insert_delete_eq, msum_fresh by apply lookup_delete_eq. rewrite msum_delete. lia.
Qed.

Lemma msum_alter f (h : A → A) m k v : m !! k = Some v → msum f (alter h k m) = msum f m + f k (h v) - f k v.
Proof.
  intros Hk. assert (alter h k m = <[k := h v]> m) as ->.
  { apply map_eq. intros k'. destruct (decide (k' = k)) as [-> | Hne].
    - by rewrite lookup_alter_eq, Hk, lookup_insert_eq.
    - by rewrite lookup_alter_ne, lookup_insert_ne. }
  rewrite msum_insert. unfold entry. by rewrite Hk.
Qed.

Lemma msum_ext f g m : (∀ k v, m !! k = Some v → f k v = g k v) → msum f m = msum g m.
Proof.
  induction m as [| k v m Hk IH] using map_ind; intros Hfg; [done |].
  rewrite !msum_fresh by done. rewrite IH, (Hfg k v); [done | apply lookup_insert_eq |].
  intros k' v' Hk'. apply Hfg. rewrite lookup_insert_ne; [done | congruence].
Qed.

Lemma msum_add f g m : msum (λ k v, f k v + g k v) m = msum f m + msum g m.
Proof.
  induction m as [| k v m Hk IH] using map_ind; [done |]. rewrite !msum_fresh by done. lia.
Qed.

Lemma msum_scale f m c : msum (λ k v, f k v * c) m = msum f m * c.
Proof.
  induction m as [| k v m Hk IH] using map_ind; [done |]. rewrite !msum_fresh by done. lia.
Qed.

Lemma msum_nonneg f m : (∀ k v, m !! k = Some v → 0 ≤ f k v) → 0 ≤ msum f m.
Proof.
  induction m as [| k v m Hk IH] using map_ind; intros Hf; [done |].
  rewrite msum_fresh by done.
  assert (0 ≤ f k v) by (apply Hf, lookup_insert_eq).
  assert (0 ≤ msum f m); [| lia].
  apply IH. intros k' v' Hk'. apply Hf. rewrite lookup_insert_ne; [done | congruence].
Qed.

Lemma msum_entry_le f m k :
  (∀ k' v, m !! k' = Some v → 0 ≤ f k' v) → entry f m k ≤ msum f m.
Proof.
  intros Hf. pose proof (msum_delete f m k).
  assert (0 ≤ msum f (delete k m)); [| lia].
  apply msum_nonneg. intros k' v (_ & Hv)%lookup_delete_Some. by apply Hf.
Qed.

Lemma msum_zero m : msum (λ _ _, 0) m = 0.
Proof.
  induction m as [| k v m Hk IH] using map_ind; [done |]. by rewrite msum_fresh, IH.
Qed.

Lemma msum_single f m k0 d :
  (∀ k v, f k v = if decide (k = k0) then d else 0) →
  msum f m = if decide (is_Some (m !! k0)) then d else 0.
Proof.
  intros Hf. destruct (m !! k0) as [v0 |] eqn:Hk0.
  - rewrite decide_True by done. rewrite <- (insert_delete_id m k0 v0 Hk0).
    rewrite msum_fresh by apply lookup_delete_eq. rewrite Hf, decide_True by done.
    rewrite (msum_ext _ (λ _ _, 0)).
    + rewrite msum_zero. lia.
    + intros k v (Hne & _)%lookup_delete_Some. by rewrite Hf, decide_False.
  - rewrite decide_False by by intros [? ?]. rewrite (msum_ext _ (λ _ _, 0)).
    + apply msum_zero.
    + intros k v Hk. rewrite Hf, decide_False; [done | congruence].
Qed.

(** A sum of values that do not depend on the entries, over the entries that
    satisfy [P], when one entry is written. *)
Lemma msum_change (P : K → Prop) `{!∀ k, Decision (P k)} (g g' : K → Z) m k0 v0 :
  (∀ k, P k → k ≠ k0 → g' k = g k) → (m !! k0 = None → P k0 → g k0 = 0) →
  msum (λ k _, if decide (P k) then g' k else 0) (<[k0 := v0]> m) =
    msum (λ k _, if decide (P k) then g k else 0) m + if decide (P k0) then g' k0 - g k0 else 0.
Proof.
  intros Hout Hnone. rewrite msum_insert. unfold entry.
  rewrite (msum_ext (λ k _, if decide (P k) then g' k else 0)
    (λ k _, (if decide (P k) then g k else 0) +
            if decide (k = k0) then if decide (P k0) then g' k0 - g k0 else 0 else 0)).
  2: { intros k v _. destruct (decide (k = k0)) as [-> | Hne]; [case_decide; lia |].
       case_decide; [rewrite Hout by done |]; lia. }
  rewrite msum_add, (msum_single (λ k _, if decide (k = k0) then _ else 0) m k0
    (if decide (P k0) then g' k0 - g k0 else 0)) by done.
  destruct (m !! k0) as [v |] eqn:Hk; cbn [from_option].
  - rewrite decide_True by done. case_decide; lia.
  - rewrite decide_False by by intros [? ?]. specialize (Hnone eq_refl). case_decide; [rewrite Hnone by done |]; lia.
Qed.
End msum.

Lemma msum_map {K A B} `{Countable K} (h : A → B) (f : K → B → Z) (m : gmap K A) :
  msum f (h <$> m) = msum (λ k v, f k (h v)) m.
Proof.
  induction m as [| k v m Hk IH] using map_ind; [done |].
  rewrite fmap_insert, !msum_fresh; [by rewrite IH | done |]. by rewrite lookup_fmap, Hk.
Qed.
