(* ===== verification/Bytes.v ===== *)
(** * Byte strings

    Slices of a byte string as Rust's [slice::get] returns them, and the
    little-endian integers of the Bitcoin wire format.  A [u8] is Stdlib's
    [byte]; positions and lengths ([usize]) are [Z]. *)

From Stdlib Require Import ZArith Lia.
From coqutil Require Import Byte Word.LittleEndianList.
From stdpp Require Import base tactics option list countable.
From S2P Require Import Prelude.

Local Open Scope Z_scope.

Lemma byte_to_N_inj (a b : byte) : Byte.to_N a = Byte.to_N b → a = b.
Proof. intros H. apply (f_equal Byte.of_N) in H. rewrite !Byte.of_to_N in H. by injection H. Qed.

#[export] Instance byte_eq_dec : EqDecision byte := λ a b,
  match decide (Byte.to_N a = Byte.to_N b) with
  | left H => left (byte_to_N_inj a b H)
  | right H => right (λ E, H (f_equal Byte.to_N E))
  end.

#[export] Program Instance byte_countable : Countable byte :=
  inj_countable Byte.to_N Byte.of_N _.
Next Obligation. intros b. apply Byte.of_to_N. Qed.

Definition zlen {A} (l : list A) : Z := Z.of_nat (length l).

(** [l.get(a..b)]: out of range or [a > b] gives [None]. *)
Definition get_range {A} (l : list A) (a b : Z) : option (list A) :=
  if (0 <=? a) && (a <=? b) && (b <=? zlen l)
  then Some (take (Z.to_nat (b - a)) (drop (Z.to_nat a) l))
  else None.

(** [l.get(a..)]. *)
Definition get_from {A} (l : list A) (a : Z) : option (list A) :=
  if (0 <=? a) && (a <=? zlen l) then Some (drop (Z.to_nat a) l) else None.

(** [l.get(i)]. *)
Definition get_at {A} (l : list A) (i : Z) : option A :=
  if 0 <=? i then l !! Z.to_nat i else None.

(** [to_le_bytes] and [from_le_bytes] of the [8 * n]-bit integers. *)
Definition to_le_bytes (n : nat) (v : Z) : list byte := le_split n v.
Definition from_le_bytes (l : list byte) : Z := le_combine l.

Definition u8 (v : Z) : byte := byte.of_Z v.

(** ** Lengths and slices *)

Lemma zlen_nil {A} : zlen (A:=A) [] = 0.
Proof. done. Qed.
Lemma zlen_cons {A} (x : A) l : zlen (x :: l) = 1 + zlen l.
Proof. unfold zlen. cbn [length]. lia. Qed.
Lemma zlen_app {A} (l k : list A) : zlen (l ++ k) = zlen l + zlen k.
Proof. unfold zlen. rewrite length_app. lia. Qed.
Lemma zlen_nonneg {A} (l : list A) : 0 ≤ zlen l.
Proof. unfold zlen. lia. Qed.
Lemma zlen_rev {A} (l : list A) : zlen (rev l) = zlen l.
Proof. unfold zlen. by rewrite length_rev. Qed.

#[export] Hint Resolve zlen_nonneg : interbtc.
#[export] Hint Rewrite @zlen_nil @zlen_cons @zlen_app : interbtc.

Lemma get_range_app {A} (p l r : list A) a b :
  a = zlen p → b = zlen p + zlen l → get_range (p ++ l ++ r) a b = Some l.
Proof.
  intros -> ->. unfold get_range, zlen.
  rewrite !length_app.
  replace (_ && _) with true by (symmetry; rewrite !andb_true_iff, !Z.leb_le; lia).
  f_equal. rewrite Nat2Z.id, drop_app_length.
  replace (Z.to_nat _) with (length l) by lia.
  by rewrite take_app_length.
Qed.

Lemma get_range_Some {A} (l : list A) a b s :
  get_range l a b = Some s →
  0 ≤ a ≤ b ∧ b ≤ zlen l ∧ zlen s = b - a.
Proof.
  unfold get_range. destruct (_ && _) eqn:E; [| done].
  rewrite !andb_true_iff, !Z.leb_le in E. intros [= <-].
  unfold zlen in *. rewrite length_take, length_drop. lia.
Qed.

Lemma get_from_app {A} (p l : list A) a :
  a = zlen p → get_from (p ++ l) a = Some l.
Proof.
  intros ->. unfold get_from, zlen. rewrite length_app.
  replace (_ && _) with true by (symmetry; rewrite !andb_true_iff, !Z.leb_le; lia).
  f_equal. by rewrite Nat2Z.id, drop_app_length.
Qed.

Lemma get_from_Some {A} (l : list A) a s :
  get_from l a = Some s → 0 ≤ a ∧ zlen s = zlen l - a ∧ s = drop (Z.to_nat a) l.
Proof.
  unfold get_from. destruct (_ && _) eqn:E; [| done].
  rewrite !andb_true_iff, !Z.leb_le in E. intros [= <-].
  unfold zlen in *. rewrite length_drop. split_and!; [lia | lia | done].
Qed.

(** ** Little-endian integers *)

Lemma length_to_le_bytes n v : length (to_le_bytes n v) = n.
Proof. apply length_le_split. Qed.

Lemma zlen_to_le_bytes n v : zlen (to_le_bytes n v) = Z.of_nat n.
Proof. unfold zlen. by rewrite length_to_le_bytes. Qed.

Lemma from_to_le_bytes n v :
  from_le_bytes (to_le_bytes n v) = wrap (8 * Z.of_nat n) v.
Proof. unfold from_le_bytes, to_le_bytes, wrap. by rewrite le_combine_split, Z.mul_comm. Qed.

Lemma to_from_le_bytes l : to_le_bytes (length l) (from_le_bytes l) = l.
Proof. apply split_le_combine. Qed.

Lemma from_le_bytes_fits l : fits (8 * zlen l) (from_le_bytes l).
Proof. unfold fits, from_le_bytes, zlen. apply le_combine_bound. Qed.

Lemma from_to_le_bytes_fits n v :
  fits (8 * Z.of_nat n) v → from_le_bytes (to_le_bytes n v) = v.
Proof. intros. rewrite from_to_le_bytes. by apply wrap_small. Qed.

Lemma from_le_bytes_inj l k :
  length l = length k → from_le_bytes l = from_le_bytes k → l = k.
Proof. apply le_combine_inj. Qed.

Lemma unsigned_u8 v : byte.unsigned (u8 v) = wrap 8 v.
Proof. apply byte.unsigned_of_Z. Qed.

Lemma unsigned_u8_fits v : fits 8 v → byte.unsigned (u8 v) = v.
Proof. intros. rewrite unsigned_u8. by apply wrap_small. Qed.

Lemma u8_unsigned b : u8 (byte.unsigned b) = b.
Proof. apply byte.of_Z_unsigned. Qed.

Lemma unsigned_range b : fits 8 (byte.unsigned b).
Proof. apply byte.unsigned_range. Qed.

#[export] Hint Rewrite length_to_le_bytes zlen_to_le_bytes : interbtc.
#[export] Hint Resolve from_le_bytes_fits unsigned_range : interbtc.
