(* ===== verification/BtcTypes.v ===== *)
(** * Bitcoin data types ([crates/bitcoin/src/types.rs], [error.rs])

    The script op codes, hashes, headers, inputs, outputs and transactions, with
    the source's constructors and field names.  [U256], [u32], [i32], [u64] and
    [i64] fields are [Z]; the [wf_] predicates say that a value is in the range
    of its Rust type. *)

From Stdlib Require Import ZArith Lia.
From coqutil Require Import Byte Word.LittleEndianList.
From stdpp Require Import base tactics option list countable.
From S2P Require Import Prelude Bytes.

Local Open Scope Z_scope.

(** ** Errors *)
Inductive Error : Type :=
  | MalformedMerkleProof
  | InvalidMerkleProof
  | EndOfFile
  | MalformedHeader
  | InvalidBlockVersion
  | MalformedTransaction
  | UnsupportedInputFormat
  | MalformedWitnessOutput
  | MalformedP2PKHOutput
  | MalformedP2SHOutput
  | UnsupportedOutputFormat
  | MalformedOpReturnOutput
  | InvalidHeaderSize
  | InvalidBtcHash
  | InvalidScript
  | InvalidBtcAddress
  | ArithmeticOverflow
  | ArithmeticUnderflow
  | InvalidCompact
  | BoundExceeded
  | InvalidTxid.

#[export] Instance Error_eq_dec : EqDecision Error.
Proof. solve_decision. Defined.

(** ** Script op codes *)
Inductive OpCode : Type :=
  | Op0 | OpPushData1 | OpPushData2 | OpPushData4 | Op1Negate | OpReserved
  | Op1 | Op2 | Op3 | Op4 | Op5 | Op6
  | Op7 | Op8 | Op9 | Op10 | Op11 | Op12
  | Op13 | Op14 | Op15 | Op16 | OpNop | OpVer
  | OpIf | OpNotIf | OpVerIf | OpVerNotIf | OpElse | OpEndIf
  | OpVerify | OpReturn | OpToaltStack | OpFromAltStack | Op2Drop | Op2Dup
  | Op3Dup | Op2Over | Op2Rot | Op2Swap | OpIfdup | OpDepth
  | OpDrop | OpDup | OpNip | OpOver | OpPick | OpRoll
  | OpRot | OpSwap | OpTuck | OpCat | OpSubstr | OpLeft
  | OpRight | OpSize | OpInvert | OpAnd | OpOr | OpXor
  | OpEqual | OpEqualVerify | OpReserved1 | OpReserved2 | Op1Add | Op1Sub
  | Op2Mul | Op2Div | OpNegate | OpAbs | OpNot | Op0NotEqual
  | OpAdd | OpSub | OpMul | OpDiv | OpMod | OpLshift
  | OpRshift | OpBooland | OpBoolor | OpNumEqual | OpNumEqualVerify | OpNumNotEqual
  | OpLessThan | OpGreaterThan | OpLessThanOrEqual | OpGreaterThanOrEqual | OpMin | OpMax
  | OpWithin | OpRipemd160 | OpSha1 | OpSha256 | OpHash160 | OpHash256
  | OpCodeSeparator | OpCheckSig | OpCheckSigverify | OpCheckMultisig | OpCheckMultisigVerify
  | OpNop1 | OpCheckLocktimeVerify | OpCheckSequenceVerify | OpNop4 | OpNop5 | OpNop6
  | OpNop7 | OpNop8 | OpNop9 | OpNop10.

(** [op as u8]. *)
Definition opcode_u8 (op : OpCode) : Z :=
  match op with
  | Op0 => 0 | OpPushData1 => 76 | OpPushData2 => 77 | OpPushData4 => 78
  | Op1Negate => 79 | OpReserved => 80 | Op1 => 81 | Op2 => 82
  | Op3 => 83 | Op4 => 84 | Op5 => 85 | Op6 => 86
  | Op7 => 87 | Op8 => 88 | Op9 => 89 | Op10 => 90
  | Op11 => 91 | Op12 => 92 | Op13 => 93 | Op14 => 94
  | Op15 => 95 | Op16 => 96 | OpNop => 97 | OpVer => 98
  | OpIf => 99 | OpNotIf => 100 | OpVerIf => 101 | OpVerNotIf => 102
  | OpElse => 103 | OpEndIf => 104 | OpVerify => 105 | OpReturn => 106
  | OpToaltStack => 107 | OpFromAltStack => 108 | Op2Drop => 109 | Op2Dup => 110
  | Op3Dup => 111 | Op2Over => 112 | Op2Rot => 113 | Op2Swap => 114
  | OpIfdup => 115 | OpDepth => 116 | OpDrop => 117 | OpDup => 118
  | OpNip => 119 | OpOver => 120 | OpPick => 121 | OpRoll => 122
  | OpRot => 123 | OpSwap => 124 | OpTuck => 125 | OpCat => 126
  | OpSubstr => 127 | OpLeft => 128 | OpRight => 129 | OpSize => 130
  | OpInvert => 131 | OpAnd => 132 | OpOr => 133 | OpXor => 134
  | OpEqual => 135 | OpEqualVerify => 136 | OpReserved1 => 137 | OpReserved2 => 138
  | Op1Add => 139 | Op1Sub => 140 | Op2Mul => 141 | Op2Div => 142
  | OpNegate => 143 | OpAbs => 144 | OpNot => 145 | Op0NotEqual => 146
  | OpAdd => 147 | OpSub => 148 | OpMul => 149 | OpDiv => 150
  | OpMod => 151 | OpLshift => 152 | OpRshift => 153 | OpBooland => 154
  | OpBoolor => 155 | OpNumEqual => 156 | OpNumEqualVerify => 157 | OpNumNotEqual => 158
  | OpLessThan => 159 | OpGreaterThan => 160 | OpLessThanOrEqual => 161 | OpGreaterThanOrEqual => 162
  | OpMin => 163 | OpMax => 164 | OpWithin => 165 | OpRipemd160 => 166
  | OpSha1 => 167 | OpSha256 => 168 | OpHash160 => 169 | OpHash256 => 170
  | OpCodeSeparator => 171 | OpCheckSig => 172 | OpCheckSigverify => 173
  | OpCheckMultisig => 174 | OpCheckMultisigVerify => 175 | OpNop1 => 176
  | OpCheckLocktimeVerify => 177 | OpCheckSequenceVerify => 178 | OpNop4 => 179
  | OpNop5 => 180 | OpNop6 => 181 | OpNop7 => 182 | OpNop8 => 183 | OpNop9 => 184
  | OpNop10 => 185
  end.

(** ** Constants *)
Definition P2PKH_SCRIPT_SIZE : Z := 25.
Definition P2SH_SCRIPT_SIZE : Z := 23.
Definition P2WPKH_V0_SCRIPT_SIZE : Z := 22.
Definition P2WSH_V0_SCRIPT_SIZE : Z := 34.
Definition HASH160_SIZE_HEX : Z := 20.
Definition HASH256_SIZE_HEX : Z := 32.
Definition MAX_OPRETURN_SIZE : Z := 83.

(** ** Hashes *)
Record H256Le : Type := mkH256Le { content : list byte }.

#[export] Instance H256Le_eq_dec : EqDecision H256Le.
Proof. solve_decision. Defined.
#[export] Program Instance H256Le_countable : Countable H256Le :=
  inj_countable' content mkH256Le _.
Next Obligation. by intros []. Qed.

Definition wf_H256Le (h : H256Le) : Prop := length (content h) = 32%nat.
#[export] Instance wf_H256Le_dec h : Decision (wf_H256Le h).
Proof. unfold wf_H256Le. apply _. Defined.

Module H256.
Definition zero : H256Le := mkH256Le (replicate 32 (u8 0)).
Definition is_zero (h : H256Le) : bool :=
  bool_decide (content h = replicate 32 (u8 0)).
(** [copy_from_slice] panics when the lengths differ. *)
Definition from_bytes_le (bytes : list byte) : outcome Error H256Le :=
  if zlen bytes =? 32 then Ok (mkH256Le bytes) else Panic.
Definition from_bytes_be (bytes : list byte) : outcome Error H256Le :=
  from_bytes_le (rev bytes).
Definition to_bytes_be (h : H256Le) : list byte := rev (content h).
Definition to_bytes_le (h : H256Le) : list byte := content h.
Definition as_u256 (h : H256Le) : Z := from_le_bytes (to_bytes_le h).
(** [From<uN>]: the integer's bytes, then zeroes. *)
Definition from_integer (n : nat) (v : Z) : H256Le :=
  mkH256Le (to_le_bytes n v ++ replicate (32 - n) (u8 0)).
End H256.

(** ** Block headers *)
Record BlockHeader : Type := mkBlockHeader {
  merkle_root : H256Le;
  target : Z;
  timestamp : Z;
  version : Z;
  hash : H256Le;
  hash_prev_block : H256Le;
  nonce : Z;
}.

#[export] Instance BlockHeader_eq_dec : EqDecision BlockHeader.
Proof. solve_decision. Defined.

Definition wf_BlockHeader (h : BlockHeader) : Prop :=
  wf_H256Le (merkle_root h) ∧ fits 256 (target h) ∧ fits 32 (timestamp h) ∧
  fits_signed 32 (version h) ∧ wf_H256Le (hash h) ∧
  wf_H256Le (hash_prev_block h) ∧ fits 32 (nonce h).

Definition ensure_version (h : BlockHeader) : outcome Error unit :=
  if version h <? 4 then Err InvalidBlockVersion else Ok tt.

Definition set_hash (h : BlockHeader) (new_hash : H256Le) : BlockHeader :=
  mkBlockHeader (merkle_root h) (target h) (timestamp h) (version h) new_hash
    (hash_prev_block h) (nonce h).

(** ** Transactions *)
Inductive TransactionInputSource : Type :=
  | FromOutput (prev : H256Le) (index : Z)
  | Coinbase (height : option Z).

Record TransactionInput : Type := mkTransactionInput {
  source : TransactionInputSource;
  script : list byte;
  sequence : Z;
  witness : list (list byte);
}.

Definition with_witness (i : TransactionInput) (w : list (list byte)) : TransactionInput :=
  mkTransactionInput (source i) (script i) (sequence i) w.

Record Script : Type := mkScript { bytes : list byte }.

Record TransactionOutput : Type := mkTransactionOutput {
  value : Z;
  out_script : Script;
}.

Inductive LockTime : Type :=
  | Time (t : Z)
  | BlockHeight (h : Z).

Record Transaction : Type := mkTransaction {
  tx_version : Z;
  inputs : list TransactionInput;
  outputs : list TransactionOutput;
  lock_at : LockTime;
}.

#[export] Instance TransactionInputSource_eq_dec : EqDecision TransactionInputSource.
Proof. solve_decision. Defined.
#[export] Instance TransactionInput_eq_dec : EqDecision TransactionInput.
Proof. solve_decision. Defined.
#[export] Instance Script_eq_dec : EqDecision Script.
Proof. solve_decision. Defined.
#[export] Instance TransactionOutput_eq_dec : EqDecision TransactionOutput.
Proof. solve_decision. Defined.
#[export] Instance LockTime_eq_dec : EqDecision LockTime.
Proof. solve_decision. Defined.
#[export] Instance Transaction_eq_dec : EqDecision Transaction.
Proof. solve_decision. Defined.

(** [self.inputs.iter().any(|v| !v.witness.is_empty())] *)
Definition has_witness (tx : Transaction) : bool :=
  existsb (λ v, match witness v with [] => false | _ => true end) (inputs tx).

Definition is_coinbase (tx : Transaction) : bool :=
  match inputs tx with
  | [i] => match source i with Coinbase _ => true | FromOutput _ _ => false end
  | _ => false
  end.

Record Block : Type := mkBlock {
  header : BlockHeader;
  transactions : list Transaction;
}.

Record BlockChain : Type := mkBlockChain {
  chain_id : Z;
  start_height : Z;
  max_height : Z;
}.

#[export] Instance BlockChain_eq_dec : EqDecision BlockChain.
Proof. solve_decision. Defined.

Record CompactUint : Type := mkCompactUint { cu_value : Z }.
Definition compact_from_usize (v : Z) : CompactUint := mkCompactUint v.

(** Addresses ([crates/bitcoin/src/address.rs]); [H160] and [H256] are the 20
    and 32 bytes. *)
Inductive Address : Type :=
  | P2PKH (h : list byte)
  | P2SH (h : list byte)
  | P2WPKHv0 (h : list byte)
  | P2WSHv0 (h : list byte).

#[export] Instance Address_eq_dec : EqDecision Address.
Proof. solve_decision. Defined.

Definition wf_Address (a : Address) : Prop :=
  match a with
  | P2PKH h | P2SH h | P2WPKHv0 h => length h = 20%nat
  | P2WSHv0 h => length h = 32%nat
  end.

Definition address_is_zero (a : Address) : bool :=
  match a with
  | P2PKH h | P2SH h | P2WPKHv0 h => bool_decide (h = replicate 20 (u8 0))
  | P2WSHv0 h => bool_decide (h = replicate 32 (u8 0))
  end.

(** ** Basic facts *)

Lemma from_bytes_le_Ok b : length b = 32%nat → H256.from_bytes_le b = Ok (mkH256Le b).
Proof. intros H. unfold H256.from_bytes_le, zlen. by rewrite H. Qed.

Lemma as_u256_fits h : wf_H256Le h → fits 256 (H256.as_u256 h).
Proof.
  intros H. unfold H256.as_u256, H256.to_bytes_le.
  pose proof (from_le_bytes_fits (content h)) as Hf.
  unfold zlen in Hf. by rewrite H in Hf.
Qed.

Lemma bytes_be_roundtrip h :
  wf_H256Le h → H256.from_bytes_be (H256.to_bytes_be h) = Ok h.
Proof.
  intros H. unfold H256.from_bytes_be, H256.to_bytes_be.
  rewrite rev_involutive, from_bytes_le_Ok by done. by destruct h.
Qed.

Lemma opcode_u8_fits op : fits 8 (opcode_u8 op).
Proof. by destruct op. Qed.
