(* ===== verification/BtcCompact.v ===== *)
(** * Compact targets and proof-of-work retargeting

    [crates/bitcoin/src/math.rs] (the [nBits] encoding of a 256-bit target),
    [crates/bitcoin/src/pow.rs] (the retargeting rule) and the integer
    logarithms of [crates/bitcoin/src/utils.rs].  [U256] is a [Z] in
    [[0, 2^256)]; its operators panic on overflow and its shifts drop the bits
    that leave the word. *)

From Stdlib Require Import ZArith Lia.
From stdpp Require Import base tactics option numbers.
From S2P Require Import Prelude BtcTypes.

Local Open Scope Z_scope.

(** ** Definitions *)

(** [U256::bits]: the position of the highest set bit. *)
Definition bits (v : Z) : Z := if v =? 0 then 0 else Z.log2 v + 1.

Definition get_compact (v : Z) : option Z :=
  let size := (bits v + 7) / 8 in
  let compact :=
    if size <=? 3
    then wrap 32 (wrap 64 (Z.shiftl (wrap 64 v) (8 * (3 - size))))
    else wrap 32 (Z.shiftr v (8 * (size - 3))) in
  let '(compact, size) :=
    if negb (Z.land compact 0x00800000 =? 0)
    then (Z.shiftr compact 8, size + 1) else (compact, size) in
  if negb (Z.ldiff compact 0x007fffff =? 0) then None
  else if negb (size <? 256) then None
  else Some (Z.lor compact (wrap 32 (Z.shiftl size 24))).

Definition set_compact (compact : Z) : option Z :=
  let size := Z.shiftr compact 24 in
  let word := Z.land compact 0x007fffff in
  let '(word, value) :=
    if size <=? 3
    then let word := Z.shiftr word (8 * (3 - size)) in (word, word)
    else (word, wrap 256 (Z.shiftl word (8 * (size - 3)))) in
  if negb (word =? 0) && negb (Z.land compact 0x00800000 =? 0) then None
  else if negb (word =? 0) &&
          ((size >? 34) || (word >? 0xff) && (size >? 33) || (word >? 0xffff) && (size >? 32))
  then None
  else Some value.

Definition TARGET_TIMESPAN : Z := 14 * 24 * 60 * 60.
Definition TARGET_TIMESPAN_DIVISOR : Z := 4.
Definition UNROUNDED_MAX_TARGET : Z := 2 ^ 224 - 1.

(** [a * b] on [U256] panics on overflow. *)
Definition u256_mul (a b : Z) : outcome Error Z := unwrap (checked_mul 256 a b).

Definition calculate_next_work_required
    (previous_target first_block_time last_block_time : Z) : outcome Error Z :=
  let actual_timespan := saturating_sub last_block_time first_block_time in
  let actual_timespan :=
    if actual_timespan <? TARGET_TIMESPAN / TARGET_TIMESPAN_DIVISOR
    then TARGET_TIMESPAN / TARGET_TIMESPAN_DIVISOR else actual_timespan in
  let actual_timespan :=
    if actual_timespan >? TARGET_TIMESPAN * TARGET_TIMESPAN_DIVISOR
    then TARGET_TIMESPAN * TARGET_TIMESPAN_DIVISOR else actual_timespan in
  target ← u256_mul previous_target actual_timespan;
  let target := target / TARGET_TIMESPAN in
  ok_or (get_compact (if target >? UNROUNDED_MAX_TARGET then UNROUNDED_MAX_TARGET else target))
    InvalidCompact.

(** The [while current > 0] loops of [log2] and [log256]. *)
Fixpoint shift_loop (fuel : nat) (shift current result : Z) : outcome Error Z :=
  match fuel with
  | O => NoFuel
  | S fuel =>
      if current >? 0 then shift_loop fuel shift (Z.shiftr current shift) (result + 1)
      else Ok result
  end.

(** [value - 1] on [u64] wraps in a release build. *)
Definition log2 (value : Z) : outcome Error Z :=
  shift_loop 65 1 (wrap 64 (value - 1)) 0.

(** [value - 1] on [U256] panics on underflow. *)
Definition log256 (value : Z) : outcome Error Z :=
  current ← unwrap (checked_sub value 1);
  shift_loop 33 8 current 0.

(** ** The value a compact encoding keeps

    [compact_size v] is the exponent byte of [v] and [compact_floor v] the
    value that survives: the top three bytes of [v] (two when the top bit of
    the third is set, because that bit is the sign). *)
Definition compact_size (v : Z) : Z := if v =? 0 then 0 else bits v / 8 + 1.
Definition compact_unit (v : Z) : Z := 8 * Z.max 0 (compact_size v - 3).
Definition compact_floor (v : Z) : Z := v / 2 ^ compact_unit v * 2 ^ compact_unit v.

(** The clamped time span of the retargeting rule, and its exact target. *)
Definition clamp_timespan (t : Z) : Z :=
  Z.min (Z.max t (TARGET_TIMESPAN / 4)) (TARGET_TIMESPAN * 4).
Definition exact_next_target (prev first last : Z) : Z :=
  Z.min (prev * clamp_timespan (last - first) / TARGET_TIMESPAN) UNROUNDED_MAX_TARGET.

(** ** Lemmas *)

Lemma bits_spec v : 0 < v → 2 ^ (bits v - 1) ≤ v < 2 ^ bits v.
Proof.
  intros Hv. unfold bits. destruct (Z.eqb_spec v 0); [lia |].
  replace (Z.log2 v + 1 - 1) with (Z.log2 v) by lia.
  pose proof (Z.log2_spec v Hv). by rewrite Z.add_1_r.
Qed.

Lemma bits_pos v : 0 < v → 1 ≤ bits v.
Proof.
  intros Hv. unfold bits. destruct (Z.eqb_spec v 0); [lia |].
  pose proof (Z.log2_nonneg v). lia.
Qed.

Lemma bits_le v n : 0 ≤ v < 2 ^ n → 0 ≤ n → 0 ≤ bits v ≤ n.
Proof.
  intros Hv Hn. unfold bits. destruct (Z.eqb_spec v 0); [lia |].
  pose proof (Z.log2_nonneg v). pose proof (Z.log2_lt_pow2 v n). lia.
Qed.

Lemma testbit_above m n i : 0 ≤ m < 2 ^ n → n ≤ i → Z.testbit m i = false.
Proof.
  intros Hm Hi. destruct (Z.eq_dec m 0) as [-> |]; [apply Z.bits_0 |].
  apply Z.bits_above_log2; [lia |].
  assert (Z.log2 m < n) by (apply Z.log2_lt_pow2; lia). lia.
Qed.

Lemma land_pow2_zero m n :
  0 ≤ n → 0 ≤ m < 2 ^ (n + 1) → (Z.land m (2 ^ n) =? 0) = (m <? 2 ^ n).
Proof.
  intros Hn Hm. destruct (Z.ltb_spec m (2 ^ n)).
  - apply Z.eqb_eq, Z.bits_inj'. intros i Hi.
    rewrite Z.land_spec, Z.pow2_bits_eqb, Z.bits_0 by lia.
    destruct (Z.eqb_spec n i) as [<- |]; [| apply andb_false_r].
    by rewrite testbit_above with (n := n) by lia.
  - apply Z.eqb_neq. intros H0. apply (f_equal (λ z, Z.testbit z n)) in H0.
    rewrite Z.land_spec, Z.pow2_bits_true, andb_true_r, Z.bits_0 in H0 by lia.
    apply Z.testbit_false in H0; [| lia].
    rewrite Z.pow_add_r in Hm by lia. change (2 ^ 1) with 2 in Hm.
    replace (m / 2 ^ n) with 1 in H0; [done |].
    apply Z.div_unique with (m - 2 ^ n); lia.
Qed.

Lemma lor_shiftl_add a s n :
  0 ≤ n → 0 ≤ a < 2 ^ n → 0 ≤ s → Z.lor a (Z.shiftl s n) = a + s * 2 ^ n.
Proof.
  intros Hn Ha Hs. rewrite <- Z.shiftl_mul_pow2 by lia.
  assert (Z.land a (Z.shiftl s n) = 0) as Hd.
  { apply Z.bits_inj'. intros i Hi.
    rewrite Z.land_spec, Z.bits_0, Z.shiftl_spec by lia.
    destruct (Z.le_gt_cases n i).
    - by rewrite (testbit_above a n) by lia.
    - rewrite (Z.testbit_neg_r s) by lia. apply andb_false_r. }
  by rewrite <- Z.lxor_lor, Z.add_nocarry_lxor by done.
Qed.

Lemma ldiff_mantissa m : 0 ≤ m < 2 ^ 23 → Z.ldiff m 0x007fffff = 0.
Proof.
  intros Hm. change 0x007fffff with (Z.ones 23).
  rewrite Z.ldiff_ones_r, Z.shiftr_div_pow2, Z.div_small by lia. apply Z.shiftl_0_l.
Qed.

Lemma compact_size_bounds v :
  fits 256 v → 0 ≤ compact_size v ≤ 33.
Proof.
  unfold fits, compact_size. intros Hv.
  pose proof (bits_le v 256 ltac:(lia) ltac:(lia)).
  destruct (v =? 0); [lia |].
  pose proof (Z.div_mod (bits v) 8 ltac:(lia)).
  pose proof (Z.mod_pos_bound (bits v) 8 ltac:(lia)). lia.
Qed.

(** The 24-bit field that [get_compact] computes for exponent [s]. *)
Definition mantissa (v s : Z) : Z :=
  if s <=? 3 then v * 2 ^ (8 * (3 - s)) else v / 2 ^ (8 * (s - 3)).

Lemma mantissa_succ v s : 0 ≤ s → mantissa v (s + 1) = mantissa v s / 2 ^ 8.
Proof.
  intros Hs. unfold mantissa.
  destruct (Z.leb_spec s 3), (Z.leb_spec (s + 1) 3); try lia.
  - replace (8 * (3 - s)) with (8 * (3 - (s + 1)) + 8) by lia.
    rewrite Z.pow_add_r, Z.mul_assoc, Z.div_mul by lia. done.
  - replace s with 3 by lia. change (8 * (3 - 3)) with 0.
    change (8 * (3 + 1 - 3)) with 8. rewrite Z.pow_0_r, Z.mul_1_r. done.
  - rewrite Z.div_div, <- Z.pow_add_r by lia. do 2 f_equal. lia.
Qed.

Lemma mantissa_bounds v s :
  0 < v → 0 ≤ s → 1 ≤ bits v + 8 * (3 - s) →
  2 ^ (bits v + 8 * (3 - s) - 1) ≤ mantissa v s < 2 ^ (bits v + 8 * (3 - s)).
Proof.
  intros Hv Hs Hb. pose proof (bits_spec v Hv) as [Hlo Hhi]. unfold mantissa.
  pose proof (bits_pos v ltac:(lia)).
  destruct (Z.leb_spec s 3).
  - replace (bits v + 8 * (3 - s) - 1) with (bits v - 1 + 8 * (3 - s)) by lia.
    rewrite !(Z.pow_add_r 2 _ (8 * (3 - s))) by lia.
    pose proof (Z.pow_pos_nonneg 2 (8 * (3 - s)) ltac:(lia) ltac:(lia)). nia.
  - pose proof (Z.pow_pos_nonneg 2 (8 * (s - 3)) ltac:(lia) ltac:(lia)). split.
    + apply Z.div_le_lower_bound; [lia |]. rewrite <- Z.pow_add_r by lia.
      replace (_ + _) with (bits v - 1) by lia. lia.
    + apply Z.div_lt_upper_bound; [lia |]. rewrite <- Z.pow_add_r by lia.
      replace (8 * (s - 3) + _) with (bits v) by lia. lia.
Qed.

(** The kept mantissa never reaches the sign bit. *)
Lemma mantissa_compact_size v :
  fits 256 v → 0 ≤ mantissa v (compact_size v) < 2 ^ 23.
Proof.
  intros Hv. unfold compact_size. destruct (Z.eqb_spec v 0) as [-> |]; [done |].
  unfold fits in Hv. pose proof (bits_spec v ltac:(lia)).
  pose proof (bits_pos v ltac:(lia)).
  pose proof (Z.div_mod (bits v) 8 ltac:(lia)).
  pose proof (Z.mod_pos_bound (bits v) 8 ltac:(lia)).
  pose proof (mantissa_bounds v (bits v / 8 + 1) ltac:(lia) ltac:(lia) ltac:(lia)).
  assert (2 ^ (bits v + 8 * (3 - (bits v / 8 + 1))) ≤ 2 ^ 23)
    by (apply Z.pow_le_mono_r; lia).
  pose proof (Z.pow_nonneg 2 (bits v + 8 * (3 - (bits v / 8 + 1)) - 1)). lia.
Qed.

(** [get_compact] before the sign adjustment. *)
Lemma get_compact_field v :
  fits 256 v →
  let size := (bits v + 7) / 8 in
  (if size <=? 3
   then wrap 32 (wrap 64 (Z.shiftl (wrap 64 v) (8 * (3 - size))))
   else wrap 32 (Z.shiftr v (8 * (size - 3)))) = mantissa v size.
Proof.
  intros Hv size. unfold fits in Hv.
  destruct (Z.eq_dec v 0) as [-> |]; [done |].
  pose proof (bits_spec v ltac:(lia)) as Hb.
  pose proof (bits_pos v ltac:(lia)).
  pose proof (Z.div_mod (bits v + 7) 8 ltac:(lia)).
  pose proof (Z.mod_pos_bound (bits v + 7) 8 ltac:(lia)). fold size in H0.
  pose proof (mantissa_bounds v size ltac:(lia) ltac:(lia) ltac:(lia)) as Hm.
  assert (2 ^ (bits v + 8 * (3 - size)) ≤ 2 ^ 24) by (apply Z.pow_le_mono_r; lia).
  pose proof (Z.pow_nonneg 2 (bits v + 8 * (3 - size) - 1)).
  unfold mantissa in *. destruct (Z.leb_spec size 3).
  - rewrite Z.shiftl_mul_pow2 by lia.
    pose proof (Z.pow_pos_nonneg 2 (8 * (3 - size)) ltac:(lia) ltac:(lia)).
    assert (v * 1 ≤ v * 2 ^ (8 * (3 - size))) by (apply Z.mul_le_mono_nonneg_l; lia).
    assert (0 ≤ v * 2 ^ (8 * (3 - size)) < 2 ^ 24) by lia.
    rewrite (wrap_small 64 v) by (unfold fits; lia).
    rewrite (wrap_small 64) by (unfold fits; lia).
    apply wrap_small. unfold fits. lia.
  - rewrite Z.shiftr_div_pow2 by lia. apply wrap_small. unfold fits. lia.
Qed.

Lemma get_compact_spec v :
  fits 256 v →
  get_compact v = Some (mantissa v (compact_size v) + compact_size v * 2 ^ 24).
Proof.
  intros Hv. pose proof (mantissa_compact_size v Hv) as Hm.
  pose proof (compact_size_bounds v Hv) as Hs.
  destruct (Z.eq_dec v 0) as [-> |]; [done |]. unfold fits in Hv.
  pose proof (bits_spec v ltac:(lia)) as Hb.
  pose proof (bits_pos v ltac:(lia)).
  unfold get_compact. rewrite get_compact_field by done.
  set (size := (bits v + 7) / 8).
  pose proof (Z.div_mod (bits v + 7) 8 ltac:(lia)).
  pose proof (Z.mod_pos_bound (bits v + 7) 8 ltac:(lia)). fold size in H0.
  pose proof (mantissa_bounds v size ltac:(lia) ltac:(lia) ltac:(lia)) as Hmb.
  assert (2 ^ (bits v + 8 * (3 - size)) ≤ 2 ^ 24) by (apply Z.pow_le_mono_r; lia).
  pose proof (Z.pow_nonneg 2 (bits v + 8 * (3 - size) - 1)).
  change 0x00800000 with (2 ^ 23). rewrite land_pow2_zero by (cbn -[Z.pow]; lia).
  assert (Hcs : compact_size v = bits v / 8 + 1).
  { unfold compact_size. by destruct (Z.eqb_spec v 0). }
  pose proof (Z.div_mod (bits v) 8 ltac:(lia)).
  pose proof (Z.mod_pos_bound (bits v) 8 ltac:(lia)).
  assert (Hfin : ∀ s, s = compact_size v →
    (if negb (Z.ldiff (mantissa v s) 0x007fffff =? 0) then None
     else if negb (s <? 256) then None
     else Some (Z.lor (mantissa v s) (wrap 32 (Z.shiftl s 24))))
    = Some (mantissa v (compact_size v) + compact_size v * 2 ^ 24)).
  { intros s ->. rewrite ldiff_mantissa by done. cbn [Z.eqb negb].
    destruct (Z.ltb_spec (compact_size v) 256); [| lia]. cbn [negb].
    rewrite wrap_small by (rewrite Z.shiftl_mul_pow2; unfold fits; lia).
    by rewrite lor_shiftl_add by lia. }
  destruct (Z.ltb_spec (mantissa v size) (2 ^ 23)) as [Hlt | Hge]; cbn [negb].
  - apply Hfin. rewrite Hcs.
    assert (bits v + 8 * (3 - size) - 1 < 23); [| lia].
    apply (Z.pow_lt_mono_r_iff 2); lia.
  - rewrite Z.shiftr_div_pow2, <- mantissa_succ by lia. apply Hfin. rewrite Hcs.
    assert (23 < bits v + 8 * (3 - size)); [| lia].
    apply (Z.pow_lt_mono_r_iff 2); lia.
Qed.

(** [set_compact] of a field without the sign bit. *)
Lemma set_compact_fields m s :
  0 ≤ m < 2 ^ 23 → 0 ≤ s < 256 →
  set_compact (m + s * 2 ^ 24) =
    if s <=? 3 then Some (m / 2 ^ (8 * (3 - s)))
    else if negb (m =? 0) &&
            ((s >? 34) || (m >? 0xff) && (s >? 33) || (m >? 0xffff) && (s >? 32))
    then None else Some (wrap 256 (m * 2 ^ (8 * (s - 3)))).
Proof.
  intros Hm Hs. unfold set_compact.
  assert (Z.shiftr (m + s * 2 ^ 24) 24 = s) as ->.
  { rewrite Z.shiftr_div_pow2, Z.div_add, Z.div_small by lia. lia. }
  assert (Z.land (m + s * 2 ^ 24) 0x007fffff = m) as ->.
  { change 0x007fffff with (Z.ones 23). rewrite Z.land_ones by lia.
    replace (m + s * 2 ^ 24) with (m + (2 * s) * 2 ^ 23) by lia.
    rewrite Z.mod_add by lia. apply Z.mod_small. lia. }
  assert (Z.land (m + s * 2 ^ 24) 0x00800000 = 0) as ->.
  { rewrite <- lor_shiftl_add, Z.land_lor_distr_l by lia.
    change 0x00800000 with (2 ^ 23).
    assert (Z.land m (2 ^ 23) = 0) as ->.
    { apply Z.eqb_eq. rewrite land_pow2_zero by lia. lia. }
    rewrite Z.lor_0_l. apply Z.bits_inj'. intros i Hi.
    rewrite Z.land_spec, Z.shiftl_spec, Z.pow2_bits_eqb, Z.bits_0 by lia.
    destruct (Z.eqb_spec 23 i) as [<- |]; [| apply andb_false_r].
    by rewrite Z.testbit_neg_r by lia. }
  cbn [Z.eqb negb].
  destruct (Z.leb_spec s 3).
  - rewrite Z.shiftr_div_pow2 by lia. rewrite andb_false_r.
    destruct (Z.gtb_spec s 34), (Z.gtb_spec s 33), (Z.gtb_spec s 32); try lia.
    by rewrite !andb_false_r.
  - rewrite andb_false_r, Z.shiftl_mul_pow2 by lia. done.
Qed.

Lemma compact_floor_bounds v :
  fits 256 v →
  0 ≤ compact_floor v ≤ v ∧ v < compact_floor v + 2 ^ compact_unit v.
Proof.
  unfold fits, compact_floor. intros Hv.
  assert (0 < 2 ^ compact_unit v) by (apply Z.pow_pos_nonneg; unfold compact_unit; lia).
  pose proof (Z.div_mod v (2 ^ compact_unit v) ltac:(lia)).
  pose proof (Z.mod_pos_bound v (2 ^ compact_unit v) ltac:(lia)).
  pose proof (Z.div_pos v (2 ^ compact_unit v)). nia.
Qed.

Lemma set_compact_get_compact v :
  fits 256 v →
  set_compact (mantissa v (compact_size v) + compact_size v * 2 ^ 24) = Some (compact_floor v).
Proof.
  intros Hv. pose proof (compact_size_bounds v Hv).
  pose proof (mantissa_compact_size v Hv) as Hm.
  rewrite set_compact_fields by lia. unfold mantissa, compact_floor, compact_unit in *.
  destruct (Z.leb_spec (compact_size v) 3).
  - rewrite Z.max_l, Z.mul_0_r, Z.pow_0_r, Z.div_1_r, Z.mul_1_r by lia.
    pose proof (Z.pow_pos_nonneg 2 (8 * (3 - compact_size v)) ltac:(lia) ltac:(lia)).
    by rewrite Z.div_mul by lia.
  - rewrite Z.max_r by lia.
    pose proof (compact_floor_bounds v Hv) as Hf.
    unfold compact_floor, compact_unit in Hf. rewrite Z.max_r in Hf by lia.
    rewrite wrap_small by (unfold fits in *; lia).
    destruct (_ && _) eqn:E; [exfalso | done].
    apply andb_true_iff in E as [_ E].
    destruct (Z.gtb_spec (compact_size v) 34), (Z.gtb_spec (compact_size v) 33); try lia.
    rewrite andb_false_r in E. cbn [orb] in E.
    apply andb_true_iff in E as [E1 E2]. apply Z.gtb_lt in E1, E2.
    assert (compact_size v = 33) as Hs by lia. rewrite Hs in *.
    change (8 * (33 - 3)) with 240 in *. unfold fits in Hv.
    assert (v / 2 ^ 240 < 2 ^ 16) by (apply Z.div_lt_upper_bound; lia). lia.
Qed.

(** The rounding error of the encoding, relative to the value. *)
Lemma compact_floor_error v :
  fits 256 v → (v - compact_floor v) * 2 ^ 15 ≤ v.
Proof.
  intros Hv. pose proof (compact_floor_bounds v Hv) as Hf.
  destruct (Z.leb_spec (compact_size v) 3) as [Hs | Hs].
  - unfold compact_floor, compact_unit in *. rewrite Z.max_l in * by lia.
    rewrite Z.mul_0_r, Z.pow_0_r, Z.div_1_r in *. unfold fits in Hv. lia.
  - assert (0 < v).
    { unfold fits in Hv. destruct (Z.eq_dec v 0) as [-> |]; [done | lia]. }
    assert (2 ^ 15 * 2 ^ compact_unit v ≤ v); [| nia].
    rewrite <- Z.pow_add_r by (unfold compact_unit; lia).
    pose proof (bits_spec v ltac:(lia)).
    assert (2 ^ (15 + compact_unit v) ≤ 2 ^ (bits v - 1)); [| lia].
    apply Z.pow_le_mono_r; [lia |].
    unfold compact_unit, compact_size in *. destruct (v =? 0); [lia |].
    pose proof (Z.div_mod (bits v) 8 ltac:(lia)).
    pose proof (Z.mod_pos_bound (bits v) 8 ltac:(lia)). lia.
Qed.

(** A value with at most 23 significant bits above [2^(8 * k)] is kept exactly. *)
Lemma compact_floor_exact w k :
  0 ≤ w < 2 ^ 23 → 0 ≤ k → fits 256 (w * 2 ^ (8 * k)) →
  compact_floor (w * 2 ^ (8 * k)) = w * 2 ^ (8 * k).
Proof.
  intros Hw Hk Hv. set (v := w * 2 ^ (8 * k)) in *.
  destruct (Z.eq_dec v 0) as [-> |]; [done |]. unfold fits in Hv.
  assert (0 ≤ compact_unit v) by (unfold compact_unit; lia).
  assert (bits v ≤ 8 * k + 23) as Hb.
  { apply bits_le; [| lia]. rewrite Z.add_comm, Z.pow_add_r by lia.
    pose proof (Z.pow_pos_nonneg 2 (8 * k) ltac:(lia) ltac:(lia)). subst v. nia. }
  assert (compact_unit v ≤ 8 * k) as Hu.
  { unfold compact_unit, compact_size. destruct (Z.eqb_spec v 0); [lia |].
    pose proof (Z.div_mod (bits v) 8 ltac:(lia)).
    pose proof (Z.mod_pos_bound (bits v) 8 ltac:(lia)). lia. }
  unfold compact_floor.
  assert (v = w * 2 ^ (8 * k - compact_unit v) * 2 ^ compact_unit v) as Heq.
  { rewrite <- Z.mul_assoc, <- Z.pow_add_r by lia. subst v. do 2 f_equal. lia. }
  rewrite Heq at 1. rewrite Z.div_mul by (apply Z.pow_nonzero; lia). by rewrite <- Heq.
Qed.

(** Every 32-bit pattern splits into its fields. *)
Lemma set_compact_Some c v :
  fits 32 c → set_compact c = Some v → fits 256 v ∧ compact_floor v = v.
Proof.
  unfold fits at 1, set_compact. intros Hc.
  set (s := Z.shiftr c 24). set (m := Z.land c 0x007fffff).
  assert (0 ≤ s < 256) as Hs.
  { subst s. rewrite Z.shiftr_div_pow2 by lia.
    split; [apply Z.div_pos; lia | apply Z.div_lt_upper_bound; lia]. }
  assert (0 ≤ m < 2 ^ 23) as Hm.
  { subst m. change 0x007fffff with (Z.ones 23). rewrite Z.land_ones by lia.
    apply Z.mod_pos_bound. lia. }
  destruct (Z.leb_spec s 3) as [Hs3 | Hs3].
  - repeat case_match; try done. intros [= <-].
    rewrite Z.shiftr_div_pow2 by lia.
    assert (0 ≤ m / 2 ^ (8 * (3 - s)) < 2 ^ 23) as Hd.
    { pose proof (Z.pow_pos_nonneg 2 (8 * (3 - s)) ltac:(lia) ltac:(lia)).
      split; [apply Z.div_pos; lia | apply Z.div_lt_upper_bound; nia]. }
    assert (fits 256 (m / 2 ^ (8 * (3 - s)))) as Hf by (unfold fits; lia).
    split; [done |].
    pose proof (compact_floor_exact (m / 2 ^ (8 * (3 - s))) 0 Hd ltac:(lia)) as He.
    rewrite Z.mul_0_r, Z.pow_0_r, Z.mul_1_r in He. auto.
  - destruct (Z.eqb_spec m 0) as [-> | Hm0]; cbn [negb andb].
    { rewrite Z.shiftl_0_l. by intros [= <-]. }
    destruct (negb _); [done |].
    destruct (_ || _) eqn:E; [done |]. intros [= <-].
    rewrite Z.shiftl_mul_pow2 by lia.
    assert (fits 256 (m * 2 ^ (8 * (s - 3)))) as Hf.
    { rewrite !orb_false_iff, !andb_false_iff, !Z.gtb_ltb, !Z.ltb_ge in E.
      destruct E as [[E1 E2] E3]. unfold fits.
      pose proof (Z.pow_pos_nonneg 2 (8 * (s - 3)) ltac:(lia) ltac:(lia)).
      split; [nia |].
      assert (∀ k e, m < 2 ^ k → 0 ≤ k → k + 8 * (s - 3) ≤ e → m * 2 ^ (8 * (s - 3)) < 2 ^ e)
        as Hlt.
      { intros k e Hk Hk0 He. apply Z.lt_le_trans with (2 ^ k * 2 ^ (8 * (s - 3))); [nia |].
        rewrite <- Z.pow_add_r by lia. apply Z.pow_le_mono_r; lia. }
      destruct (Z.le_gt_cases s 32); [apply (Hlt 23); lia |].
      destruct (Z.eq_dec s 33); [apply (Hlt 16); lia | apply (Hlt 8); lia]. }
    rewrite wrap_small by done. split; [done |]. apply compact_floor_exact; [done | lia | done].
Qed.

(** ** Properties *)

(** Every 256-bit target has a 32-bit compact encoding, and
    decoding it gives the target rounded down, by at most one part in 2^15. *)
Theorem get_compact_rounds_down v :
  fits 256 v →
  ∃ c, get_compact v = Some c ∧ fits 32 c ∧ set_compact c = Some (compact_floor v) ∧
       compact_floor v ≤ v ∧ (v - compact_floor v) * 2 ^ 15 ≤ v.
Proof.
  intros Hv. eexists. rewrite get_compact_spec, set_compact_get_compact by done.
  pose proof (mantissa_compact_size v Hv). pose proof (compact_size_bounds v Hv).
  pose proof (compact_floor_bounds v Hv). pose proof (compact_floor_error v Hv).
  split_and!; try done; unfold fits; lia.
Qed.

Lemma get_compact_rounds_down_witness :
  get_compact 0x92340000 = Some 0x05009234 ∧
  ∃ c, get_compact 0x123456789 = Some c ∧ fits 32 c ∧
       set_compact c = Some (compact_floor 0x123456789) ∧
       compact_floor 0x123456789 ≤ 0x123456789 ∧
       (0x123456789 - compact_floor 0x123456789) * 2 ^ 15 ≤ 0x123456789.
Proof. split; [reflexivity | apply (get_compact_rounds_down 0x123456789); split; lia]. Defined.

(** A target that came from a compact encoding survives
    re-encoding, so formatting a parsed header keeps its target. *)
Theorem set_compact_get_compact_stable c v :
  fits 32 c → set_compact c = Some v →
  ∃ c', get_compact v = Some c' ∧ set_compact c' = Some v.
Proof.
  intros Hc Hv. destruct (set_compact_Some c v Hc Hv) as [Hf He].
  eexists. by rewrite get_compact_spec, set_compact_get_compact, He by done.
Qed.

Lemma set_compact_get_compact_stable_witness :
  set_compact 0x1d00ffff = Some (0xffff * 2 ^ 208) ∧
  ∃ c', get_compact (0xffff * 2 ^ 208) = Some c' ∧ set_compact c' = Some (0xffff * 2 ^ 208).
Proof.
  split; [reflexivity |].
  apply (set_compact_get_compact_stable 0x1d00ffff); [split; lia | reflexivity].
Defined.

Lemma clamp_timespan_spec first last :
  (let t := saturating_sub last first in
   let t := if t <? TARGET_TIMESPAN / TARGET_TIMESPAN_DIVISOR
            then TARGET_TIMESPAN / TARGET_TIMESPAN_DIVISOR else t in
   if t >? TARGET_TIMESPAN * TARGET_TIMESPAN_DIVISOR
   then TARGET_TIMESPAN * TARGET_TIMESPAN_DIVISOR else t) = clamp_timespan (last - first).
Proof.
  cbv zeta. unfold clamp_timespan, saturating_sub.
  change (TARGET_TIMESPAN / TARGET_TIMESPAN_DIVISOR) with 302400.
  change (TARGET_TIMESPAN * TARGET_TIMESPAN_DIVISOR) with 4838400.
  change (TARGET_TIMESPAN / 4) with 302400. change (TARGET_TIMESPAN * 4) with 4838400.
  destruct (Z.ltb_spec (Z.max (last - first) 0) 302400);
    [| destruct (Z.gtb_spec (Z.max (last - first) 0) 4838400)]; cbn; lia.
Qed.

(** C33: the retargeting rule never panics on a previous target below
    the network maximum; the new target is at most that maximum, and it is the
    exact rational rule (with the time span clamped to a factor of four)
    rounded down to the precision of the compact encoding. *)
Theorem next_work_required_spec prev first last :
  0 ≤ prev ≤ UNROUNDED_MAX_TARGET →
  ∃ c, calculate_next_work_required prev first last = Ok c ∧
       set_compact c = Some (compact_floor (exact_next_target prev first last)) ∧
       0 ≤ compact_floor (exact_next_target prev first last) ≤ UNROUNDED_MAX_TARGET.
Proof.
  intros Hp. unfold calculate_next_work_required, exact_next_target.
  pose proof (clamp_timespan_spec first last) as Hc. cbv zeta in *. rewrite Hc.
  assert (302400 ≤ clamp_timespan (last - first) ≤ 4838400) as Ht.
  { unfold clamp_timespan. change (TARGET_TIMESPAN / 4) with 302400.
    change (TARGET_TIMESPAN * 4) with 4838400. lia. }
  set (t := clamp_timespan (last - first)) in *.
  unfold UNROUNDED_MAX_TARGET in *.
  assert (0 ≤ prev * t < 2 ^ 256) by nia.
  unfold u256_mul, checked_mul. rewrite checked_fits by done. cbn [mbind outcome_bind unwrap].
  assert (0 ≤ prev * t / TARGET_TIMESPAN) by (apply Z.div_pos; [lia | done]).
  set (x := prev * t / TARGET_TIMESPAN) in *.
  replace (if x >? 2 ^ 224 - 1 then 2 ^ 224 - 1 else x) with (Z.min x (2 ^ 224 - 1))
    by (destruct (Z.gtb_spec x (2 ^ 224 - 1)); lia).
  assert (fits 256 (Z.min x (2 ^ 224 - 1))) as Hf by (unfold fits; lia).
  pose proof (compact_floor_bounds _ Hf).
  rewrite get_compact_spec by done. eexists. split; [done |].
  rewrite set_compact_get_compact by done. split; [done | lia].
Qed.

(** The example of the source's tests: block 30240 to block 32255. *)
Lemma next_work_required_spec_witness :
  calculate_next_work_required (0xffff * 2 ^ 208) 1261130161 1262152739 = Ok 0x1d00d86a ∧
  ∃ c, calculate_next_work_required (0xffff * 2 ^ 208) 1261130161 1262152739 = Ok c ∧
       set_compact c =
         Some (compact_floor (exact_next_target (0xffff * 2 ^ 208) 1261130161 1262152739)) ∧
       0 ≤ compact_floor (exact_next_target (0xffff * 2 ^ 208) 1261130161 1262152739)
         ≤ UNROUNDED_MAX_TARGET.
Proof.
  split; [reflexivity |]. apply next_work_required_spec. split; vm_compute; discriminate.
Defined.

Lemma bits_div v shift :
  0 < v → 0 < shift → bits (v / 2 ^ shift) = Z.max 0 (bits v - shift).
Proof.
  intros Hv Hs. pose proof (Z.pow_pos_nonneg 2 shift ltac:(lia) ltac:(lia)).
  pose proof (bits_spec v Hv) as [Hlo Hhi]. unfold bits at 1.
  destruct (Z.eqb_spec (v / 2 ^ shift) 0) as [Hz | Hnz].
  - apply Z.div_small_iff in Hz; [| lia].
    assert (bits v ≤ shift) by (apply bits_le; lia). lia.
  - assert (2 ^ shift ≤ v) as Hle.
    { destruct (Z.le_gt_cases (2 ^ shift) v); [done | exfalso; apply Hnz].
      apply Z.div_small. lia. }
    apply Z.log2_le_pow2 in Hle; [| lia].
    rewrite <- Z.shiftr_div_pow2, Z.log2_shiftr by lia.
    unfold bits. destruct (Z.eqb_spec v 0); lia.
Qed.

Lemma shift_loop_spec shift : ∀ fuel current result,
  0 < shift → 0 ≤ current < 2 ^ (shift * (Z.of_nat fuel - 1)) → (0 < fuel)%nat →
  shift_loop fuel shift current result = Ok (result + (bits current + shift - 1) / shift).
Proof.
  induction fuel as [| fuel IH]; intros current result Hs Hc Hf; [lia |]. cbn [shift_loop].
  destruct (Z.gtb_spec current 0) as [Hpos | Hz].
  - rewrite Z.shiftr_div_pow2 by lia.
    pose proof (Z.pow_pos_nonneg 2 shift ltac:(lia) ltac:(lia)).
    pose proof (bits_pos current ltac:(lia)).
    assert (0 < fuel)%nat.
    { destruct fuel; [| lia]. replace (Z.of_nat 1 - 1) with 0 in Hc by lia.
      rewrite Z.mul_0_r, Z.pow_0_r in Hc. lia. }
    rewrite IH; [| lia | | done].
    + rewrite bits_div by lia. f_equal.
      destruct (Z.le_gt_cases shift (bits current)).
      * rewrite Z.max_r by lia.
        replace (bits current + shift - 1)
          with (bits current - shift + shift - 1 + 1 * shift) by lia.
        rewrite Z.div_add by lia. lia.
      * rewrite Z.max_l, Z.add_0_l, Z.div_small by lia.
        assert ((bits current + shift - 1) / shift = 1) as ->; [| lia].
        symmetry. apply Z.div_unique with (bits current - 1); lia.
    + split; [apply Z.div_pos; lia |]. apply Z.div_lt_upper_bound; [lia |].
      rewrite <- Z.pow_add_r by nia.
      replace (shift + shift * (Z.of_nat fuel - 1))
        with (shift * (Z.of_nat (S fuel) - 1)) by lia.
      lia.
  - replace current with 0 by lia. change (bits 0) with 0.
    rewrite Z.div_small by lia. f_equal. lia.
Qed.

Lemma log2_eq value :
  fits 64 value →
  log2 value = Ok (if value =? 0 then 64 else Z.log2_up value).
Proof.
  intros Hv. unfold fits in Hv. unfold log2.
  assert (0 ≤ wrap 64 (value - 1) < 2 ^ 64) as Hw by (apply (wrap_fits 64); lia).
  rewrite shift_loop_spec by (cbn; lia).
  destruct (Z.eqb_spec value 0) as [-> |]; [done |].
  rewrite wrap_small by (unfold fits; lia).
  rewrite Z.add_0_l, Z.add_simpl_r, Z.div_1_r. f_equal.
  unfold bits, Z.log2_up. destruct (Z.eqb_spec (value - 1) 0) as [H0 | H0].
  - replace value with 1 by lia. done.
  - rewrite <- Z.sub_1_r. destruct (Z.compare_spec 1 value); lia.
Qed.

(** [log2] terminates on every [u64] and is the base-2 logarithm
    rounded up; zero wraps to 64. *)
Theorem log2_is_ceiling value :
  fits 64 value →
  log2 value = Ok (if value =? 0 then 64 else Z.log2_up value).
Proof. apply log2_eq. Qed.

Lemma log2_is_ceiling_witness : fits 64 257 ∧ log2 257 = Ok 9.
Proof.
  assert (fits 64 257) as Hv by (split; lia).
  split; [exact Hv | exact (log2_is_ceiling 257 Hv)].
Defined.
