(* ===== verification/BtcFormat.v ===== *)
(** * Bitcoin serialization

    [crates/bitcoin/src/formatter.rs] (the [TryFormat] implementations over an
    abstract [Writer]), [script.rs] and [address.rs].  Every [fmt_] function is
    one [try_format].  The second part has the byte string [enc_x] of every
    formatted value, and the proof that each [fmt_x] writes exactly that string
    to any lawful [Writer].  The transaction id theorems follow: the bounded and
    the unbounded id agree. *)

From coqutil Require Import Byte Word.LittleEndianList.
From Stdlib Require Import ZArith Lia.
From stdpp Require Import base tactics option list numbers.
From S2P Require Import Prelude Bytes BtcTypes BtcCompact.

Local Open Scope Z_scope.

(** ** Writers *)

(** The trait [Writer]. *)
Class Writer (W : Type) : Type := {
  write : W → list byte → outcome Error W;
}.

(** [impl Writer for Vec<u8>]. *)
#[export] Instance Vec_Writer : Writer (list byte) := {
  write w buf := Ok (w ++ buf);
}.

(** The bound is a [u32]: [N] keeps it non-negative. *)
Record BoundedWriter : Type := mkBoundedWriter {
  length_bound : N;
  bw_bytes : list byte;
}.

Definition bounded_new (length_bound : Z) : BoundedWriter :=
  mkBoundedWriter (Z.to_N length_bound) [].

Definition checked_reduce (w : BoundedWriter) (n : Z) : outcome Error BoundedWriter :=
  new_self ← ok_or (checked_sub (Z.of_N (length_bound w)) n) BoundExceeded;
  Ok (mkBoundedWriter (Z.to_N new_self) (bw_bytes w)).

(** [buf.len() as u32] keeps the low 32 bits. *)
#[export] Instance BoundedWriter_Writer : Writer BoundedWriter := {
  write w buf :=
    w ← checked_reduce w (wrap 32 (zlen buf));
    Ok (mkBoundedWriter (length_bound w) (bw_bytes w ++ buf));
}.

(** What the formatting functions need from a writer: writing two pieces is
    writing their concatenation, as long as the piece is [small]. *)
Class WriterLaws (W : Type) `{Writer W} : Type := {
  small : list byte → Prop;
  small_app a b : small (a ++ b) → small a ∧ small b;
  write_nil w : write w [] = Ok w;
  write_app w a b : small (a ++ b) → write w (a ++ b) = (write w a ≫= λ w', write w' b);
}.

Section format.
Context {W : Type} `{Writer W}.

(** [make_try_format_int!]: the little-endian bytes of an integer. *)
Definition fmt_int (n : nat) (v : Z) (w : W) : outcome Error W :=
  write w (to_le_bytes n v).
Definition fmt_u8 := fmt_int 1.
Definition fmt_u16 := fmt_int 2.
Definition fmt_u32 := fmt_int 4.
Definition fmt_u64 := fmt_int 8.
Definition fmt_byte (b : byte) : W → outcome Error W := fmt_u8 (byte.unsigned b).
Definition fmt_bool (b : bool) : W → outcome Error W := fmt_u8 (Z.b2z b).

Definition fmt_H256Le (h : H256Le) (w : W) : outcome Error W :=
  write w (H256.to_bytes_le h).

Definition fmt_CompactUint (c : CompactUint) (w : W) : outcome Error W :=
  let v := cu_value c in
  if v <? 0xfd then fmt_u8 (wrap 8 v) w
  else if v <? umax 16 then w ← fmt_u8 0xfd w; fmt_u16 (wrap 16 v) w
  else if v <? umax 32 then w ← fmt_u8 0xfe w; fmt_u32 (wrap 32 v) w
  else w ← fmt_u8 0xff w; fmt_u64 v w.

(** The [for value in self.iter()] loop. *)
Fixpoint fmt_each {T} (f : T → W → outcome Error W) (l : list T) (w : W) : outcome Error W :=
  match l with
  | [] => Ok w
  | x :: l => w ← f x w; fmt_each f l w
  end.

Definition fmt_vec {T} (f : T → W → outcome Error W) (l : list T) (w : W) : outcome Error W :=
  w ← fmt_CompactUint (mkCompactUint (zlen l)) w;
  fmt_each f l w.

Definition fmt_bytes_vec : list byte → W → outcome Error W := fmt_vec fmt_byte.
Definition fmt_Script (s : Script) : W → outcome Error W := fmt_bytes_vec (bytes s).
(** [impl TryFormat for &[u8]], [H160] and [H256]: the bytes alone. *)
Definition fmt_slice (s : list byte) (w : W) : outcome Error W := write w s.
Definition fmt_OpCode (op : OpCode) : W → outcome Error W := fmt_u8 (opcode_u8 op).
End format.

(** ** Scripts ([script.rs]) *)

(** [Script::append]: formatting to a [Vec] and [expect]ing success. *)
Definition append (s : Script) (f : list byte → outcome Error (list byte)) : outcome Error Script :=
  match f (bytes s) with
  | Ok b => Ok (mkScript b)
  | _ => Panic
  end.

Definition script_new : Script := mkScript [].

(** [for i in (1..4).rev()]: drop a zero at index [i], or stop. *)
Fixpoint trim_zeroes (i : nat) (l : list byte) : list byte :=
  match i with
  | O => l
  | S i' =>
      match l !! i with
      | Some b => if byte.unsigned b =? 0 then trim_zeroes i' (delete i l) else l
      | None => l
      end
  end.

Definition height_bytes (height : Z) : list byte :=
  let l := trim_zeroes 3 (to_le_bytes 4 height) in
  match list.last l with
  | Some x => if negb (Z.land (byte.unsigned x) 0x80 =? 0) then l ++ [u8 0] else l
  | None => l
  end.

Definition script_height (height : Z) : outcome Error Script :=
  append script_new (fmt_bytes_vec (height_bytes height)).

Definition script_op_return (return_content : list byte) : outcome Error Script :=
  s ← append script_new (fmt_OpCode OpReturn);
  s ← append s (fmt_u8 (wrap 8 (zlen return_content)));
  append s (fmt_slice return_content).

Definition script_len (s : Script) : Z := zlen (bytes s).

(** [self.bytes[i] == b]; the length test comes first, so [i] is in range. *)
Definition byte_is (s : Script) (i : nat) (v : Z) : bool :=
  match bytes s !! i with Some b => byte.unsigned b =? v | None => false end.

Definition is_p2wpkh_v0 (s : Script) : bool :=
  (script_len s =? P2WPKH_V0_SCRIPT_SIZE) && byte_is s 0 (opcode_u8 Op0)
  && byte_is s 1 HASH160_SIZE_HEX.

Definition is_p2wsh_v0 (s : Script) : bool :=
  (script_len s =? P2WSH_V0_SCRIPT_SIZE) && byte_is s 0 (opcode_u8 Op0)
  && byte_is s 1 HASH256_SIZE_HEX.

Definition is_p2pkh (s : Script) : bool :=
  (script_len s =? P2PKH_SCRIPT_SIZE) && byte_is s 0 (opcode_u8 OpDup)
  && byte_is s 1 (opcode_u8 OpHash160) && byte_is s 2 HASH160_SIZE_HEX
  && byte_is s 23 (opcode_u8 OpEqualVerify) && byte_is s 24 (opcode_u8 OpCheckSig).

Definition is_p2sh (s : Script) : bool :=
  (script_len s =? P2SH_SCRIPT_SIZE) && byte_is s 0 (opcode_u8 OpHash160)
  && byte_is s 1 HASH160_SIZE_HEX && byte_is s 22 (opcode_u8 OpEqual).

Definition extract_op_return_data (s : Script) : outcome Error (list byte) :=
  op ← ok_or (bytes s !! 0%nat) EndOfFile;
  if negb (byte.unsigned op =? opcode_u8 OpReturn) then Err MalformedOpReturnOutput
  else if zlen (bytes s) >? MAX_OPRETURN_SIZE then Err MalformedOpReturnOutput
  else
    result ← ok_or (get_from (bytes s) 2) EndOfFile;
    size ← unwrap (bytes s !! 1%nat);
    if negb (zlen result =? byte.unsigned size) then Err MalformedOpReturnOutput
    else Ok result.

(** ** Addresses ([address.rs]) *)

Definition to_script_pub_key (a : Address) : outcome Error Script :=
  match a with
  | P2PKH pub_key_hash =>
      s ← append script_new (fmt_OpCode OpDup);
      s ← append s (fmt_OpCode OpHash160);
      s ← append s (fmt_u8 HASH160_SIZE_HEX);
      s ← append s (fmt_slice pub_key_hash);
      s ← append s (fmt_OpCode OpEqualVerify);
      append s (fmt_OpCode OpCheckSig)
  | P2SH script_hash =>
      s ← append script_new (fmt_OpCode OpHash160);
      s ← append s (fmt_u8 HASH160_SIZE_HEX);
      s ← append s (fmt_slice script_hash);
      append s (fmt_OpCode OpEqual)
  | P2WPKHv0 pub_key_hash =>
      s ← append script_new (fmt_OpCode Op0);
      s ← append s (fmt_u8 HASH160_SIZE_HEX);
      append s (fmt_slice pub_key_hash)
  | P2WSHv0 script_hash =>
      s ← append script_new (fmt_OpCode Op0);
      s ← append s (fmt_u8 HASH256_SIZE_HEX);
      append s (fmt_slice script_hash)
  end.

(** The slice pattern [&[p0, .., pn, ref addr @ .., q0, .., qm]]: the bytes
    between a fixed prefix and a fixed suffix. *)
Definition slice_pattern (prefix suffix : list Z) (l : list byte) : option (list byte) :=
  let np := length prefix in
  let ns := length suffix in
  if (np + ns <=? length l)%nat
     && bool_decide (byte.unsigned <$> take np l = prefix)
     && bool_decide (byte.unsigned <$> drop (length l - ns) l = suffix)
  then Some (take (length l - ns - np) (drop np l))
  else None.

(** One arm [&[..] if addr.len() == n => Ok(k(addr))] of the match. *)
Definition addr_arm (l : list byte) (prefix suffix : list Z) (n : Z) (k : list byte → Address)
    (otherwise : outcome Error Address) : outcome Error Address :=
  match slice_pattern prefix suffix l with
  | Some addr => if zlen addr =? n then Ok (k addr) else otherwise
  | None => otherwise
  end.

Definition from_script_pub_key (s : Script) : outcome Error Address :=
  let l := bytes s in
  if zlen l >? HASH256_SIZE_HEX + 2 then Err InvalidBtcAddress
  else
    addr_arm l [opcode_u8 OpDup; opcode_u8 OpHash160; HASH160_SIZE_HEX]
      [opcode_u8 OpEqualVerify; opcode_u8 OpCheckSig] HASH160_SIZE_HEX P2PKH
    (addr_arm l [opcode_u8 OpHash160; HASH160_SIZE_HEX] [opcode_u8 OpEqual]
      HASH160_SIZE_HEX P2SH
    (addr_arm l [opcode_u8 Op0; HASH256_SIZE_HEX] [] HASH256_SIZE_HEX P2WSHv0
    (addr_arm l [opcode_u8 Op0; HASH160_SIZE_HEX] [] HASH160_SIZE_HEX P2WPKHv0
    (Err InvalidBtcAddress)))).

Definition extract_address (o : TransactionOutput) : outcome Error Address :=
  from_script_pub_key (out_script o).

(** [TransactionOutput::payment] and [op_return]. *)
Definition payment (v : Z) (a : Address) : outcome Error TransactionOutput :=
  s ← to_script_pub_key a; Ok (mkTransactionOutput v s).
Definition op_return (v : Z) (return_content : list byte) : outcome Error TransactionOutput :=
  s ← script_op_return return_content; Ok (mkTransactionOutput v s).

(** ** Transactions and headers *)
Section format_tx.
Context {W : Type} `{Writer W}.

(** The length of the script, and the height of a coinbase input. *)
Definition fmt_script_prefix (i : TransactionInput) (w : W) : outcome Error W :=
  match source i with
  | Coinbase (Some height) =>
      hb ← script_height height;
      let len := saturating_add 64 (zlen (script i)) (script_len hb) in
      w ← fmt_CompactUint (compact_from_usize len) w;
      fmt_slice (bytes hb) w
  | _ => fmt_CompactUint (compact_from_usize (zlen (script i))) w
  end.

Definition fmt_TransactionInput (i : TransactionInput) (w : W) : outcome Error W :=
  let '(previous_hash, previous_index) :=
    match source i with
    | Coinbase _ => (H256.zero, umax 32)
    | FromOutput h index => (h, index)
    end in
  w ← fmt_H256Le previous_hash w;
  w ← fmt_u32 previous_index w;
  w ← fmt_script_prefix i w;
  w ← write w (script i);
  fmt_u32 (sequence i) w.

Definition fmt_TransactionOutput (o : TransactionOutput) (w : W) : outcome Error W :=
  w ← fmt_u64 (value o) w;
  fmt_Script (out_script o) w.

Definition fmt_LockTime (l : LockTime) : W → outcome Error W :=
  match l with BlockHeight b | Time b => fmt_u32 b end.

Definition format_no_witness (tx : Transaction) (w : W) : outcome Error W :=
  w ← fmt_u32 (tx_version tx) w;
  w ← fmt_vec fmt_TransactionInput (inputs tx) w;
  w ← fmt_vec fmt_TransactionOutput (outputs tx) w;
  fmt_LockTime (lock_at tx) w.

Definition WITNESS_FLAG : Z := 1.
Definition WITNESS_MARKER : Z := 0.

Definition fmt_witness (i : TransactionInput) : W → outcome Error W :=
  fmt_vec fmt_bytes_vec (witness i).

Definition fmt_Transaction (tx : Transaction) (w : W) : outcome Error W :=
  w ← fmt_u32 (tx_version tx) w;
  w ← (if negb (has_witness tx) then
         w ← fmt_vec fmt_TransactionInput (inputs tx) w;
         fmt_vec fmt_TransactionOutput (outputs tx) w
       else
         w ← fmt_u8 WITNESS_MARKER w;
         w ← fmt_u8 WITNESS_FLAG w;
         w ← fmt_vec fmt_TransactionInput (inputs tx) w;
         w ← fmt_vec fmt_TransactionOutput (outputs tx) w;
         fmt_each fmt_witness (inputs tx) w);
  fmt_LockTime (lock_at tx) w.

Definition fmt_U256 (v : Z) (w : W) : outcome Error W :=
  bits ← ok_or (get_compact v) InvalidCompact;
  write w (to_le_bytes 4 bits).

Definition fmt_BlockHeader (h : BlockHeader) (w : W) : outcome Error W :=
  w ← fmt_u32 (version h) w;
  w ← fmt_H256Le (hash_prev_block h) w;
  w ← fmt_H256Le (merkle_root h) w;
  w ← fmt_u32 (timestamp h) w;
  w ← fmt_U256 (target h) w;
  fmt_u32 (nonce h) w.

Definition fmt_Block (b : Block) (w : W) : outcome Error W :=
  w ← fmt_BlockHeader (header b) w;
  fmt_vec fmt_Transaction (transactions b) w.
End format_tx.

(** ** Hashing

    SHA-256 is the crate [sha2]: a function to 32 bytes. *)
Class Sha256 : Type := {
  sha256 : list byte → list byte;
  sha256_length b : length (sha256 b) = 32%nat;
}.

Section hashing.
Context `{Sha256}.

Definition sha256d (b : list byte) : list byte := sha256 (sha256 b).
Definition sha256d_le (b : list byte) : outcome Error H256Le := H256.from_bytes_le (sha256d b).

Definition hash256_merkle_step (a b : list byte) : outcome Error H256Le :=
  H256.from_bytes_le (sha256d (a ++ b)).

(** [expect("Not bounded")]. *)
Definition expect_bytes (c : outcome Error (list byte)) : outcome Error (list byte) :=
  match c with Ok b => Ok b | _ => Panic end.

Definition tx_id_bounded (tx : Transaction) (length_bound : Z) : outcome Error H256Le :=
  w ← format_no_witness tx (bounded_new length_bound);
  sha256d_le (bw_bytes w).

Definition tx_id (tx : Transaction) : outcome Error H256Le :=
  b ← expect_bytes (format_no_witness tx []);
  sha256d_le b.

Definition tx_hash (tx : Transaction) : outcome Error H256Le :=
  b ← expect_bytes (fmt_Transaction tx []);
  sha256d_le b.

Definition size_no_witness (tx : Transaction) : outcome Error Z :=
  b ← expect_bytes (format_no_witness tx []);
  Ok (zlen b).

(** [BlockHeader::hash] and [update_hash]. *)
Definition header_hash (h : BlockHeader) : outcome Error H256Le :=
  b ← fmt_BlockHeader h [];
  sha256d_le b.

Definition update_hash (h : BlockHeader) : outcome Error BlockHeader :=
  new_hash ← header_hash h;
  Ok (set_hash h new_hash).
End hashing.

(** ** Encodings *)
Definition enc_compact (v : Z) : list byte :=
  if v <? 0xfd then to_le_bytes 1 v
  else if v <? umax 16 then to_le_bytes 1 0xfd ++ to_le_bytes 2 v
  else if v <? umax 32 then to_le_bytes 1 0xfe ++ to_le_bytes 4 v
  else to_le_bytes 1 0xff ++ to_le_bytes 8 v.

Definition enc_vec {T} (e : T → list byte) (l : list T) : list byte :=
  enc_compact (zlen l) ++ mjoin (e <$> l).

Definition enc_bytes (b : list byte) : list byte := enc_compact (zlen b) ++ b.

Definition enc_height (height : Z) : list byte := enc_bytes (height_bytes height).

(** The script field of an input: its length and, for a coinbase input with a
    height, the height. *)
Definition enc_script_prefix (i : TransactionInput) : list byte :=
  match source i with
  | Coinbase (Some height) =>
      enc_compact (saturating_add 64 (zlen (script i)) (zlen (enc_height height)))
      ++ enc_height height
  | _ => enc_compact (zlen (script i))
  end.

Definition enc_outpoint (s : TransactionInputSource) : list byte :=
  match s with
  | Coinbase _ => content H256.zero ++ to_le_bytes 4 (umax 32)
  | FromOutput h index => content h ++ to_le_bytes 4 index
  end.

Definition enc_input (i : TransactionInput) : list byte :=
  enc_outpoint (source i) ++ enc_script_prefix i ++ script i ++ to_le_bytes 4 (sequence i).

Definition enc_output (o : TransactionOutput) : list byte :=
  to_le_bytes 8 (value o) ++ enc_bytes (bytes (out_script o)).

Definition locktime (l : LockTime) : Z := match l with Time t => t | BlockHeight h => h end.

Definition enc_witness (i : TransactionInput) : list byte := enc_vec enc_bytes (witness i).

Definition enc_tx_no_witness (tx : Transaction) : list byte :=
  to_le_bytes 4 (tx_version tx) ++ enc_vec enc_input (inputs tx)
  ++ enc_vec enc_output (outputs tx) ++ to_le_bytes 4 (locktime (lock_at tx)).

Definition enc_tx (tx : Transaction) : list byte :=
  to_le_bytes 4 (tx_version tx)
  ++ (if negb (has_witness tx)
      then enc_vec enc_input (inputs tx) ++ enc_vec enc_output (outputs tx)
      else to_le_bytes 1 WITNESS_MARKER ++ to_le_bytes 1 WITNESS_FLAG
           ++ enc_vec enc_input (inputs tx) ++ enc_vec enc_output (outputs tx)
           ++ mjoin (enc_witness <$> inputs tx))
  ++ to_le_bytes 4 (locktime (lock_at tx)).

(** The header with the compact form [c] of its target. *)
Definition enc_header (h : BlockHeader) (c : Z) : list byte :=
  to_le_bytes 4 (version h) ++ content (hash_prev_block h) ++ content (merkle_root h)
  ++ to_le_bytes 4 (timestamp h) ++ to_le_bytes 4 c ++ to_le_bytes 4 (nonce h).

(** ** The two writers are lawful *)

#[export] Program Instance Vec_WriterLaws : WriterLaws (list byte) := {
  small := λ _, True;
}.
Next Obligation. done. Qed.
Next Obligation. intros w. cbn. by rewrite app_nil_r. Qed.
Next Obligation. intros w a b _. cbn. by rewrite app_assoc. Qed.

#[export] Program Instance BoundedWriter_WriterLaws : WriterLaws BoundedWriter := {
  small := λ b, zlen b < 2 ^ 32;
}.
Next Obligation.
  cbn. intros a b Hab. rewrite zlen_app in Hab.
  pose proof (zlen_nonneg a). pose proof (zlen_nonneg b). lia.
Qed.
Next Obligation.
  intros [n b]. cbn. change (wrap 32 (zlen [])) with 0.
  unfold checked_reduce. rewrite (proj2 (checked_sub_Some _ _ _)) by (cbn; split; [done | lia]).
  cbn. by rewrite Z.sub_0_r, N2Z.id, app_nil_r.
Qed.
Next Obligation.
  intros [n c] a b Hab. rewrite zlen_app in Hab.
  pose proof (zlen_nonneg a). pose proof (zlen_nonneg b). cbn.
  rewrite !wrap_small by (unfold fits; rewrite ?zlen_app; lia).
  rewrite zlen_app. unfold checked_reduce, checked_sub. cbn.
  destruct (Z.leb_spec (zlen a) (Z.of_N n)); cbn.
  2: { destruct (Z.leb_spec (zlen a + zlen b) (Z.of_N n)); [lia | done]. }
  rewrite Z2N.id by lia.
  destruct (Z.leb_spec (zlen b) (Z.of_N n - zlen a)),
    (Z.leb_spec (zlen a + zlen b) (Z.of_N n)); try lia; cbn; [| done].
  rewrite app_assoc. do 3 f_equal. lia.
Qed.

(** ** Every formatting function writes its encoding *)
Section writes.
Context {W : Type} `{WriterLaws W}.

Definition writes (f : W → outcome Error W) (b : list byte) : Prop :=
  small b → ∀ w, f w = write w b.

Lemma writes_bind f g a b :
  writes f a → writes g b → writes (λ w, w' ← f w; g w') (a ++ b).
Proof.
  intros Hf Hg Hs w. destruct (small_app a b Hs) as [Ha Hb].
  rewrite write_app, Hf by done.
  destruct (write w a) as [w' | | |] eqn:Hw; [cbn; by apply Hg | done | done | done].
Qed.

Lemma writes_each {T} (f : T → W → outcome Error W) (e : T → list byte) l :
  (∀ x, x ∈ l → writes (f x) (e x)) → writes (fmt_each f l) (mjoin (e <$> l)).
Proof.
  induction l as [| x l IH]; intros Hf.
  - intros _ w. cbn. by rewrite write_nil.
  - apply (writes_bind (f x) (fmt_each f l)); [apply Hf; left |].
    apply IH. intros y Hy. apply Hf. by right.
Qed.

Lemma writes_int n v : writes (fmt_int n v) (to_le_bytes n v).
Proof. done. Qed.

Lemma to_le_bytes_wrap n k v : k = 8 * Z.of_nat n → to_le_bytes n (wrap k v) = to_le_bytes n v.
Proof.
  intros ->. unfold to_le_bytes, wrap. rewrite (Z.mul_comm 8).
  by rewrite <- le_split_mod.
Qed.

Lemma writes_CompactUint v : writes (fmt_CompactUint (mkCompactUint v)) (enc_compact v).
Proof.
  unfold fmt_CompactUint, enc_compact. cbn [cu_value].
  destruct (v <? 0xfd); [intros _ w; unfold fmt_u8, fmt_int; by rewrite to_le_bytes_wrap |].
  destruct (v <? umax 16);
    [| destruct (v <? umax 32)]; apply writes_bind; try apply writes_int;
    intros _ w; unfold fmt_u16, fmt_u32, fmt_u64, fmt_int; by rewrite ?to_le_bytes_wrap.
Qed.

Lemma writes_vec {T} (f : T → W → outcome Error W) (e : T → list byte) l :
  (∀ x, x ∈ l → writes (f x) (e x)) → writes (fmt_vec f l) (enc_vec e l).
Proof. intros Hf. apply writes_bind; [apply writes_CompactUint | by apply writes_each]. Qed.

Lemma to_le_bytes_1 b : to_le_bytes 1 (byte.unsigned b) = [b].
Proof.
  unfold to_le_bytes, le_split. by rewrite byte.of_Z_unsigned.
Qed.

Lemma join_bytes (b : list byte) :
  mjoin ((λ x, to_le_bytes 1 (byte.unsigned x)) <$> b) = b.
Proof.
  induction b as [| x b IH]; [done |]. cbn [fmap list_fmap mjoin list_join].
  rewrite to_le_bytes_1. cbn. by f_equal.
Qed.

Lemma writes_bytes_vec b : writes (fmt_bytes_vec b) (enc_bytes b).
Proof.
  unfold fmt_bytes_vec, enc_bytes. rewrite <- (join_bytes b) at 3.
  apply writes_vec. intros x _. apply writes_int.
Qed.
End writes.

(** Formatting to a [Vec] appends the encoding. *)
Lemma writes_Vec (f : list byte → outcome Error (list byte)) b w :
  writes f b → f w = Ok (w ++ b).
Proof. intros Hf. by apply Hf. Qed.

Lemma append_writes s f b : writes f b → append s f = Ok (mkScript (bytes s ++ b)).
Proof. intros Hf. unfold append. by rewrite (writes_Vec f b) by done. Qed.

Lemma script_height_Ok height : script_height height = Ok (mkScript (enc_height height)).
Proof. unfold script_height. by rewrite (append_writes _ _ _ (writes_bytes_vec _)). Qed.

Section writes_tx.
Context {W : Type} `{WriterLaws W}.

Lemma writes_slice b : writes (fmt_slice b) b.
Proof. done. Qed.

Lemma writes_ext f g b : (∀ w : W, f w = g w) → writes g b → writes f b.
Proof. intros He Hg Hs w. rewrite He. by apply Hg. Qed.

Lemma writes_script_prefix i : writes (fmt_script_prefix i) (enc_script_prefix i).
Proof.
  unfold fmt_script_prefix, enc_script_prefix.
  destruct (source i) as [| [height |]]; try apply writes_CompactUint.
  rewrite script_height_Ok. apply (writes_bind (fmt_CompactUint _) (fmt_slice _));
    [apply writes_CompactUint | apply writes_slice].
Qed.

Lemma writes_TransactionInput i : writes (fmt_TransactionInput i) (enc_input i).
Proof.
  unfold fmt_TransactionInput, enc_input, enc_outpoint.
  destruct (source i); rewrite <- app_assoc;
    (apply (writes_bind (fmt_H256Le _)); [done |]; apply (writes_bind (fmt_u32 _)); [done |];
     apply (writes_bind (fmt_script_prefix _)); [apply writes_script_prefix |];
     by apply (writes_bind (fmt_slice _) (fmt_u32 _))).
Qed.

Lemma writes_TransactionOutput o : writes (fmt_TransactionOutput o) (enc_output o).
Proof. apply (writes_bind (fmt_u64 _)); [done | apply writes_bytes_vec]. Qed.

Lemma writes_LockTime l : writes (fmt_LockTime l) (to_le_bytes 4 (locktime l)).
Proof. by destruct l. Qed.

Lemma writes_inputs l : writes (fmt_vec fmt_TransactionInput l) (enc_vec enc_input l).
Proof. apply writes_vec. intros. apply writes_TransactionInput. Qed.

Lemma writes_outputs l : writes (fmt_vec fmt_TransactionOutput l) (enc_vec enc_output l).
Proof. apply writes_vec. intros. apply writes_TransactionOutput. Qed.

Lemma writes_tx_no_witness tx : writes (format_no_witness tx) (enc_tx_no_witness tx).
Proof.
  apply (writes_bind (fmt_u32 _)); [done |].
  apply (writes_bind (fmt_vec _ _)); [apply writes_inputs |].
  apply (writes_bind (fmt_vec _ _)); [apply writes_outputs | apply writes_LockTime].
Qed.

Lemma writes_witness i : writes (fmt_witness i) (enc_witness i).
Proof. apply writes_vec. intros. apply writes_bytes_vec. Qed.

Lemma writes_Transaction tx : writes (fmt_Transaction tx) (enc_tx tx).
Proof.
  unfold fmt_Transaction, enc_tx.
  apply (writes_bind (fmt_u32 _)); [done |].
  apply writes_bind; [| apply writes_LockTime].
  destruct (has_witness tx); cbn [negb].
  - apply (writes_bind (fmt_u8 _)); [done |]. apply (writes_bind (fmt_u8 _)); [done |].
    apply (writes_bind (fmt_vec _ _)); [apply writes_inputs |].
    apply (writes_bind (fmt_vec _ _)); [apply writes_outputs |].
    apply writes_each. intros. apply writes_witness.
  - apply (writes_bind (fmt_vec _ _)); [apply writes_inputs | apply writes_outputs].
Qed.

Lemma writes_BlockHeader h c :
  get_compact (target h) = Some c → writes (fmt_BlockHeader h) (enc_header h c).
Proof.
  intros Hc. unfold fmt_BlockHeader, enc_header, fmt_U256.
  repeat (apply (writes_bind (λ w, _)); [try done |]); try done.
  all: rewrite Hc; done.
Qed.
End writes_tx.

(** ** Scripts and addresses *)

(** The bytes of each address's output script. *)
Definition enc_script_pub_key (a : Address) : list byte :=
  let op o := to_le_bytes 1 (opcode_u8 o) in
  match a with
  | P2PKH h => op OpDup ++ op OpHash160 ++ to_le_bytes 1 HASH160_SIZE_HEX ++ h
               ++ op OpEqualVerify ++ op OpCheckSig
  | P2SH h => op OpHash160 ++ to_le_bytes 1 HASH160_SIZE_HEX ++ h ++ op OpEqual
  | P2WPKHv0 h => op Op0 ++ to_le_bytes 1 HASH160_SIZE_HEX ++ h
  | P2WSHv0 h => op Op0 ++ to_le_bytes 1 HASH256_SIZE_HEX ++ h
  end.

Lemma append_int s n v : append s (fmt_int n v) = Ok (mkScript (bytes s ++ to_le_bytes n v)).
Proof. apply append_writes. done. Qed.
Lemma append_slice s b : append s (fmt_slice b) = Ok (mkScript (bytes s ++ b)).
Proof. apply append_writes. done. Qed.

Lemma to_script_pub_key_Ok a : to_script_pub_key a = Ok (mkScript (enc_script_pub_key a)).
Proof.
  destruct a; unfold to_script_pub_key, fmt_OpCode, fmt_u8;
    repeat (rewrite ?append_int, ?append_slice; cbn [mbind outcome_bind bytes script_new]);
    unfold enc_script_pub_key; by rewrite ?app_nil_l, <- ?app_assoc.
Qed.

Lemma unsigned_inj_map (p q : list byte) :
  byte.unsigned <$> p = byte.unsigned <$> q → p = q.
Proof.
  revert q. induction p as [| x p IH]; intros [| y q]; try done.
  cbn. intros [= Hx Hr]. f_equal; [by apply byte.unsigned_inj | by apply IH].
Qed.

Lemma slice_pattern_app (p q addr : list byte) :
  slice_pattern (byte.unsigned <$> p) (byte.unsigned <$> q) (p ++ addr ++ q) = Some addr.
Proof.
  unfold slice_pattern. rewrite !length_fmap, !length_app.
  rewrite (proj2 (Nat.leb_le _ _)) by lia.
  rewrite take_app_length, bool_decide_eq_true_2 by done.
  replace (length p + (length addr + length q) - length q)%nat
    with (length (p ++ addr)) by (rewrite length_app; lia).
  rewrite app_assoc, drop_app_length, bool_decide_eq_true_2 by done.
  cbn [andb]. rewrite <- app_assoc, drop_app_length, length_app.
  replace (length p + length addr - length p)%nat with (length addr) by lia.
  by rewrite take_app_length.
Qed.

Lemma slice_pattern_Some (p q l addr : list byte) :
  slice_pattern (byte.unsigned <$> p) (byte.unsigned <$> q) l = Some addr →
  l = p ++ addr ++ q.
Proof.
  unfold slice_pattern. rewrite !length_fmap. destruct (_ && _ && _) eqn:E; [| done].
  rewrite !andb_true_iff, Nat.leb_le, !bool_decide_eq_true in E.
  destruct E as [[Hlen Hp] Hq]. apply unsigned_inj_map in Hp, Hq. intros [= <-].
  rewrite <- (take_drop (length p) l) at 1. rewrite Hp. f_equal.
  rewrite <- (take_drop (length l - length q - length p) (drop (length p) l)) at 1.
  f_equal. rewrite drop_drop.
  replace (length p + _)%nat with (length l - length q)%nat by lia. exact Hq.
Qed.

Section addr_arm.
Context (p q : list byte) (n : Z) (k : list byte → Address) (o : outcome Error Address).
Let arm (l : list byte) : outcome Error Address :=
  addr_arm l (byte.unsigned <$> p) (byte.unsigned <$> q) n k o.

Lemma addr_arm_match h : zlen h = n → arm (p ++ h ++ q) = Ok (k h).
Proof.
  intros <-. unfold arm, addr_arm. by rewrite slice_pattern_app, Z.eqb_refl.
Qed.

Lemma addr_arm_skip l : zlen l ≠ zlen p + zlen q + n → arm l = o.
Proof.
  intros Hl. unfold arm, addr_arm.
  destruct (slice_pattern _ _ _) as [h |] eqn:E; [| done].
  apply slice_pattern_Some in E as ->. rewrite !zlen_app in Hl.
  destruct (Z.eqb_spec (zlen h) n); [lia | done].
Qed.

Lemma addr_arm_inv l a :
  arm l = Ok a → (∃ h, zlen h = n ∧ l = p ++ h ++ q ∧ a = k h) ∨ o = Ok a.
Proof.
  unfold arm, addr_arm. destruct (slice_pattern _ _ _) as [h |] eqn:E; [| by right].
  apply slice_pattern_Some in E as ->.
  destruct (Z.eqb_spec (zlen h) n); [| by right]. intros [= <-]. left. by exists h.
Qed.
End addr_arm.

Definition op_byte (o : OpCode) : byte := u8 (opcode_u8 o).

Lemma enc_script_pub_key_arm a :
  enc_script_pub_key a =
    match a with
    | P2PKH h => [op_byte OpDup; op_byte OpHash160; u8 20] ++ h
                 ++ [op_byte OpEqualVerify; op_byte OpCheckSig]
    | P2SH h => [op_byte OpHash160; u8 20] ++ h ++ [op_byte OpEqual]
    | P2WPKHv0 h => [op_byte Op0; u8 20] ++ h ++ []
    | P2WSHv0 h => [op_byte Op0; u8 32] ++ h ++ []
    end.
Proof. destruct a; rewrite ?app_nil_r; reflexivity. Qed.

(** The arms with their patterns as bytes. *)
Lemma from_script_pub_key_arms s :
  from_script_pub_key s =
    let l := bytes s in
    let arm p q := addr_arm l (byte.unsigned <$> p) (byte.unsigned <$> q) in
    if zlen l >? 34 then Err InvalidBtcAddress else
    arm [op_byte OpDup; op_byte OpHash160; u8 20] [op_byte OpEqualVerify; op_byte OpCheckSig]
      20 P2PKH
    (arm [op_byte OpHash160; u8 20] [op_byte OpEqual] 20 P2SH
    (arm [op_byte Op0; u8 32] [] 32 P2WSHv0
    (arm [op_byte Op0; u8 20] [] 20 P2WPKHv0 (Err InvalidBtcAddress)))).
Proof. reflexivity. Qed.

(** ** Properties *)

Lemma from_script_pub_key_spec s a :
  from_script_pub_key s = Ok a ↔ wf_Address a ∧ to_script_pub_key a = Ok s.
Proof.
  rewrite to_script_pub_key_Ok, from_script_pub_key_arms. destruct s as [l]. cbn [bytes]. cbv zeta.
  split.
  - destruct (_ >? _); [done |]. intros Ha.
    repeat (apply addr_arm_inv in Ha as [(h & Hn & -> & ->) | Ha];
      [split; [cbn [wf_Address]; unfold zlen in Hn; lia | rewrite ?app_nil_r; reflexivity] |]).
    done.
  - intros [Hw [= <-]].
    assert (Hn : zlen (enc_script_pub_key a) =
      match a with P2PKH _ => 25 | P2SH _ => 23 | P2WPKHv0 _ => 22 | P2WSHv0 _ => 34 end).
    { destruct a; cbn [wf_Address] in Hw; unfold enc_script_pub_key;
        rewrite ?zlen_app, ?zlen_to_le_bytes; unfold zlen; rewrite Hw; reflexivity. }
    rewrite Z.gtb_ltb, (proj2 (Z.ltb_ge _ _)) by (rewrite Hn; destruct a; lia).
    destruct a as [h | h | h | h]; cbn [wf_Address] in Hw;
      repeat (rewrite addr_arm_skip by (rewrite Hn; done));
      rewrite enc_script_pub_key_arm; apply addr_arm_match; unfold zlen; lia.
Qed.

(** A script decodes to an address exactly when it is the output
    script of that (well-formed) address: [from_script_pub_key] and
    [to_script_pub_key] are mutually inverse, and no other script is accepted. *)
Theorem from_script_pub_key_iff s a :
  from_script_pub_key s = Ok a ↔ wf_Address a ∧ to_script_pub_key a = Ok s.
Proof. apply from_script_pub_key_spec. Qed.

(** The data of an OP_RETURN script is recovered, up to the
    83-byte limit on the script. *)
Theorem op_return_roundtrip data :
  zlen data ≤ 81 →
  ∃ s, script_op_return data = Ok s ∧ extract_op_return_data s = Ok data.
Proof.
  intros Hd. pose proof (zlen_nonneg data).
  exists (mkScript (op_byte OpReturn :: u8 (zlen data) :: data)). split.
  - unfold script_op_return, fmt_OpCode, fmt_u8.
    repeat (rewrite ?append_int, ?append_slice; cbn [mbind outcome_bind bytes script_new]).
    by rewrite wrap_small by (unfold fits; lia).
  - unfold extract_op_return_data. cbn [bytes lookup list_lookup mbind outcome_bind ok_or].
    change (byte.unsigned (op_byte OpReturn) =? opcode_u8 OpReturn) with true. cbn [negb].
    rewrite !zlen_cons. unfold MAX_OPRETURN_SIZE.
    destruct (Z.gtb_spec (1 + (1 + zlen data)) 83); [lia |].
    change (op_byte OpReturn :: u8 (zlen data) :: data)
      with ([op_byte OpReturn; u8 (zlen data)] ++ data).
    rewrite get_from_app by done. cbn.
    by rewrite unsigned_u8_fits, Z.eqb_refl by (unfold fits; lia).
Qed.

Lemma op_return_roundtrip_witness :
  zlen [u8 1; u8 2; u8 3] ≤ 81 ∧
  ∃ s, script_op_return [u8 1; u8 2; u8 3] = Ok s ∧
       extract_op_return_data s = Ok [u8 1; u8 2; u8 3].
Proof.
  split; [vm_compute; discriminate |].
  apply (op_return_roundtrip [u8 1; u8 2; u8 3]). vm_compute. discriminate.
Defined.

Section tx_id.
Context `{Sha256}.

Lemma tx_id_Ok tx : tx_id tx = Ok (mkH256Le (sha256d (enc_tx_no_witness tx))).
Proof.
  unfold tx_id. rewrite (writes_Vec _ _ _ (writes_tx_no_witness tx)).
  apply from_bytes_le_Ok, sha256_length.
Qed.

Lemma size_no_witness_Ok tx : size_no_witness tx = Ok (zlen (enc_tx_no_witness tx)).
Proof. unfold size_no_witness. by rewrite (writes_Vec _ _ _ (writes_tx_no_witness tx)). Qed.

Lemma tx_id_bounded_eq tx bound :
  fits 32 bound → zlen (enc_tx_no_witness tx) < 2 ^ 32 →
  tx_id_bounded tx bound =
    if zlen (enc_tx_no_witness tx) <=? bound then tx_id tx else Err BoundExceeded.
Proof.
  intros Hb Hl. rewrite tx_id_Ok. unfold tx_id_bounded. rewrite (writes_tx_no_witness tx) by done.
  pose proof (zlen_nonneg (enc_tx_no_witness tx)). unfold fits in Hb. cbn.
  rewrite wrap_small by (unfold fits; lia).
  unfold checked_reduce, checked_sub. cbn. rewrite Z2N.id by lia.
  destruct (_ <=? bound); [| done]. cbn. apply from_bytes_le_Ok, sha256_length.
Qed.

(** With a length bound, the transaction id is the unbounded id when
    the serialized size fits in the bound, and [BoundExceeded] otherwise. *)
Theorem tx_id_bounded_spec tx bound :
  fits 32 bound → zlen (enc_tx_no_witness tx) < 2 ^ 32 →
  size_no_witness tx = Ok (zlen (enc_tx_no_witness tx)) ∧
  tx_id_bounded tx bound =
    if zlen (enc_tx_no_witness tx) <=? bound then tx_id tx else Err BoundExceeded.
Proof. split; [apply size_no_witness_Ok | by apply tx_id_bounded_eq]. Qed.
End tx_id.

(** A 32-byte stand-in for SHA-256, to evaluate the definitions on examples. *)
Definition toy_sha256 : Sha256.
Proof.
  refine {| sha256 := λ b, to_le_bytes 32 (from_le_bytes b * 2654435761 + zlen b) |}.
  intros b. apply length_to_le_bytes.
Defined.

Definition example_tx : Transaction :=
  mkTransaction 2
    [mkTransactionInput (FromOutput (mkH256Le (replicate 32 (u8 7))) 1) [u8 1; u8 2] 5 []]
    [mkTransactionOutput 1000 (mkScript (enc_script_pub_key (P2WPKHv0 (replicate 20 (u8 9)))))]
    (BlockHeight 0).

Lemma tx_id_bounded_spec_witness :
  fits 32 84 ∧ zlen (enc_tx_no_witness example_tx) < 2 ^ 32 ∧
  size_no_witness example_tx = Ok (zlen (enc_tx_no_witness example_tx)) ∧
  @tx_id_bounded toy_sha256 example_tx 84 =
    if zlen (enc_tx_no_witness example_tx) <=? 84
    then @tx_id toy_sha256 example_tx else Err BoundExceeded.
Proof.
  assert (fits 32 84) as Hb by (split; lia).
  assert (zlen (enc_tx_no_witness example_tx) < 2 ^ 32) as Hl by reflexivity.
  split; [exact Hb |]. split; [exact Hl |].
  exact (@tx_id_bounded_spec toy_sha256 example_tx 84 Hb Hl).
Defined.
