(* ===== verification/BtcParse.v ===== *)
(** * Bitcoin deserialization ([crates/bitcoin/src/parser.rs])

    A [parser T] is one [Parsable::parse]: raw bytes and a position to a value
    and the number of bytes consumed.  [BytesParser] is the stateful reader, a
    state in the monad [M BytesParser Error].  Positions are [usize] (64 bits). *)

From coqutil Require Import Byte Word.LittleEndianList.
From Stdlib Require Import ZArith Lia.
From stdpp Require Import base tactics option list numbers.
From S2P Require Import Prelude Bytes BtcTypes BtcCompact BtcFormat.

Local Open Scope Z_scope.

Definition SERIALIZE_TRANSACTION_NO_WITNESS : Z := 0x40000000.
Definition LOCKTIME_THRESHOLD : Z := 500000000.

Definition parser (T : Type) : Type := list byte → Z → outcome Error (T * Z).

(** ** [BytesParser] *)
Record BytesParser : Type := mkBytesParser {
  raw_bytes : list byte;
  position : Z;
}.

Definition bp_new (bytes : list byte) : BytesParser := mkBytesParser bytes 0.

Definition bp_advance (n : Z) : M BytesParser Error unit := λ p,
  new_position ← ok_or (checked_add 64 (position p) n) ArithmeticOverflow;
  Ok (tt, mkBytesParser (raw_bytes p) new_position).

Definition bp_parse {T} (parse : parser T) : M BytesParser Error T :=
  p ← gets id;
  '(result, bytes_consumed) ← lift (parse (raw_bytes p) (position p));
  bp_advance bytes_consumed;;
  mret result.

(** [read]: the end of the slice is computed with a [usize] addition. *)
Definition bp_read (bytes_count : Z) : M BytesParser Error (list byte) :=
  p ← gets id;
  bytes ← lift (ok_or
    (get_range (raw_bytes p) (position p) (wrap 64 (position p + bytes_count))) EndOfFile);
  bp_advance bytes_count;;
  mret bytes.

(** The pattern of the composite parsers: a fresh [BytesParser] on the rest of
    the input; the bytes consumed are its final position. *)
Definition nested {T} (m : M BytesParser Error T) : parser T := λ raw pos,
  slice ← ok_or (get_from raw pos) EndOfFile;
  '(v, p) ← m (bp_new slice);
  Ok (v, position p).

(** ** Integers *)

(** [make_parsable_int!]. *)
Definition parse_uint (n : nat) : parser Z := λ raw pos,
  if wrap 64 (pos + Z.of_nat n) >? zlen raw then Err EndOfFile
  else
    slice ← unwrap (get_range raw pos (wrap 64 (pos + Z.of_nat n)));
    Ok (from_le_bytes slice, Z.of_nat n).
Definition parse_sint (n : nat) : parser Z := λ raw pos,
  '(v, k) ← parse_uint n raw pos;
  Ok (to_signed (8 * Z.of_nat n) v, k).
Definition parse_u8 := parse_uint 1.
Definition parse_u32 := parse_uint 4.
Definition parse_i32 := parse_sint 4.
Definition parse_i64 := parse_sint 8.
Definition parse_byte : parser byte := λ raw pos,
  '(v, k) ← parse_u8 raw pos; Ok (u8 v, k).

Definition parse_compact_uint (varint : list byte) : outcome Error (Z * Z) :=
  b ← ok_or (varint !! 0%nat) EndOfFile;
  let n := byte.unsigned b in
  if n =? 0xfd then
    num_bytes ← ok_or (get_range varint 1 3) EndOfFile;
    Ok (from_le_bytes num_bytes, 3)
  else if n =? 0xfe then
    num_bytes ← ok_or (get_range varint 1 5) EndOfFile;
    Ok (from_le_bytes num_bytes, 5)
  else if n =? 0xff then
    num_bytes ← ok_or (get_range varint 1 9) EndOfFile;
    Ok (from_le_bytes num_bytes, 9)
  else Ok (n, 1).

Definition parse_CompactUint : parser CompactUint := λ raw pos,
  slice ← ok_or (get_from raw pos) EndOfFile;
  '(value, bytes_consumed) ← parse_compact_uint slice;
  Ok (mkCompactUint value, bytes_consumed).

Definition parse_H256Le : parser H256Le := λ raw pos,
  slice ← ok_or (get_range raw pos (wrap 64 (pos + 32))) EndOfFile;
  h ← H256.from_bytes_le slice;
  Ok (h, 32).

(** ** Vectors *)

(** [for _ in 0..count { result.push(parser.parse()?) }].  An element consumes
    at least one byte, so the length of the input is enough fuel. *)
Fixpoint parse_n {T} (fuel : nat) (count : Z) (parse : parser T) : M BytesParser Error (list T) :=
  match fuel with
  | O => no_fuel
  | S fuel =>
      if count <=? 0 then mret []
      else
        x ← bp_parse parse;
        result ← parse_n fuel (count - 1) parse;
        mret (x :: result)
  end.

Definition parse_vec {T} (parse : parser T) : parser (list T) :=
  nested (
    count ← bp_parse parse_CompactUint;
    p ← gets id;
    parse_n (S (length (raw_bytes p))) (cu_value count) parse).

(** [impl Parsable for Vec<bool>]: the bits of one byte. *)
Definition parse_bools : parser (list bool) := λ raw pos,
  byte ← ok_or (get_at raw pos) EndOfFile;
  let flag_bits :=
    (λ i : nat, negb (Z.land (byte.unsigned byte) (Z.shiftl 1 (Z.of_nat i)) =? 0)) <$> seq 0 8 in
  Ok (flag_bits, 1).

Definition parse_U256 : parser Z := λ raw pos,
  if wrap 64 (pos + 4) >? zlen raw then Err EndOfFile
  else
    bytes ← unwrap (get_range raw pos (wrap 64 (pos + 4)));
    compact ← ok_or (set_compact (from_le_bytes bytes)) InvalidCompact;
    Ok (compact, 4).

(** ** Transactions *)

(** [parse_transaction_input].  [buffer[..height_size]] of the 4-byte buffer
    panics when [height_size] exceeds 4. *)
Definition parse_coinbase_height (script_size : Z) : M BytesParser Error (Z * Z) :=
  height_size ← bp_parse parse_CompactUint;
  let height_size := cu_value height_size in
  script_size ← lift (ok_or (checked_sub script_size (wrap 64 (height_size + 1))) EndOfFile);
  bytes ← bp_read height_size;
  bytes ← lift (ok_or (get_range bytes 0 height_size) EndOfFile);
  if height_size >? 4 then lift Panic
  else mret (from_le_bytes bytes, script_size).

Definition parse_transaction_input (version : Z) : M BytesParser Error TransactionInput :=
  previous_hash ← bp_parse parse_H256Le;
  previous_index ← bp_parse parse_u32;
  let is_coinbase := bool_decide (previous_hash = H256.zero) in
  if is_coinbase && negb (previous_index =? umax 32) then lift (Err MalformedTransaction)
  else
    script_size ← bp_parse parse_CompactUint;
    '(source, script_size) ←
      (if is_coinbase then
         if negb (version =? 2) then mret (Coinbase None, cu_value script_size)
         else
           '(height, script_size) ← parse_coinbase_height (cu_value script_size);
           mret (Coinbase (Some height), script_size)
       else mret (FromOutput previous_hash previous_index, cu_value script_size));
    script ← bp_read script_size;
    if is_coinbase && (zlen script >? 100) then lift (Err MalformedTransaction)
    else
      sequence ← bp_parse parse_u32;
      mret (mkTransactionInput source script sequence []).

Definition parse_TransactionInput (version : Z) : parser TransactionInput :=
  nested (parse_transaction_input version).

Definition parse_transaction_output : M BytesParser Error TransactionOutput :=
  value ← bp_parse parse_i64;
  script_size ← bp_parse parse_CompactUint;
  if cu_value script_size >? 10000 then lift (Err MalformedTransaction)
  else
    script ← bp_read (cu_value script_size);
    mret (mkTransactionOutput value (mkScript script)).

Definition parse_TransactionOutput : parser TransactionOutput := nested parse_transaction_output.

(** [for input in &mut inputs { input.with_witness(parser.parse()?) }] *)
Fixpoint parse_witnesses (l : list TransactionInput) : M BytesParser Error (list TransactionInput) :=
  match l with
  | [] => mret []
  | i :: l =>
      w ← bp_parse (parse_vec (parse_vec parse_byte));
      l ← parse_witnesses l;
      mret (with_witness i w :: l)
  end.

Definition witness_is_empty (i : TransactionInput) : bool :=
  match witness i with [] => true | _ => false end.

Definition parse_tx : M BytesParser Error Transaction :=
  version ← bp_parse parse_i32;
  if negb (version =? 1) && negb (version =? 2) then lift (Err MalformedTransaction)
  else
    let allow_witness := Z.land version SERIALIZE_TRANSACTION_NO_WITNESS =? 0 in
    inputs ← bp_parse (parse_vec (parse_TransactionInput version));
    '(flags, inputs) ←
      (if (zlen inputs =? 0) && allow_witness then
         flags ← bp_parse parse_u8;
         inputs ← bp_parse (parse_vec (parse_TransactionInput version));
         mret (flags, inputs)
       else mret (0, inputs));
    outputs ← bp_parse (parse_vec parse_TransactionOutput);
    '(flags, inputs) ←
      (if negb (Z.land flags 1 =? 0) && allow_witness then
         inputs ← parse_witnesses inputs;
         if forallb witness_is_empty inputs then lift (Err MalformedTransaction)
         else mret (Z.lxor flags 1, inputs)
       else mret (flags, inputs));
    locktime_or_blockheight ← bp_parse parse_u32;
    let lock_at :=
      if locktime_or_blockheight <? LOCKTIME_THRESHOLD
      then BlockHeight locktime_or_blockheight else Time locktime_or_blockheight in
    if negb (flags =? 0) then lift (Err MalformedTransaction)
    else mret (mkTransaction version inputs outputs lock_at).

Definition parse_Transaction : parser Transaction := nested parse_tx.

Definition parse_transaction (raw_transaction : list byte) : outcome Error Transaction :=
  fst <$> parse_Transaction raw_transaction 0.

(** ** Headers *)
Section header.
Context `{Sha256}.

Definition parse_block_header (bytes : list byte) : outcome Error BlockHeader :=
  '(h, _) ← (
    version ← bp_parse parse_i32;
    hash_prev_block ← bp_parse parse_H256Le;
    merkle_root ← bp_parse parse_H256Le;
    timestamp ← bp_parse parse_u32;
    target ← bp_parse parse_U256;
    nonce ← bp_parse parse_u32;
    hash ← lift (sha256d_le bytes);
    mret (mkBlockHeader merkle_root target timestamp version hash hash_prev_block nonce))
    (bp_new bytes);
  Ok h.

Definition parse_BlockHeader : parser BlockHeader := λ raw pos,
  header_bytes ← ok_or (get_range raw pos (wrap 64 (pos + 80))) EndOfFile;
  block_header ← parse_block_header header_bytes;
  Ok (block_header, 80).

(** [BlockHeader::from_bytes]. *)
Definition header_from_bytes (slice : list byte) : outcome Error BlockHeader :=
  if negb (zlen slice =? 80) then Err InvalidHeaderSize
  else parse_block_header slice.
End header.

(** The cases of the source's test of [parse_compact_uint]. *)
Example parse_compact_uint_1 : parse_compact_uint (u8 <$> [1; 2; 3]) = Ok (1, 1).
Proof. reflexivity. Qed.
Example parse_compact_uint_2 : parse_compact_uint (u8 <$> [253; 2; 3]) = Ok (770, 3).
Proof. reflexivity. Qed.
Example parse_compact_uint_4 :
  parse_compact_uint (u8 <$> [254; 2; 3; 8; 1; 8]) = Ok (17302274, 5).
Proof. reflexivity. Qed.
Example parse_compact_uint_8 :
  parse_compact_uint (u8 <$> [255; 6; 0xa; 3; 8; 1; 0xb; 2; 7; 8]) = Ok (504978207276206598, 9).
Proof. reflexivity. Qed.
