(* ===== verification/BtcRoundtrip.v ===== *)
(** * Parsing inverts formatting

    [parses p b v] and [reads m b v] say that a parser, put at the start of the
    bytes [b] anywhere in an input, consumes exactly [b] and returns [v].  They
    compose along the parsers' structure, which gives the round trips for
    headers and transactions. *)

From coqutil Require Import Byte Word.LittleEndianList.
From Stdlib Require Import ZArith Lia.
From stdpp Require Import base tactics option list numbers.
From S2P Require Import Prelude Bytes BtcTypes BtcCompact BtcFormat BtcParse.

Local Open Scope Z_scope.

(** No allocation exceeds [isize::MAX] bytes. *)
Definition addressable (l : list byte) : Prop := zlen l < 2 ^ 63.

Definition parses {T} (p : parser T) (b : list byte) (v : T) : Prop :=
  ∀ pre rest, addressable (pre ++ b ++ rest) →
    p (pre ++ b ++ rest) (zlen pre) = Ok (v, zlen b).

Definition reads {T} (m : M BytesParser Error T) (b : list byte) (v : T) : Prop :=
  ∀ pre rest, addressable (pre ++ b ++ rest) →
    m (mkBytesParser (pre ++ b ++ rest) (zlen pre)) =
      Ok (v, mkBytesParser (pre ++ b ++ rest) (zlen pre + zlen b)).

(** ** Composition *)

Ltac addressable_bounds :=
  unfold addressable in *; rewrite ?zlen_app in *;
  repeat match goal with
  | |- context [zlen ?l] =>
      lazymatch goal with
      | H : 0 ≤ zlen l |- _ => fail
      | _ => pose proof (zlen_nonneg l)
      end
  | _ : context [zlen ?l] |- _ =>
      lazymatch goal with
      | H : 0 ≤ zlen l |- _ => fail
      | _ => pose proof (zlen_nonneg l)
      end
  end.

Lemma reads_ret {T} (v : T) : reads (mret v) [] v.
Proof.
  intros pre rest _. unfold mret, M_ret. by rewrite zlen_nil, Z.add_0_r.
Qed.

Lemma reads_bind {A B} (m : M BytesParser Error A) (f : A → M BytesParser Error B) b c v w :
  reads m b v → reads (f v) c w → reads (m ≫= f) (b ++ c) w.
Proof.
  intros Hm Hf pre rest Ha. unfold mbind, M_bind.
  rewrite <- app_assoc in *. rewrite Hm by done.
  specialize (Hf (pre ++ b) rest). rewrite <- app_assoc, zlen_app in Hf.
  rewrite Hf by done. by rewrite zlen_app, Z.add_assoc.
Qed.

(** A step that consumes nothing. *)
Lemma reads_gets {A B} (g : BytesParser → A) (f : A → M BytesParser Error B) b v :
  (∀ p, reads (f (g p)) b v) → reads (gets g ≫= f) b v.
Proof. intros Hf pre rest Ha. unfold mbind, M_bind, gets. by apply Hf. Qed.

Lemma reads_lift {A B} (c : outcome Error A) (f : A → M BytesParser Error B) a b v :
  c = Ok a → reads (f a) b v → reads (lift c ≫= f) b v.
Proof. intros -> Hf pre rest Ha. unfold mbind, M_bind, lift. by apply Hf. Qed.

Lemma reads_bind_nil {A B} (m : M BytesParser Error A) (f : A → M BytesParser Error B) b v w :
  reads m b v → reads (f v) [] w → reads (m ≫= f) b w.
Proof. intros Hm Hf. rewrite <- (app_nil_r b). by eapply reads_bind. Qed.

Lemma reads_parse {T} (p : parser T) b v : parses p b v → reads (bp_parse p) b v.
Proof.
  intros Hp pre rest Ha. unfold bp_parse, bp_advance, mbind, M_bind, gets, lift. cbn.
  rewrite Hp by done. unfold checked_add. rewrite checked_fits; [done |].
  addressable_bounds. unfold fits. cbn [position]. lia.
Qed.

Lemma reads_read b : reads (bp_read (zlen b)) b b.
Proof.
  intros pre rest Ha. unfold bp_read, bp_advance, mbind, M_bind, gets, lift. cbn.
  assert (fits 64 (zlen pre + zlen b)) by (addressable_bounds; unfold fits; lia).
  rewrite wrap_small, get_range_app by done. cbn.
  unfold checked_add. by rewrite checked_fits.
Qed.

Lemma parses_nested {T} (m : M BytesParser Error T) b v : reads m b v → parses (nested m) b v.
Proof.
  intros Hm pre rest Ha. unfold nested. rewrite get_from_app by done. cbn.
  specialize (Hm [] rest). rewrite zlen_nil, !app_nil_l in Hm. unfold bp_new. rewrite Hm; [done |].
  addressable_bounds. lia.
Qed.

(** ** Integers and hashes *)

Lemma parses_uint n v :
  fits (8 * Z.of_nat n) v → parses (parse_uint n) (to_le_bytes n v) v.
Proof.
  intros Hv pre rest Ha. unfold parse_uint.
  assert (fits 64 (zlen pre + Z.of_nat n)).
  { addressable_bounds. rewrite zlen_to_le_bytes in *. unfold fits. lia. }
  rewrite wrap_small by done.
  rewrite get_range_app by (rewrite ?zlen_to_le_bytes; done).
  rewrite Z.gtb_ltb, (proj2 (Z.ltb_ge _ _)).
  - cbn. by rewrite from_to_le_bytes_fits, zlen_to_le_bytes.
  - addressable_bounds. rewrite zlen_to_le_bytes. lia.
Qed.

Lemma parses_sint n v :
  (0 < n)%nat → fits_signed (8 * Z.of_nat n) v → parses (parse_sint n) (to_le_bytes n v) v.
Proof.
  intros Hn Hv pre rest Ha. unfold parse_sint.
  rewrite <- (to_le_bytes_wrap n (8 * Z.of_nat n)) by done.
  rewrite parses_uint; [| apply wrap_fits; lia | by rewrite to_le_bytes_wrap].
  cbn. rewrite to_signed_wrap by (done || lia). by rewrite !zlen_to_le_bytes.
Qed.

Lemma parses_byte b : parses parse_byte [b] b.
Proof.
  intros pre rest Ha. unfold parse_byte, parse_u8.
  rewrite <- (to_le_bytes_1 b) in *. rewrite parses_uint by (done || apply unsigned_range).
  cbn. by rewrite u8_unsigned.
Qed.

Lemma parses_H256Le h : wf_H256Le h → parses parse_H256Le (content h) h.
Proof.
  intros Hh pre rest Ha. unfold parse_H256Le.
  assert (Hz : zlen (content h) = 32) by (unfold zlen; by rewrite Hh).
  rewrite wrap_small by (addressable_bounds; unfold fits; lia).
  rewrite get_range_app by (rewrite ?Hz; done). cbn.
  rewrite from_bytes_le_Ok by done. cbn. rewrite Hz. by destruct h.
Qed.

Lemma parses_compact v : fits 64 v → parses parse_CompactUint (enc_compact v) (mkCompactUint v).
Proof.
  intros Hv pre rest Ha. unfold parse_CompactUint. rewrite get_from_app by done. cbn.
  unfold enc_compact, parse_compact_uint, fits in *.
  (* the payload after a marker byte *)
  assert (Hp : ∀ n k, 0 ≤ v < 2 ^ (8 * Z.of_nat n) → k = 1 + Z.of_nat n → ∀ m,
    get_range ((u8 m :: to_le_bytes n v) ++ rest) 1 k = Some (to_le_bytes n v) ∧
    from_le_bytes (to_le_bytes n v) = v).
  { intros n k Hn -> m. split; [| by apply from_to_le_bytes_fits].
    change ((u8 m :: to_le_bytes n v) ++ rest) with ([u8 m] ++ to_le_bytes n v ++ rest).
    apply get_range_app; [done |]. by rewrite zlen_to_le_bytes. }
  unfold umax in *.
  destruct (Z.ltb_spec v 0xfd); [| destruct (Z.ltb_spec v (2 ^ 16 - 1));
    [| destruct (Z.ltb_spec v (2 ^ 32 - 1))]].
  - change (to_le_bytes 1 v) with [u8 v]. cbn [app lookup list_lookup ok_or mbind outcome_bind].
    rewrite unsigned_u8_fits by (unfold fits; lia).
    destruct (Z.eqb_spec v 0xfd), (Z.eqb_spec v 0xfe), (Z.eqb_spec v 0xff); try lia. done.
  - change (to_le_bytes 1 0xfd ++ to_le_bytes 2 v) with (u8 0xfd :: to_le_bytes 2 v).
    destruct (Hp 2%nat 3 ltac:(lia) eq_refl 0xfd) as [-> Hf]. cbn in *. by rewrite Hf.
  - change (to_le_bytes 1 0xfe ++ to_le_bytes 4 v) with (u8 0xfe :: to_le_bytes 4 v).
    destruct (Hp 4%nat 5 ltac:(lia) eq_refl 0xfe) as [-> Hf]. cbn in *. by rewrite Hf.
  - change (to_le_bytes 1 0xff ++ to_le_bytes 8 v) with (u8 0xff :: to_le_bytes 8 v).
    destruct (Hp 8%nat 9 ltac:(lia) eq_refl 0xff) as [-> Hf]. cbn in *. by rewrite Hf.
Qed.

(** ** Vectors *)

(** The bytes of a component of an addressable input are addressable. *)
Lemma reads_addressable {T} (m : M BytesParser Error T) b v :
  (addressable b → reads m b v) → reads m b v.
Proof. intros Hm pre rest Ha. apply Hm; [addressable_bounds; lia | done]. Qed.

Lemma parses_addressable {T} (p : parser T) b v : (addressable b → parses p b v) → parses p b v.
Proof. intros Hp pre rest Ha. apply Hp; [addressable_bounds; lia | done]. Qed.

Lemma reads_n {S T} (p : parser T) (e : S → list byte) (d : S → T) l :
  (∀ x, x ∈ l → parses p (e x) (d x)) →
  ∀ fuel, (length l < fuel)%nat → reads (parse_n fuel (zlen l) p) (mjoin (e <$> l)) (d <$> l).
Proof.
  induction l as [| x l IH]; intros Hp [| fuel] Hf; cbn in Hf; try lia.
  - apply reads_ret.
  - cbn [parse_n]. rewrite zlen_cons. pose proof (zlen_nonneg l).
    destruct (Z.leb_spec (1 + zlen l) 0); [lia |].
    replace (1 + zlen l - 1) with (zlen l) by lia.
    apply (reads_bind _ _ _ _ (d x)); [apply reads_parse, Hp; by left |].
    eapply reads_bind_nil; [| apply reads_ret].
    apply IH; [| lia]. intros y Hy. apply Hp. by right.
Qed.

Lemma length_join_ge {T} (e : T → list byte) l :
  (∀ x, x ∈ l → e x ≠ []) → (length l ≤ length (mjoin (e <$> l)))%nat.
Proof.
  induction l as [| x l IH]; intros He; [cbn; lia |].
  change (mjoin (e <$> x :: l)) with (e x ++ mjoin (e <$> l)). rewrite length_app.
  specialize (He x ltac:(by left)) as Hx. destruct (e x); [done |]. cbn [length].
  specialize (IH (λ y Hy, He y ltac:(by right))). lia.
Qed.

(** [d] is what the parser recovers of an element: all of it, or all but the
    witness. *)
Lemma parses_vec_map {S T} (p : parser T) (e : S → list byte) (d : S → T) l :
  (∀ x, x ∈ l → parses p (e x) (d x)) → (∀ x, x ∈ l → e x ≠ []) →
  parses (parse_vec p) (enc_vec e l) (d <$> l).
Proof.
  intros Hp He. unfold parse_vec, enc_vec. apply parses_nested.
  intros pre rest Ha. pose proof (length_join_ge e l He) as Hj.
  assert (reads (bp_parse parse_CompactUint) (enc_compact (zlen l)) (mkCompactUint (zlen l)))
    as Hc.
  { apply reads_parse, parses_compact. addressable_bounds. unfold fits, zlen in *. lia. }
  unfold mbind, M_bind, gets. rewrite <- app_assoc in *. rewrite Hc by done.
  cbn [raw_bytes cu_value id].
  pose proof (reads_n p e d l Hp) as Hn.
  specialize (Hn (Datatypes.S (length (pre ++ enc_compact (zlen l) ++ mjoin (e <$> l) ++ rest)))).
  specialize (Hn ltac:(rewrite !length_app; lia) (pre ++ enc_compact (zlen l)) rest).
  rewrite <- app_assoc, zlen_app in Hn. rewrite Hn by done. by rewrite zlen_app, Z.add_assoc.
Qed.

Lemma parses_vec {T} (p : parser T) (e : T → list byte) l :
  (∀ x, x ∈ l → parses p (e x) x) → (∀ x, x ∈ l → e x ≠ []) →
  parses (parse_vec p) (enc_vec e l) l.
Proof. intros Hp He. rewrite <- (list_fmap_id l) at 2. by apply parses_vec_map. Qed.

Lemma parses_bytes_vec b : parses (parse_vec parse_byte) (enc_bytes b) b.
Proof.
  unfold enc_bytes. rewrite <- (join_bytes b) at 2.
  apply (parses_vec _ (λ x, to_le_bytes 1 (byte.unsigned x))).
  - intros x _. rewrite to_le_bytes_1. apply parses_byte.
  - intros x _. by rewrite to_le_bytes_1.
Qed.

(** ** The height of a coinbase input *)

Lemma from_le_bytes_app_zeroes l n :
  from_le_bytes (l ++ replicate n (u8 0)) = from_le_bytes l.
Proof.
  unfold from_le_bytes. replace (replicate n (u8 0)) with (List.repeat Byte.x00 n).
  - apply le_combine_app_0.
  - induction n as [| n IH]; [done |]. cbn. by rewrite IH.
Qed.

(** Trimming leaves at least one byte and drops only zeroes. *)
Lemma trim_zeroes_spec i : ∀ l, length l = S i →
  ∃ k, (k ≤ i)%nat ∧ l = trim_zeroes i l ++ replicate k (u8 0) ∧
       (1 ≤ length (trim_zeroes i l))%nat.
Proof.
  induction i as [| i IH]; intros l Hl; cbn [trim_zeroes].
  { exists 0%nat. rewrite app_nil_r. split_and!; [done | done | lia]. }
  destruct (lookup_lt_is_Some_2 l (S i)) as [b Hb]; [lia |]. rewrite Hb.
  destruct (Z.eqb_spec (byte.unsigned b) 0) as [Hz | Hnz].
  2: { exists 0%nat. rewrite app_nil_r. split_and!; [lia | done | lia]. }
  assert (Hd : l = delete (S i) l ++ [b]).
  { rewrite <- (take_drop (S i) l) at 1.
    rewrite delete_take_drop, (drop_S l b (S i)) by done.
    rewrite (drop_ge l (S (S i))) by lia. by rewrite app_nil_r. }
  destruct (IH (delete (S i) l)) as (k & Hk & He & Hlen).
  { rewrite length_delete by done. lia. }
  exists (S k). split_and!; [lia | | done].
  rewrite Hd at 1. rewrite He at 1. rewrite <- app_assoc. f_equal.
  rewrite <- (u8_unsigned b), Hz. by rewrite <- replicate_S_end.
Qed.

Lemma from_le_bytes_app a b :
  from_le_bytes (a ++ b) = from_le_bytes a + from_le_bytes b * 2 ^ (8 * zlen a).
Proof.
  pose proof (from_le_bytes_fits a). pose proof (from_le_bytes_fits b).
  pose proof (zlen_nonneg a). unfold fits, from_le_bytes in *.
  rewrite le_combine_app, (Z.mul_comm _ 8). unfold zlen in *.
  by rewrite lor_shiftl_add by lia.
Qed.

(** The trimmed bytes: their value, their length and their top byte. *)
Lemma trimmed_height h :
  fits 32 h →
  let t := trim_zeroes 3 (to_le_bytes 4 h) in
  from_le_bytes t = h ∧
  ∃ t' b, t = t' ++ [b] ∧ (length t' ≤ 3)%nat ∧
          (128 ≤ byte.unsigned b ∧ length t' = 3%nat ↔ 2 ^ 31 ≤ h).
Proof.
  intros Hh t.
  destruct (trim_zeroes_spec 3 (to_le_bytes 4 h) (length_to_le_bytes 4 h)) as (k & Hk & He & Hl).
  fold t in He, Hl.
  assert (Hlen : (length t + k = 4)%nat).
  { rewrite <- (length_to_le_bytes 4 h), He, length_app, length_replicate. done. }
  assert (Hv : from_le_bytes t = h).
  { rewrite <- (from_le_bytes_app_zeroes t k), <- He. by apply from_to_le_bytes_fits. }
  split; [done |].
  destruct (list.last t) as [b |] eqn:Hb; [| apply last_None in Hb; rewrite Hb in Hl; cbn in Hl; lia].
  apply last_Some in Hb as [t' Ht']. exists t', b. split; [done |].
  rewrite Ht', length_app in Hlen. cbn [length] in Hlen. split; [lia |].
  rewrite Ht', from_le_bytes_app in Hv.
  pose proof (from_le_bytes_fits t') as Hf. pose proof (unsigned_range b) as Hr.
  change (from_le_bytes [b]) with (Z.lor (byte.unsigned b) 0) in Hv. rewrite Z.lor_0_r in Hv.
  unfold fits, zlen in *.
  destruct (decide (length t' = 3%nat)) as [H3 | Hne].
  - rewrite H3 in *. change (8 * Z.of_nat 3) with 24 in *. lia.
  - split; [lia |]. intros.
    assert (2 ^ (8 * Z.of_nat (length t')) ≤ 2 ^ 16) by (apply Z.pow_le_mono_r; lia). nia.
Qed.

Lemma length_height_bytes h :
  fits 32 h → zlen (height_bytes h) = 5 ∧ 2 ^ 31 ≤ h ∨ zlen (height_bytes h) ≤ 4 ∧ h < 2 ^ 31.
Proof.
  intros Hh. destruct (trimmed_height h Hh) as [_ (t' & b & Ht & Hl & Hiff)].
  unfold height_bytes. cbv zeta in Ht. rewrite Ht, last_snoc.
  pose proof (unsigned_range b) as Hr. unfold fits in Hr.
  change 0x80 with (2 ^ 7). rewrite land_pow2_zero by lia.
  change (2 ^ 7) with 128.
  destruct (Z.ltb_spec (byte.unsigned b) 128); cbn [negb];
    rewrite !zlen_app; unfold zlen; cbn [length].
  - right. split; [lia |]. destruct (Z.le_gt_cases (2 ^ 31) h); [| lia].
    apply Hiff in H0. lia.
  - destruct (decide (length t' = 3%nat)) as [He | He].
    + left. rewrite He. split; [lia |]. by apply Hiff.
    + right. split; [lia |]. destruct (Z.le_gt_cases (2 ^ 31) h); [| lia].
      apply Hiff in H0. lia.
Qed.

Lemma zlen_enc_compact_le v : zlen (enc_compact v) ≤ 9.
Proof.
  unfold enc_compact. repeat case_match; rewrite ?zlen_app, !zlen_to_le_bytes; lia.
Qed.

Lemma zlen_enc_height h : fits 32 h → zlen (enc_height h) ≤ 14.
Proof.
  intros Hh. unfold enc_height, enc_bytes. rewrite zlen_app.
  pose proof (zlen_enc_compact_le (zlen (height_bytes h))).
  destruct (length_height_bytes h Hh); lia.
Qed.

Lemma from_le_bytes_height h : fits 32 h → from_le_bytes (height_bytes h) = h.
Proof.
  intros Hh. destruct (trimmed_height h Hh) as [Hv (t' & b & Ht & _)].
  unfold height_bytes. cbv zeta in *. rewrite Ht, last_snoc. rewrite Ht in Hv.
  destruct (negb _); [| done]. change [u8 0] with (replicate 1 (u8 0)).
  by rewrite from_le_bytes_app_zeroes.
Qed.

(** ** Inputs and outputs *)

(** The inputs that the parser can return for a transaction version: a spending
    input has a previous hash, a coinbase input has a short script and, in
    version 2 only, a height. *)
Definition wf_input (version : Z) (i : TransactionInput) : Prop :=
  fits 32 (sequence i) ∧
  match source i with
  | FromOutput h index => wf_H256Le h ∧ h ≠ H256.zero ∧ fits 32 index
  | Coinbase None => version ≠ 2 ∧ zlen (script i) ≤ 100
  | Coinbase (Some height) => version = 2 ∧ 0 ≤ height < 2 ^ 31 ∧ zlen (script i) ≤ 100
  end.

Definition wf_output (o : TransactionOutput) : Prop :=
  fits_signed 64 (value o) ∧ zlen (bytes (out_script o)) ≤ 10000.

Lemma reads_mret_bind {A B} (x : A) (f : A → M BytesParser Error B) b v :
  reads (f x) b v → reads (mret x ≫= f) b v.
Proof. done. Qed.

Lemma get_range_all {A} (l : list A) : get_range l 0 (zlen l) = Some l.
Proof.
  pose proof (get_range_app [] l [] 0 (zlen l) eq_refl eq_refl) as Hr.
  cbn [app] in Hr. by rewrite app_nil_r in Hr.
Qed.

Lemma get_from_all {A} (l : list A) : get_from l 0 = Some l.
Proof. by apply (get_from_app [] l). Qed.

Lemma zlen_enc_compact_small v : 0 ≤ v < 0xfd → zlen (enc_compact v) = 1.
Proof.
  intros Hv. unfold enc_compact. rewrite (proj2 (Z.ltb_lt _ _)) by lia.
  apply zlen_to_le_bytes.
Qed.

Lemma reads_coinbase_height h n :
  0 ≤ h < 2 ^ 31 → 0 ≤ n →
  reads (parse_coinbase_height (n + zlen (enc_height h))) (enc_height h) (h, n).
Proof.
  intros Hh Hn. assert (fits 32 h) as Hf by (unfold fits; lia).
  destruct (length_height_bytes h Hf) as [? | [Hl _]]; [lia |].
  pose proof (zlen_nonneg (height_bytes h)).
  assert (He : zlen (enc_height h) = zlen (height_bytes h) + 1).
  { unfold enc_height, enc_bytes. rewrite zlen_app, zlen_enc_compact_small; lia. }
  unfold parse_coinbase_height. rewrite He. unfold enc_height, enc_bytes.
  eapply reads_bind; [apply reads_parse, parses_compact; unfold fits; lia |].
  cbn [cu_value]. rewrite wrap_small by (unfold fits; lia).
  apply (reads_lift _ _ n); [apply ok_or_Ok, checked_sub_Some; lia |].
  eapply reads_bind_nil; [apply reads_read |].
  eapply reads_lift; [by rewrite get_range_all |].
  rewrite Z.gtb_ltb, (proj2 (Z.ltb_ge _ _)) by lia.
  rewrite from_le_bytes_height by done.
  apply reads_ret.
Qed.

Lemma wf_zero : wf_H256Le H256.zero.
Proof. done. Qed.

(** The script and the sequence number, after the script's length. *)
Lemma reads_script_sequence (coinbase : bool) src i :
  fits 32 (sequence i) → (coinbase = true → zlen (script i) ≤ 100) →
  reads (script ← bp_read (zlen (script i));
         if coinbase && (zlen script >? 100) then lift (Err MalformedTransaction)
         else sequence ← bp_parse parse_u32; mret (mkTransactionInput src script sequence []))
    (script i ++ to_le_bytes 4 (sequence i))
    (mkTransactionInput src (script i) (sequence i) []).
Proof.
  intros Hs Hc. eapply reads_bind; [apply reads_read |].
  replace (coinbase && (zlen (script i) >? 100)) with false
    by (destruct coinbase; [rewrite Z.gtb_ltb; specialize (Hc eq_refl); cbn; lia | done]).
  eapply reads_bind_nil; [by apply reads_parse, (parses_uint 4) | apply reads_ret].
Qed.

Lemma reads_input version i :
  wf_input version i →
  reads (parse_transaction_input version) (enc_input i)
    (mkTransactionInput (source i) (script i) (sequence i) []).
Proof.
  intros (Hs & Hw). apply reads_addressable. intros Ha.
  assert (0 ≤ zlen (script i) < 2 ^ 63).
  { unfold enc_input in Ha. addressable_bounds. lia. }
  clear Ha. unfold enc_input, enc_outpoint, enc_script_prefix, parse_transaction_input.
  destruct (source i) as [h index | [height |]]; rewrite <- app_assoc.
  - destruct Hw as (Hh & Hz & Hi).
    eapply reads_bind; [by apply reads_parse, parses_H256Le |].
    eapply reads_bind; [by apply reads_parse, (parses_uint 4) |]. cbv zeta.
    rewrite bool_decide_eq_false_2 by done. cbn [andb].
    eapply reads_bind; [apply reads_parse, parses_compact; unfold fits; lia |].
    by apply reads_mret_bind, (reads_script_sequence false).
  - destruct Hw as (-> & Hh & Hl).
    eapply reads_bind; [apply reads_parse, parses_H256Le, wf_zero |].
    eapply reads_bind; [apply reads_parse, (parses_uint 4); unfold fits, umax; lia |]. cbv zeta.
    rewrite bool_decide_eq_true_2 by done. rewrite Z.eqb_refl. cbn [andb negb].
    assert (He : 0 ≤ zlen (enc_height height) ≤ 5).
    { destruct (length_height_bytes height ltac:(unfold fits; lia)) as [? | [Hb _]]; [lia |].
      pose proof (zlen_nonneg (height_bytes height)).
      unfold enc_height, enc_bytes. rewrite zlen_app, zlen_enc_compact_small; lia. }
    unfold saturating_add. rewrite Z.min_l by lia. rewrite <- app_assoc.
    eapply reads_bind; [apply reads_parse, parses_compact; unfold fits; lia |].
    cbn [cu_value Z.eqb Pos.eqb negb]. eapply reads_bind.
    { eapply reads_bind_nil; [apply reads_coinbase_height; lia | apply reads_ret]. }
    by apply (reads_script_sequence true).
  - destruct Hw as (Hv & Hl).
    eapply reads_bind; [apply reads_parse, parses_H256Le, wf_zero |].
    eapply reads_bind; [apply reads_parse, (parses_uint 4); unfold fits, umax; lia |]. cbv zeta.
    rewrite bool_decide_eq_true_2 by done. rewrite Z.eqb_refl. cbn [andb negb].
    eapply reads_bind; [apply reads_parse, parses_compact; unfold fits; lia |].
    rewrite (proj2 (Z.eqb_neq _ _)) by done. cbn [negb].
    by apply reads_mret_bind, (reads_script_sequence true).
Qed.

Lemma parses_output o : wf_output o → parses parse_TransactionOutput (enc_output o) o.
Proof.
  intros [Hv Hs]. apply parses_nested. unfold parse_transaction_output, enc_output, enc_bytes.
  pose proof (zlen_nonneg (bytes (out_script o))).
  eapply reads_bind; [by apply reads_parse, (parses_sint 8); [lia |] |].
  eapply reads_bind; [apply reads_parse, parses_compact; unfold fits; lia |]. cbn [cu_value].
  rewrite Z.gtb_ltb, (proj2 (Z.ltb_ge _ _)) by lia.
  eapply reads_bind_nil; [apply reads_read |]. destruct o as [v [s]]. apply reads_ret.
Qed.

(** ** Transactions *)

Lemma bytes_ne_nil (l : list byte) : 0 < zlen l → l ≠ [].
Proof. by intros ? ->. Qed.

Lemma enc_input_ne_nil i : enc_input i ≠ [].
Proof.
  apply bytes_ne_nil. unfold enc_input. rewrite !zlen_app, zlen_to_le_bytes.
  addressable_bounds. lia.
Qed.

Lemma enc_output_ne_nil o : enc_output o ≠ [].
Proof.
  apply bytes_ne_nil. unfold enc_output. rewrite zlen_app, zlen_to_le_bytes.
  addressable_bounds. lia.
Qed.

Lemma enc_vec_ne_nil {T} (e : T → list byte) l : enc_vec e l ≠ [].
Proof.
  apply bytes_ne_nil. unfold enc_vec, enc_compact. rewrite zlen_app.
  pose proof (zlen_nonneg (mjoin (e <$> l))).
  repeat case_match; rewrite ?zlen_app, !zlen_to_le_bytes; lia.
Qed.

(** An input without its witness. *)
Definition strip (i : TransactionInput) : TransactionInput := with_witness i [].

Lemma parses_inputs version l :
  Forall (wf_input version) l →
  parses (parse_vec (parse_TransactionInput version)) (enc_vec enc_input l) (strip <$> l).
Proof.
  intros Hw. apply parses_vec_map; [| intros; apply enc_input_ne_nil].
  intros i Hi. apply parses_nested, reads_input. exact (proj1 (Forall_forall _ _) Hw i (proj1 (list_elem_of_In _ _) Hi)).
Qed.

Lemma parses_outputs l :
  Forall wf_output l → parses (parse_vec parse_TransactionOutput) (enc_vec enc_output l) l.
Proof.
  intros Hw. apply parses_vec; [| intros; apply enc_output_ne_nil].
  intros o Ho. apply parses_output. exact (proj1 (Forall_forall _ _) Hw o (proj1 (list_elem_of_In _ _) Ho)).
Qed.

Lemma reads_witnesses l :
  reads (parse_witnesses (strip <$> l)) (mjoin (enc_witness <$> l)) l.
Proof.
  induction l as [| i l IH]; [apply reads_ret |].
  change (mjoin (enc_witness <$> i :: l)) with (enc_witness i ++ mjoin (enc_witness <$> l)).
  cbn [fmap list_fmap parse_witnesses]. eapply reads_bind.
  { apply reads_parse, parses_vec; [intros; apply parses_bytes_vec |].
    intros b _. apply bytes_ne_nil. unfold enc_bytes.
    pose proof (enc_vec_ne_nil (λ x, [x]) b) as Hne. unfold enc_vec in Hne.
    unfold enc_compact. repeat case_match; rewrite ?zlen_app, !zlen_to_le_bytes;
      pose proof (zlen_nonneg b); lia. }
  eapply reads_bind_nil; [apply IH |]. destruct i. apply reads_ret.
Qed.

Definition wf_lock (l : LockTime) : Prop :=
  match l with
  | BlockHeight h => 0 ≤ h < LOCKTIME_THRESHOLD
  | Time t => LOCKTIME_THRESHOLD ≤ t < 2 ^ 32
  end.

(** The transactions in the parser's range. *)
Definition wf_tx (tx : Transaction) : Prop :=
  (tx_version tx = 1 ∨ tx_version tx = 2) ∧ inputs tx ≠ [] ∧
  Forall (wf_input (tx_version tx)) (inputs tx) ∧ Forall wf_output (outputs tx) ∧
  wf_lock (lock_at tx).

Lemma has_witness_forallb tx : has_witness tx = negb (forallb witness_is_empty (inputs tx)).
Proof.
  unfold has_witness. induction (inputs tx) as [| i l IH]; [done |]. cbn.
  rewrite IH. unfold witness_is_empty. by destruct (witness i), (forallb _ l).
Qed.

Lemma strip_no_witness l : forallb witness_is_empty l = true → strip <$> l = l.
Proof.
  induction l as [| i l IH]; [done |]. cbn. intros [Hi Hl]%andb_true_iff.
  rewrite IH by done. f_equal. destruct i as [? ? ? []]; done.
Qed.

(** The end of a transaction: its lock time, with every flag cleared. *)
Lemma reads_lock_time version ins outs lock :
  wf_lock lock →
  reads (locktime_or_blockheight ← bp_parse parse_u32;
         let lock_at :=
           if locktime_or_blockheight <? LOCKTIME_THRESHOLD
           then BlockHeight locktime_or_blockheight else Time locktime_or_blockheight in
         if negb (0 =? 0) then lift (Err MalformedTransaction)
         else mret (mkTransaction version ins outs lock_at))
    (to_le_bytes 4 (locktime lock)) (mkTransaction version ins outs lock).
Proof.
  intros Hl. unfold LOCKTIME_THRESHOLD in *. eapply reads_bind_nil.
  { apply reads_parse, (parses_uint 4). destruct lock; cbn in *; unfold fits, LOCKTIME_THRESHOLD in *; lia. }
  cbv zeta. cbn [negb Z.eqb].
  destruct lock as [t | h]; cbn [locktime wf_lock] in *; unfold LOCKTIME_THRESHOLD in *.
  - rewrite (proj2 (Z.ltb_ge _ _)) by lia. apply reads_ret.
  - rewrite (proj2 (Z.ltb_lt _ _)) by lia. apply reads_ret.
Qed.

Lemma reads_tx tx : wf_tx tx → reads parse_tx (enc_tx tx) tx.
Proof.
  intros (Hv & Hne & Hi & Ho & Hl). unfold parse_tx, enc_tx.
  eapply reads_bind.
  { apply reads_parse, (parses_sint 4); [lia |].
    unfold fits_signed. change (2 ^ (8 * Z.of_nat 4 - 1)) with (2 ^ 31). lia. }
  assert ((negb (tx_version tx =? 1) && negb (tx_version tx =? 2)) = false) as ->
    by (destruct Hv as [-> | ->]; done).
  assert ((Z.land (tx_version tx) SERIALIZE_TRANSACTION_NO_WITNESS =? 0) = true) as ->
    by (destruct Hv as [-> | ->]; done).
  cbv zeta. rewrite has_witness_forallb.
  destruct (forallb witness_is_empty (inputs tx)) eqn:Hw; cbn [negb]; rewrite <- !app_assoc.
  - eapply reads_bind; [by apply reads_parse, parses_inputs |].
    rewrite (proj2 (Z.eqb_neq _ _)).
    2: { unfold zlen. rewrite length_fmap. destruct (inputs tx); [done | cbn; lia]. }
    apply reads_mret_bind. eapply reads_bind; [by apply reads_parse, parses_outputs |].
    apply reads_mret_bind. rewrite strip_no_witness by done.
    destruct tx. by apply reads_lock_time.
  - change (to_le_bytes 1 WITNESS_MARKER) with (enc_vec enc_input []).
    eapply reads_bind; [by apply reads_parse, parses_inputs |].
    cbn [fmap list_fmap].
    change ((zlen (A:=TransactionInput) [] =? 0) && true) with true. cbn match.
    rewrite (app_assoc (to_le_bytes 1 WITNESS_FLAG)). eapply reads_bind.
    { eapply reads_bind; [by apply reads_parse, (parses_uint 1) |].
      eapply reads_bind_nil; [by apply reads_parse, parses_inputs | apply reads_ret]. }
    eapply reads_bind; [by apply reads_parse, parses_outputs |].
    change (negb (Z.land WITNESS_FLAG 1 =? 0) && true) with true. cbn match. eapply reads_bind.
    { eapply reads_bind_nil; [apply reads_witnesses |]. rewrite Hw. apply reads_ret. }
    destruct tx. by apply reads_lock_time.
Qed.

(** ** Headers *)
Section header.
Context `{Sha256}.

Lemma parses_U256 c v :
  fits 32 c → set_compact c = Some v → parses parse_U256 (to_le_bytes 4 c) v.
Proof.
  intros Hc Hv pre rest Ha. pose proof (parses_uint 4 c Hc pre rest Ha) as Hp.
  unfold parse_uint in Hp. unfold parse_U256. change (Z.of_nat 4) with 4 in Hp.
  destruct (_ >? _); [done |]. destruct (get_range _ _ _); [| done]. cbn in *.
  injection Hp as ->. by rewrite Hv.
Qed.

Lemma length_enc_header h c :
  wf_H256Le (hash_prev_block h) → wf_H256Le (merkle_root h) → zlen (enc_header h c) = 80.
Proof.
  intros Hp Hm. unfold enc_header. rewrite !zlen_app, !zlen_to_le_bytes.
  unfold zlen. rewrite Hp, Hm. done.
Qed.

Lemma parse_block_header_enc h c :
  wf_BlockHeader h → fits 32 c → set_compact c = Some (target h) →
  parse_block_header (enc_header h c) = Ok (set_hash h (mkH256Le (sha256d (enc_header h c)))).
Proof.
  intros (Hm & _ & Ht & Hv & _ & Hp & Hn) Hc Hs.
  assert (Hz : zlen (enc_header h c) = 80) by by apply length_enc_header.
  unfold parse_block_header. set (raw := enc_header h c) in *.
  match goal with |- context [?m (bp_new raw)] => assert (reads m raw
    (set_hash h (mkH256Le (sha256d raw)))) as Hr end.
  { unfold raw at 2, enc_header.
    eapply reads_bind; [by apply reads_parse, (parses_sint 4); [lia |] |].
    eapply reads_bind; [by apply reads_parse, parses_H256Le |].
    eapply reads_bind; [by apply reads_parse, parses_H256Le |].
    eapply reads_bind; [by apply reads_parse, (parses_uint 4) |].
    eapply reads_bind; [by apply reads_parse, parses_U256 |].
    eapply reads_bind_nil; [by apply reads_parse, (parses_uint 4) |].
    eapply reads_lift; [apply from_bytes_le_Ok, sha256_length | apply reads_ret]. }
  specialize (Hr [] []). rewrite app_nil_l, app_nil_r, zlen_nil in Hr.
  unfold bp_new. rewrite Hr; [done |]. unfold addressable. lia.
Qed.

(** A header in range whose target has a compact form is
    serialized to 80 bytes, and parsing them gives the header back with its
    hash field set to the hash of those bytes, which is what [update_hash]
    computes. *)
Theorem header_roundtrip h c :
  wf_BlockHeader h → fits 32 c → set_compact c = Some (target h) →
  ∃ raw, fmt_BlockHeader h [] = Ok raw ∧ zlen raw = 80 ∧
         header_from_bytes raw = update_hash h ∧
         update_hash h = Ok (set_hash h (mkH256Le (sha256d raw))).
Proof.
  intros Hw Hc Hs. destruct (set_compact_Some c _ Hc Hs) as [Hf He].
  assert (Hg : get_compact (target h) =
               Some (mantissa (target h) (compact_size (target h))
                     + compact_size (target h) * 2 ^ 24)) by by apply get_compact_spec.
  set (c' := mantissa _ _ + _) in Hg.
  assert (Hc' : fits 32 c').
  { pose proof (mantissa_compact_size _ Hf). pose proof (compact_size_bounds _ Hf).
    unfold c', fits. lia. }
  assert (Hs' : set_compact c' = Some (target h)).
  { unfold c'. by rewrite set_compact_get_compact, He. }
  exists (enc_header h c'). pose proof Hw as (Hm & _ & _ & _ & _ & Hp & _).
  assert (Hfmt : fmt_BlockHeader h [] = Ok (enc_header h c'))
    by apply (writes_Vec _ _ [] (writes_BlockHeader h c' Hg)).
  assert (Hu : update_hash h = Ok (set_hash h (mkH256Le (sha256d (enc_header h c'))))).
  { unfold update_hash, header_hash. rewrite Hfmt. cbn.
    unfold sha256d_le. rewrite from_bytes_le_Ok by apply sha256_length. done. }
  assert (Hz : zlen (enc_header h c') = 80) by by apply length_enc_header.
  split_and!; [done | done | | done].
  rewrite Hu. unfold header_from_bytes. rewrite Hz. by apply parse_block_header_enc.
Qed.
End header.

Definition example_header : BlockHeader :=
  mkBlockHeader (mkH256Le (replicate 32 (u8 3))) (0xffff * 2 ^ 208) 1415239972 4
    H256.zero (mkH256Le (replicate 32 (u8 8))) 7.

Lemma header_roundtrip_witness :
  ∃ raw, fmt_BlockHeader example_header [] = Ok raw ∧ zlen raw = 80 ∧
         @header_from_bytes toy_sha256 raw = @update_hash toy_sha256 example_header ∧
         @update_hash toy_sha256 example_header
         = Ok (set_hash example_header (mkH256Le (@sha256d toy_sha256 raw))).
Proof.
  apply (@header_roundtrip toy_sha256 example_header 0x1d00ffff).
  - unfold wf_BlockHeader, wf_H256Le, fits, fits_signed. cbn. repeat split; try lia; try done.
  - split; lia.
  - reflexivity.
Defined.

(** ** Transactions *)

(** C30: parsing a serialized transaction, whatever bytes follow it,
    gives the transaction back. The transaction has version 1 or 2, at least one input and
    fields in the parser's range ([wf_tx]): sequence numbers, output indices and the lock time
    are [u32]s, values [i64]s, previous hashes 32 bytes and not zero, a coinbase script has at
    most 100 bytes and an output script 10000, and a coinbase has a height, below 2^31, in
    version 2 only. The bytes in all are fewer than 2^63. *)
Theorem transaction_roundtrip tx :
  wf_tx tx →
  ∃ raw, fmt_Transaction tx [] = Ok raw ∧
         ∀ rest, addressable (raw ++ rest) → parse_transaction (raw ++ rest) = Ok tx.
Proof.
  intros Hw. exists (enc_tx tx). split.
  { apply (writes_Vec _ _ [] (writes_Transaction tx)). }
  intros rest Ha. unfold parse_transaction, parse_Transaction.
  pose proof (parses_nested _ _ _ (reads_tx tx Hw) [] rest) as Hp.
  rewrite app_nil_l, zlen_nil in Hp. by rewrite Hp.
Qed.

(** A coinbase with a height, a witness and two outputs. *)
Definition example_coinbase : Transaction :=
  mkTransaction 2
    [mkTransactionInput (Coinbase (Some 328014)) (u8 <$> [6; 47; 80; 50; 83; 72]) 0
       [replicate 32 (u8 0)]]
    [mkTransactionOutput 5000000000 (mkScript (enc_script_pub_key (P2SH (replicate 20 (u8 1)))));
     mkTransactionOutput 0 (mkScript (u8 <$> [0x6a; 2; 1; 2]))]
    (Time 1600000000).

Lemma transaction_roundtrip_witness :
  ∃ raw, fmt_Transaction example_coinbase [] = Ok raw ∧
         ∀ rest, addressable (raw ++ rest) →
           parse_transaction (raw ++ rest) = Ok example_coinbase.
Proof.
  apply (transaction_roundtrip example_coinbase).
  split_and!.
  - by right.
  - done.
  - apply Forall_singleton. unfold wf_input, fits. cbn. repeat split; try lia; try done.
  - repeat constructor; try done.
  - done.
Defined.

(** *** Panics *)

Definition reads_panic {T} (m : M BytesParser Error T) (b : list byte) : Prop :=
  ∀ pre rest, addressable (pre ++ b ++ rest) →
    m (mkBytesParser (pre ++ b ++ rest) (zlen pre)) = Panic.

Lemma panic_bind_l {A B} (m : M BytesParser Error A) (f : A → M BytesParser Error B) b c :
  reads_panic m b → reads_panic (m ≫= f) (b ++ c).
Proof.
  intros Hm pre rest Ha. unfold mbind, M_bind. rewrite <- app_assoc in *. by rewrite Hm.
Qed.

Lemma panic_bind_r {A B} (m : M BytesParser Error A) (f : A → M BytesParser Error B) b c v :
  reads m b v → reads_panic (f v) c → reads_panic (m ≫= f) (b ++ c).
Proof.
  intros Hm Hf pre rest Ha. unfold mbind, M_bind.
  rewrite <- app_assoc in *. rewrite Hm by done.
  specialize (Hf (pre ++ b) rest). rewrite <- app_assoc, zlen_app in Hf. by apply Hf.
Qed.

Lemma panic_nested {T} (m : M BytesParser Error T) b :
  reads_panic m b → reads_panic (bp_parse (nested m)) b.
Proof.
  intros Hm pre rest Ha. unfold bp_parse, nested, mbind, M_bind, gets, lift. cbn.
  rewrite get_from_app by done. cbn.
  specialize (Hm [] rest). rewrite zlen_nil, !app_nil_l in Hm. unfold bp_new.
  rewrite Hm; [done |]. addressable_bounds. lia.
Qed.

Lemma panic_vec_head {T} (m : M BytesParser Error T) b n :
  0 < n < 2 ^ 64 → reads_panic m b →
  reads_panic (bp_parse (parse_vec (nested m))) (enc_compact n ++ b).
Proof.
  intros Hn Hm. apply panic_nested. eapply panic_bind_r.
  { apply reads_parse, parses_compact. unfold fits. lia. }
  cbn [cu_value]. intros pre rest Ha. unfold mbind, M_bind, gets. cbn [id raw_bytes parse_n].
  rewrite (proj2 (Z.leb_gt _ _)) by lia.
  unfold mbind, M_bind. by rewrite (panic_nested m b Hm pre rest Ha).
Qed.

Lemma panic_coinbase_height h n :
  2 ^ 31 ≤ h < 2 ^ 32 → 0 ≤ n →
  reads_panic (parse_coinbase_height (n + zlen (enc_height h))) (enc_height h).
Proof.
  intros Hh Hn.
  destruct (length_height_bytes h ltac:(unfold fits; lia)) as [[Hl _] | ?]; [| lia].
  unfold parse_coinbase_height, enc_height, enc_bytes.
  rewrite zlen_app, zlen_enc_compact_small by lia.
  eapply panic_bind_r; [apply reads_parse, parses_compact; unfold fits; lia |].
  rewrite Hl. cbn [cu_value].
  intros pre rest Ha. unfold mbind at 1, M_bind at 1, lift at 1.
  rewrite (proj2 (checked_sub_Some _ _ n)) by (change (wrap 64 (5 + 1)) with 6; lia).
  cbn [ok_or]. unfold mbind, M_bind. rewrite <- Hl at 1.
  rewrite reads_read by done. rewrite <- Hl at 1. by rewrite get_range_all.
Qed.

Lemma panic_input h s :
  2 ^ 31 ≤ h < 2 ^ 32 → zlen s ≤ 100 →
  reads_panic (parse_transaction_input 2)
    (enc_input (mkTransactionInput (Coinbase (Some h)) s 0 [])).
Proof.
  intros Hh Hs. pose proof (zlen_nonneg s).
  assert (He : zlen (enc_height h) = 6).
  { destruct (length_height_bytes h ltac:(unfold fits; lia)) as [[Hl _] | ?]; [| lia].
    unfold enc_height, enc_bytes. rewrite zlen_app, zlen_enc_compact_small; lia. }
  unfold enc_input, enc_outpoint, enc_script_prefix, parse_transaction_input.
  cbn [source script sequence]. rewrite <- !app_assoc.
  eapply panic_bind_r; [apply reads_parse, parses_H256Le, wf_zero |].
  eapply panic_bind_r; [apply reads_parse, (parses_uint 4); unfold fits, umax; lia |]. cbv zeta.
  rewrite bool_decide_eq_true_2 by done. rewrite Z.eqb_refl. cbn [andb negb].
  unfold saturating_add. rewrite Z.min_l by lia.
  eapply panic_bind_r; [apply reads_parse, parses_compact; unfold fits; lia |].
  cbn [cu_value Z.eqb Pos.eqb negb]. apply panic_bind_l.
  rewrite <- (app_nil_r (enc_height h)) at 2. apply panic_bind_l.
  apply panic_coinbase_height; lia.
Qed.

(** C39: a version-2 coinbase height of 2^31 or more is written in
    five bytes, and the parser panics on it: its buffer holds four. *)
Theorem coinbase_height_overflow_panics h s :
  2 ^ 31 ≤ h < 2 ^ 32 → zlen s ≤ 100 →
  let tx := mkTransaction 2 [mkTransactionInput (Coinbase (Some h)) s 0 []] [] (BlockHeight 0) in
  ∃ raw, fmt_Transaction tx [] = Ok raw ∧ parse_transaction raw = Panic.
Proof.
  intros Hh Hs tx. exists (enc_tx tx). split.
  { apply (writes_Vec _ _ [] (writes_Transaction tx)). }
  assert (Hr : reads_panic parse_tx (enc_tx tx)).
  { unfold parse_tx, enc_tx. eapply panic_bind_r; [by apply reads_parse, (parses_sint 4); [lia |] |].
    cbn [tx_version tx Z.eqb Pos.eqb negb andb inputs has_witness existsb witness orb].
    unfold enc_vec at 1. cbv zeta. rewrite <- app_assoc. apply panic_bind_l.
    apply panic_vec_head; [done |]. cbn. rewrite app_nil_r. by apply panic_input. }
  specialize (Hr [] []). rewrite zlen_nil, app_nil_l, app_nil_r in Hr.
  unfold parse_transaction, parse_Transaction, nested. rewrite get_from_all. cbn.
  unfold bp_new. rewrite Hr; [done |].
  set (i := mkTransactionInput (Coinbase (Some h)) s 0 []) in *.
  change (enc_tx tx) with (to_le_bytes 4 2 ++ ((enc_compact 1 ++ enc_input i ++ [])
    ++ enc_compact 0 ++ []) ++ to_le_bytes 4 0).
  change (enc_input i) with ((content H256.zero ++ to_le_bytes 4 (umax 32))
    ++ (enc_compact (saturating_add 64 (zlen s) (zlen (enc_height h))) ++ enc_height h)
    ++ s ++ to_le_bytes 4 0).
  unfold addressable. rewrite !zlen_app, !zlen_to_le_bytes.
  pose proof (zlen_enc_compact_le 1). pose proof (zlen_enc_compact_le 0).
  pose proof (zlen_enc_compact_le (saturating_add 64 (zlen s) (zlen (enc_height h)))).
  pose proof (zlen_enc_height h ltac:(unfold fits; lia)).
  change (zlen (content H256.zero)) with 32. change (zlen (A:=byte) []) with 0. lia.
Qed.

Lemma coinbase_height_overflow_panics_witness :
  let tx := mkTransaction 2
    [mkTransactionInput (Coinbase (Some 0x80000000)) [u8 1] 0 []] [] (BlockHeight 0) in
  ∃ raw, fmt_Transaction tx [] = Ok raw ∧ parse_transaction raw = Panic.
Proof.
  apply (coinbase_height_overflow_panics 0x80000000 [u8 1]); [lia | vm_compute; discriminate].
Defined.
