(* ===== verification/BtcParseTotal.v ===== *)
(** * The parser terminates, stays in bounds and rarely panics

    A small program logic for [M BytesParser Error]: [msafe] bounds the bytes
    consumed from both sides, excludes running out of fuel, and says when a
    panic is possible. *)

From coqutil Require Import Byte Word.LittleEndianList.
From Stdlib Require Import ZArith Lia.
From stdpp Require Import base tactics option list numbers.
From S2P Require Import Prelude Bytes BtcTypes BtcCompact BtcFormat BtcParse.
From S2P Require Import BtcRoundtrip.

Local Open Scope Z_scope.

Definition in_bounds (p : BytesParser) : Prop :=
  0 ≤ position p ≤ zlen (raw_bytes p) ∧ addressable (raw_bytes p).

(** From a reader in bounds, [m] consumes at least [k] bytes, stays in bounds,
    and its value satisfies [P]. *)
Definition msafe {T} (pn : Prop) (k : Z) (P : T → Prop) (m : M BytesParser Error T) : Prop :=
  ∀ p, in_bounds p →
    post pn (λ '(v, p'), raw_bytes p' = raw_bytes p ∧
               position p + k ≤ position p' ≤ zlen (raw_bytes p) ∧ P v) (m p).

Definition psafe {T} (pn : Prop) (P : T → Prop) (parse : parser T) : Prop :=
  ∀ raw pos, 0 ≤ pos ≤ zlen raw → addressable raw →
    post pn (λ '(v, n), 1 ≤ n ∧ pos + n ≤ zlen raw ∧ P v) (parse raw pos).

Definition any {T} (v : T) : Prop := True.

Lemma msafe_ret {T} pn (P : T → Prop) v : P v → msafe pn 0 P (mret v).
Proof. intros HP p [Hp _]. cbn. split_and!; [done | lia | lia | done]. Qed.

Lemma msafe_err {T} pn k (P : T → Prop) e : msafe pn k P (lift (Err e)).
Proof. done. Qed.

Lemma msafe_bind {A B} pn j k (P : A → Prop) (Q : B → Prop) m f :
  0 ≤ j → msafe pn j P m → (∀ a, P a → msafe pn k Q (f a)) → msafe pn (j + k) Q (m ≫= f).
Proof.
  intros Hj Hm Hf p Hp. unfold mbind, M_bind. specialize (Hm p Hp).
  destruct (m p) as [[a p'] | | |]; try done. destruct Hm as (Hr & Hb & HP).
  assert (Hp' : in_bounds p') by (destruct Hp; unfold in_bounds; rewrite Hr; split; [lia | done]).
  refine (post_mono _ _ _ _ _ (Hf a HP p' Hp') (λ x, x) _).
  intros [v q]. rewrite Hr. intros (-> & Hq & HQ). split_and!; [done | lia | lia | done].
Qed.

(** The common case of the second step consuming nothing for certain. *)
Lemma msafe_bind_l {A B} pn j (P : A → Prop) (Q : B → Prop) m f :
  0 ≤ j → msafe pn j P m → (∀ a, P a → msafe pn 0 Q (f a)) → msafe pn j Q (m ≫= f).
Proof. intros. rewrite <- (Z.add_0_r j). by eapply msafe_bind. Qed.

Lemma msafe_drop {T} pn j k (P : T → Prop) m : k ≤ j → msafe pn j P m → msafe pn k P m.
Proof.
  intros Hk Hm p Hp. refine (post_mono _ _ _ _ _ (Hm p Hp) (λ x, x) _).
  intros [v q] (-> & Hq & HP). split_and!; [done | lia | lia | done].
Qed.

Lemma msafe_lift {A} pn (P : A → Prop) c :
  post pn P c → msafe pn 0 P (lift c).
Proof.
  intros Hc p [Hp _]. destruct c; cbn in *; try done. split_and!; [done | lia | lia | done].
Qed.

Lemma msafe_gets {A B} pn k (Q : B → Prop) (g : BytesParser → A) (f : A → M BytesParser Error B) :
  (∀ p, in_bounds p →
    post pn (λ '(v, p'), raw_bytes p' = raw_bytes p ∧
               position p + k ≤ position p' ≤ zlen (raw_bytes p) ∧ Q v) (f (g p) p)) →
  msafe pn k Q (gets g ≫= f).
Proof. intros Hf p Hp. apply Hf, Hp. Qed.

Lemma msafe_parse {T} pn (P : T → Prop) (parse : parser T) :
  psafe pn P parse → msafe pn 1 P (bp_parse parse).
Proof.
  intros Hs p [Hp Ha]. unfold bp_parse, bp_advance, mbind, M_bind, gets, lift. cbn.
  specialize (Hs _ _ Hp Ha). destruct (parse _ _) as [[v n] | | |]; try done.
  destruct Hs as (Hn & Hl & HP). unfold checked_add.
  rewrite checked_fits by (unfold addressable in Ha; unfold fits; lia). cbn.
  split_and!; [done | lia | lia | done].
Qed.

Lemma msafe_read pn n : 0 ≤ n → msafe pn 0 any (bp_read n).
Proof.
  intros Hn p [Hp Ha]. unfold bp_read, bp_advance, mbind, M_bind, gets, lift. cbn.
  destruct (get_range _ _ _) as [b |] eqn:Hg; cbn; [| done].
  unfold checked_add. destruct (checked 64 _) as [q |] eqn:Hq; cbn; [| done].
  apply checked_Some in Hq as [-> Hf]. rewrite wrap_small in Hg by done.
  apply get_range_Some in Hg. split_and!; [done | lia | lia | done].
Qed.

Lemma psafe_nested {T} pn (P : T → Prop) m : msafe pn 1 P m → psafe pn P (nested m).
Proof.
  intros Hm raw pos Hp Ha. unfold nested.
  destruct (get_from raw pos) as [s |] eqn:Hg; cbn; [| done].
  apply get_from_Some in Hg as (_ & Hl & _).
  assert (Hb : in_bounds (bp_new s)).
  { unfold in_bounds, addressable, bp_new in *. cbn. pose proof (zlen_nonneg s). lia. }
  specialize (Hm _ Hb). destruct (m (bp_new s)) as [[v p] | | |]; try done.
  cbn in *. destruct Hm as (_ & Hq & HP). split_and!; [lia | lia | done].
Qed.

(** ** Leaves *)

Lemma psafe_uint pn n : (0 < n ≤ 8)%nat → psafe pn (λ v, 0 ≤ v) (parse_uint n).
Proof.
  intros Hn raw pos Hp Ha. unfold parse_uint. unfold addressable in Ha.
  rewrite wrap_small by (unfold fits; lia).
  destruct (Z.gtb_spec (pos + Z.of_nat n) (zlen raw)); [done |].
  destruct (get_range raw pos (pos + Z.of_nat n)) as [s |] eqn:Hg; cbn.
  - pose proof (from_le_bytes_fits s) as Hf. unfold fits in Hf. split_and!; lia.
  - unfold get_range in Hg. case_match; [done |].
    rewrite !andb_false_iff, !Z.leb_gt in *. lia.
Qed.

Lemma parse_uint_consumed n raw pos v k : parse_uint n raw pos = Ok (v, k) → k = Z.of_nat n.
Proof.
  unfold parse_uint. destruct (_ >? _); [done |].
  destruct (get_range _ _ _); cbn; [| done]. by intros [= _ <-].
Qed.

Lemma psafe_any {T} pn (P : T → Prop) p : psafe pn P p → psafe pn any p.
Proof.
  intros Hp raw pos Hb Ha. refine (post_mono _ _ _ _ _ (Hp raw pos Hb Ha) (λ x, x) _).
  intros [v n] (? & ? & ?). by split_and!.
Qed.

(** A parser that post-processes the value of another. *)
Lemma psafe_map {S T} pn (P : S → Prop) (p : parser S) (f : S → outcome Error T) :
  psafe pn P p → (∀ v, P v → post pn any (f v)) →
  psafe pn any (λ raw pos, '(v, k) ← p raw pos; w ← f v; Ok (w, k)).
Proof.
  intros Hp Hf raw pos Hb Ha. specialize (Hp raw pos Hb Ha).
  destruct (p raw pos) as [[v k] | | |]; try done. destruct Hp as (H1 & H2 & HP).
  cbn. specialize (Hf v HP). by destruct (f v).
Qed.

Lemma psafe_sint pn n : (0 < n ≤ 8)%nat → psafe pn any (parse_sint n).
Proof.
  intros Hn. exact (psafe_map pn _ _ (λ v, Ok (to_signed (8 * Z.of_nat n) v))
                      (psafe_uint pn n Hn) (λ _ _, I)).
Qed.

Lemma psafe_byte pn : psafe pn any parse_byte.
Proof. exact (psafe_map pn _ _ (λ v, Ok (u8 v)) (psafe_uint pn 1 ltac:(lia)) (λ _ _, I)). Qed.

Lemma psafe_compact pn : psafe pn (λ c, 0 ≤ cu_value c) parse_CompactUint.
Proof.
  intros raw pos Hp Ha. unfold parse_CompactUint.
  destruct (get_from raw pos) as [s |] eqn:Hg; cbn; [| done].
  apply get_from_Some in Hg as (_ & Hl & _). unfold parse_compact_uint.
  destruct s as [| b s']; [done |]. cbn [lookup list_lookup ok_or mbind outcome_bind].
  pose proof (unsigned_range b) as Hb. unfold fits in Hb.
  rewrite zlen_cons in Hl. pose proof (zlen_nonneg s').
  assert (Hpay : ∀ k, 2 ≤ k →
    post pn (λ '(v, n), 1 ≤ n ∧ pos + n ≤ zlen raw ∧ 0 ≤ cu_value v)
      ('(value, n) ← (num_bytes ← ok_or (get_range (b :: s') 1 k) EndOfFile;
                      Ok (from_le_bytes num_bytes, k));
       Ok (mkCompactUint value, n))).
  { intros k Hk. destruct (get_range _ _ _) as [nb |] eqn:Hr; cbn; [| done].
    apply get_range_Some in Hr. rewrite zlen_cons in Hr.
    pose proof (from_le_bytes_fits nb) as Hf. unfold fits in Hf. split_and!; lia. }
  repeat case_match; try (apply Hpay; lia). cbn. split_and!; lia.
Qed.

Lemma psafe_slice {T} pn n (f : list byte → outcome Error T) :
  1 ≤ n ≤ 2 ^ 32 → (∀ s, zlen s = n → post pn any (f s)) →
  psafe pn any (λ raw pos,
    s ← ok_or (get_range raw pos (wrap 64 (pos + n))) EndOfFile; h ← f s; Ok (h, n)).
Proof.
  intros Hn Hf raw pos Hp Ha. unfold addressable in Ha.
  rewrite wrap_small by (unfold fits; lia).
  destruct (get_range raw pos (pos + n)) as [s |] eqn:Hg; cbn; [| done].
  apply get_range_Some in Hg. specialize (Hf s ltac:(lia)).
  destruct (f s); try done. cbn. split_and!; [lia | lia | done].
Qed.

Lemma psafe_H256Le pn : psafe pn any parse_H256Le.
Proof.
  apply (psafe_slice pn 32 H256.from_bytes_le); [lia |].
  intros s Hs. unfold H256.from_bytes_le. by rewrite Hs.
Qed.

(** ** Vectors: the length of the input is enough fuel *)

Lemma safe_n {T} pn (P : T → Prop) (parse : parser T) : psafe pn P parse →
  ∀ fuel count p, in_bounds p → zlen (raw_bytes p) - position p < Z.of_nat fuel →
    post pn (λ '(l, p'), raw_bytes p' = raw_bytes p ∧
               position p ≤ position p' ≤ zlen (raw_bytes p) ∧ Forall P l)
      (parse_n fuel count parse p).
Proof.
  intros Hs. induction fuel as [| fuel IH]; intros count p Hp Hf.
  { destruct Hp. lia. }
  cbn [parse_n]. destruct (count <=? 0).
  { destruct Hp. cbn. split_and!; [done | lia | lia | constructor]. }
  unfold mbind, M_bind. pose proof (msafe_parse pn P parse Hs p Hp) as Hx.
  destruct (bp_parse parse p) as [[x q] | | |]; try done. destruct Hx as (Hr & Hq & HPx).
  assert (Hb : in_bounds q) by (destruct Hp; unfold in_bounds; rewrite Hr; split; [lia | done]).
  specialize (IH (count - 1) q Hb ltac:(rewrite Hr; lia)).
  destruct (parse_n fuel (count - 1) parse q) as [[l q'] | | |]; try done.
  rewrite Hr in IH. destruct IH as (Hr' & Hq' & Hl). cbn.
  split_and!; [exact Hr' | lia | lia | by constructor].
Qed.

Lemma psafe_vec {T} pn (P : T → Prop) (parse : parser T) :
  psafe pn P parse → psafe pn (Forall P) (parse_vec parse).
Proof.
  intros Hs. unfold parse_vec. apply psafe_nested.
  eapply msafe_bind_l; [lia | apply msafe_parse, psafe_compact |].
  intros c _. apply msafe_gets. intros p Hp. cbn [id].
  refine (post_mono _ _ _ _ _ (safe_n pn P parse Hs _ (cu_value c) p Hp _) (λ x, x) _).
  - destruct Hp as [[? ?] _]. unfold zlen in *. lia.
  - intros [l q] (-> & ? & ?). split_and!; [done | lia | lia | done].
Qed.

(** ** Transactions *)

Lemma msafe_coinbase_height n : 0 ≤ n → msafe True 0 (λ '(_, s), 0 ≤ s) (parse_coinbase_height n).
Proof.
  intros Hn. unfold parse_coinbase_height.
  apply (msafe_drop _ 1); [lia |].
  eapply msafe_bind_l; [lia | apply msafe_parse, psafe_compact |]. intros c Hc. cbv zeta.
  eapply msafe_bind_l; [lia | |].
  { apply (msafe_lift True (λ s, 0 ≤ s)). unfold ok_or, checked_sub.
    destruct (Z.leb_spec (wrap 64 (cu_value c + 1)) n); cbn; [lia | done]. }
  intros s Hs. eapply msafe_bind_l; [lia | by apply msafe_read |]. intros b _.
  eapply msafe_bind_l; [lia | apply (msafe_lift True any); by destruct (get_range _ _ _) |].
  intros b' _. destruct (_ >? 4); [done |]. by apply msafe_ret.
Qed.

(** An input can panic only in a version-2 transaction. *)
Lemma psafe_input version : psafe (version = 2) any (parse_TransactionInput version).
Proof.
  apply psafe_nested. unfold parse_transaction_input.
  eapply msafe_bind_l; [lia | apply msafe_parse, psafe_H256Le |]. intros h _.
  apply (msafe_drop _ 1); [lia |].
  eapply msafe_bind_l; [lia | apply msafe_parse, (psafe_uint _ 4); lia |].
  intros idx _. cbv zeta.
  destruct (_ && _); [done |].
  apply (msafe_drop _ 1); [lia |].
  eapply msafe_bind_l; [lia | apply msafe_parse, psafe_compact |]. intros size Hsize.
  eapply (msafe_bind_l _ 0 (λ '(_, s), 0 ≤ s)); [lia | |].
  - destruct (bool_decide _); [| by apply msafe_ret].
    destruct (Z.eqb_spec version 2) as [-> |]; [| by apply msafe_ret]. cbn [negb].
    eapply msafe_bind_l; [lia | |].
    + intros p Hp. refine (post_mono _ _ _ _ _ (msafe_coinbase_height _ Hsize p Hp) _ (λ _ x, x)).
      done.
    + intros [height s] Hs. by apply msafe_ret.
  - intros [src s] Hs. eapply msafe_bind_l; [lia | by apply msafe_read |]. intros b _.
    destruct (_ && _); [done |].
    apply (msafe_drop _ 1); [lia |].
    eapply msafe_bind_l; [lia | apply msafe_parse, (psafe_uint _ 4); lia |].
    intros sq _. by apply msafe_ret.
Qed.

Lemma psafe_output pn : psafe pn any parse_TransactionOutput.
Proof.
  apply psafe_nested. unfold parse_transaction_output.
  eapply msafe_bind_l; [lia | apply msafe_parse, psafe_sint; lia |]. intros v _.
  apply (msafe_drop _ 1); [lia |].
  eapply msafe_bind_l; [lia | apply msafe_parse, psafe_compact |]. intros size Hs.
  destruct (_ >? _); [done |].
  eapply msafe_bind_l; [lia | by apply msafe_read |]. intros b _. by apply msafe_ret.
Qed.

Lemma msafe_witnesses pn l : msafe pn 0 any (parse_witnesses l).
Proof.
  induction l as [| i l IH]; [by apply msafe_ret |]. cbn [parse_witnesses].
  apply (msafe_drop _ 1); [lia |].
  eapply msafe_bind_l; [lia | apply msafe_parse, psafe_vec, psafe_vec, psafe_byte |].
  intros w _. eapply msafe_bind_l; [lia | apply IH |]. intros l' _. by apply msafe_ret.
Qed.

(** Everything after the version. *)
Definition parse_tx_body (version : Z) : M BytesParser Error Transaction :=
  if negb (version =? 1) && negb (version =? 2) then lift (Err MalformedTransaction)
  else
    let allow_witness := Z.land version SERIALIZE_TRANSACTION_NO_WITNESS =? 0 in
    inputs ← bp_parse (parse_vec (parse_TransactionInput version));
    '(flags, inputs) ←
      (if (zlen inputs =? 0) && allow_witness then
         flags ← bp_parse parse_u8;
         inputs ← bp_parse (parse_vec (parse_TransactionInput version));
         mret (flags, inputs)
       else mret (0, inputs));
    outputs ← bp_parse (parse_vec parse_TransactionOutput);
    '(flags, inputs) ←
      (if negb (Z.land flags 1 =? 0) && allow_witness then
         inputs ← parse_witnesses inputs;
         if forallb witness_is_empty inputs then lift (Err MalformedTransaction)
         else mret (Z.lxor flags 1, inputs)
       else mret (flags, inputs));
    locktime_or_blockheight ← bp_parse parse_u32;
    let lock_at :=
      if locktime_or_blockheight <? LOCKTIME_THRESHOLD
      then BlockHeight locktime_or_blockheight else Time locktime_or_blockheight in
    if negb (flags =? 0) then lift (Err MalformedTransaction)
    else mret (mkTransaction version inputs outputs lock_at).

Lemma parse_tx_body_eq : parse_tx = (version ← bp_parse parse_i32; parse_tx_body version).
Proof. reflexivity. Qed.

Lemma msafe_tx_body version : msafe (version = 2) 0 any (parse_tx_body version).
Proof.
  unfold parse_tx_body. destruct (_ && _); [done |]. cbv zeta.
  apply (msafe_drop _ 1); [lia |].
  eapply msafe_bind_l; [lia | apply msafe_parse, psafe_vec, psafe_input |]. intros ins _.
  eapply (msafe_bind_l _ 0 any); [lia | |].
  { destruct (_ && _); [| by apply msafe_ret].
    apply (msafe_drop _ 1); [lia |].
    eapply msafe_bind_l; [lia | apply msafe_parse, (psafe_uint _ 1); lia |]. intros fl _.
    apply (msafe_drop _ 1); [lia |].
    eapply msafe_bind_l; [lia | apply msafe_parse, psafe_vec, psafe_input |].
    intros ins' _. by apply msafe_ret. }
  intros [fl ins'] _. apply (msafe_drop _ 1); [lia |].
  eapply msafe_bind_l; [lia | apply msafe_parse, psafe_vec, psafe_output |]. intros outs _.
  eapply (msafe_bind_l _ 0 any); [lia | |].
  { destruct (_ && _); [| by apply msafe_ret].
    eapply msafe_bind_l; [lia | apply msafe_witnesses |]. intros l _.
    destruct (forallb _ _); [done | by apply msafe_ret]. }
  intros [fl' ins''] _. apply (msafe_drop _ 1); [lia |].
  eapply msafe_bind_l; [lia | apply msafe_parse, (psafe_uint _ 4); lia |]. intros lk _.
  destruct (negb _); [done | by apply msafe_ret].
Qed.

(** ** Properties *)

(** C31: on every input, the transaction parser stops with a
    transaction, an error or a panic; a transaction has consumed at least one
    and at most all bytes; a panic is only possible when the version field,
    the first four bytes, is 2. *)
Theorem parse_Transaction_total raw :
  addressable raw →
  match parse_Transaction raw 0 with
  | Ok (_, n) => 1 ≤ n ≤ zlen raw
  | Err _ => True
  | Panic => parse_i32 raw 0 = Ok (2, 4)
  | NoFuel => False
  end.
Proof.
  intros Ha. unfold parse_Transaction, nested. rewrite get_from_all. cbn.
  rewrite parse_tx_body_eq. unfold mbind at 1 2, M_bind, outcome_bind.
  assert (Hb : in_bounds (bp_new raw)).
  { split; [| done]. cbn. pose proof (zlen_nonneg raw). lia. }
  pose proof (msafe_parse False any parse_i32 (psafe_sint False 4 ltac:(lia)) _ Hb) as Hv.
  destruct (bp_parse parse_i32 (bp_new raw)) as [[v q] | | |] eqn:Hi; try done.
  cbn in Hv. destruct Hv as (Hr & Hq & _).
  assert (Hb' : in_bounds q) by (split; [rewrite Hr; cbn; lia | by rewrite Hr]).
  pose proof (msafe_tx_body v q Hb') as Hs.
  destruct (parse_tx_body v q) as [[tx q'] | | |]; try done.
  - cbn in Hs. destruct Hs as (Hr' & Hq' & _). cbn. rewrite Hr in *. cbn in *. lia.
  - cbn in Hs. subst v. unfold bp_parse, bp_advance, mbind, M_bind, gets, lift in Hi. cbn in Hi.
    unfold parse_i32, parse_sint in *.
    destruct (parse_uint 4 raw 0) as [[u k] | | |] eqn:Hu; try done. cbn in Hi |- *.
    destruct (checked_add _ _ _); [| done]. injection Hi as Hi _. 
    rewrite Hi. by rewrite (parse_uint_consumed _ _ _ _ _ Hu).
Qed.

Lemma parse_Transaction_total_witness :
  addressable (u8 <$> [2; 0; 0; 0; 0; 1; 0]) ∧
  match parse_Transaction (u8 <$> [2; 0; 0; 0; 0; 1; 0]) 0 with
  | Ok (_, n) => 1 ≤ n ≤ zlen (u8 <$> [2; 0; 0; 0; 0; 1; 0])
  | Err _ => True
  | Panic => parse_i32 (u8 <$> [2; 0; 0; 0; 0; 1; 0]) 0 = Ok (2, 4)
  | NoFuel => False
  end.
Proof.
  assert (addressable (u8 <$> [2; 0; 0; 0; 0; 1; 0])) as Ha by reflexivity.
  split; [exact Ha | exact (parse_Transaction_total _ Ha)].
Defined.
