(* ===== verification/BtcMerkle.v ===== *)
(** * Merkle trees and transaction inclusion proofs

    [crates/bitcoin/src/merkle.rs], [Block::merkle_proof] of [types.rs] and the
    serialization of proofs of [formatter.rs].  Tree heights are [u32] values;
    they are [nat] here because the recursions are on the height. *)

From coqutil Require Import Byte Word.LittleEndianList.
From Stdlib Require Import ZArith Lia.
From stdpp Require Import base tactics option list numbers.
From S2P Require Import Prelude Bytes BtcTypes BtcCompact BtcFormat BtcParse.

Local Open Scope Z_scope.

Definition MAX_BLOCK_WEIGHT : Z := 4000000.
Definition WITNESS_SCALE_FACTOR : Z := 4.
Definition MIN_TRANSACTION_WEIGHT : Z := WITNESS_SCALE_FACTOR * 60.
Definition MAX_TRANSACTIONS_IN_PROOF : Z := MAX_BLOCK_WEIGHT / MIN_TRANSACTION_WEIGHT.

Record MerkleProof : Type := mkMerkleProof {
  block_header : BlockHeader;
  flag_bits : list bool;
  transactions_count : Z;
  hashes : list H256Le;
}.

Record PartialTransactionProof : Type := mkPartialTransactionProof {
  transaction : Transaction;
  tx_encoded_len : Z;
  merkle_proof : MerkleProof;
}.

Record FullTransactionProof : Type := mkFullTransactionProof {
  user_tx_proof : PartialTransactionProof;
  coinbase_proof : PartialTransactionProof;
}.

Record MerkleProofTraversal : Type := mkTraversal {
  bits_used : Z;
  hashes_used : Z;
  merkle_position : option Z;
  hash_position : option Z;
}.

Record ProofResult : Type := mkProofResult {
  extracted_root : H256Le;
  transaction_hash : H256Le;
  transaction_position : Z;
  proof_transaction : Transaction;
  tx_count : Z;
  block_hash : H256Le;
}.

(** Shifts of a [u32] use the low five bits of the amount. *)
Definition shl32 (a h : Z) : Z := wrap 32 (Z.shiftl a (h mod 32)).
Definition shr32 (a h : Z) : Z := Z.shiftr a (h mod 32).

Definition compute_width (transactions_count height : Z) : Z :=
  shr32 (wrap 32 (wrap 32 (transactions_count + shl32 1 height) - 1)) height.

Fixpoint compute_height_loop (fuel : nat) (transactions_count height : Z) : outcome Error Z :=
  match fuel with
  | O => NoFuel
  | S fuel =>
      if compute_width transactions_count height >? 1
      then compute_height_loop fuel transactions_count (height + 1)
      else Ok height
  end.

Definition compute_height (transactions_count : Z) : outcome Error Z :=
  compute_height_loop 33 transactions_count 0.

Section merkle.
Context `{Sha256}.

(** [MerkleTree::compute_root]; indexing out of range panics. *)
Fixpoint compute_root (height : nat) (index transactions_count : Z) (hashes : list H256Le)
  : outcome Error H256Le :=
  match height with
  | O => unwrap (get_at hashes index)
  | S height =>
      left_index ← ok_or (checked_mul 32 index 2) ArithmeticOverflow;
      left ← compute_root height left_index transactions_count hashes;
      right_index ← ok_or (checked_add 32 left_index 1) ArithmeticOverflow;
      right ← (if right_index <? compute_width transactions_count (Z.of_nat height)
               then compute_root height right_index transactions_count hashes
               else Ok left);
      hash256_merkle_step (H256.to_bytes_le left) (H256.to_bytes_le right)
  end.

(** [MerkleProof::compute_partial_tree_width] and [_height]. *)
Definition compute_partial_tree_width (self : MerkleProof) (height : Z) : Z :=
  compute_width (transactions_count self) height.
Definition compute_partial_tree_height (self : MerkleProof) : outcome Error Z :=
  compute_height (transactions_count self).
Definition compute_merkle_root (self : MerkleProof) (index : Z) (height : nat)
    (tx_ids : list H256Le) : outcome Error H256Le :=
  compute_root height index (transactions_count self) tx_ids.

(** [MerkleProof::traverse_and_extract]. *)
Fixpoint traverse_and_extract (self : MerkleProof) (height : nat) (pos : Z)
  : M MerkleProofTraversal Error H256Le :=
  bits_used ← gets bits_used;
  parent_of_hash ← lift (ok_or (get_at (flag_bits self) bits_used) EndOfFile);
  bits_used ← lift (ok_or (checked_add 64 bits_used 1) ArithmeticOverflow);
  modify (λ t, mkTraversal bits_used (hashes_used t) (merkle_position t) (hash_position t));;
  (* nothing interesting below, or a leaf: use a stored hash *)
  let stored (leaf : bool) : M MerkleProofTraversal Error H256Le :=
    hashes_used ← gets hashes_used;
    if hashes_used >=? zlen (hashes self) then lift (Err MalformedMerkleProof)
    else
      hash ← lift (unwrap (get_at (hashes self) hashes_used));
      (if leaf && parent_of_hash
       then modify (λ t, mkTraversal (BtcMerkle.bits_used t) (BtcMerkle.hashes_used t)
                           (Some pos) (Some hashes_used))
       else mret tt);;
      hashes_used ← lift (ok_or (checked_add 64 hashes_used 1) ArithmeticOverflow);
      modify (λ t, mkTraversal (BtcMerkle.bits_used t) hashes_used
                     (merkle_position t) (hash_position t));;
      mret hash in
  match height with
  | O => stored true
  | S next_height =>
      if negb parent_of_hash then stored false
      else
        left_index ← lift (ok_or (checked_mul 32 pos 2) ArithmeticOverflow);
        right_index ← lift (ok_or (checked_add 32 left_index 1) ArithmeticOverflow);
        left ← traverse_and_extract self next_height left_index;
        right ← (if right_index <? compute_partial_tree_width self (Z.of_nat next_height)
                 then traverse_and_extract self next_height right_index
                 else mret left);
        lift (hash256_merkle_step (H256.to_bytes_le left) (H256.to_bytes_le right))
  end.

(** The loop of [traverse_and_build]: is a transaction below the node matched?
    [matches[p]] panics past the end of [matches], so its length is enough fuel. *)
Fixpoint match_loop (fuel : nat) (count stop p : Z) (matches : list bool)
    (parent_of_match : bool) : outcome Error bool :=
  match fuel with
  | O => NoFuel
  | S fuel =>
      if (p <? stop) && (p <? count) then
        m ← unwrap (get_at matches p);
        match_loop fuel count stop (wrap 32 (p + 1)) matches (parent_of_match || m)
      else Ok parent_of_match
  end.

Definition push_flag (b : bool) (p : MerkleProof) : MerkleProof :=
  mkMerkleProof (block_header p) (flag_bits p ++ [b]) (transactions_count p) (hashes p).
Definition push_hash (h : H256Le) (p : MerkleProof) : MerkleProof :=
  mkMerkleProof (block_header p) (flag_bits p) (transactions_count p) (hashes p ++ [h]).

(** [MerkleProof::traverse_and_build]. *)
Fixpoint traverse_and_build (height : nat) (pos : Z) (tx_ids : list H256Le)
    (matches : list bool) : M MerkleProof Error unit :=
  count ← gets transactions_count;
  parent_of_match ← lift (match_loop (S (length matches)) count
    (shl32 (wrap 32 (pos + 1)) (Z.of_nat height)) (shl32 pos (Z.of_nat height)) matches false);
  modify (push_flag parent_of_match);;
  let store : M MerkleProof Error unit :=
    self ← gets id;
    hash ← lift (compute_merkle_root self pos height tx_ids);
    modify (push_hash hash) in
  match height with
  | O => store
  | S next_height =>
      if negb parent_of_match then store
      else
        left_index ← lift (ok_or (checked_mul 32 pos 2) ArithmeticOverflow);
        right_index ← lift (ok_or (checked_add 32 left_index 1) ArithmeticOverflow);
        traverse_and_build next_height left_index tx_ids matches;;
        self ← gets id;
        whenM (right_index <? compute_partial_tree_width self (Z.of_nat next_height))
          (traverse_and_build next_height right_index tx_ids matches)
  end.

(** [PartialTransactionProof::verify_proof], its checks in source order. *)
Definition verify_proof (self : PartialTransactionProof) : outcome Error ProofResult :=
  let proof := merkle_proof self in
  ensure (negb (transactions_count proof =? 0)) MalformedMerkleProof;;
  ensure (transactions_count proof <=? MAX_TRANSACTIONS_IN_PROOF) MalformedMerkleProof;;
  ensure (zlen (hashes proof) <=? zlen (flag_bits proof)) MalformedMerkleProof;;
  height ← compute_partial_tree_height proof;
  '(root, traversal) ←
    traverse_and_extract proof (Z.to_nat height) 0 (mkTraversal 0 0 None None);
  merkle_position ← ok_or (merkle_position traversal) InvalidMerkleProof;
  hash_position ← ok_or (hash_position traversal) InvalidMerkleProof;
  ensure (hashes_used traversal =? zlen (hashes proof)) MalformedMerkleProof;;
  used ← ok_or (checked_add 64 (bits_used traversal) 7) ArithmeticOverflow;
  available ← ok_or (checked_add 64 (zlen (flag_bits proof)) 7) ArithmeticOverflow;
  ensure (used / 8 =? available / 8) MalformedMerkleProof;;
  tx_id ← tx_id_bounded (transaction self) (tx_encoded_len self);
  proven_hash ← unwrap (get_at (hashes proof) hash_position);
  ensure (bool_decide (proven_hash = tx_id)) InvalidTxid;;
  Ok {| extracted_root := root;
        transaction_hash := proven_hash;
        transaction_position := merkle_position;
        proof_transaction := transaction self;
        tx_count := transactions_count proof;
        block_hash := hash (block_header proof) |}.

(** [Block::merkle_proof]. *)
Definition block_merkle_proof (self : Block) (include : list H256Le) : outcome Error MerkleProof :=
  let proof := mkMerkleProof (header self) [] (wrap 32 (zlen (transactions self))) [] in
  tx_ids ← mapM tx_id (transactions self);
  let matches := (λ id, bool_decide (id ∈ include)) <$> tx_ids in
  height ← compute_partial_tree_height proof;
  '(_, proof) ← traverse_and_build (Z.to_nat height) 0 tx_ids matches proof;
  Ok proof.

(** [BlockBuilder::compute_merkle_root]. *)
Definition builder_compute_merkle_root (self : Block) : outcome Error H256Le :=
  height ← log2 (zlen (transactions self));
  tx_ids ← mapM tx_id (transactions self);
  compute_root (Z.to_nat height) 0 (wrap 32 (zlen tx_ids)) tx_ids.

(** [MerkleProof::parse]. *)
Definition parse_MerkleProof (raw : list byte) : outcome Error MerkleProof :=
  let fuel := S (length raw) in
  '(proof, _) ← (
    block_header ← bp_parse parse_BlockHeader;
    transactions_count ← bp_parse parse_u32;
    hashes_count ← bp_parse parse_CompactUint;
    hashes ← parse_n fuel (cu_value hashes_count) parse_H256Le;
    flag_bits_count ← bp_parse parse_CompactUint;
    flag_bits ← parse_n fuel (cu_value flag_bits_count) parse_bools;
    mret (mkMerkleProof block_header (mjoin flag_bits) transactions_count hashes)) (bp_new raw);
  Ok proof.
End merkle.

Section format.
Context `{Writer W}.

(** [bytes[p / 8] |= (flag_bits[p] as u8) << (p % 8)]. *)
Fixpoint set_flag_bits (p : nat) (flags : list bool) (bytes : list Z) : list Z :=
  match flags with
  | [] => bytes
  | b :: flags =>
      set_flag_bits (S p) flags
        (alter (λ v, Z.lor v (Z.shiftl (if b then 1 else 0) (Z.of_nat (p mod 8)))) (p / 8)%nat bytes)
  end.

Definition flag_bytes (flags : list bool) : list Z :=
  set_flag_bits 0 flags (replicate ((length flags + 7) / 8) 0).

(** [impl TryFormat for MerkleProof]. *)
Definition fmt_MerkleProof (p : MerkleProof) (w : W) : outcome Error W :=
  w ← fmt_BlockHeader (block_header p) w;
  w ← fmt_u32 (transactions_count p) w;
  w ← fmt_vec fmt_H256Le (hashes p) w;
  _ ← ok_or (checked_add 64 (zlen (flag_bits p)) 7) ArithmeticOverflow;
  fmt_bytes_vec (u8 <$> flag_bytes (flag_bits p)) w.
End format.
