(* ===== verification/BtcMerkleTree.v ===== *)
(** * The Merkle tree of a block, level by level

    The reference tree of Bitcoin: [pair_up] hashes adjacent nodes (an odd last
    node with itself) and [level ids h] is the row of nodes at height [h].  The
    recursive, index-based [compute_root] of the code computes exactly the
    nodes of these rows, and [compute_height] is the height of the root. *)

From coqutil Require Import Byte Word.LittleEndianList.
From Stdlib Require Import ZArith Lia.
From stdpp Require Import base tactics option list numbers.
From S2P Require Import Prelude Bytes BtcTypes BtcCompact BtcFormat BtcParse BtcMerkle.

Local Open Scope Z_scope.

(** ** Widths and heights *)

(** Below this count no [u32] operation of [compute_width] wraps. *)
Definition MAX_COUNT : Z := 2 ^ 31.

Definition ceil_width (n h : Z) : Z := (n + 2 ^ h - 1) / 2 ^ h.

Lemma compute_width_ceil n h :
  0 ≤ n ≤ MAX_COUNT → 0 ≤ h ≤ 31 → compute_width n h = ceil_width n h.
Proof.
  unfold MAX_COUNT. intros Hn Hh. unfold compute_width, shr32, shl32, ceil_width.
  rewrite (Z.mod_small h 32), Z.shiftl_1_l, Z.shiftr_div_pow2 by lia.
  assert (1 ≤ 2 ^ h ≤ 2 ^ 31).
  { split; [apply (Z.pow_le_mono_r 2 0); lia | apply Z.pow_le_mono_r; lia]. }
  rewrite (wrap_small 32 (2 ^ h)) by (unfold fits; lia).
  destruct (Z.eq_dec (n + 2 ^ h) (2 ^ 32)) as [Heq | Hne].
  - by rewrite Heq.
  - rewrite (wrap_small 32 (n + 2 ^ h)) by (unfold fits; lia).
    by rewrite wrap_small by (unfold fits; lia).
Qed.

Lemma ceil_width_le n h k :
  0 ≤ h → 0 ≤ k → ceil_width n h ≤ k ↔ n ≤ k * 2 ^ h.
Proof.
  intros Hh Hk. unfold ceil_width.
  assert (0 < 2 ^ h) by (apply Z.pow_pos_nonneg; lia).
  split; intros Hle.
  - pose proof (Z.mul_succ_div_gt (n + 2 ^ h - 1) (2 ^ h)). nia.
  - assert ((n + 2 ^ h - 1) / 2 ^ h < k + 1); [apply Z.div_lt_upper_bound |]; nia.
Qed.

Lemma ceil_width_gt n h k : 0 ≤ h → 0 ≤ k → k < ceil_width n h ↔ k * 2 ^ h < n.
Proof. intros Hh Hk. pose proof (ceil_width_le n h k Hh Hk). lia. Qed.

Lemma ceil_width_succ n h :
  0 ≤ h → ceil_width n (h + 1) = (ceil_width n h + 1) / 2.
Proof.
  intros Hh. unfold ceil_width. assert (0 < 2 ^ h) by (apply Z.pow_pos_nonneg; lia).
  rewrite Z.pow_add_r by lia. change (2 ^ 1) with 2. rewrite <- Z.div_div by lia.
  f_equal. replace (n + 2 ^ h * 2 - 1) with (n + 2 ^ h - 1 + 1 * 2 ^ h) by lia.
  by rewrite Z.div_add by lia.
Qed.

Lemma ceil_width_0 n : ceil_width n 0 = n.
Proof. unfold ceil_width. change (2 ^ 0) with 1. rewrite Z.div_1_r. lia. Qed.

Lemma compute_height_loop_spec n k fuel h :
  1 ≤ n ≤ MAX_COUNT → 0 ≤ h → k = Z.log2_up n → (h ≤ k) → (Z.to_nat (k - h) < fuel)%nat →
  compute_height_loop fuel n h = Ok k.
Proof.
  intros Hn. revert h. induction fuel as [| fuel IH]; [intros; lia |]. intros h Hh Hk Hle Hf.
  assert (k ≤ 31) by (rewrite Hk; apply Z.log2_up_le_pow2; unfold MAX_COUNT in Hn; lia).
  cbn [compute_height_loop]. rewrite compute_width_ceil, Z.gtb_ltb by lia.
  destruct (Z.ltb_spec 1 (ceil_width n h)) as [Hw | Hw].
  - apply ceil_width_gt in Hw; [| lia..]. rewrite Z.mul_1_l in Hw.
    apply Z.log2_up_lt_pow2 in Hw; [| lia]. apply IH; lia.
  - apply ceil_width_le in Hw; [| lia..]. rewrite Z.mul_1_l in Hw.
    apply Z.log2_up_le_pow2 in Hw; [| lia]. f_equal. lia.
Qed.

Lemma compute_height_log2_up n :
  1 ≤ n ≤ MAX_COUNT → compute_height n = Ok (Z.log2_up n).
Proof.
  intros Hn. assert (0 ≤ Z.log2_up n ≤ 31).
  { split; [apply Z.log2_up_nonneg | apply Z.log2_up_le_pow2; unfold MAX_COUNT in Hn; lia]. }
  apply compute_height_loop_spec; lia.
Qed.

(** ** Levels *)

Section levels.
Context `{Sha256}.

Definition step (a b : H256Le) : H256Le := mkH256Le (sha256d (content a ++ content b)).

Lemma hash256_merkle_step_Ok a b :
  hash256_merkle_step (H256.to_bytes_le a) (H256.to_bytes_le b) = Ok (step a b).
Proof. apply from_bytes_le_Ok, sha256_length. Qed.

Fixpoint pair_up (l : list H256Le) : list H256Le :=
  match l with
  | a :: b :: l => step a b :: pair_up l
  | [a] => [step a a]
  | [] => []
  end.

Fixpoint level (ids : list H256Le) (h : nat) : list H256Le :=
  match h with O => ids | S h => pair_up (level ids h) end.

(** Lists by two elements at a time. *)
Lemma list_pair_ind {A} (P : list A → Prop) :
  P [] → (∀ a, P [a]) → (∀ a b l, P l → P (a :: b :: l)) → ∀ l, P l.
Proof.
  intros H0 H1 H2. fix IH 1. intros [| a [| b l]]; [done | done |]. apply H2, IH.
Qed.

Lemma zlen_pair_up l : zlen (pair_up l) = (zlen l + 1) / 2.
Proof.
  induction l as [| a | a b l IH] using list_pair_ind; [done | done |].
  cbn [pair_up]. rewrite !zlen_cons, IH.
  replace (1 + (1 + zlen l) + 1) with (zlen l + 1 + 1 * 2) by lia.
  rewrite Z.div_add by lia. lia.
Qed.

Lemma zlen_level ids h : zlen (level ids h) = ceil_width (zlen ids) (Z.of_nat h).
Proof.
  induction h as [| h IH]; cbn [level]; [by rewrite ceil_width_0 |].
  by rewrite zlen_pair_up, IH, Nat2Z.inj_succ, <- Z.add_1_r, ceil_width_succ by lia.
Qed.

(** The children of node [i]: [2 i], and [2 i + 1] when it exists. *)
Lemma pair_up_lookup l i x :
  pair_up l !! i = Some x ↔
  ∃ a, l !! (2 * i)%nat = Some a ∧ x = step a (default a (l !! (2 * i + 1)%nat)).
Proof.
  revert i. induction l as [| a | a b l IH] using list_pair_ind; intros i.
  - split; [done | by intros (? & ? & _)].
  - destruct i as [| i].
    + split; [intros [= <-]; by exists a | by intros (? & [= <-] & ->)].
    + split; [done | intros (? & Hx & _)].
      by replace (2 * S i)%nat with (S (S (2 * i))) in Hx by lia.
  - destruct i as [| i].
    + split; [intros [= <-]; by exists a | by intros (? & [= <-] & ->)].
    + replace (2 * S i)%nat with (S (S (2 * i))) by lia. apply IH.
Qed.

(** Below the top every level is full enough for [level_children]. *)
Lemma level_children ids h i x :
  level ids (S h) !! i = Some x →
  ∃ a, level ids h !! (2 * i)%nat = Some a ∧
    match level ids h !! (2 * i + 1)%nat with
    | Some b => x = step a b
    | None => x = step a a
    end.
Proof.
  cbn [level]. rewrite pair_up_lookup. intros (a & Ha & ->). exists a. split; [done |].
  by destruct (level ids h !! (2 * i + 1)%nat).
Qed.

Lemma level_lookup_lt ids h (i : nat) :
  is_Some (level ids h !! i) ↔ Z.of_nat i < ceil_width (zlen ids) (Z.of_nat h).
Proof. rewrite lookup_lt_is_Some, <- zlen_level. unfold zlen. lia. Qed.

(** [right_index < compute_width(count, height)] asks for the right child. *)
Lemma right_child_test ids h i :
  zlen ids ≤ MAX_COUNT → (h ≤ 31)%nat →
  (Z.of_nat i <? compute_width (zlen ids) (Z.of_nat h)) =
  bool_decide (is_Some (level ids h !! i)).
Proof.
  intros Hn Hh. pose proof (zlen_nonneg ids).
  rewrite compute_width_ceil by lia. apply eq_true_iff_eq.
  by rewrite Z.ltb_lt, bool_decide_eq_true, level_lookup_lt.
Qed.

(** A node of a level has an index whose double still is a [u32]. *)
Lemma level_index_bound ids h i x :
  zlen ids ≤ MAX_COUNT → level ids h !! i = Some x → Z.of_nat i * 2 ^ Z.of_nat h < MAX_COUNT.
Proof.
  intros Hn Hi. assert (is_Some (level ids h !! i)) as Hs by eauto.
  apply level_lookup_lt, ceil_width_gt in Hs; lia.
Qed.

Lemma child_indices ids h i x :
  zlen ids ≤ MAX_COUNT → level ids (S h) !! i = Some x →
  checked_mul 32 (Z.of_nat i) 2 = Some (Z.of_nat (2 * i)) ∧
  checked_add 32 (Z.of_nat (2 * i)) 1 = Some (Z.of_nat (2 * i + 1)).
Proof.
  intros Hn Hi. apply level_index_bound in Hi; [| done].
  rewrite Nat2Z.inj_succ, Z.pow_succ_r in Hi by lia.
  assert (0 < 2 ^ Z.of_nat h) by (apply Z.pow_pos_nonneg; lia).
  unfold MAX_COUNT in *.
  unfold checked_mul, checked_add.
  rewrite !checked_fits by (unfold fits; nia). split; f_equal; lia.
Qed.

(** The code's recursion computes the nodes of the levels. *)
Lemma compute_root_level ids h i x :
  zlen ids ≤ MAX_COUNT → (h ≤ 31)%nat → level ids h !! i = Some x →
  compute_root h (Z.of_nat i) (zlen ids) ids = Ok x.
Proof.
  intros Hn. revert i x. induction h as [| h IH]; intros i x Hh Hi.
  - cbn. unfold get_at. rewrite (proj2 (Z.leb_le _ _)), Nat2Z.id by lia.
    cbn [level] in Hi. by rewrite Hi.
  - destruct (child_indices _ _ _ _ Hn Hi) as [Hl Hr].
    apply level_children in Hi as (a & Ha & Hx). cbn [compute_root].
    rewrite Hl. cbn -[Z.of_nat Nat.mul Nat.add]. rewrite (IH _ a) by (done || lia). cbn -[Z.of_nat Nat.mul Nat.add].
    rewrite Hr. cbn -[Z.of_nat Nat.mul Nat.add]. rewrite right_child_test by (done || lia).
    destruct (level ids h !! (2 * i + 1)%nat) as [b |] eqn:Hb.
    + rewrite bool_decide_eq_true_2 by eauto. rewrite (IH _ b) by (done || lia).
      cbn. rewrite Hx. apply hash256_merkle_step_Ok.
    + rewrite bool_decide_eq_false_2 by (intros [? ?]; done).
      cbn. rewrite Hx. apply hash256_merkle_step_Ok.
Qed.

(** The root: the only node of the top level. *)
Definition tree_height (ids : list H256Le) : nat := Z.to_nat (Z.log2_up (zlen ids)).
Definition tree_root (ids : list H256Le) : option H256Le := level ids (tree_height ids) !! 0%nat.

Lemma tree_height_le ids : zlen ids ≤ MAX_COUNT → (tree_height ids ≤ 31)%nat.
Proof.
  intros Hn. unfold tree_height. pose proof (zlen_nonneg ids).
  destruct (Z.eq_dec (zlen ids) 0) as [-> |]; [cbn; lia |].
  assert (Z.log2_up (zlen ids) ≤ 31); [| lia].
  apply Z.log2_up_le_pow2; unfold MAX_COUNT in *; lia.
Qed.

Lemma top_level ids :
  1 ≤ zlen ids → ∃ r, level ids (tree_height ids) = [r].
Proof.
  intros Hn. pose proof (zlen_level ids (tree_height ids)) as Hl.
  unfold tree_height in Hl at 2. rewrite Z2Nat.id in Hl by apply Z.log2_up_nonneg.
  assert (ceil_width (zlen ids) (Z.log2_up (zlen ids)) = 1) as Hw.
  { apply Z.le_antisymm.
    - apply ceil_width_le; [apply Z.log2_up_nonneg | lia |]. rewrite Z.mul_1_l.
      apply Z.log2_up_le_pow2; lia.
    - apply (Z.le_succ_l 0), ceil_width_gt; [apply Z.log2_up_nonneg | lia | lia]. }
  rewrite Hw in Hl. unfold zlen in Hl.
  destruct (level _ _) as [| r []]; cbn in Hl; try lia. by exists r.
Qed.
End levels.

(** C32: the height the code computes is the least at which the tree
    has one node, and the recursive [compute_root] agrees with hashing the
    transaction ids level by level up to the single node of the top level. *)
Theorem compute_root_is_tree_root `{Sha256} ids :
  1 ≤ zlen ids ≤ MAX_COUNT →
  ∃ r, level ids (tree_height ids) = [r] ∧
       compute_height (zlen ids) = Ok (Z.of_nat (tree_height ids)) ∧
       (∀ h, (h < tree_height ids)%nat → 1 < zlen (level ids h)) ∧
       compute_root (tree_height ids) 0 (zlen ids) ids = Ok r.
Proof.
  intros Hn. destruct (top_level ids) as [r Hr]; [lia |]. exists r.
  assert (Z.of_nat (tree_height ids) = Z.log2_up (zlen ids)) as Hh
    by (apply Z2Nat.id, Z.log2_up_nonneg).
  split_and!; [done | by rewrite Hh, compute_height_log2_up | |].
  - intros h Hlt. rewrite zlen_level. apply ceil_width_gt; [lia.. |]. rewrite Z.mul_1_l.
    apply Z.log2_up_lt_pow2; lia.
  - change 0 with (Z.of_nat 0). apply compute_root_level; [lia | apply tree_height_le; lia |].
    by rewrite Hr.
Qed.

Definition toy_id (n : Z) : H256Le := mkH256Le (to_le_bytes 32 n).

Lemma compute_root_is_tree_root_witness :
  1 ≤ zlen (toy_id <$> [1; 2; 3; 4; 5]) ≤ MAX_COUNT ∧
  ∃ r, @level toy_sha256 (toy_id <$> [1; 2; 3; 4; 5]) 3 = [r] ∧
       @compute_root toy_sha256 3 0 5 (toy_id <$> [1; 2; 3; 4; 5]) = Ok r.
Proof.
  assert (1 ≤ zlen (toy_id <$> [1; 2; 3; 4; 5]) ≤ MAX_COUNT) as Hn
    by (split; vm_compute; discriminate).
  split; [exact Hn |].
  destruct (@compute_root_is_tree_root toy_sha256 _ Hn) as (r & Hr & _ & _ & Hc).
  exists r. split; [exact Hr | exact Hc].
Defined.
