(* ===== verification/BtcMerkleProofs.v ===== *)
(** * Soundness and completeness of transaction inclusion proofs

    A proof built by [block_merkle_proof] for a transaction of the block is
    accepted by [verify_proof] with the block's root; conversely a proof that
    yields the root of a block locates the transaction in that block, unless it
    exhibits a second preimage of one of the nodes of the block's own tree. *)

From coqutil Require Import Byte Word.LittleEndianList.
From Stdlib Require Import ZArith Lia.
From stdpp Require Import base tactics option list numbers sets.
From S2P Require Import Prelude Bytes BtcTypes BtcCompact BtcFormat BtcParse BtcMerkle.
From S2P Require Import BtcMerkleTree.

Local Open Scope Z_scope.

(** Vector lengths are below [isize::MAX]. *)
Definition sized {A} (l : list A) : Prop := zlen l < 2 ^ 63.

Lemma get_at_app {A} (p l : list A) x : get_at (p ++ x :: l) (zlen p) = Some x.
Proof.
  unfold get_at, zlen. rewrite (proj2 (Z.leb_le _ _)) by lia.
  by rewrite Nat2Z.id, list_lookup_middle.
Qed.

Lemma get_at_nat {A} (l : list A) (i : nat) : get_at l (Z.of_nat i) = l !! i.
Proof. unfold get_at. by rewrite (proj2 (Z.leb_le _ _)), Nat2Z.id by lia. Qed.

Lemma get_at_Some {A} (l : list A) i x :
  get_at l i = Some x → 0 ≤ i < zlen l ∧ l !! Z.to_nat i = Some x.
Proof.
  unfold get_at. destruct (Z.leb_spec 0 i); [| done]. intros Hx. split; [| done].
  apply lookup_lt_Some in Hx. unfold zlen. lia.
Qed.

Section extract.
Context `{Sha256}.
Implicit Types (q p : MerkleProof) (h i : nat).

(** ** Equations of the extraction *)

Lemma extract_stored q h i bu hu mp hp b x :
  get_at (flag_bits q) bu = Some b → (h = O ∨ b = false) →
  get_at (hashes q) hu = Some x → sized (flag_bits q) → sized (hashes q) →
  traverse_and_extract q h (Z.of_nat i) (mkTraversal bu hu mp hp) =
  Ok (x, if b then mkTraversal (bu + 1) (hu + 1) (Some (Z.of_nat i)) (Some hu)
         else mkTraversal (bu + 1) (hu + 1) mp hp).
Proof.
  intros Hb Hcase Hx Sf Sh. unfold sized in *.
  pose proof (get_at_Some _ _ _ Hb) as [? _]. pose proof (get_at_Some _ _ _ Hx) as [? _].
  assert (checked_add 64 bu 1 = Some (bu + 1)) as Hbu by (apply checked_fits; unfold fits; lia).
  assert (checked_add 64 hu 1 = Some (hu + 1)) as Hhu by (apply checked_fits; unfold fits; lia).
  assert ((hu >=? zlen (hashes q)) = false) as Hlt by (rewrite Z.geb_leb; apply Z.leb_gt; lia).
  destruct h as [| h].
  - cbn [traverse_and_extract]. run. cbn [bits_used]. rewrite Hb, Hbu. cbn [ok_or]. run.
    cbn [hashes_used]. rewrite Hlt, Hx, Hhu. by destruct b.
  - destruct Hcase as [| ->]; [done |].
    cbn [traverse_and_extract]. run. cbn [bits_used]. rewrite Hb, Hbu. cbn [ok_or]. run.
    cbn [hashes_used negb]. run. cbn [hashes_used]. by rewrite Hlt, Hx, Hhu.
Qed.

Definition right_extract q h i (l : H256Le) : M MerkleProofTraversal Error H256Le :=
  if Z.of_nat (2 * i + 1) <? compute_width (transactions_count q) (Z.of_nat h)
  then traverse_and_extract q h (Z.of_nat (2 * i + 1)) else mret l.

Lemma extract_inner q h i bu hu mp hp :
  get_at (flag_bits q) bu = Some true → sized (flag_bits q) →
  checked_mul 32 (Z.of_nat i) 2 = Some (Z.of_nat (2 * i)) →
  checked_add 32 (Z.of_nat (2 * i)) 1 = Some (Z.of_nat (2 * i + 1)) →
  traverse_and_extract q (S h) (Z.of_nat i) (mkTraversal bu hu mp hp) =
  (l ← traverse_and_extract q h (Z.of_nat (2 * i));
   r ← right_extract q h i l;
   mret (step l r)) (mkTraversal (bu + 1) hu mp hp).
Proof.
  intros Hb Sf Hl Hr. unfold sized in *. pose proof (get_at_Some _ _ _ Hb) as [? _].
  assert (checked_add 64 bu 1 = Some (bu + 1)) as Hbu by (apply checked_fits; unfold fits; lia).
  cbn [traverse_and_extract]. run. cbn [bits_used]. rewrite Hb, Hbu. cbn [ok_or]. run.
  cbn [negb]. rewrite Hl. cbn [ok_or]. run. rewrite Hr. cbn [ok_or]. run.
  unfold right_extract, compute_partial_tree_width.
  unfold mbind, M_bind. cbn [hashes_used merkle_position hash_position].
  destruct (traverse_and_extract q h _ _) as [[l t] | | |]; [| done..].
  destruct (_ <? _).
  - destruct (traverse_and_extract q h _ t) as [[r t'] | | |]; [| done..].
    by rewrite hash256_merkle_step_Ok.
  - cbn. by rewrite hash256_merkle_step_Ok.
Qed.
End extract.

(** ** Completeness *)
Section build.
Context `{Sha256} (ids : list H256Le) (matches : list bool).
Context (ids_count : 1 ≤ zlen ids ≤ MAX_COUNT) (matches_length : length matches = length ids).
Implicit Types (q p : MerkleProof) (h i : nat).

(** A matched transaction in the subtree of node [i] of level [h]. *)
Definition hit h i : Prop :=
  ∃ k, matches !! k = Some true ∧
       Z.of_nat i * 2 ^ Z.of_nat h ≤ Z.of_nat k < (Z.of_nat i + 1) * 2 ^ Z.of_nat h.

Lemma match_loop_spec fuel stop (p : nat) acc :
  (length matches - p < fuel)%nat →
  ∃ b, match_loop fuel (zlen ids) stop (Z.of_nat p) matches acc = Ok b ∧
       (b = true ↔ acc = true ∨
          ∃ k, matches !! k = Some true ∧ Z.of_nat p ≤ Z.of_nat k < stop).
Proof.
  assert (zlen ids = Z.of_nat (length matches)) as Hlen by (unfold zlen; lia).
  rewrite Hlen in *. unfold MAX_COUNT in *.
  revert p acc. induction fuel as [| fuel IH]; intros p acc Hf; [lia |].
  cbn [match_loop].
  destruct (Z.ltb_spec (Z.of_nat p) stop) as [Hs | Hs]; cbn [andb].
  1: destruct (Z.ltb_spec (Z.of_nat p) (Z.of_nat (length matches))) as [Hp | Hp].
  - destruct (lookup_lt_is_Some_2 matches p) as [m Hm]; [lia |].
    rewrite get_at_nat, Hm. cbn.
    rewrite wrap_small by (unfold fits; lia).
    replace (Z.of_nat p + 1) with (Z.of_nat (S p)) by lia.
    destruct (IH (S p) (acc || m)) as (b & -> & Hb); [lia |].
    exists b. split; [done |]. rewrite Hb, orb_true_iff. split.
    + intros [[| ->] | (k & ? & ?)]; [by left | right; exists p; split; [done | lia] |].
      right. exists k. split; [done | lia].
    + intros [| (k & Hk & ?)]; [tauto |].
      destruct (decide (k = p)) as [-> |]; [left; right; congruence |].
      right. exists k. split; [done | lia].
  - exists acc. split; [done |]. split; [tauto |]. intros [| (k & Hk%lookup_lt_Some & ?)]; [done | lia].
  - exists acc. split; [done |]. split; [tauto |]. intros [| (k & Hk & ?)]; [done | lia].
Qed.

Lemma match_loop_hit h i x :
  (h ≤ 31)%nat → level ids h !! i = Some x →
  ∃ b, match_loop (S (length matches)) (zlen ids)
         (shl32 (wrap 32 (Z.of_nat i + 1)) (Z.of_nat h)) (shl32 (Z.of_nat i) (Z.of_nat h))
         matches false = Ok b ∧ (b = true ↔ hit h i).
Proof.
  intros Hh Hi. apply level_index_bound in Hi; [| lia]. unfold MAX_COUNT in *.
  assert (1 ≤ 2 ^ Z.of_nat h ≤ 2 ^ 31).
  { split; [apply (Z.pow_le_mono_r 2 0); lia | apply Z.pow_le_mono_r; lia]. }
  unfold shl32. rewrite (Z.mod_small (Z.of_nat h) 32), !Z.shiftl_mul_pow2 by lia.
  rewrite (wrap_small 32 (Z.of_nat i + 1)) by (unfold fits; nia).
  rewrite !wrap_small by (unfold fits; nia).
  rewrite <- (Z2Nat.id (Z.of_nat i * _)) by lia.
  destruct (match_loop_spec (S (length matches)) ((Z.of_nat i + 1) * 2 ^ Z.of_nat h)
    (Z.to_nat (Z.of_nat i * 2 ^ Z.of_nat h)) false) as (b & -> & Hb); [lia |].
  exists b. split; [done |]. rewrite Hb, Z2Nat.id by lia. unfold hit.
  split; [by intros [|] | by right].
Qed.

Lemma hit_children h i : hit (S h) i ↔ hit h (2 * i) ∨ hit h (2 * i + 1).
Proof.
  unfold hit. rewrite Nat2Z.inj_succ, Z.pow_succ_r by lia.
  replace (Z.of_nat (2 * i)) with (2 * Z.of_nat i) by lia.
  replace (Z.of_nat (2 * i + 1)) with (2 * Z.of_nat i + 1) by lia.
  split.
  - intros (k & Hk & ?).
    destruct (Z.lt_ge_cases (Z.of_nat k) ((2 * Z.of_nat i + 1) * 2 ^ Z.of_nat h));
      [left | right]; exists k; (split; [done | lia]).
  - intros [(k & Hk & ?) | (k & Hk & ?)]; exists k; (split; [done |]);
      assert (0 < 2 ^ Z.of_nat h) by (apply Z.pow_pos_nonneg; lia); lia.
Qed.

Lemma hit_outside h i : level ids h !! i = None → ¬ hit h i.
Proof.
  intros Hi (k & Hk%lookup_lt_Some & ?).
  assert (is_Some (level ids h !! i)) as Hs; [| rewrite Hi in Hs; by destruct Hs].
  apply level_lookup_lt, ceil_width_gt; [lia.. |]. unfold zlen. lia.
Qed.

(** Where the traversal's position fields end up. *)
Definition located q h i (mp : option Z) (hp : option Z) (mp' hp' : option Z) : Prop :=
  (¬ hit h i ∧ mp' = mp ∧ hp' = hp) ∨
  ∃ k j, mp' = Some (Z.of_nat k) ∧ hp' = Some j ∧ matches !! k = Some true ∧
         get_at (hashes q) j = ids !! k.

Definition extend p fs hs : MerkleProof :=
  mkMerkleProof (block_header p) (flag_bits p ++ fs) (transactions_count p) (hashes p ++ hs).

(** The flags and hashes one call of [traverse_and_build] appends are those
    which one call of [traverse_and_extract] consumes. *)
Definition extracts h i x (fs : list bool) (hs : list H256Le) : Prop :=
  ∀ q F0 F1 H0 H1 mp hp,
    transactions_count q = zlen ids → flag_bits q = F0 ++ fs ++ F1 →
    hashes q = H0 ++ hs ++ H1 → sized (flag_bits q) → sized (hashes q) →
    ∃ mp' hp', traverse_and_extract q h (Z.of_nat i) (mkTraversal (zlen F0) (zlen H0) mp hp) =
      Ok (x, mkTraversal (zlen F0 + zlen fs) (zlen H0 + zlen hs) mp' hp') ∧
      located q h i mp hp mp' hp'.

Lemma extracts_stored h i x b :
  (h = O ∨ b = false) → (b = true ↔ hit h i) → level ids h !! i = Some x →
  extracts h i x [b] [x].
Proof.
  intros Hcase Hb Hi q F0 F1 H0 H1 mp hp Hq Hf Hh Sf Sh.
  erewrite (extract_stored q h i _ _ _ _ b x); [| rewrite Hf; apply get_at_app | done
    | rewrite Hh; apply get_at_app | done | done].
  destruct b.
  - do 2 eexists. split; [done |]. right. destruct Hcase as [-> | [=]].
    destruct Hb as [Hb _]. destruct (Hb eq_refl) as (k & Hk & Hr).
    assert (k = i) as -> by (cbn in Hr; lia).
    exists i, (zlen H0). split_and!; [done.. |]. rewrite Hh. cbn [level] in Hi. rewrite Hi.
    apply get_at_app.
  - do 2 eexists. split; [done |]. left. split; [| done]. intros Hhit. by apply Hb in Hhit.
Qed.

Lemma located_compose q h i mp hp mp1 hp1 mp2 hp2 :
  located q h (2 * i) mp hp mp1 hp1 → located q h (2 * i + 1) mp1 hp1 mp2 hp2 →
  located q (S h) i mp hp mp2 hp2.
Proof.
  unfold located. rewrite hit_children.
  intros [(? & -> & ->) | Hl] [(? & -> & ->) | Hr]; [left; tauto | by right..].
Qed.

Definition right_extracts h i a b fs hs : Prop :=
  match level ids h !! (2 * i + 1)%nat with
  | Some b' => b' = b ∧ extracts h (2 * i + 1) b fs hs
  | None => b = a ∧ fs = [] ∧ hs = []
  end.

Lemma right_extract_spec h i a b fs hs q F0 F1 H0 H1 mp hp :
  (h ≤ 31)%nat → right_extracts h i a b fs hs →
  transactions_count q = zlen ids → flag_bits q = F0 ++ fs ++ F1 →
  hashes q = H0 ++ hs ++ H1 → sized (flag_bits q) → sized (hashes q) →
  ∃ mp' hp', right_extract q h i a (mkTraversal (zlen F0) (zlen H0) mp hp) =
    Ok (b, mkTraversal (zlen F0 + zlen fs) (zlen H0 + zlen hs) mp' hp') ∧
    located q h (2 * i + 1) mp hp mp' hp'.
Proof.
  intros Hh He Hq Hf Hhs Sf Sh. unfold right_extract.
  rewrite Hq, right_child_test by (done || lia). unfold right_extracts in He.
  destruct (level ids h !! (2 * i + 1)%nat) eqn:Hl.
  - rewrite bool_decide_eq_true_2 by eauto. destruct He as [-> He]. by eapply He.
  - rewrite bool_decide_eq_false_2 by (intros [? ?]; done).
    destruct He as (-> & -> & ->). rewrite !zlen_nil, !Z.add_0_r.
    exists mp, hp. split; [done |]. left. split; [by apply hit_outside | done].
Qed.

Lemma extracts_inner h i x a b fs1 hs1 fs2 hs2 :
  (h ≤ 31)%nat → level ids (S h) !! i = Some x → x = step a b → hit (S h) i →
  extracts h (2 * i) a fs1 hs1 → right_extracts h i a b fs2 hs2 →
  extracts (S h) i x (true :: fs1 ++ fs2) (hs1 ++ hs2).
Proof.
  intros Hh Hi -> Hhit He1 He2 q F0 F1 H0 H1 mp hp Hq Hf Hhs Sf Sh.
  destruct (child_indices ids h i _ ltac:(lia) Hi) as [Hl Hr].
  rewrite extract_inner by (done || (rewrite Hf; apply get_at_app)).
  edestruct (He1 q (F0 ++ [true]) (fs2 ++ F1) H0 (hs2 ++ H1) mp hp)
    as (mp1 & hp1 & R1 & L1); [done | by rewrite Hf; simplify_list_eq |
      by rewrite Hhs; simplify_list_eq | done | done |].
  rewrite zlen_app in R1. change (zlen [true]) with 1 in R1.
  erewrite run_bind by exact R1.
  edestruct (right_extract_spec h i a b fs2 hs2 q (F0 ++ [true] ++ fs1) F1 (H0 ++ hs1) H1 mp1 hp1)
    as (mp2 & hp2 & R2 & L2); [done | done | done | by rewrite Hf; simplify_list_eq |
      by rewrite Hhs; simplify_list_eq | done | done |].
  rewrite !zlen_app in R2. change (zlen [true]) with 1 in R2.
  rewrite Z.add_assoc in R2. erewrite run_bind by exact R2.
  exists mp2, hp2. split; [| by eapply located_compose].
  unfold mret, M_ret. rewrite zlen_cons, !zlen_app. do 3 f_equal; lia.
Qed.

Lemma build_extracts h i x p :
  (h ≤ 31)%nat → level ids h !! i = Some x → transactions_count p = zlen ids →
  ∃ fs hs, traverse_and_build h (Z.of_nat i) ids matches p = Ok (tt, extend p fs hs) ∧
    zlen hs ≤ zlen fs < 2 ^ (Z.of_nat h + 1) ∧ extracts h i x fs hs.
Proof.
  revert i x p. induction h as [| h IH]; intros i x p Hh Hi Hp;
    destruct (match_loop_hit _ i x Hh Hi) as (m & Hm & Hhit);
    cbn [traverse_and_build]; run; rewrite Hp, Hm; run.
  - exists [m], [x]. split_and!; [| done.. | by apply extracts_stored; auto].
    unfold compute_merkle_root. cbn [transactions_count push_flag id]. rewrite Hp.
    rewrite (compute_root_level ids 0 i x) by (done || lia). done.
  - destruct m; cbn [negb].
    + destruct (child_indices ids h i _ ltac:(lia) Hi) as [Hl Hr].
      rewrite Hl. cbn [ok_or]. run. rewrite Hr. cbn [ok_or]. run.
      pose proof Hi as (a & Ha & Hx)%level_children.
      destruct (IH (2 * i)%nat a (push_flag true p)) as (fs1 & hs1 & R1 & B1 & E1);
        [lia | done | done |].
      erewrite run_bind by exact R1. run. unfold compute_partial_tree_width.
      cbn [transactions_count extend push_flag id]. rewrite Hp.
      rewrite right_child_test by lia.
      rewrite Z.add_1_r, Z.pow_succ_r by lia. rewrite Nat2Z.inj_succ, <- Z.add_1_r.
      destruct (level ids h !! (2 * i + 1)%nat) as [b |] eqn:Hb.
      * rewrite bool_decide_eq_true_2 by eauto.
        destruct (IH (2 * i + 1)%nat b (extend (push_flag true p) fs1 hs1))
          as (fs2 & hs2 & R2 & B2 & E2); [lia | done | done |].
        exists (true :: fs1 ++ fs2), (hs1 ++ hs2). split_and!.
        -- unfold whenM. rewrite R2. unfold extend. cbn. by simplify_list_eq.
        -- rewrite zlen_cons, !zlen_app. lia.
        -- rewrite zlen_cons, !zlen_app. lia.
        -- eapply extracts_inner; [lia | done | done | by apply Hhit | done |].
           unfold right_extracts. by rewrite Hb.
      * rewrite bool_decide_eq_false_2 by (intros [? ?]; done).
        exists (true :: fs1), hs1. split_and!.
        -- unfold whenM, mret, M_ret, extend. cbn. by rewrite <- !(assoc_L (++)).
        -- rewrite zlen_cons. lia.
        -- rewrite zlen_cons. lia.
        -- rewrite <- (app_nil_r fs1), <- (app_nil_r hs1).
           eapply extracts_inner; [lia | done | done | by apply Hhit | done |].
           unfold right_extracts. by rewrite Hb.
    + exists [false], [x]. split_and!; [| done | | by apply extracts_stored; auto].
      * run. unfold compute_merkle_root. cbn [transactions_count push_flag id]. rewrite Hp.
        rewrite (compute_root_level ids (S h) i x) by (done || lia). done.
      * change (zlen [false]) with 1. apply Z.pow_gt_1; lia.
Qed.
End build.

(** ** The complete exchange *)
Section complete.
Context `{Sha256}.

Definition txid (tx : Transaction) : H256Le := mkH256Le (sha256d (enc_tx_no_witness tx)).

Lemma mapM_tx_id txs : mapM (M:=outcome Error) tx_id txs = Ok (txid <$> txs).
Proof.
  induction txs as [| tx txs IH]; [done |].
  cbn. rewrite tx_id_Ok. cbn. change (mapM _ txs) with (mapM (M:=outcome Error) tx_id txs).
  by rewrite IH.
Qed.

Definition block_root (b : Block) : option H256Le := tree_root (txid <$> transactions b).

Lemma builder_root b :
  1 ≤ zlen (transactions b) ≤ MAX_COUNT →
  ∃ r, block_root b = Some r ∧ builder_compute_merkle_root b = Ok r.
Proof.
  intros Hn. unfold builder_compute_merkle_root, block_root.
  assert (zlen (txid <$> transactions b) = zlen (transactions b)) as Hl
    by (unfold zlen; by rewrite length_fmap).
  assert (zlen (transactions b) ≤ 2 ^ 31) by (apply Hn).
  rewrite log2_eq by (unfold fits; lia). rewrite (proj2 (Z.eqb_neq _ _)) by lia.
  rewrite mapM_tx_id. cbn. rewrite Hl, wrap_small by (unfold fits; lia).
  destruct (top_level (txid <$> transactions b)) as [r Hr]; [lia |].
  exists r. unfold tree_root. rewrite Hr. split; [done |].
  rewrite <- Hl. change 0 with (Z.of_nat 0). apply compute_root_level; [lia | |].
  - apply tree_height_le. lia.
  - by unfold tree_height in Hr; rewrite Hr.
Qed.

Lemma built_proof b include :
  1 ≤ zlen (transactions b) ≤ MAX_COUNT →
  let ids := txid <$> transactions b in
  let matches := (λ id, bool_decide (id ∈ include)) <$> ids in
  ∃ fs hs r, block_root b = Some r ∧
    block_merkle_proof b include =
      Ok (mkMerkleProof (header b) fs (zlen ids) hs) ∧
    zlen hs ≤ zlen fs < 2 ^ 32 ∧
    extracts ids matches (tree_height ids) 0 r fs hs.
Proof.
  intros Hn ids matches. unfold block_merkle_proof, block_root.
  assert (zlen (transactions b) = zlen ids) as Hl
    by (unfold zlen, ids; by rewrite length_fmap).
  rewrite Hl in *. rewrite mapM_tx_id. cbn [mbind outcome_bind]. fold ids. fold matches.
  assert (zlen ids ≤ 2 ^ 31) by (apply Hn).
  rewrite wrap_small by (unfold fits; lia).
  unfold compute_partial_tree_height. cbn [transactions_count].
  rewrite compute_height_log2_up by done. cbn [mbind outcome_bind].
  destruct (top_level ids) as [r Hr]; [lia |].
  pose proof (tree_height_le ids ltac:(lia)) as Hh.
  destruct (build_extracts ids matches Hn ltac:(unfold matches; by rewrite length_fmap)
    (tree_height ids) 0 r (mkMerkleProof (header b) [] (zlen ids) [])) as (fs & hs & R & B & E);
    [done | by rewrite Hr | done |].
  change (Z.to_nat (Z.log2_up (zlen ids))) with (tree_height ids).
  change 0 with (Z.of_nat 0). rewrite R. exists fs, hs, r.
  split_and!; [unfold tree_root; by rewrite Hr | done | lia | | done].
  eapply Z.lt_le_trans; [apply B |]. apply Z.pow_le_mono_r; lia.
Qed.

Lemma hit_top ids matches k :
  length matches = length ids → matches !! k = Some true →
  hit matches (tree_height ids) 0.
Proof.
  intros Hl Hk. exists k. split; [done |].
  apply lookup_lt_Some in Hk. unfold tree_height.
  rewrite Z2Nat.id by apply Z.log2_up_nonneg.
  assert (zlen ids ≤ 2 ^ Z.log2_up (zlen ids)).
  { apply Z.log2_up_le_pow2; [unfold zlen; lia | done]. }
  unfold zlen in *. lia.
Qed.

(** C27: for a transaction of a block of at most
    [MAX_TRANSACTIONS_IN_PROOF] transactions, the Merkle proof built by the
    block is accepted, with the root the block builder computes, the id of
    the transaction and the position of a transaction with that id. *)
Theorem merkle_proof_complete b (k : nat) tx len :
  zlen (transactions b) ≤ MAX_TRANSACTIONS_IN_PROOF → transactions b !! k = Some tx →
  fits 32 len → zlen (enc_tx_no_witness tx) ≤ len →
  ∃ id proof r (position : nat) tx',
    tx_id tx = Ok id ∧
    block_merkle_proof b [id] = Ok proof ∧
    builder_compute_merkle_root b = Ok r ∧
    verify_proof (mkPartialTransactionProof tx len proof) =
      Ok (mkProofResult r id (Z.of_nat position) tx (zlen (transactions b)) (hash (header b))) ∧
    transactions b !! position = Some tx' ∧ tx_id tx' = Ok id.
Proof.
  intros Hmax Hk Hlen Hsize. change MAX_TRANSACTIONS_IN_PROOF with 16666 in Hmax.
  assert (1 ≤ zlen (transactions b)) by (apply lookup_lt_Some in Hk; unfold zlen; lia).
  assert (1 ≤ zlen (transactions b) ≤ MAX_COUNT) as Hn by (unfold MAX_COUNT; lia).
  destruct (builder_root b Hn) as (r & Hr & Hb).
  destruct (built_proof b [txid tx] Hn) as (fs & hs & r' & Hr' & Hp & Hl & He).
  assert (r' = r) as -> by congruence. clear Hr'.
  set (ids := txid <$> transactions b) in *.
  set (matches := (λ id, bool_decide (id ∈ [txid tx])) <$> ids) in *.
  assert (zlen ids = zlen (transactions b)) as Hids by (unfold zlen, ids; by rewrite length_fmap).
  edestruct (He (mkMerkleProof (header b) fs (zlen ids) hs) [] [] [] [] None None)
    as (mp & hp & Hx & Hloc); [done | by rewrite app_nil_r | by rewrite app_nil_r |
      unfold sized; cbn; lia.. |].
  destruct Hloc as [(Hnot & _) | (k' & j & -> & -> & Hk' & Hj)].
  { destruct Hnot. apply (hit_top ids matches k); [by unfold matches; rewrite length_fmap |].
    unfold matches, ids. rewrite !list_lookup_fmap, Hk. cbn. f_equal.
    apply bool_decide_eq_true_2. by constructor. }
  unfold matches in Hk'. rewrite list_lookup_fmap in Hk'.
  destruct (ids !! k') as [id' |] eqn:Hid; [| done]. cbn in Hk'. injection Hk' as Hk'.
  apply bool_decide_eq_true, list_elem_of_singleton in Hk'. subst id'.
  pose proof Hid as Hid'. unfold ids in Hid'. rewrite list_lookup_fmap in Hid'.
  destruct (transactions b !! k') as [tx' |] eqn:Htx'; [| done]. apply (inj Some) in Hid'.
  exists (txid tx), (mkMerkleProof (header b) fs (zlen ids) hs), r, k', tx'.
  split_and!; [apply tx_id_Ok | done | done | | done | rewrite tx_id_Ok; exact (f_equal Ok Hid')].
  unfold fits in Hlen. unfold verify_proof. cbn [merkle_proof transactions_count hashes flag_bits].
  rewrite (proj2 (Z.eqb_neq _ _)), (proj2 (Z.leb_le (zlen ids) _)), (proj2 (Z.leb_le (zlen hs) _))
    by (change MAX_TRANSACTIONS_IN_PROOF with 16666; lia).
  unfold compute_partial_tree_height. cbn [transactions_count ensure negb mbind outcome_bind].
  rewrite compute_height_log2_up by (unfold MAX_COUNT; lia). cbn [mbind outcome_bind].
  change (Z.to_nat (Z.log2_up (zlen ids))) with (tree_height ids).
  change (mkTraversal 0 0 None None) with (mkTraversal (zlen (@nil bool)) (zlen (@nil H256Le)) None None).
  change 0 with (Z.of_nat 0) at 1. rewrite Hx. cbn -[zlen checked_add Z.div tx_id_bounded].
  rewrite !zlen_nil, !Z.add_0_l, Z.eqb_refl.
  cbn -[zlen checked_add Z.div tx_id_bounded].
  pose proof (zlen_nonneg fs). unfold checked_add. rewrite checked_fits by (unfold fits; lia).
  cbn -[zlen checked_add Z.div tx_id_bounded]. rewrite Z.eqb_refl.
  cbn -[zlen checked_add Z.div tx_id_bounded].
  rewrite tx_id_bounded_eq by (unfold fits; lia).
  rewrite (proj2 (Z.leb_le _ _)), tx_id_Ok by lia. cbn -[zlen].
  cbn in Hj. rewrite Hj. cbn -[zlen]. rewrite bool_decide_eq_true_2 by done. cbn -[zlen].
  by rewrite Hids.
Qed.
End complete.

(** ** Soundness *)
Section sound.
Context `{Sha256}.
Implicit Types (q : MerkleProof) (h i : nat) (ids : list H256Le).

(** The 64-byte strings that a traversal hashes, from the node of height [h] and
    position [i] down: the pairs of child hashes the proof gives for the nodes
    whose flag is set. *)
Fixpoint opened q h i (t : MerkleProofTraversal) : list (list byte) :=
  match h, get_at (flag_bits q) (bits_used t) with
  | S h, Some true =>
      let t1 := mkTraversal (bits_used t + 1) (hashes_used t) (merkle_position t) (hash_position t) in
      match traverse_and_extract q h (Z.of_nat (2 * i)) t1 with
      | Ok (l, t2) =>
          match right_extract q h i l t2 with
          | Ok (r, _) =>
              (content l ++ content r) :: opened q h (2 * i) t1 ++
              (if Z.of_nat (2 * i + 1) <? compute_width (transactions_count q) (Z.of_nat h)
               then opened q h (2 * i + 1) t2 else [])
          | _ => []
          end
      | _ => []
      end
  | _, _ => []
  end.
Definition right_opened q h i t : list (list byte) :=
  if Z.of_nat (2 * i + 1) <? compute_width (transactions_count q) (Z.of_nat h)
  then opened q h (2 * i + 1) t else [].

(** The strings hashed when a proof is verified. *)
Definition opened_by (p : PartialTransactionProof) : list (list byte) :=
  match compute_height (transactions_count (merkle_proof p)) with
  | Ok height => opened (merkle_proof p) (Z.to_nat height) 0 (mkTraversal 0 0 None None)
  | _ => []
  end.

(** One of the given strings has the hash of an inner node of the tree, and is
    not the pair of that node's children. *)
Definition second_preimage (ids : list H256Le) (presented : list (list byte)) : Prop :=
  ∃ h i a m,
    level ids h !! (2 * i)%nat = Some a ∧ m ∈ presented ∧
    let b := default a (level ids h !! (2 * i + 1)%nat) in
    m ≠ content a ++ content b ∧ sha256d m = sha256d (content a ++ content b).

Lemma wf_step a b : wf_H256Le (step a b).
Proof. apply sha256_length. Qed.

Lemma wf_level ids h : Forall wf_H256Le ids → Forall wf_H256Le (level ids h).
Proof.
  intros Hids. induction h as [| h IH]; [done |]. cbn [level].
  generalize (level ids h). intros l. clear.
  induction l as [| a | a b l IH] using list_pair_ind; cbn; auto using wf_step.
Qed.

Lemma step_content a b c d :
  wf_H256Le a → wf_H256Le c → content c ++ content d = content a ++ content b →
  c = a ∧ d = b.
Proof.
  unfold wf_H256Le. destruct a, b, c, d; cbn. intros Ha Hc Heq.
  apply app_inj_1 in Heq as [-> ->]; [done | lia].
Qed.

Lemma content_64 a b :
  wf_H256Le a → wf_H256Le b → length (content a ++ content b) = 64%nat.
Proof. unfold wf_H256Le. rewrite length_app. lia. Qed.

(** What a run of the traversal leaves in the position fields. *)
Definition points (ids : list H256Le) q (mp hp mp' hp' : option Z) : Prop :=
  (mp' = mp ∧ hp' = hp) ∨
  ∃ k j x, mp' = Some (Z.of_nat k) ∧ hp' = Some j ∧ ids !! k = Some x ∧ get_at (hashes q) j = Some x.

Definition tr_points ids q (t t' : MerkleProofTraversal) : Prop :=
  points ids q (merkle_position t) (hash_position t) (merkle_position t') (hash_position t').

Lemma points_trans ids q t1 t2 t3 :
  tr_points ids q t1 t2 → tr_points ids q t2 t3 → tr_points ids q t1 t3.
Proof.
  unfold tr_points, points. intros [[E1 E2] | ?] [[E3 E4] | ?].
  - left. by rewrite E3, E1, E4, E2.
  - by right.
  - right. by rewrite E3, E4.
  - by right.
Qed.

(** One call of the traversal, inverted. *)
Lemma extract_inv q h i t y t' :
  traverse_and_extract q h (Z.of_nat i) t = Ok (y, t') →
  (∃ b, (h = O ∨ b = false) ∧ get_at (hashes q) (hashes_used t) = Some y ∧
     if b then merkle_position t' = Some (Z.of_nat i) ∧ hash_position t' = Some (hashes_used t)
     else merkle_position t' = merkle_position t ∧ hash_position t' = hash_position t) ∨
  (∃ h' t1 l t2 r, h = S h' ∧
     merkle_position t1 = merkle_position t ∧ hash_position t1 = hash_position t ∧
     traverse_and_extract q h' (Z.of_nat (2 * i)) t1 = Ok (l, t2) ∧
     right_extract q h' i l t2 = Ok (r, t') ∧ y = step l r ∧
     opened q h i t = (content l ++ content r) :: opened q h' (2 * i) t1 ++ right_opened q h' i t2).
Proof.
  destruct h as [| h]; cbn [traverse_and_extract]; intros Hx.
  - left. outcome_inv. subst. cbn [hashes_used] in *.
    destruct (_ >=? _); [by outcome_inv |]. outcome_inv.
    match goal with H : unwrap ?o = Ok _ |- _ => destruct o eqn:Ho; [| done]; injection H as -> end.
    match goal with b : bool |- _ => exists b; split; [by left |]; destruct b end;
      cbn in *; outcome_inv; cbn in *; by simplify_eq.
  - outcome_inv. subst.
    match goal with b : bool |- _ => destruct b end; cbn [negb] in *.
    + right. outcome_inv. subst.
      match goal with H : get_at _ _ = Some true |- _ => rename H into Hf end.
      match goal with H : checked_mul _ _ _ = Some _ |- _ => apply checked_Some in H as [-> _] end.
      match goal with H : checked_add 32 _ _ = Some _ |- _ => apply checked_Some in H as [-> _] end.
      rewrite hash256_merkle_step_Ok in Hx. injection Hx as <-.
      replace (Z.of_nat i * 2) with (Z.of_nat (2 * i)) in * by lia.
      replace (Z.of_nat (2 * i) + 1) with (Z.of_nat (2 * i + 1)) in * by lia.
      match goal with H : checked_add 64 _ 1 = Some _ |- _ => apply checked_Some in H as [-> _] end.
      match goal with
      | Hl : traverse_and_extract q h _ ?t1 = Ok (?l, ?t2), Hr : _ ?t2 = Ok (?r, ?t3) |- _ =>
          change (right_extract q h i l t2 = Ok (r, t3)) in Hr; exists h, t1, l, t2, r;
          split_and!; [done.. | exact Hl | exact Hr | done |];
          cbn [opened]; rewrite Hf; cbn zeta; by rewrite Hl, Hr
      end.
    + left. exists false. split; [by right |]. outcome_inv. cbn [hashes_used] in *.
      destruct (_ >=? _); [by outcome_inv |]. outcome_inv.
      match goal with H : unwrap ?o = Ok _ |- _ => destruct o eqn:Ho; [| done]; injection H as -> end.
      cbn in *; outcome_inv; cbn in *; by simplify_eq.
Qed.

Lemma opened_split (m : list byte) l r presented :
  m :: l ++ r ⊆ presented → m ∈ presented ∧ l ⊆ presented ∧ r ⊆ presented.
Proof. set_solver. Qed.

(** A traversal over a tree of the block's shape: it reaches a node of the
    block only by the block's own children, or it hashes a second preimage. *)
Lemma extract_sound ids presented q h i x t y t' :
  zlen ids ≤ MAX_COUNT → Forall wf_H256Le ids → Forall wf_H256Le (hashes q) →
  transactions_count q = zlen ids → (h ≤ 31)%nat → level ids h !! i = Some x →
  traverse_and_extract q h (Z.of_nat i) t = Ok (y, t') → opened q h i t ⊆ presented →
  wf_H256Le y ∧ (y = x → second_preimage ids presented ∨ tr_points ids q t t').
Proof.
  intros Hn Hids Hq Hc. revert i x t y t'.
  induction h as [| h IH]; intros i x t y t' Hh Hi Hx Hopen;
    apply extract_inv in Hx as
      [(b & Hb & Hy & Ht) | (h' & t1 & l & t2 & r & [= <-] & E1 & E2 & Hl & Hr & -> & Ho)].
  1-2: apply get_at_Some in Hy as Hy'; destruct Hy' as [_ Hy'];
    (split; [by eapply Forall_lookup_1 in Hy' |]); intros ->; right; unfold tr_points, points.
  - destruct b; [right | by left]. destruct Ht. by exists i, (hashes_used t), x.
  - destruct Hb as [| ->]; [done | by left].
  - pose proof Hi as (a & Ha & Hxs)%level_children.
    rewrite Ho in Hopen. apply opened_split in Hopen as (Hm & Hol & Hor).
    destruct (IH _ _ _ _ _ ltac:(lia) Ha Hl Hol) as [Wl Sl].
    assert (wf_H256Le a) as Wa by by eapply Forall_lookup_1 in Ha; [| apply wf_level].
    unfold right_extract in Hr. unfold right_opened in Hor. rewrite Hc, right_child_test in Hr, Hor by lia.
    split; [apply wf_step |].
    set (b := default a (level ids h !! (2 * i + 1)%nat)).
    assert (x = step a b ∧ wf_H256Le b) as [-> Wb].
    { unfold b. destruct (level ids h !! (2 * i + 1)%nat) eqn:Hb; [| by subst].
      split; [by subst |]. by eapply Forall_lookup_1 in Hb; [| apply wf_level]. }
    assert (wf_H256Le r ∧ (r = b → l = a → second_preimage ids presented ∨ tr_points ids q t2 t')) as [Wr Sr].
    { destruct (level ids h !! (2 * i + 1)%nat) eqn:Hb.
      - rewrite bool_decide_eq_true_2 in Hr, Hor by eauto.
        destruct (IH _ _ _ _ _ ltac:(lia) Hb Hr Hor) as [? ?]. split; [done |]. auto.
      - rewrite bool_decide_eq_false_2 in Hr by (intros [? ?]; done).
        injection Hr as -> ->. split; [done |]. intros _ _. right. by left. }
    intros Heq. injection Heq as Heq.
    destruct (decide (content l ++ content r = content a ++ content b)) as [Hsame | Hdiff].
    + apply step_content in Hsame as [-> ->]; [| done..].
      destruct (Sl eq_refl) as [? | P1]; [by left |].
      destruct (Sr eq_refl eq_refl) as [? | P2]; [by left |].
      right. eapply points_trans; [| exact P2]. unfold tr_points in *. by rewrite E1, E2 in P1.
    + left. exists h, i, a, (content l ++ content r). by split_and!.
Qed.

Lemma unwrap_Ok {E A} (o : option A) (a : A) : unwrap (E:=E) o = Ok a ↔ o = Some a.
Proof. destruct o; split; try done; by intros [= ->]. Qed.

(** What acceptance means, field by field. *)
Lemma verify_proof_inv self res :
  verify_proof self = Ok res →
  let q := merkle_proof self in
  ∃ height t j,
    transactions_count q ≠ 0 ∧ transactions_count q ≤ MAX_TRANSACTIONS_IN_PROOF ∧
    compute_height (transactions_count q) = Ok height ∧
    traverse_and_extract q (Z.to_nat height) 0 (mkTraversal 0 0 None None)
      = Ok (extracted_root res, t) ∧
    merkle_position t = Some (transaction_position res) ∧ hash_position t = Some j ∧
    get_at (hashes q) j = Some (transaction_hash res) ∧
    tx_id_bounded (transaction self) (tx_encoded_len self) = Ok (transaction_hash res) ∧
    tx_count res = transactions_count q ∧ proof_transaction res = transaction self ∧
    block_hash res = hash (block_header q).
Proof.
  intros Hv q. unfold verify_proof in Hv. fold q in Hv. outcome_inv.
  match goal with x : H256Le * _ |- _ => destruct x as [root t] end. outcome_inv.
  match goal with H : negb _ = true |- _ => apply negb_true_iff, Z.eqb_neq in H end.
  match goal with H : (_ <=? MAX_TRANSACTIONS_IN_PROOF) = true |- _ => apply Z.leb_le in H end.
  match goal with H : bool_decide _ = true |- _ => apply bool_decide_eq_true in H end. subst.
  match goal with H : unwrap _ = Ok _ |- _ => apply unwrap_Ok in H end.
  do 3 eexists. by split_and!.
Qed.

(** C26: if a proof for as many transactions as the block has is
    accepted and yields the root of the block, then the id of the proven
    transaction is the one at the proven position of the block -- or one of the
    pairs of hashes that are combined when this proof is verified is a second
    preimage: it hashes to an inner node of the block's tree, and is not the pair of
    that node's children. (The hashes of the proof have 32 bytes.) *)
Theorem verify_proof_sound self res b :
  let ids := txid <$> transactions b in
  verify_proof self = Ok res → transactions_count (merkle_proof self) = zlen (transactions b) →
  Forall wf_H256Le (hashes (merkle_proof self)) →
  block_root b = Some (extracted_root res) →
  tx_id_bounded (transaction self) (tx_encoded_len self) = Ok (transaction_hash res) ∧
  (second_preimage ids (opened_by self) ∨
   ∃ (position : nat) tx, transaction_position res = Z.of_nat position ∧
     transactions b !! position = Some tx ∧ tx_id tx = Ok (transaction_hash res)).
Proof.
  intros ids Hv Hc Hq Hr.
  apply verify_proof_inv in Hv as (height & t & j & Hne & Hmax & Hh & Ht & Hm & Hp & Hj & Hid & _).
  split; [done |].
  assert (zlen ids = zlen (transactions b)) as Hl by (unfold zlen, ids; by rewrite length_fmap).
  rewrite <- Hl in Hc. pose proof (zlen_nonneg ids).
  change MAX_TRANSACTIONS_IN_PROOF with 16666 in Hmax.
  assert (1 ≤ zlen ids ≤ MAX_COUNT) as Hn by (unfold MAX_COUNT; lia).
  unfold opened_by. rewrite Hh.
  rewrite Hc, compute_height_log2_up in Hh by done. injection Hh as <-.
  change (Z.to_nat (Z.log2_up (zlen ids))) with (tree_height ids) in *.
  change 0 with (Z.of_nat 0) in Ht at 1.
  eapply (extract_sound ids) in Ht as [_ Hs];
    [| lia | | done | done | apply tree_height_le; lia | exact Hr | reflexivity].
  2:{ unfold ids. apply Forall_fmap, Forall_true. intros ?. apply sha256_length. }
  destruct (Hs eq_refl) as [? | [[? ?] | (k & j' & x & Ek & Ej & Hx & Hx')]];
    [by left | cbn in *; congruence |].
  right. rewrite Hm in Ek. rewrite Hp in Ej. injection Ek as Ek. injection Ej as <-.
  unfold ids in Hx. rewrite list_lookup_fmap in Hx.
  destruct (transactions b !! k) as [tx |] eqn:Htx; [| done]. apply (inj Some) in Hx.
  exists k, tx. split_and!; [done | done |]. rewrite tx_id_Ok. unfold txid in Hx. congruence.
Qed.
End sound.

(** ** No panic *)
Section total.
Context `{Sha256}.

Definition tr_safe (q : MerkleProof) (t : MerkleProofTraversal) : Prop :=
  0 ≤ hashes_used t ∧
  match hash_position t with Some j => is_Some (get_at (hashes q) j) | None => True end.

Lemma extract_safe q h pos :
  triple False (tr_safe q) (traverse_and_extract q h pos) (λ _ t, tr_safe q t).
Proof.
  assert (Hst : ∀ leaf b pos, triple False (tr_safe q)
    (hashes_used ← gets hashes_used;
     if hashes_used >=? zlen (hashes q) then lift (Err MalformedMerkleProof)
     else
       hash ← lift (unwrap (get_at (hashes q) hashes_used));
       (if leaf && b
        then modify (λ t, mkTraversal (BtcMerkle.bits_used t) (BtcMerkle.hashes_used t)
                            (Some pos) (Some hashes_used))
        else mret tt);;
       hashes_used ← lift (ok_or (checked_add 64 hashes_used 1) ArithmeticOverflow);
       modify (λ t, mkTraversal (BtcMerkle.bits_used t) hashes_used
                      (merkle_position t) (hash_position t));;
       mret hash) (λ _ t, tr_safe q t)).
  { intros leaf b pos' t Ht. run. pose proof Ht as [Hu Hp].
    rewrite Z.geb_leb. destruct (Z.leb_spec (zlen (hashes q)) (hashes_used t)); [done |].
    assert (is_Some (get_at (hashes q) (hashes_used t))) as [x Hx].
    { unfold get_at. rewrite (proj2 (Z.leb_le _ _)) by done. apply lookup_lt_is_Some_2.
      unfold zlen in *. lia. }
    rewrite Hx. cbn [unwrap]. run.
    destruct (leaf && b); run; unfold checked_add;
      (destruct (checked 64 _) as [v |] eqn:Hv; cbn [ok_or]; [run | done]);
      apply checked_Some in Hv as [-> _]; (split; cbn; [lia |]); [by eexists | done]. }
  revert pos. induction h as [| h IH]; intros pos; cbn [traverse_and_extract].
  all: eapply triple_bind; [by apply (triple_gets _ _ _ (λ _, tr_safe q)) |]; intros bu.
  all: eapply triple_bind;
    [apply (triple_lift _ _ _ (λ _, tr_safe q)); intros; by apply post_ok_or |]; intros b.
  all: eapply triple_bind;
    [apply (triple_lift _ _ _ (λ _, tr_safe q)); intros; by apply post_ok_or |]; intros bu'.
  all: eapply triple_bind;
    [by apply (triple_modify _ _ _ (λ _, tr_safe q)); intros t [? ?] |]; intros [].
  - apply Hst.
  - destruct (negb b); [apply (Hst false b pos) |].
    eapply triple_bind;
      [apply (triple_lift _ _ _ (λ _, tr_safe q)); intros; by apply post_ok_or |]; intros li.
    eapply triple_bind;
      [apply (triple_lift _ _ _ (λ _, tr_safe q)); intros; by apply post_ok_or |]; intros ri.
    eapply triple_bind; [apply IH |]; intros l. cbn beta.
    eapply triple_bind; [destruct (_ <? _); [apply IH | by apply triple_ret] |]; intros r.
    cbn beta. apply triple_lift. intros t Ht. by rewrite hash256_merkle_step_Ok.
Qed.

(** On every input a decoder can produce, [verify_proof]
    returns a result or an error: it neither panics nor loops. *)
Theorem verify_proof_total self :
  fits 32 (transactions_count (merkle_proof self)) → fits 32 (tx_encoded_len self) →
  zlen (enc_tx_no_witness (transaction self)) < 2 ^ 32 →
  (∃ res, verify_proof self = Ok res) ∨ (∃ e, verify_proof self = Err e).
Proof.
  intros Hc Hlen Htx.
  assert (post False (λ _, True) (verify_proof self)) as Hp;
    [| destruct (verify_proof self); try done; eauto].
  unfold verify_proof. set (q := merkle_proof self) in *. unfold fits in Hc.
  eapply post_bind; [apply (post_ensure _ _ _ (λ _, transactions_count q ≠ 0)) |];
    [by intros ?%negb_true_iff%Z.eqb_neq |]. intros ? Hne.
  eapply post_bind; [apply (post_ensure _ _ _ (λ _, transactions_count q ≤ 16666)) |];
    [by intros ?%Z.leb_le |]. intros ? Hmax.
  eapply post_bind; [by apply (post_ensure _ _ _ (λ _, True)) |]. intros ? _.
  unfold compute_partial_tree_height.
  cbn beta in Hne, Hmax. rewrite compute_height_log2_up by (unfold MAX_COUNT; lia). cbn [mbind outcome_bind].
  eapply post_bind; [apply extract_safe; by split |]. intros [root t] [_ Ht]. cbn [snd] in Ht.
  eapply post_bind; [by apply (post_ok_or _ (λ _, True)) |]. intros pos _.
  destruct (hash_position t) as [j |]; [| done]. destruct Ht as [x Hx]. cbn [ok_or mbind outcome_bind].
  eapply post_bind; [by apply (post_ensure _ _ _ (λ _, True)) |]. intros ? _.
  eapply post_bind; [by apply (post_ok_or _ (λ _, True)) |]. intros used _.
  eapply post_bind; [by apply (post_ok_or _ (λ _, True)) |]. intros av _.
  eapply post_bind; [by apply (post_ensure _ _ _ (λ _, True)) |]. intros ? _.
  rewrite tx_id_bounded_eq by done. rewrite tx_id_Ok.
  destruct (_ <=? _); [| done]. cbn [mbind outcome_bind]. rewrite Hx. cbn.
  by destruct (bool_decide _).
Qed.
End total.

(** ** Witnesses, with [toy_sha256] *)
#[local] Existing Instance toy_sha256.

Definition toy_tx (n : Z) : Transaction :=
  mkTransaction 2
    [mkTransactionInput (FromOutput (toy_id n) 0) [] 5 []]
    [mkTransactionOutput n (mkScript [])] (BlockHeight 0).
Definition toy_header : BlockHeader :=
  mkBlockHeader (toy_id 0) 0 0 4 (toy_id 1) (toy_id 2) 0.
Definition toy_block : Block := mkBlock toy_header (toy_tx <$> [10; 20; 30]).
Definition toy_proof : MerkleProof :=
  match block_merkle_proof toy_block [txid (toy_tx 20)] with
  | Ok p => p
  | _ => mkMerkleProof toy_header [] 0 []
  end.
Definition toy_partial : PartialTransactionProof :=
  mkPartialTransactionProof (toy_tx 20) 100 toy_proof.

Lemma merkle_proof_complete_witness :
  zlen (transactions toy_block) ≤ MAX_TRANSACTIONS_IN_PROOF ∧
  transactions toy_block !! 1%nat = Some (toy_tx 20) ∧
  fits 32 100 ∧ zlen (enc_tx_no_witness (toy_tx 20)) ≤ 100 ∧
  ∃ id proof r (position : nat) tx',
    tx_id (toy_tx 20) = Ok id ∧ block_merkle_proof toy_block [id] = Ok proof ∧
    builder_compute_merkle_root toy_block = Ok r ∧
    verify_proof (mkPartialTransactionProof (toy_tx 20) 100 proof) =
      Ok (mkProofResult r id (Z.of_nat position) (toy_tx 20) (zlen (transactions toy_block))
            (hash (header toy_block))) ∧
    transactions toy_block !! position = Some tx' ∧ tx_id tx' = Ok id.
Proof.
  assert (zlen (transactions toy_block) ≤ MAX_TRANSACTIONS_IN_PROOF) as H1 by (vm_compute; discriminate).
  assert (fits 32 100) as H2 by (split; lia).
  assert (zlen (enc_tx_no_witness (toy_tx 20)) ≤ 100) as H3 by (vm_compute; discriminate).
  split; [exact H1 |]. split; [reflexivity |]. split; [exact H2 |]. split; [exact H3 |].
  exact (merkle_proof_complete toy_block 1 (toy_tx 20) 100 H1 eq_refl H2 H3).
Defined.

Definition toy_result : ProofResult :=
  match verify_proof toy_partial with
  | Ok r => r
  | _ => mkProofResult (toy_id 0) (toy_id 0) 0 (toy_tx 0) 0 (toy_id 0)
  end.

Lemma verify_proof_sound_witness :
  verify_proof toy_partial = Ok toy_result ∧ transaction_position toy_result = 1 ∧
  (second_preimage (txid <$> transactions toy_block) (opened_by toy_partial) ∨
   ∃ (position : nat) tx, transaction_position toy_result = Z.of_nat position ∧
     transactions toy_block !! position = Some tx ∧ tx_id tx = Ok (transaction_hash toy_result)).
Proof.
  assert (verify_proof toy_partial = Ok toy_result) as H1 by (vm_compute; reflexivity).
  split; [exact H1 |]. split; [vm_compute; reflexivity |].
  refine (proj2 (verify_proof_sound toy_partial toy_result toy_block H1 _ _ _)).
  - vm_compute. reflexivity.
  - apply (bool_decide_eq_true_1 _). vm_compute. reflexivity.
  - vm_compute. reflexivity.
Defined.

Lemma verify_proof_total_witness :
  fits 32 (transactions_count (merkle_proof toy_partial)) ∧
  ((∃ res, verify_proof toy_partial = Ok res) ∨ (∃ e, verify_proof toy_partial = Err e)).
Proof.
  assert (fits 32 (transactions_count (merkle_proof toy_partial))) as H1
    by (vm_compute; split; [discriminate | reflexivity]).
  split; [exact H1 |].
  apply (verify_proof_total toy_partial H1); vm_compute; [split; [discriminate | reflexivity] | reflexivity].
Defined.
