(* ===== verification/BtcBuild.v ===== *)
(** * Builders, deposit keys and transaction sizes

    [TransactionBuilder], [TransactionInputBuilder] and [BlockBuilder] of
    [types.rs], the on-chain key derivation of [PublicKey] in [address.rs], and
    [virtual_transaction_size] of [utils.rs].  The secp256k1 curve and
    RIPEMD-160 are the crates' own: the class [Curve]. *)

From coqutil Require Import Byte Word.LittleEndianList.
From Stdlib Require Import ZArith Lia.
From stdpp Require Import base tactics option list numbers.
From S2P Require Import Prelude Bytes BtcTypes BtcCompact BtcFormat BtcParse BtcMerkle.
From S2P Require Import BtcMerkleTree BtcMerkleProofs.

Local Open Scope Z_scope.

(** ** Transactions *)

Module TransactionBuilder.
Definition new : Transaction := mkTransaction 2 [] [] (BlockHeight 0).
Definition with_version (version : Z) (t : Transaction) : Transaction :=
  mkTransaction version (inputs t) (outputs t) (lock_at t).
Definition with_block_height (block_height : Z) (t : Transaction) : Transaction :=
  mkTransaction (tx_version t) (inputs t) (outputs t) (BlockHeight block_height).
Definition with_locktime (locktime : Z) (t : Transaction) : Transaction :=
  mkTransaction (tx_version t) (inputs t) (outputs t) (Time locktime).
Definition add_input (input : TransactionInput) (t : Transaction) : Transaction :=
  mkTransaction (tx_version t) (inputs t ++ [input]) (outputs t) (lock_at t).
Definition add_output (output : TransactionOutput) (t : Transaction) : Transaction :=
  mkTransaction (tx_version t) (inputs t) (outputs t ++ [output]) (lock_at t).
End TransactionBuilder.

(** ** Public keys *)

(** A compressed key: 33 bytes. *)
Definition PublicKey : Type := list byte.

Class Curve : Type := {
  Secp256k1Error : Type;
  (** [Secp256k1PublicKey::from_slice], [mul_assign] and [serialize]. *)
  mul_public_key : PublicKey → list byte → Secp256k1Error + PublicKey;
  hash160 : list byte → list byte;
}.

Section keys.
Context `{Sha256} `{Curve}.

Definition new_secret_key (self : PublicKey) (secure_id : list byte) : list byte :=
  sha256 (self ++ secure_id).
Definition new_deposit_public_key_with_secret (self : PublicKey) (secret_key : list byte)
  : Secp256k1Error + PublicKey := mul_public_key self secret_key.
Definition new_deposit_public_key (self : PublicKey) (secure_id : list byte)
  : Secp256k1Error + PublicKey :=
  new_deposit_public_key_with_secret self (new_secret_key self secure_id).
Definition to_hash (self : PublicKey) : list byte := hash160 self.

Definition to_p2pkh_script_sig (self : PublicKey) (sig : list byte) : outcome Error Script :=
  s ← append script_new (fmt_bytes_vec sig);
  append s (fmt_bytes_vec self).
Definition to_redeem_script (self : PublicKey) : list byte := self ++ [op_byte OpCheckSig].
Definition to_p2sh_script_sig (self : PublicKey) (sig : list byte) : outcome Error Script :=
  s ← append script_new (fmt_OpCode Op0);
  s ← append s (fmt_bytes_vec sig);
  append s (fmt_bytes_vec (to_redeem_script self)).
End keys.

Module TransactionInputBuilder.
Definition new : TransactionInput :=
  mkTransactionInput (FromOutput H256.zero 0) [] 0 [].
Definition with_source (source : TransactionInputSource) (i : TransactionInput) : TransactionInput :=
  mkTransactionInput source (script i) (sequence i) (witness i).
Definition with_script (script : list byte) (i : TransactionInput) : TransactionInput :=
  mkTransactionInput (source i) script (sequence i) (witness i).
Definition with_p2pkh (public_key : PublicKey) (sig : list byte) (i : TransactionInput)
  : outcome Error TransactionInput :=
  s ← to_p2pkh_script_sig public_key sig; Ok (with_script (bytes s) i).
Definition with_p2sh (public_key : PublicKey) (sig : list byte) (i : TransactionInput)
  : outcome Error TransactionInput :=
  s ← to_p2sh_script_sig public_key sig; Ok (with_script (bytes s) i).
Definition with_p2wpkh (public_key : PublicKey) (sig : list byte) (i : TransactionInput)
  : TransactionInput :=
  mkTransactionInput (source i) (script i) (sequence i) [sig; public_key].
Definition with_p2wsh (public_key : PublicKey) (sig : list byte) (i : TransactionInput)
  : TransactionInput :=
  mkTransactionInput (source i) (script i) (sequence i) [sig; to_redeem_script public_key].
Definition with_sequence (sequence : Z) (i : TransactionInput) : TransactionInput :=
  mkTransactionInput (source i) (script i) sequence (witness i).
Definition add_witness (w : list byte) (i : TransactionInput) : TransactionInput :=
  mkTransactionInput (source i) (script i) (sequence i) (witness i ++ [w]).
End TransactionInputBuilder.

(** [generate_coinbase_transaction]. *)
Definition generate_coinbase_transaction (address : Address) (reward height : Z)
    (input_script witness_commitment : option (list byte)) : outcome Error Transaction :=
  let input := TransactionInputBuilder.with_source (Coinbase (Some height)) TransactionInputBuilder.new in
  let input := TransactionInputBuilder.add_witness (replicate 32 (u8 0)) input in
  let input := TransactionInputBuilder.with_sequence (umax 32) input in
  let input := match input_script with
               | Some script => TransactionInputBuilder.with_script script input
               | None => input
               end in
  let tx := TransactionBuilder.add_input input TransactionBuilder.new in
  reward_output ← payment reward address;
  let tx := TransactionBuilder.add_output reward_output tx in
  match witness_commitment with
  | Some commitment =>
      commitment_output ← op_return 0 commitment;
      Ok (TransactionBuilder.add_output commitment_output tx)
  | None => Ok tx
  end.

(** ** Blocks *)

Module BlockBuilder.
Definition with_header (h : BlockHeader) (b : Block) : Block := mkBlock h (transactions b).

(** Version 4 and default fields. *)
Definition new : Block := mkBlock (mkBlockHeader H256.zero 0 0 4 H256.zero H256.zero 0) [].
Definition with_timestamp (timestamp : Z) (b : Block) : Block :=
  let h := header b in
  with_header (mkBlockHeader (merkle_root h) (target h) timestamp (version h) (hash h)
                 (hash_prev_block h) (nonce h)) b.
Definition with_previous_hash (previous_hash : H256Le) (b : Block) : Block :=
  let h := header b in
  with_header (mkBlockHeader (merkle_root h) (target h) (timestamp h) (version h) (hash h)
                 previous_hash (nonce h)) b.
Definition with_version (version : Z) (b : Block) : Block :=
  let h := header b in
  with_header (mkBlockHeader (merkle_root h) (target h) (timestamp h) version (hash h)
                 (hash_prev_block h) (nonce h)) b.
Definition add_transaction (transaction : Transaction) (b : Block) : Block :=
  mkBlock (header b) (transactions b ++ [transaction]).
Definition with_coinbase (address : Address) (reward height : Z) (b : Block) : outcome Error Block :=
  tx ← generate_coinbase_transaction address reward height None None;
  Ok (mkBlock (header b) (tx :: transactions b)).

Section mine.
Context `{Sha256}.

(** The search for a nonce: it has no bound, so the fuel is a parameter. *)
Fixpoint mine_loop (fuel : nat) (target nonce : Z) (h : BlockHeader) : outcome Error BlockHeader :=
  match fuel with
  | O => NoFuel
  | S fuel =>
      h ← update_hash h;
      if H256.as_u256 (hash h) >=? target then
        mine_loop fuel target (wrap 32 (nonce + 1))
          (mkBlockHeader (merkle_root h) (BtcTypes.target h) (timestamp h) (version h) (hash h)
             (hash_prev_block h) nonce)
      else Ok h
  end.

Definition mine (fuel : nat) (target : Z) (b : Block) : outcome Error Block :=
  if bool_decide (transactions b = []) then Panic
  else
    root ← builder_compute_merkle_root b;
    let h := header b in
    h ← mine_loop fuel target 0
      (mkBlockHeader root target (timestamp h) (version h) (hash h) (hash_prev_block h) (nonce h));
    Ok (with_header h b).
End mine.
End BlockBuilder.

(** ** Sizes ([utils.rs]); all arithmetic is on [u32] *)

Definition P2PKH_IN_WEIGHT : Z := 148 * 4.
Definition P2PKH_OUT_SIZE : Z := 34.
Definition P2SH_OUT_SIZE : Z := 32.
Definition P2WPKH_OUT_SIZE : Z := 31.
Definition PUBKEY_SIZE : Z := 33.
Definition SIGNATURE_SIZE : Z := 72.
Definition OP_RETURN_OUT_SIZE : Z := 34.
Definition P2WPKH_IN_WEIGHT : Z := 271.

Inductive InputType : Type :=
  | InP2PKH
  | InP2SH (num_signatures num_pubkeys : Z)
  | InP2WPKHv0.

Record TransactionInputMetadata : Type := mkInputMetadata { script_type : InputType; count : Z }.
Record TransactionOutputMetadata : Type := mkOutputMetadata {
  num_p2pkh : Z; num_p2sh : Z; num_p2wpkh : Z; num_op_return : Z;
}.

Definition script_length_size (length : Z) : Z :=
  if length <? 75 then 1 else if length <=? 255 then 2 else if length <=? 65535 then 3 else 5.

Definition var_int_size (length : Z) : Z :=
  if length <? 253 then 1 else if length <? 65535 then 3 else if length <? 4294967295 then 5 else 9.

Definition transaction_header_weight (input_type : InputType) (input_count output_count : Z) : Z :=
  let extra_witness_weight :=
    match input_type with
    | InP2PKH | InP2SH _ _ => 0
    | InP2WPKHv0 => var_int_size input_count + 2
    end in
  let header_bytes := 4 + var_int_size input_count + var_int_size output_count + 4 in
  header_bytes * 4 + extra_witness_weight.

Definition p2sh_input_size (num_signatures num_pubkeys : Z) : Z :=
  let redeem_script_size := wrap 32 (1 + wrap 32 (num_pubkeys * (1 + PUBKEY_SIZE)) + 1 + 1) in
  let script_sig_size := wrap 32 (1 + wrap 32 (num_signatures * (1 + SIGNATURE_SIZE))
                           + script_length_size redeem_script_size + redeem_script_size) in
  wrap 32 (32 + 4 + var_int_size script_sig_size + script_sig_size + 4).

Definition transaction_weight (input : TransactionInputMetadata) (output : TransactionOutputMetadata)
  : Z :=
  let input_weight := wrap 32 (count input *
    match script_type input with
    | InP2PKH => P2PKH_IN_WEIGHT
    | InP2WPKHv0 => P2WPKH_IN_WEIGHT
    | InP2SH num_signatures num_pubkeys => wrap 32 (p2sh_input_size num_signatures num_pubkeys * 4)
    end) in
  let output_weight := wrap 32 (4 * wrap 32 (num_p2pkh output * P2PKH_OUT_SIZE
    + num_p2sh output * P2SH_OUT_SIZE + num_p2wpkh output * P2WPKH_OUT_SIZE
    + num_op_return output * OP_RETURN_OUT_SIZE)) in
  let output_count := wrap 32 (num_op_return output + num_p2pkh output + num_p2sh output
    + num_p2wpkh output) in
  let header_weight := transaction_header_weight (script_type input) (count input) output_count in
  wrap 32 (input_weight + output_weight + header_weight).

Definition virtual_transaction_size (input : TransactionInputMetadata)
    (output : TransactionOutputMetadata) : Z :=
  wrap 32 (transaction_weight input output + 3) / 4.

(** The cases of the source's tests. *)
Example transaction_weight_p2pkh :
  transaction_weight (mkInputMetadata InP2PKH 2) (mkOutputMetadata 3 4 5 1)
  = 2764 + 4 * OP_RETURN_OUT_SIZE.
Proof. reflexivity. Qed.
Example transaction_weight_p2sh :
  transaction_weight (mkInputMetadata (InP2SH 7 9) 3) (mkOutputMetadata 5 3 4 1)
  = 12004 + OP_RETURN_OUT_SIZE * 4.
Proof. reflexivity. Qed.
Example transaction_weight_p2wpkh :
  transaction_weight (mkInputMetadata InP2WPKHv0 3) (mkOutputMetadata 5 3 4 1)
  = 2416 + OP_RETURN_OUT_SIZE * 4.
Proof. reflexivity. Qed.
Example virtual_transaction_size_p2pkh :
  virtual_transaction_size (mkInputMetadata InP2PKH 2) (mkOutputMetadata 2 0 0 1)
  = 374 + OP_RETURN_OUT_SIZE.
Proof. reflexivity. Qed.

(** ** Properties *)

(** The hash field is not part of the serialized header. *)
Lemma header_hash_set `{Sha256} h x : header_hash (set_hash h x) = header_hash h.
Proof. reflexivity. Qed.

Lemma mine_loop_spec `{Sha256} fuel t nonce h h' :
  BlockBuilder.mine_loop fuel t nonce h = Ok h' →
  header_hash h' = Ok (hash h') ∧ H256.as_u256 (hash h') < t ∧
  merkle_root h' = merkle_root h ∧ target h' = target h ∧ timestamp h' = timestamp h ∧
  version h' = version h ∧ hash_prev_block h' = hash_prev_block h.
Proof.
  revert nonce h. induction fuel as [| fuel IH]; intros nonce h; [done |].
  cbn [BlockBuilder.mine_loop]. unfold update_hash. intros Hm. outcome_inv.
  match goal with Hx : header_hash h = Ok ?x |- _ =>
    cbn [hash set_hash] in Hm; rewrite Z.geb_leb in Hm; destruct (Z.leb_spec t (H256.as_u256 x)) end.
  - by apply IH in Hm.
  - outcome_inv. rewrite header_hash_set. by split_and!.
Qed.

(** A mined block has the hash and Merkle root of its contents, meets
    its target, and keeps its transactions, parent and timestamp. *)
Theorem mine_spec `{Sha256} fuel t b b' :
  BlockBuilder.mine fuel t b = Ok b' →
  transactions b' = transactions b ∧ transactions b ≠ [] ∧
  builder_compute_merkle_root b' = Ok (merkle_root (header b')) ∧
  header_hash (header b') = Ok (hash (header b')) ∧
  target (header b') = t ∧ H256.as_u256 (hash (header b')) < t ∧
  hash_prev_block (header b') = hash_prev_block (header b) ∧
  timestamp (header b') = timestamp (header b).
Proof.
  unfold BlockBuilder.mine. destruct (bool_decide_reflect (transactions b = [])); [done |].
  intros Hm. outcome_inv.
  match goal with H : BlockBuilder.mine_loop _ _ _ _ = Ok _ |- _ =>
    apply mine_loop_spec in H as (Hh & Hlt & Hroot & Ht & Hts & _ & Hp) end.
  cbn [merkle_root target timestamp hash_prev_block] in *.
  unfold BlockBuilder.with_header. cbn [header transactions].
  split_and!; try done. by rewrite Hroot.
Qed.

Section witness.
Local Existing Instance toy_sha256.

Definition mined : Block :=
  match BlockBuilder.mine 5 (2 ^ 255) toy_block with Ok b => b | _ => toy_block end.

Lemma mine_spec_witness :
  BlockBuilder.mine 5 (2 ^ 255) toy_block = Ok mined ∧
  H256.as_u256 (hash (header mined)) < 2 ^ 255.
Proof.
  assert (BlockBuilder.mine 5 (2 ^ 255) toy_block = Ok mined) as Hm by vm_refl.
  split; [exact Hm |].
  exact (proj1 (proj2 (proj2 (proj2 (proj2 (proj2 (mine_spec 5 (2 ^ 255) toy_block mined Hm))))))).
Defined.
End witness.

(** The size charged for a variable-length integer is the size the
    formatter writes. *)
Theorem var_int_size_enc n :
  zlen (enc_compact n) = var_int_size n ∧ fmt_CompactUint (mkCompactUint n) [] = Ok (enc_compact n).
Proof.
  split.
  - unfold enc_compact, var_int_size. change (umax 16) with 65535. change (umax 32) with 4294967295.
    change 0xfd with 253.
    repeat case_match; rewrite ?zlen_app, ?zlen_to_le_bytes; lia.
  - by rewrite (writes_Vec _ _ _ (writes_CompactUint n)).
Qed.

(** The two-byte range of the formatter ends one value early:
    65535, which Bitcoin writes as [fd ff ff] (and the parser reads back from
    it), is written in five bytes, so a transaction with a script of that
    length is not re-serialized as it was read. *)
Theorem compact_uint_65535_reencoded :
  parse_compact_uint (u8 <$> [0xfd; 0xff; 0xff]) = Ok (65535, 3) ∧
  fmt_CompactUint (mkCompactUint 65535) [] = Ok (u8 <$> [0xfe; 0xff; 0xff; 0x00; 0x00]) ∧
  parse_compact_uint (u8 <$> [0xfe; 0xff; 0xff; 0xff; 0xff]) = Ok (4294967295, 5) ∧
  fmt_CompactUint (mkCompactUint 4294967295) [] =
    Ok (u8 <$> [0xff; 0xff; 0xff; 0xff; 0xff; 0x00; 0x00; 0x00; 0x00]).
Proof. by vm_compute. Qed.
