(* ===== verification/Security.v ===== *)
(** * The security pallet ([crates/security/src/lib.rs]) and the runtime's types

    Account ids, origins, block numbers ([u32] in [primitives/src/lib.rs]) and
    [DispatchError]; then the pallet: the nonce behind request ids, and the
    active block counter that request expiry is measured with. *)

From coqutil Require Import Byte Word.LittleEndianList.
From Stdlib Require Import ZArith Lia.
From stdpp Require Import base tactics option list numbers.
From S2P Require Import Prelude Bytes BtcTypes BtcFormat.

Local Open Scope Z_scope.

(** ** Runtime types *)

(** An [AccountId32]: 32 bytes. *)
Definition AccountId : Type := list byte.

Inductive ArithmeticError : Type := Underflow | Overflow | DivisionByZero.

(** [DispatchError], over the error enum [E] of a pallet; [ForeignError] is the
    [ModuleError] of another pallet, by its index and error number. *)
Inductive DispatchError (E : Type) : Type :=
  | ModuleError (e : E)
  | ForeignError (index error : Z)
  | Arithmetic (e : ArithmeticError)
  | BadOrigin.
Arguments ModuleError {E} e.
Arguments ForeignError {E} index error.
Arguments Arithmetic {E} e.
Arguments BadOrigin {E}.

Inductive Origin : Type :=
  | Root
  | Signed (who : AccountId)
  | NoOrigin.

Definition ensure_signed {E} (origin : Origin) : outcome (DispatchError E) AccountId :=
  match origin with Signed who => Ok who | _ => Err BadOrigin end.
Definition ensure_root {E} (origin : Origin) : outcome (DispatchError E) unit :=
  match origin with Root => Ok tt | _ => Err BadOrigin end.

(** Width of a [BlockNumber]. *)
Definition BN : Z := 32.

Module Security.
(** The events of the pallet are part of its state: newest last. *)
Inductive Event : Type :=
  | UpdateActiveBlock (block_number : Z)
  | Activated
  | Deactivated.

Record Storage : Type := mkStorage {
  Nonce : Z;
  ActiveBlockCount : Z;
  IsDeactivated : bool;
  events : list Event;
}.

Definition wf (s : Storage) : Prop := fits 256 (Nonce s) ∧ fits BN (ActiveBlockCount s).

Section security.
Context {E : Type}.
Abbreviation M := (M Storage (DispatchError E)).

Definition deposit_event (e : Event) : M unit :=
  modify (λ s, mkStorage (Nonce s) (ActiveBlockCount s) (IsDeactivated s) (events s ++ [e])).

Definition active_block_number (s : Storage) : Z := ActiveBlockCount s.

Definition activate_counter (origin : Origin) (is_active : bool) : M unit :=
  lift (ensure_root origin);;
  modify (λ s, mkStorage (Nonce s) (ActiveBlockCount s) (negb is_active) (events s));;
  if is_active then deposit_event Activated else deposit_event Deactivated.

Definition parachain_block_expired (s : Storage) (opentime period : Z)
  : outcome (DispatchError E) bool :=
  expiration_block ← ok_or (checked_add BN opentime period) (Arithmetic Overflow);
  Ok (active_block_number s >? expiration_block).

(** [overflowing_add]: the nonce wraps. *)
Definition get_nonce : M Z :=
  modify (λ s, mkStorage (wrap 256 (Nonce s + 1)) (ActiveBlockCount s) (IsDeactivated s) (events s));;
  gets Nonce.

Definition increment_active_block : M unit :=
  deactivated ← gets IsDeactivated;
  if (deactivated : bool) then mret tt
  else
    modify (λ s, mkStorage (Nonce s) (saturating_add BN (ActiveBlockCount s) 1)
                   (IsDeactivated s) (events s));;
    height ← gets ActiveBlockCount;
    deposit_event (UpdateActiveBlock height).

(** The [on_initialize] hook. *)
Definition on_initialize : M unit := increment_active_block.

(** What [get_secure_id] hashes: the encoded account, nonce and parent hash. *)
Definition secure_id_preimage (id : AccountId) (nonce : Z) (parent_hash : list byte) : list byte :=
  id ++ to_le_bytes 32 nonce ++ parent_hash.

Definition get_secure_id `{Sha256} (parent_hash : list byte) (id : AccountId) : M (list byte) :=
  nonce ← get_nonce;
  mret (sha256 (secure_id_preimage id nonce parent_hash)).
End security.

(** ** Properties *)

(** [n] requests for an id, in order. *)
Fixpoint get_nonces {E} (n : nat) : M Storage (DispatchError E) (list Z) :=
  match n with
  | O => mret []
  | S n => x ← get_nonce; l ← get_nonces n; mret (x :: l)
  end.

Lemma get_nonces_spec {E} n s :
  fits 256 (Nonce s) →
  get_nonces (E:=E) n s =
    Ok ((λ k : nat, (Nonce s + 1 + Z.of_nat k) mod 2 ^ 256) <$> seq 0 n,
        mkStorage ((Nonce s + Z.of_nat n) mod 2 ^ 256) (ActiveBlockCount s)
          (IsDeactivated s) (events s)).
Proof.
  revert s. induction n as [| n IH]; intros s Hs.
  - cbn. unfold mret, M_ret. rewrite Z.add_0_r, Z.mod_small by apply Hs. by destruct s.
  - cbn [get_nonces]. unfold get_nonce. rewrite run_assoc. run.
    erewrite run_bind by (apply IH; by apply wrap_fits).
    unfold mret, M_ret. cbn [Nonce ActiveBlockCount IsDeactivated events]. f_equal. f_equal.
    + cbn [seq fmap list_fmap]. f_equal; [unfold wrap; f_equal; lia |].
      rewrite <- seq_shift. change (@map nat nat) with (@fmap list _ nat nat).
      rewrite <- list_fmap_compose. apply list_fmap_ext. intros _ k _. cbn.
      unfold wrap. rewrite <- Z.add_assoc, Zplus_mod_idemp_l. f_equal. lia.
    + f_equal. unfold wrap. rewrite Zplus_mod_idemp_l. f_equal. lia.
Qed.

Lemma preimage_inj id1 id2 n1 n2 p :
  length id1 = 32%nat → length id2 = 32%nat → fits 256 n1 → fits 256 n2 →
  secure_id_preimage id1 n1 p = secure_id_preimage id2 n2 p → id1 = id2 ∧ n1 = n2.
Proof.
  intros L1 L2 F1 F2 Heq. apply app_inj_1 in Heq as [-> Heq]; [| congruence].
  apply app_inv_tail in Heq. split; [done |].
  rewrite <- (from_to_le_bytes_fits 32 n1 F1), <- (from_to_le_bytes_fits 32 n2 F2). by rewrite Heq.
Qed.

(** The nonce makes every id request hash a fresh preimage: in
    any run of up to 2^256 requests, two requests of any two accounts never
    feed the same bytes to SHA-256. *)
Theorem secure_ids_fresh {E} n s l s' (i j : nat) x y id1 id2 parent :
  wf s → Z.of_nat n ≤ 2 ^ 256 → get_nonces (E:=E) n s = Ok (l, s') →
  i ≠ j → l !! i = Some x → l !! j = Some y →
  length id1 = 32%nat → length id2 = 32%nat →
  secure_id_preimage id1 x parent ≠ secure_id_preimage id2 y parent.
Proof.
  intros [Hs _] Hn Hl Hij Hx Hy L1 L2 Heq.
  rewrite get_nonces_spec in Hl by done. injection Hl as <- _.
  rewrite list_lookup_fmap in Hx, Hy.
  apply fmap_Some in Hx as (i' & [-> Hi]%lookup_seq & ->).
  apply fmap_Some in Hy as (j' & [-> Hj]%lookup_seq & ->).
  apply preimage_inj in Heq as [_ Heq]; [| done | done | by apply Z.mod_pos_bound..].
  set (a := Nonce s + 1) in *.
  assert ((a + Z.of_nat (0 + i) - (a + Z.of_nat (0 + j))) mod 2 ^ 256 = 0) as Hm.
  { rewrite Zminus_mod, Heq, Z.sub_diag. done. }
  replace (a + Z.of_nat (0 + i) - (a + Z.of_nat (0 + j))) with (Z.of_nat i - Z.of_nat j) in Hm by lia.
  apply Z.mod_divide in Hm as [k Hk]; [| done]. assert (k = 0) by nia. lia.
Qed.

Lemma secure_ids_fresh_witness :
  let s := mkStorage (2 ^ 256 - 2) 0 false [] in
  ∃ l s', get_nonces (E:=unit) 3 s = Ok (l, s') ∧ l = [2 ^ 256 - 1; 0; 1] ∧
    secure_id_preimage (replicate 32 (u8 1)) (2 ^ 256 - 1) [] ≠
    secure_id_preimage (replicate 32 (u8 1)) 0 [].
Proof.
  intros s. eexists _, _. split; [vm_compute; reflexivity |]. split; [reflexivity |].
  refine (secure_ids_fresh (E:=unit) 3 s _ _ 0 1 _ _ _ _ [] _ _ _ _ _ _ _ _).
  - split; (split; [vm_compute; discriminate | reflexivity]).
  - vm_compute. discriminate.
  - vm_compute. reflexivity.
  - discriminate.
  - reflexivity.
  - reflexivity.
  - reflexivity.
  - reflexivity.
Defined.

(** The active block number only grows, one block at a time and
    not at all while deactivated, so an expired request stays expired; and
    expiry is decided exactly by [opentime + period < active block]. *)
Theorem expiry_is_stable {E} s s' opentime period :
  wf s → on_initialize (E:=E) s = Ok (tt, s') →
  (ActiveBlockCount s' = if IsDeactivated s then ActiveBlockCount s
                         else Z.min (ActiveBlockCount s + 1) (umax BN)) ∧
  (parachain_block_expired (E:=E) s opentime period = Ok true →
   parachain_block_expired (E:=E) s' opentime period = Ok true) ∧
  (fits BN (opentime + period) →
   parachain_block_expired (E:=E) s opentime period =
     Ok (bool_decide (opentime + period < ActiveBlockCount s))).
Proof.
  intros [_ Hs] Hr.
  assert (ActiveBlockCount s' = if IsDeactivated s then ActiveBlockCount s
    else Z.min (ActiveBlockCount s + 1) (umax BN)) as Ha.
  { unfold on_initialize, increment_active_block in Hr. outcome_inv.
    destruct (IsDeactivated s); outcome_inv; [done |].
    unfold deposit_event in Hr. outcome_inv. done. }
  assert (ActiveBlockCount s ≤ ActiveBlockCount s').
  { rewrite Ha. unfold fits, umax in *. destruct (IsDeactivated s); lia. }
  split_and!; [done | |]; unfold parachain_block_expired.
  - unfold checked_add. destruct (checked _ _) as [e |]; cbn; [| done].
    unfold active_block_number. rewrite !Z.gtb_ltb. intros [= Hlt%Z.ltb_lt].
    f_equal. apply Z.ltb_lt. lia.
  - intros Hf. unfold checked_add. rewrite checked_fits by done. cbn.
    unfold active_block_number. rewrite Z.gtb_ltb. f_equal.
    apply eq_true_iff_eq. by rewrite Z.ltb_lt, bool_decide_eq_true.
Qed.

Lemma expiry_is_stable_witness :
  let s := mkStorage 0 101 false [] in
  let s' := mkStorage 0 102 false [UpdateActiveBlock 102] in
  on_initialize (E:=unit) s = Ok (tt, s') ∧
  parachain_block_expired (E:=unit) s 60 40 = Ok true ∧
  parachain_block_expired (E:=unit) s' 60 40 = Ok true.
Proof.
  intros s s'. assert (on_initialize (E:=unit) s = Ok (tt, s')) as Hr by reflexivity.
  assert (wf s) as Hw by (split; (split; [vm_compute; discriminate | reflexivity])).
  destruct (expiry_is_stable (E:=unit) s s' 60 40 Hw Hr) as (_ & Hx & _).
  split; [exact Hr |]. split; [reflexivity |]. apply Hx. reflexivity.
Defined.
End Security.
