(* ===== verification/Relay.v ===== *)
(** * BTC-Relay: storage and operations ([crates/btc-relay/src/lib.rs, types.rs])

    The storage items of the pallet are the fields of [Storage]; every function
    of [impl Pallet] is a definition in the monad [M Storage Error].  Getters
    are functions of the storage.  [Chains::iter] visits a storage map in an
    order of its own: it is the class [ChainsIter], a permutation of the map.
    Arithmetic that is not [checked_*] wraps, as in a release build. *)

From coqutil Require Import Byte Word.LittleEndianList.
From Stdlib Require Import ZArith Lia.
From stdpp Require Import base tactics option list numbers gmap sorting.
From S2P Require Import Prelude Bytes BtcTypes BtcCompact BtcFormat BtcMerkle Security.

Local Open Scope Z_scope.

(** ** Types *)

Inductive RelayError : Type :=
  | AlreadyInitialized | InvalidStartHeight | MissingBlockHeight | InvalidHeaderSize
  | DuplicateBlock | PrevBlock | InvalidChainID | LowDiff | DiffTargetHeader | MalformedTxid
  | BitcoinConfirmations | ParachainConfirmations | OngoingFork | MalformedMerkleProof
  | InvalidMerkleProof | Shutdown | InvalidTxid | InvalidPaymentAmount | MalformedTransaction
  | InvalidPayment | InvalidOutputFormat | InvalidOpReturn | InvalidTxVersion | UnknownErrorcode
  | ForkIdNotFound | BlockNotFound | AlreadyReported | UnauthorizedRelayer
  | ChainCounterOverflow | BlockHeightOverflow | ChainsUnderflow | EndOfFile | MalformedHeader
  | InvalidBlockVersion | MalformedWitnessOutput | MalformedP2PKHOutput | MalformedP2SHOutput
  | MalformedOpReturnOutput | UnsupportedOutputFormat | UnsupportedInputFormat | InvalidBtcHash
  | InvalidScript | InvalidBtcAddress | ArithmeticOverflow | ArithmeticUnderflow
  | TryIntoIntError | InvalidTransaction | InvalidOpReturnTransaction | InvalidCompact
  | WrongForkBound | BoundExceeded | InvalidCoinbasePosition.

Abbreviation RError := (DispatchError RelayError).

(** [impl From<BitcoinError> for Error<T>], then into a [DispatchError]. *)
Definition from_bitcoin_error (err : BtcTypes.Error) : RError :=
  ModuleError match err with
  | BtcTypes.MalformedMerkleProof => MalformedMerkleProof
  | BtcTypes.InvalidMerkleProof => InvalidMerkleProof
  | BtcTypes.EndOfFile => EndOfFile
  | BtcTypes.MalformedHeader => MalformedHeader
  | BtcTypes.InvalidBlockVersion => InvalidBlockVersion
  | BtcTypes.MalformedTransaction => MalformedTransaction
  | BtcTypes.UnsupportedInputFormat => UnsupportedInputFormat
  | BtcTypes.MalformedWitnessOutput => MalformedWitnessOutput
  | BtcTypes.MalformedP2PKHOutput => MalformedP2PKHOutput
  | BtcTypes.MalformedP2SHOutput => MalformedP2SHOutput
  | BtcTypes.UnsupportedOutputFormat => UnsupportedOutputFormat
  | BtcTypes.MalformedOpReturnOutput => MalformedOpReturnOutput
  | BtcTypes.InvalidHeaderSize => InvalidHeaderSize
  | BtcTypes.InvalidBtcHash => InvalidBtcHash
  | BtcTypes.InvalidScript => InvalidScript
  | BtcTypes.InvalidBtcAddress => InvalidBtcAddress
  | BtcTypes.ArithmeticOverflow => ArithmeticOverflow
  | BtcTypes.ArithmeticUnderflow => ArithmeticUnderflow
  | BtcTypes.InvalidCompact => InvalidCompact
  | BtcTypes.BoundExceeded => BoundExceeded
  | BtcTypes.InvalidTxid => InvalidTxid
  end.

Record RichBlockHeader : Type := mkRich {
  rich_header : BlockHeader;
  rich_height : Z;
  rich_chain_id : Z;
  rich_para_height : Z;
}.

(** [RichBlockHeader::new] (its argument order) and [block_hash]. *)
Definition rich_new (block_header : BlockHeader) (chain_id block_height para_height : Z)
  : RichBlockHeader := mkRich block_header block_height chain_id para_height.
Definition rich_block_hash (r : RichBlockHeader) : H256Le := hash (rich_header r).

(** [Default] of the headers: what a [ValueQuery] map yields for a missing key. *)
Definition default_header : BlockHeader :=
  mkBlockHeader H256.zero 0 0 0 H256.zero H256.zero 0.
Definition default_rich : RichBlockHeader := mkRich default_header 0 0 0.

Definition set_rich_chain (id : Z) (r : RichBlockHeader) : RichBlockHeader :=
  mkRich (rich_header r) (rich_height r) id (rich_para_height r).

Inductive RelayEvent : Type :=
  | Initialized (block_height : Z) (block_hash : H256Le) (relayer_id : AccountId)
  | StoreMainChainHeader (block_height : Z) (block_hash : H256Le) (relayer_id : AccountId)
  | StoreForkHeader (chain_id fork_height : Z) (block_hash : H256Le) (relayer_id : AccountId)
  | ChainReorg (new_chain_tip_hash : H256Le) (new_chain_tip_height fork_depth : Z)
  | ForkAheadOfMainChain (main_chain_height fork_height fork_id : Z).

Record Storage : Type := mkStorage {
  BlockHeaders : gmap H256Le RichBlockHeader;
  Chains : gmap Z Z;
  ChainsIndex : gmap Z BlockChain;
  ChainsHashes : gmap (Z * Z) H256Le;
  BestBlock : option H256Le;
  BestBlockHeight : Z;
  StartBlockHeight : option Z;
  ChainCounter : Z;
  StableBitcoinConfirmations : Z;
  StableParachainConfirmations : Z;
  DisableDifficultyCheck : bool;
  DisableInclusionCheck : bool;
  security : Security.Storage;
  events : list RelayEvent;
}.

(** Writing one storage item. *)
Definition with_BlockHeaders f (s : Storage) : Storage :=
  mkStorage (f (BlockHeaders s)) (Chains s) (ChainsIndex s) (ChainsHashes s) (BestBlock s)
    (BestBlockHeight s) (StartBlockHeight s) (ChainCounter s) (StableBitcoinConfirmations s)
    (StableParachainConfirmations s) (DisableDifficultyCheck s) (DisableInclusionCheck s)
    (security s) (events s).
Definition with_Chains f (s : Storage) : Storage :=
  mkStorage (BlockHeaders s) (f (Chains s)) (ChainsIndex s) (ChainsHashes s) (BestBlock s)
    (BestBlockHeight s) (StartBlockHeight s) (ChainCounter s) (StableBitcoinConfirmations s)
    (StableParachainConfirmations s) (DisableDifficultyCheck s) (DisableInclusionCheck s)
    (security s) (events s).
Definition with_ChainsIndex f (s : Storage) : Storage :=
  mkStorage (BlockHeaders s) (Chains s) (f (ChainsIndex s)) (ChainsHashes s) (BestBlock s)
    (BestBlockHeight s) (StartBlockHeight s) (ChainCounter s) (StableBitcoinConfirmations s)
    (StableParachainConfirmations s) (DisableDifficultyCheck s) (DisableInclusionCheck s)
    (security s) (events s).
Definition with_ChainsHashes f (s : Storage) : Storage :=
  mkStorage (BlockHeaders s) (Chains s) (ChainsIndex s) (f (ChainsHashes s)) (BestBlock s)
    (BestBlockHeight s) (StartBlockHeight s) (ChainCounter s) (StableBitcoinConfirmations s)
    (StableParachainConfirmations s) (DisableDifficultyCheck s) (DisableInclusionCheck s)
    (security s) (events s).
Definition with_BestBlock v (s : Storage) : Storage :=
  mkStorage (BlockHeaders s) (Chains s) (ChainsIndex s) (ChainsHashes s) v
    (BestBlockHeight s) (StartBlockHeight s) (ChainCounter s) (StableBitcoinConfirmations s)
    (StableParachainConfirmations s) (DisableDifficultyCheck s) (DisableInclusionCheck s)
    (security s) (events s).
Definition with_BestBlockHeight v (s : Storage) : Storage :=
  mkStorage (BlockHeaders s) (Chains s) (ChainsIndex s) (ChainsHashes s) (BestBlock s)
    v (StartBlockHeight s) (ChainCounter s) (StableBitcoinConfirmations s)
    (StableParachainConfirmations s) (DisableDifficultyCheck s) (DisableInclusionCheck s)
    (security s) (events s).
Definition with_StartBlockHeight v (s : Storage) : Storage :=
  mkStorage (BlockHeaders s) (Chains s) (ChainsIndex s) (ChainsHashes s) (BestBlock s)
    (BestBlockHeight s) v (ChainCounter s) (StableBitcoinConfirmations s)
    (StableParachainConfirmations s) (DisableDifficultyCheck s) (DisableInclusionCheck s)
    (security s) (events s).
Definition with_ChainCounter v (s : Storage) : Storage :=
  mkStorage (BlockHeaders s) (Chains s) (ChainsIndex s) (ChainsHashes s) (BestBlock s)
    (BestBlockHeight s) (StartBlockHeight s) v (StableBitcoinConfirmations s)
    (StableParachainConfirmations s) (DisableDifficultyCheck s) (DisableInclusionCheck s)
    (security s) (events s).
Definition with_config confs pconfs dis_diff dis_incl (s : Storage) : Storage :=
  mkStorage (BlockHeaders s) (Chains s) (ChainsIndex s) (ChainsHashes s) (BestBlock s)
    (BestBlockHeight s) (StartBlockHeight s) (ChainCounter s) confs pconfs dis_diff dis_incl
    (security s) (events s).
Definition with_security f (s : Storage) : Storage :=
  mkStorage (BlockHeaders s) (Chains s) (ChainsIndex s) (ChainsHashes s) (BestBlock s)
    (BestBlockHeight s) (StartBlockHeight s) (ChainCounter s) (StableBitcoinConfirmations s)
    (StableParachainConfirmations s) (DisableDifficultyCheck s) (DisableInclusionCheck s)
    (f (security s)) (events s).
Definition with_event e (s : Storage) : Storage :=
  mkStorage (BlockHeaders s) (Chains s) (ChainsIndex s) (ChainsHashes s) (BestBlock s)
    (BestBlockHeight s) (StartBlockHeight s) (ChainCounter s) (StableBitcoinConfirmations s)
    (StableParachainConfirmations s) (DisableDifficultyCheck s) (DisableInclusionCheck s)
    (security s) (events s ++ [e]).

Definition empty_storage : Storage :=
  mkStorage ∅ ∅ ∅ ∅ None 0 None 0 0 0 false false
    (Security.mkStorage 0 0 false []) [].

(** [GenesisConfig::build]. *)
Definition genesis_build (bitcoin_confirmations parachain_confirmations : Z)
    (disable_difficulty_check disable_inclusion_check : bool) (s : Storage) : Storage :=
  with_config bitcoin_confirmations parachain_confirmations
    disable_difficulty_check disable_inclusion_check s.

Definition DIFFICULTY_ADJUSTMENT_INTERVAL : Z := 2016.
Definition TARGET_SPACING : Z := 10 * 60.
Definition ACCEPTED_MAX_TRANSACTION_OUTPUTS : Z := 3.
Definition MAIN_CHAIN_ID : Z := 0.

(** The iteration order of a storage map. *)
Class ChainsIter : Type := {
  chains_iter : gmap Z Z → list (Z * Z);
  chains_iter_perm m : chains_iter m ≡ₚ map_to_list m;
}.

(** [StorageMap::swap]: exchange the values of two keys, absence included. *)
Definition swap_keys {A} (k1 k2 : Z) (m : gmap Z A) : gmap Z A :=
  partial_alter (λ _, m !! k1) k2 (partial_alter (λ _, m !! k2) k1 m).

Abbreviation R := (M Storage RError).

(** [Err(Error::<T>::e.into())], [o.ok_or(Error::<T>::e)?], [ensure!(b, Error::<T>::e)]. *)
Definition err {A} (e : RelayError) : outcome RError A := Err (ModuleError e).
Definition or_err {A} (o : option A) (e : RelayError) : outcome RError A := ok_or o (ModuleError e).
Definition ensureR (b : bool) (e : RelayError) : R unit := ensureM b (ModuleError e).

(** ** Storage getters and setters *)

Definition disable_difficulty_check : Storage → bool := DisableDifficultyCheck.
Definition disable_inclusion_check : Storage → bool := DisableInclusionCheck.
Definition bitcoin_confirmations : Storage → Z := StableBitcoinConfirmations.
Definition parachain_confirmations : Storage → Z := StableParachainConfirmations.
Definition get_stable_transaction_confirmations : Storage → Z := bitcoin_confirmations.
Definition get_best_block (s : Storage) : H256Le := default H256.zero (BestBlock s).
Definition best_block_exists (s : Storage) : bool := bool_decide (is_Some (BestBlock s)).
Definition get_best_block_height : Storage → Z := BestBlockHeight.
Definition get_chain_counter : Storage → Z := ChainCounter.

Definition get_chain_id_from_position (position : Z) (s : Storage) : outcome RError Z :=
  or_err (Chains s !! position) InvalidChainID.

(** [for (k, v) in Chains::<T>::iter() { if v == chain_id { return Ok(k) } }] *)
Definition get_chain_position_from_chain_id `{ChainsIter} (chain_id : Z) (s : Storage)
  : outcome RError Z :=
  or_err (fst <$> find (λ '(k, v), v =? chain_id) (chains_iter (Chains s))) ForkIdNotFound.

Definition get_block_chain_from_id (chain_id : Z) (s : Storage) : outcome RError BlockChain :=
  or_err (ChainsIndex s !! chain_id) InvalidChainID.

Definition block_exists (chain_id block_height : Z) (s : Storage) : bool :=
  bool_decide (is_Some (ChainsHashes s !! (chain_id, block_height))).

Definition get_block_hash (chain_id block_height : Z) (s : Storage) : outcome RError H256Le :=
  if negb (block_exists chain_id block_height s) then err MissingBlockHeight
  else Ok (default H256.zero (ChainsHashes s !! (chain_id, block_height))).

Definition get_block_header_from_hash (block_hash : H256Le) (s : Storage)
  : outcome RError RichBlockHeader :=
  or_err (BlockHeaders s !! block_hash) BlockNotFound.

Definition block_header_exists (block_hash : H256Le) (s : Storage) : bool :=
  bool_decide (is_Some (BlockHeaders s !! block_hash)).

Definition get_block_header_from_height (blockchain : BlockChain) (block_height : Z) (s : Storage)
  : outcome RError RichBlockHeader :=
  block_hash ← get_block_hash (chain_id blockchain) block_height s;
  get_block_header_from_hash block_hash s.

Definition set_chain_from_position_and_id (position id : Z) : R unit :=
  modify (with_Chains (<[position := id]>)).
Definition swap_chain (pos_1 pos_2 : Z) : R unit :=
  modify (with_Chains (swap_keys pos_1 pos_2)).
Definition set_block_chain_from_id (id : Z) (chain : BlockChain) : R unit :=
  modify (with_ChainsIndex (<[id := chain]>)).
Definition mutate_block_chain_from_id (id : Z) (chain : BlockChain) : R unit :=
  modify (with_ChainsIndex (partial_alter (λ _, Some chain) id)).
Definition set_block_header_from_hash (hash : H256Le) (header : RichBlockHeader) : R unit :=
  modify (with_BlockHeaders (<[hash := header]>)).
(** [BlockHeaders::mutate], a [ValueQuery] map. *)
Definition mutate_block_header (hash : H256Le) (f : RichBlockHeader → RichBlockHeader) : R unit :=
  modify (with_BlockHeaders (partial_alter (λ r, Some (f (default default_rich r))) hash)).
Definition set_best_block (hash : H256Le) : R unit := modify (with_BestBlock (Some hash)).
Definition set_best_block_height (height : Z) : R unit := modify (with_BestBlockHeight height).
Definition insert_block_hash (chain_id block_height : Z) (block_hash : H256Le) : R unit :=
  modify (with_ChainsHashes (<[(chain_id, block_height) := block_hash]>)).
Definition deposit_event (e : RelayEvent) : R unit := modify (with_event e).
Definition set_disable_difficulty_check (disabled : bool) : R unit :=
  modify (λ s, with_config (StableBitcoinConfirmations s) (StableParachainConfirmations s)
                 disabled (DisableInclusionCheck s) s).

Definition increment_chain_counter : R Z :=
  ret ← gets get_chain_counter;
  next_value ← lift (or_err (checked_add 32 ret 1) ArithmeticOverflow);
  modify (with_ChainCounter next_value);;
  mret ret.

Definition generate_blockchain (chain_id block_height : Z) (block_hash : H256Le) : R BlockChain :=
  insert_block_hash chain_id block_height block_hash;;
  mret (mkBlockChain chain_id block_height block_height).

Definition store_rich_header (basic_block_header : BlockHeader) (block_height chain_id : Z) : R unit :=
  para_height ← gets (λ s, Security.active_block_number (security s));
  set_block_header_from_hash (hash basic_block_header)
    (rich_new basic_block_header chain_id block_height para_height).

Definition update_chain_head (basic_block_header : BlockHeader) (block_height : Z) : R unit :=
  set_best_block (hash basic_block_header);;
  set_best_block_height block_height.

Definition key_le (a b : Z * Z) : Prop := a.1 ≤ b.1.
#[export] Instance key_le_dec a b : Decision (key_le a b).
Proof. unfold key_le. apply _. Defined.

Section operations.
Context `{ChainsIter} `{Sha256}.

(** ** Ordering of chains *)

(** The loop of [insert_sorted] over [chains.iter().skip(1)]. *)
Fixpoint find_position (max_height : Z) (chains : list (Z * Z)) (position_blockchain : Z)
    (s : Storage) : outcome RError Z :=
  match chains with
  | [] => Ok position_blockchain
  | (curr_position, curr_chain_id) :: chains =>
      chain ← get_block_chain_from_id curr_chain_id s;
      if max_height >? BtcTypes.max_height chain then Ok curr_position
      else find_position max_height chains position_blockchain s
  end.

(** [for prev_position in (position..max).rev() { swap_chain(prev + 1, prev) }] *)
Fixpoint bubble_down (prevs : list Z) : R unit :=
  match prevs with
  | [] => mret tt
  | prev_position :: prevs =>
      let curr_position := saturating_add 32 prev_position 1 in
      swap_chain curr_position prev_position;;
      bubble_down prevs
  end.

(** [(a..b).rev()] *)
Definition range_rev (a b : Z) : list Z :=
  (λ i : nat, b - 1 - Z.of_nat i) <$> seq 0 (Z.to_nat (b - a)).

(** [chains.sort_by_key(|k| k.0)] *)
Definition sorted_chains (s : Storage) : list (Z * Z) :=
  merge_sort key_le (chains_iter (Chains s)).

Definition insert_sorted (blockchain : BlockChain) : R unit :=
  chains ← gets sorted_chains;
  let max_chain_element := wrap 32 (zlen chains) in
  position_blockchain ←
    query (find_position (max_height blockchain) (drop 1 chains) max_chain_element);
  set_chain_from_position_and_id max_chain_element (chain_id blockchain);;
  bubble_down (range_rev position_blockchain max_chain_element).

Definition create_and_store_blockchain (block_height : Z) (basic_block_header : BlockHeader) : R Z :=
  chain_id ← increment_chain_counter;
  blockchain ← generate_blockchain chain_id block_height (hash basic_block_header);
  set_block_chain_from_id (BtcTypes.chain_id blockchain) blockchain;;
  insert_sorted blockchain;;
  store_rich_header basic_block_header block_height (BtcTypes.chain_id blockchain);;
  mret (BtcTypes.chain_id blockchain).

Definition extend_blockchain (block_height : Z) (basic_block_header : BlockHeader)
    (prev_blockchain : BlockChain) : R BlockChain :=
  let blockchain := prev_blockchain in
  exists_ ← gets (block_exists (chain_id blockchain) block_height);
  if (exists_ : bool) then lift (err DuplicateBlock)
  else
    insert_block_hash (chain_id blockchain) block_height (hash basic_block_header);;
    let blockchain := mkBlockChain (chain_id blockchain) (start_height blockchain) block_height in
    set_block_chain_from_id (chain_id blockchain) blockchain;;
    store_rich_header basic_block_header block_height (chain_id blockchain);;
    mret blockchain.

(** ** Chain reorganisation *)

(** The iterator of (child, parent) pairs: [successors] fetches the next item
    before it yields the current one. *)
Definition link : Type := outcome RError (RichBlockHeader * RichBlockHeader).

Definition first_link (start : H256Le) (s : Storage) : option link :=
  Some (child_block ← get_block_header_from_hash start s;
        parent ← get_block_header_from_hash (hash_prev_block (rich_header child_block)) s;
        Ok (child_block, parent)).

Definition next_link (prev : link) (s : Storage) : option link :=
  match prev with
  | Ok (_, child) =>
      Some (parent ← get_block_header_from_hash (hash_prev_block (rich_header child)) s;
            Ok (child, parent))
  | _ => None
  end.

Definition swap_block_to_mainchain (block : RichBlockHeader) (chain_id_for_old_main_blocks : Z)
  : R unit :=
  let block_height := rich_height block in
  replaced_block_hash ← gets (λ s, ChainsHashes s !! (MAIN_CHAIN_ID, block_height));
  modify (with_ChainsHashes (delete (rich_chain_id block, block_height)));;
  insert_block_hash MAIN_CHAIN_ID block_height (hash (rich_header block));;
  mutate_block_header (hash (rich_header block)) (set_rich_chain MAIN_CHAIN_ID);;
  match (replaced_block_hash : option H256Le) with
  | Some replaced_block_hash =>
      insert_block_hash chain_id_for_old_main_blocks block_height replaced_block_hash;;
      mutate_block_header replaced_block_hash (set_rich_chain chain_id_for_old_main_blocks)
  | None => mret tt
  end.

(** The body of the loop of [swap_main_blockchain] when the parent is in
    another chain. *)
Definition update_parent_fork (fork : BlockChain) (parent : RichBlockHeader) : R unit :=
  new_fork ← query (get_block_chain_from_id (rich_chain_id parent));
  new_start ← lift (or_err (checked_add 32 (rich_height parent) 1) ArithmeticOverflow);
  let new_fork := mkBlockChain
    (if rich_chain_id parent =? MAIN_CHAIN_ID then chain_id fork else chain_id new_fork)
    new_start (max_height new_fork) in
  mutate_block_chain_from_id (chain_id new_fork) new_fork.

(** Along an acyclic chain of parents, at most one step per stored header. *)
Fixpoint swap_links (fuel : nat) (fork : BlockChain) (next : option link) : R unit :=
  match fuel with
  | O => no_fuel
  | S fuel =>
      match next with
      | None => mret tt
      | Some item =>
          next ← gets (next_link item);
          '(child, parent) ← lift item;
          whenM (negb (rich_chain_id parent =? rich_chain_id child)) (update_parent_fork fork parent);;
          swap_block_to_mainchain child (chain_id fork);;
          if rich_chain_id parent =? MAIN_CHAIN_ID then mret tt
          else swap_links fuel fork next
      end
  end.

(** The bubble pass to the right, [for i in start..u32::MAX - 1]. *)
Fixpoint bubble_right (fuel : nat) (i : Z) : R unit :=
  match fuel with
  | O => no_fuel
  | S fuel =>
      has_next ← gets (λ s, bool_decide (is_Some (Chains s !! wrap 32 (i + 1))));
      if negb ((i <? umax 32 - 1) && (has_next : bool)) then mret tt
      else
        id1 ← query (get_chain_id_from_position i);
        chain1 ← query (get_block_chain_from_id id1);
        id2 ← query (get_chain_id_from_position (wrap 32 (i + 1)));
        chain2 ← query (get_block_chain_from_id id2);
        if max_height chain1 <? max_height chain2 then
          swap_chain i (wrap 32 (i + 1));;
          bubble_right fuel (i + 1)
        else mret tt
  end.

Definition swap_main_blockchain (fork : BlockChain) : R (H256Le * Z) :=
  new_best_block ← query (get_block_hash (chain_id fork) (max_height fork));
  set_best_block new_best_block;;
  set_best_block_height (max_height fork);;
  first ← gets (first_link new_best_block);
  fuel ← gets (λ s, S (size (BlockHeaders s)));
  swap_links fuel fork first;;
  main ← query (get_block_chain_from_id MAIN_CHAIN_ID);
  mutate_block_chain_from_id MAIN_CHAIN_ID
    (mkBlockChain (chain_id main) (start_height main) (max_height fork));;
  start ← query (get_chain_position_from_chain_id (chain_id fork));
  fuel ← gets (λ s, S (size (Chains s)));
  bubble_right fuel start;;
  mret (new_best_block, max_height fork).

(** The [while current_position > 0] loop of [reorganize_chains]. *)
Fixpoint reorganize_loop (fuel : nat) (fork : BlockChain) (current_position current_height : Z)
  : R unit :=
  match fuel with
  | O => no_fuel
  | S fuel =>
      if negb (current_position >? 0) then mret tt
      else
        let prev_position := saturating_sub current_position 1 in
        prev ← gets (get_chain_id_from_position prev_position);
        match (prev : outcome RError Z) with
        | Ok prev_blockchain_id =>
            prev_chain ← query (get_block_chain_from_id prev_blockchain_id);
            let prev_height := max_height prev_chain in
            if prev_height <? current_height then
              if prev_blockchain_id =? MAIN_CHAIN_ID then
                confirmations ← gets get_stable_transaction_confirmations;
                if saturating_add 32 prev_height confirmations <=? current_height then
                  '(new_chain_tip_hash, new_chain_tip_height) ← swap_main_blockchain fork;
                  let fork_depth := saturating_sub (max_height fork) (start_height fork) in
                  deposit_event (ChainReorg new_chain_tip_hash new_chain_tip_height fork_depth)
                else
                  deposit_event (ForkAheadOfMainChain prev_height (max_height fork) (chain_id fork))
              else
                swap_chain prev_position current_position;;
                reorganize_loop fuel fork prev_position prev_height
            else mret tt
        | _ =>
            swap_chain prev_position current_position;;
            reorganize_loop fuel fork current_position current_height
        end
  end.

(** Every second iteration moves one position down. *)
Definition reorganize_chains (fork : BlockChain) : R unit :=
  fork_position ← query (get_chain_position_from_chain_id (chain_id fork));
  reorganize_loop (S (Z.to_nat (2 * fork_position))) fork fork_position (max_height fork).

(** ** Header validity *)

Definition get_last_retarget_time (chain_id block_height : Z) (s : Storage) : outcome RError Z :=
  block_chain ← get_block_chain_from_id chain_id s;
  let period_start_height := wrap 32 (block_height - DIFFICULTY_ADJUSTMENT_INTERVAL) in
  last_retarget_header ← get_block_header_from_height block_chain period_start_height s;
  Ok (timestamp (rich_header last_retarget_header)).

Definition compute_new_target (prev_block_header : RichBlockHeader) (block_height : Z)
    (s : Storage) : outcome RError Z :=
  first_block_time ← get_last_retarget_time (rich_chain_id prev_block_header) block_height s;
  let last_block_time := timestamp (rich_header prev_block_header) in
  let previous_target := target (rich_header prev_block_header) in
  bits ← map_err from_bitcoin_error
    (calculate_next_work_required previous_target first_block_time last_block_time);
  or_err (set_compact bits) InvalidCompact.

Definition verify_block_header (block_header : BlockHeader) (block_height : Z)
    (prev_block_header : RichBlockHeader) (s : Storage) : outcome RError unit :=
  ensure (negb (block_header_exists (hash block_header) s)) (ModuleError DuplicateBlock);;
  ensure (H256.as_u256 (hash block_header) <? target block_header) (ModuleError LowDiff);;
  if disable_difficulty_check s then Ok tt
  else
    expected_target ←
      (if (block_height >=? DIFFICULTY_ADJUSTMENT_INTERVAL) &&
          (block_height mod DIFFICULTY_ADJUSTMENT_INTERVAL =? 0)
       then compute_new_target prev_block_header block_height s
       else Ok (target (rich_header prev_block_header)));
    ensure (target block_header =? expected_target) (ModuleError DiffTargetHeader).

Definition _validate_block_header (block_header : BlockHeader) : outcome RError BlockHeader :=
  map_err from_bitcoin_error (ensure_version block_header);;
  map_err from_bitcoin_error (update_hash block_header).

(** ** Initialisation and submission of headers *)

Definition _initialize (relayer : AccountId) (basic_block_header : BlockHeader) (block_height : Z)
  : R unit :=
  exists_ ← gets best_block_exists;
  ensureR (negb exists_) AlreadyInitialized;;
  disabled ← gets disable_difficulty_check;
  ensureR (disabled || (block_height mod DIFFICULTY_ADJUSTMENT_INTERVAL =? 0)) InvalidStartHeight;;
  create_and_store_blockchain block_height basic_block_header;;
  update_chain_head basic_block_header block_height;;
  modify (with_StartBlockHeight (Some block_height));;
  deposit_event (Initialized block_height (hash basic_block_header) relayer).

Definition _store_block_header (relayer : AccountId) (basic_block_header : BlockHeader) : R unit :=
  prev_header ← query (get_block_header_from_hash (hash_prev_block basic_block_header));
  let prev_block_height := rich_height prev_header in
  current_block_height ← lift (or_err (checked_add 32 prev_block_height 1) ArithmeticOverflow);
  prev_blockchain ← query (get_block_chain_from_id (rich_chain_id prev_header));
  query (verify_block_header basic_block_header current_block_height prev_header);;
  let is_new_fork := negb (max_height prev_blockchain =? prev_block_height) in
  chain_id ←
    (if is_new_fork then create_and_store_blockchain current_block_height basic_block_header
     else
       blockchain ← extend_blockchain current_block_height basic_block_header prev_blockchain;
       (if negb (chain_id blockchain =? MAIN_CHAIN_ID) then reorganize_chains blockchain
        else update_chain_head basic_block_header current_block_height);;
       mret (chain_id blockchain));
  current_best_block ← gets get_best_block;
  if bool_decide (current_best_block = hash basic_block_header)
  then deposit_event (StoreMainChainHeader current_block_height (hash basic_block_header) relayer)
  else deposit_event
         (StoreForkHeader chain_id current_block_height (hash basic_block_header) relayer).

(** The extrinsics. *)
Definition initialize (origin : Origin) (block_header : BlockHeader) (block_height : Z) : R unit :=
  relayer ← lift (ensure_signed origin);
  block_header ← lift (_validate_block_header block_header);
  _initialize relayer block_header block_height.

Definition store_block_header (origin : Origin) (block_header : BlockHeader) (fork_bound : Z)
  : R unit :=
  relayer ← lift (ensure_signed origin);
  counter ← gets get_chain_counter;
  ensureR (saturating_add 32 counter 1 <=? fork_bound) WrongForkBound;;
  block_header ← lift (_validate_block_header block_header);
  _store_block_header relayer block_header.
End operations.
