(* ===== verification/RelayVerify.v ===== *)
(** * BTC-Relay: confirmations, inclusion and payments

    The read-only half of [crates/btc-relay/src/lib.rs] and the op-return
    payments of [types.rs]: what other pallets ask the relay. *)

From coqutil Require Import Byte Word.LittleEndianList.
From Stdlib Require Import ZArith Lia.
From stdpp Require Import base tactics option list numbers gmap sorting.
From S2P Require Import Prelude Bytes BtcTypes BtcCompact BtcFormat BtcMerkle Security.
From S2P Require Import Relay.

Local Open Scope Z_scope.

(** ** Confirmations *)

Definition check_bitcoin_confirmations (main_chain_height : Z) (req_confs : option Z)
    (tx_block_height : Z) (s : Storage) : outcome RError unit :=
  let required_confirmations := default (get_stable_transaction_confirmations s) req_confs in
  sum ← or_err (checked_add 32 tx_block_height required_confirmations) ArithmeticOverflow;
  let required_mainchain_height := default 0 (checked_sub sum 1) in
  if main_chain_height >=? required_mainchain_height then Ok tt else err BitcoinConfirmations.

(** [para_height + parachain_confirmations()] wraps. *)
Definition check_parachain_confirmations (para_height : Z) (s : Storage) : outcome RError unit :=
  let current_height := Security.active_block_number (security s) in
  ensure (wrap BN (para_height + parachain_confirmations s) <=? current_height)
    (ModuleError ParachainConfirmations).

Definition ensure_no_ongoing_fork (best_block_height : Z) (s : Storage) : outcome RError unit :=
  match get_chain_id_from_position 1 s with
  | Ok id =>
      chain ← get_block_chain_from_id id s;
      let next_best_fork_height := max_height chain in
      ensure (best_block_height >=?
                wrap 32 (next_best_fork_height + get_stable_transaction_confirmations s))
        (ModuleError OngoingFork)
  | _ => Ok tt
  end.

Definition verify_block_header_inclusion (block_hash : H256Le) (confirmations : option Z)
    (s : Storage) : outcome RError BlockHeader :=
  let best_block_height := get_best_block_height s in
  ensure_no_ongoing_fork best_block_height s;;
  rich_header ← get_block_header_from_hash block_hash s;
  ensure (rich_chain_id rich_header =? MAIN_CHAIN_ID) (ModuleError InvalidChainID);;
  let block_height := rich_height rich_header in
  check_bitcoin_confirmations best_block_height confirmations block_height s;;
  check_parachain_confirmations (rich_para_height rich_header) s;;
  Ok (Relay.rich_header rich_header).

Definition is_fully_initialized (s : Storage) : outcome RError bool :=
  match StartBlockHeight s with
  | None => Ok false
  | Some start =>
      required_height ← or_err (checked_add 32 start (StableBitcoinConfirmations s)) ArithmeticOverflow;
      Ok (BestBlockHeight s >=? required_height)
  end.

(** ** Expiry of requests

    [ParachainBlocksPerBitcoinBlock] is a constant of the runtime. *)
Section expiry.
Context (ParachainBlocksPerBitcoinBlock : Z).

Definition checked_div (a b : Z) : option Z := if b =? 0 then None else Some (a / b).

Definition bitcoin_expiry_height (btc_open_height period : Z) : outcome RError Z :=
  sum ← or_err (checked_add BN period ParachainBlocksPerBitcoinBlock) ArithmeticOverflow;
  sum ← or_err (checked_sub sum 1) ArithmeticUnderflow;
  num ← or_err (checked_div sum ParachainBlocksPerBitcoinBlock) ArithmeticUnderflow;
  num_bitcoin_blocks ← or_err (checked 32 num) TryIntoIntError;
  or_err (checked_add 32 btc_open_height num_bitcoin_blocks) ArithmeticOverflow.

Definition bitcoin_block_expired (btc_open_height period : Z) (s : Storage) : outcome RError bool :=
  expiration_height ← bitcoin_expiry_height btc_open_height period;
  Ok (get_best_block_height s >? expiration_height).

Definition has_request_expired (opentime btc_open_height period : Z) (s : Storage)
  : outcome RError bool :=
  para ← Security.parachain_block_expired (security s) opentime period;
  if (para : bool) then bitcoin_block_expired btc_open_height period s else Ok false.
End expiry.

(** ** Op-return payments ([types.rs]) *)

Record OpReturnPaymentData : Type := mkOpReturnPaymentData {
  op_return_id : list byte;
  payments : list (Z * Address);
}.

(** The loop over the outputs. *)
Fixpoint classify_outputs (outs : list TransactionOutput) (payments : list (Z * Address))
    (op_returns : list (list byte)) : outcome RError (list (Z * Address) * list (list byte)) :=
  match outs with
  | [] => Ok (payments, op_returns)
  | tx :: outs =>
      match extract_address tx with
      | Ok address => classify_outputs outs (payments ++ [(value tx, address)]) op_returns
      | _ =>
          match extract_op_return_data (out_script tx) with
          | Ok data =>
              ensure (value tx =? 0) (ModuleError InvalidOpReturnTransaction);;
              ensure (zlen data =? 32) (ModuleError InvalidOpReturnTransaction);;
              classify_outputs outs payments (op_returns ++ [data])
          | _ => err InvalidOpReturnTransaction
          end
      end
  end.

(** [impl TryFrom<Transaction> for OpReturnPaymentData]. *)
Definition op_return_try_from (transaction : Transaction) : outcome RError OpReturnPaymentData :=
  ensure (zlen (outputs transaction) <=? ACCEPTED_MAX_TRANSACTION_OUTPUTS)
    (ModuleError InvalidOpReturnTransaction);;
  '(payments, op_returns) ← classify_outputs (outputs transaction) [] [];
  ensure (zlen op_returns =? 1) (ModuleError InvalidOpReturnTransaction);;
  match payments with
  | [_] => Ok tt
  | [p0; p1] => ensure (negb (bool_decide (p0.2 = p1.2))) (ModuleError InvalidOpReturnTransaction)
  | _ => err InvalidOpReturnTransaction
  end;;
  op_return ← unwrap (op_returns !! 0%nat);
  Ok (mkOpReturnPaymentData op_return payments).

Fixpoint find_map {A B} (f : A → option B) (l : list A) : option B :=
  match l with
  | [] => None
  | a :: l => match f a with Some b => Some b | None => find_map f l end
  end.

Definition ensure_valid_payment_to (self : OpReturnPaymentData) (expected_amount : Z)
    (recipient : Address) (op_return : option (list byte)) : outcome RError (option Address) :=
  match op_return with
  | Some op_return => ensure (bool_decide (op_return = op_return_id self)) (ModuleError InvalidPayment)
  | None => Ok tt
  end;;
  paid_amount ← or_err
    (find_map (λ '(amount, address), if bool_decide (address = recipient) then Some amount else None)
       (payments self)) InvalidPayment;
  ensure (paid_amount =? expected_amount) (ModuleError InvalidPaymentAmount);;
  Ok (find_map (λ '(_, address), if bool_decide (address ≠ recipient) then Some address else None)
        (payments self)).

(** [expected_btc] is the result of [try_into] an [i64]. *)
Definition validate_op_return_transaction (transaction : Transaction) (recipient : Address)
    (expected_btc : option Z) (op_return_id : list byte) : outcome RError (option Address) :=
  payment_data ← op_return_try_from transaction;
  expected ← or_err expected_btc InvalidPaymentAmount;
  ensure_valid_payment_to payment_data expected recipient (Some op_return_id).

(** [try_from] converts an [i64] to the caller's amount type. *)
Definition get_issue_payment {V} (try_from : Z → option V) (transaction : Transaction)
    (recipient : Address) : outcome RError V :=
  payment ← or_err
    (find_map (λ x, match extract_address x with
                    | Ok address => if bool_decide (address = recipient) then Some (value x) else None
                    | _ => None
                    end) (outputs transaction)) MalformedTransaction;
  or_err (try_from payment) InvalidPaymentAmount.

Definition _validate_transaction (transaction : Transaction) (expected_btc : Z)
    (recipient : Address) (op_return_id : option (list byte)) : outcome RError unit :=
  match op_return_id with
  | Some op_return =>
      validate_op_return_transaction transaction recipient (Some expected_btc) op_return;; Ok tt
  | None =>
      payment ← get_issue_payment Some transaction recipient;
      ensure (payment =? expected_btc) (ModuleError InvalidPaymentAmount)
  end.

(** ** Transaction inclusion *)
Section inclusion.
Context `{Sha256}.

Definition verify_merkle_proof (unchecked : PartialTransactionProof) : outcome RError ProofResult :=
  map_err from_bitcoin_error (verify_proof unchecked).

Definition block_matches_merkle_root (block_header : BlockHeader) (proof_result : ProofResult) : bool :=
  bool_decide (extracted_root proof_result = merkle_root block_header).

Definition _verify_transaction_inclusion (unchecked : FullTransactionProof)
    (confirmations : option Z) (s : Storage) : outcome RError Transaction :=
  if disable_inclusion_check s then Ok (transaction (user_tx_proof unchecked))
  else
    user ← verify_merkle_proof (user_tx_proof unchecked);
    coinbase ← verify_merkle_proof (coinbase_proof unchecked);
    ensure (transaction_position coinbase =? 0) (ModuleError InvalidCoinbasePosition);;
    ensure (bool_decide (extracted_root user = extracted_root coinbase))
      (ModuleError InvalidMerkleProof);;
    ensure (bool_decide (block_hash user = block_hash coinbase)) (ModuleError InvalidMerkleProof);;
    ensure (tx_count user =? tx_count coinbase) (ModuleError InvalidMerkleProof);;
    ensure (is_coinbase (proof_transaction coinbase)) (ModuleError InvalidMerkleProof);;
    stored_block_header ← verify_block_header_inclusion (block_hash user) confirmations s;
    ensure (block_matches_merkle_root stored_block_header user) (ModuleError InvalidMerkleProof);;
    Ok (proof_transaction user).

Definition get_and_verify_issue_payment {V} (try_from : Z → option V)
    (unchecked : FullTransactionProof) (recipient : Address) (s : Storage) : outcome RError V :=
  transaction ← _verify_transaction_inclusion unchecked None s;
  get_issue_payment try_from transaction recipient.

Definition verify_and_validate_op_return_transaction (unchecked : FullTransactionProof)
    (recipient : Address) (expected_btc : option Z) (op_return_id : list byte) (s : Storage)
  : outcome RError unit :=
  transaction ← _verify_transaction_inclusion unchecked None s;
  validate_op_return_transaction transaction recipient expected_btc op_return_id;;
  Ok tt.
End inclusion.
