(* ===== verification/RelayInclusion.v ===== *)
(** * What an accepted inclusion proof means

    [_verify_transaction_inclusion] takes the number of transactions of the
    block from the prover.  The theorems below do not trust it: an accepted
    proof shows that the block contains the transaction, unless the prover
    forged a hash of the block's own tree or a coinbase transaction of exactly
    64 bytes is involved (the leaf-node weakness the coinbase proof is for). *)

From coqutil Require Import Byte Word.LittleEndianList.
From Stdlib Require Import ZArith Lia.
From stdpp Require Import base tactics option list numbers gmap sorting.
From S2P Require Import Prelude Bytes BtcTypes BtcCompact BtcFormat BtcMerkle.
From S2P Require Import BtcMerkleTree BtcMerkleProofs Security Relay RelayVerify.

Local Open Scope Z_scope.

(** ** Confirmations *)

Lemma or_err_Ok {A} (o : option A) e a : or_err o e = Ok a ↔ o = Some a.
Proof. apply ok_or_Ok. Qed.

Lemma check_bitcoin_confirmations_eq main confs height s :
  fits 32 height → fits 32 (default (StableBitcoinConfirmations s) confs) → 0 ≤ main →
  let required := default (StableBitcoinConfirmations s) confs in
  check_bitcoin_confirmations main confs height s =
    if 2 ^ 32 <=? height + required then err ArithmeticOverflow
    else if height + required <=? main + 1 then Ok tt else err BitcoinConfirmations.
Proof.
  intros Hh Hc Hm required. unfold check_bitcoin_confirmations.
  change (get_stable_transaction_confirmations s) with (StableBitcoinConfirmations s).
  fold required. fold required in Hc. unfold fits in *. unfold checked_add, checked.
  destruct (fitsb 32 (height + required)) eqn:Hf.
  - apply fitsb_spec in Hf. unfold fits in Hf. rewrite (proj2 (Z.leb_gt _ _)) by lia. cbn.
    unfold checked_sub. destruct (Z.leb_spec 1 (height + required)); cbn;
      rewrite Z.geb_leb; repeat case_match; try done;
      rewrite ?Z.leb_le, ?Z.leb_gt in *; lia.
  - assert (¬ fits 32 (height + required)) as Hn by (rewrite <- fitsb_spec, Hf; done).
    unfold fits in Hn. rewrite (proj2 (Z.leb_le _ _)) by lia. done.
Qed.

(** The confirmation check, on every branch: a block at
    [height] has [main - height + 1] confirmations, and the check passes
    exactly when these are at least the number required. *)
Theorem check_bitcoin_confirmations_spec main confs height s :
  fits 32 height → fits 32 (default (StableBitcoinConfirmations s) confs) → 0 ≤ main →
  let required := default (StableBitcoinConfirmations s) confs in
  check_bitcoin_confirmations main confs height s =
    if 2 ^ 32 <=? height + required then err ArithmeticOverflow
    else if required <=? main - height + 1 then Ok tt else err BitcoinConfirmations.
Proof.
  intros Hh Hc Hm required. rewrite check_bitcoin_confirmations_eq by done. fold required.
  replace (required <=? main - height + 1) with (height + required <=? main + 1); [done |].
  apply eq_true_iff_eq. rewrite !Z.leb_le. lia.
Qed.

Lemma check_bitcoin_confirmations_spec_witness :
  fits 32 100 ∧ fits 32 6 ∧
  check_bitcoin_confirmations 105 (Some 6) 100 empty_storage = Ok tt ∧
  check_bitcoin_confirmations 104 (Some 6) 100 empty_storage = err BitcoinConfirmations.
Proof.
  assert (fits 32 100) as H1 by (split; lia). assert (fits 32 6) as H2 by (split; lia).
  split; [exact H1 |]. split; [exact H2 |].
  split; [refine (eq_trans (check_bitcoin_confirmations_spec 105 (Some 6) 100 empty_storage H1 H2 _) _)
    | refine (eq_trans (check_bitcoin_confirmations_spec 104 (Some 6) 100 empty_storage H1 H2 _) _)];
    solve [lia | reflexivity].
Defined.

(** The chain [id] is at least the required confirmations behind the main chain. *)
Definition chain_behind (s : Storage) (id : Z) : Prop :=
  ∃ chain, ChainsIndex s !! id = Some chain ∧
           max_height chain + StableBitcoinConfirmations s ≤ BestBlockHeight s.

(** The fork at position 1 is: the only one [ensure_no_ongoing_fork] looks at. *)
Definition second_chain_behind (s : Storage) : Prop :=
  ∀ id, Chains s !! 1 = Some id → chain_behind s id.
(** Every fork is. *)
Definition no_ongoing_fork (s : Storage) : Prop :=
  ∀ pos id, 1 ≤ pos → Chains s !! pos = Some id → chain_behind s id.

(** The forks have the positions from 1 on, by decreasing height: how [Chains] is documented. *)
Definition forks_ordered (s : Storage) : Prop :=
  ∀ p q j, 1 ≤ p ≤ q → Chains s !! q = Some j →
    ∃ i c d, Chains s !! p = Some i ∧ ChainsIndex s !! i = Some c ∧ ChainsIndex s !! j = Some d ∧
             max_height d ≤ max_height c.

Lemma ordered_no_fork s : forks_ordered s → second_chain_behind s → no_ongoing_fork s.
Proof.
  intros Ho H1 pos j Hp Hj. destruct (Ho 1 pos j ltac:(lia) Hj) as (i & c & d & Hi & Hc & Hd & Hle).
  destruct (H1 i Hi) as (c' & Hc' & Hb). simplify_eq. exists d. split; [done | lia].
Qed.

(** [u32] ranges of the storage, and room for the unchecked additions. *)
Definition relay_bounds (s : Storage) : Prop :=
  fits 32 (BestBlockHeight s) ∧ fits 32 (StableBitcoinConfirmations s) ∧
  (∀ id chain, ChainsIndex s !! id = Some chain →
     fits 32 (max_height chain + StableBitcoinConfirmations s) ∧ 0 ≤ max_height chain) ∧
  (∀ hash rich, BlockHeaders s !! hash = Some rich →
     fits 32 (rich_height rich) ∧ fits BN (rich_para_height rich + StableParachainConfirmations s)).

Lemma ensure_no_ongoing_fork_iff s u :
  relay_bounds s →
  ensure_no_ongoing_fork (get_best_block_height s) s = Ok u ↔ second_chain_behind s.
Proof.
  intros (Hb & Hc & Hi & _). destruct u.
  unfold ensure_no_ongoing_fork, second_chain_behind, chain_behind, get_chain_id_from_position, get_block_chain_from_id,
    get_best_block_height, get_stable_transaction_confirmations, bitcoin_confirmations.
  destruct (Chains s !! 1) as [id |]; cbn [or_err ok_or]; [| by split].
  destruct (ChainsIndex s !! id) as [chain |] eqn:Hx; cbn [or_err ok_or mbind outcome_bind].
  - destruct (Hi _ _ Hx) as [Hf _]. rewrite wrap_small, ensure_Ok, Z.geb_leb, Z.leb_le by done. split.
    + intros Hle id' [= <-]. by exists chain.
    + intros Hn. destruct (Hn id eq_refl) as (c & ? & ?). by simplify_eq.
  - split; [done |]. intros Hn. destruct (Hn id eq_refl) as (c & ? & ?). by simplify_eq.
Qed.

(** C29: a header is confirmed by the relay exactly when it is
    stored on the main chain, the fork at position 1 of [Chains] is at least the
    required confirmations behind the main chain, and it is old enough both in
    Bitcoin and in parachain blocks.  The forks at later positions are not looked at:
    when the forks are ordered by decreasing height, as [Chains] is documented, then
    all of them are as far behind. (Heights and confirmations are in the ranges of their
    types, and the unchecked sums of the two do not overflow.) *)
Theorem verify_block_header_inclusion_iff hash confs s h :
  relay_bounds s → fits 32 (default (StableBitcoinConfirmations s) confs) →
  (verify_block_header_inclusion hash confs s = Ok h ↔
  ∃ rich, BlockHeaders s !! hash = Some rich ∧ rich_header rich = h ∧
    rich_chain_id rich = MAIN_CHAIN_ID ∧ second_chain_behind s ∧
    rich_height rich + default (StableBitcoinConfirmations s) confs ≤ BestBlockHeight s + 1 ∧
    rich_height rich + default (StableBitcoinConfirmations s) confs < 2 ^ 32 ∧
    rich_para_height rich + StableParachainConfirmations s
      ≤ Security.ActiveBlockCount (security s)) ∧
  (verify_block_header_inclusion hash confs s = Ok h → forks_ordered s → no_ongoing_fork s).
Proof.
  intros Hbounds Hc. pose proof Hbounds as (Hb & _ & _ & Hr). unfold verify_block_header_inclusion.
  split; [split |].
  - intros Hv. outcome_inv.
    match goal with H : ensure_no_ongoing_fork _ _ = _ |- _ =>
      apply ensure_no_ongoing_fork_iff in H; [| done] end.
    match goal with H : get_block_header_from_hash _ _ = Ok ?r |- _ =>
      apply or_err_Ok in H; exists r; destruct (Hr _ _ H) as [Hh Hp] end.
    match goal with H : (_ =? _) = true |- _ => apply Z.eqb_eq in H end.
    match goal with H : check_bitcoin_confirmations _ _ _ _ = _ |- _ =>
      rewrite check_bitcoin_confirmations_eq in H by (done || apply Hb) end.
    match goal with H : check_parachain_confirmations _ _ = _ |- _ =>
      unfold check_parachain_confirmations in H; rewrite wrap_small in H by done end.
    repeat case_match; try done. outcome_inv. rewrite ?Z.leb_le, ?Z.leb_gt in *.
    split_and!; try done; unfold get_best_block_height in *; lia.
  - intros (rich & Hh & <- & Hm & Hn & H1 & H2 & H3). destruct (Hr _ _ Hh) as [Hf Hp].
    rewrite (proj2 (ensure_no_ongoing_fork_iff s tt Hbounds) Hn). cbn [mbind outcome_bind].
    unfold get_block_header_from_hash. rewrite Hh. cbn [or_err ok_or mbind outcome_bind].
    rewrite Hm. cbn [ensure Z.eqb MAIN_CHAIN_ID mbind outcome_bind].
    rewrite check_bitcoin_confirmations_eq by (done || apply Hb).
    rewrite (proj2 (Z.leb_gt _ _)) by lia.
    rewrite (proj2 (Z.leb_le _ (get_best_block_height s + 1))) by (unfold get_best_block_height; lia).
    cbn [mbind outcome_bind]. unfold check_parachain_confirmations, parachain_confirmations.
    rewrite wrap_small by done. by rewrite (proj2 (Z.leb_le _ _)) by done.
  - intros Hv Ho. outcome_inv. apply (ordered_no_fork s Ho).
    match goal with H : ensure_no_ongoing_fork _ _ = _ |- _ =>
      by apply ensure_no_ongoing_fork_iff in H end.
Qed.

(** ** Inclusion *)
Section forgery.
Context `{Sha256}.
Implicit Types (q : MerkleProof) (h i k d : nat) (ids : list H256Le).

(** The byte strings hashed to build the Merkle tree of a block: the
    transactions, and the pairs of child nodes. *)
Definition hashed_in_block (b : Block) (m : list byte) : Prop :=
  (∃ tx, tx ∈ transactions b ∧ m = enc_tx_no_witness tx) ∨
  (∃ h i l, level (txid <$> transactions b) h !! (2 * i)%nat = Some l ∧
     m = content l ++ content (default l (level (txid <$> transactions b) h !! (2 * i + 1)%nat))).

(** A second preimage of one of them, which the prover has presented: a
    pair of hashes of a proof, or one of the given transactions. *)
Definition forged (b : Block) (presented : list (list byte)) : Prop :=
  ∃ m m', hashed_in_block b m ∧ m' ∈ presented ∧ m' ≠ m ∧ sha256d m' = sha256d m.

(** What is hashed when a proof is verified: its transaction, and the pairs of
    hashes that are combined. *)
Definition presented_by (p : PartialTransactionProof) : list (list byte) :=
  enc_tx_no_witness (transaction p) :: opened_by p.

Section block.
Context (b : Block) (presented : list (list byte)).
Let ids := txid <$> transactions b.

Lemma wf_ids : Forall wf_H256Le ids.
Proof. apply Forall_fmap, Forall_true. intros ?. apply sha256_length. Qed.

Lemma wf_node h i x : level ids h !! i = Some x → wf_H256Le x.
Proof. intros Hx. eapply Forall_lookup_1; [| exact Hx]. apply wf_level, wf_ids. Qed.

(** A node of the tree with a hash the prover can open has the tree's own
    children, or the prover has forged it. *)
Lemma node_children h i x l r :
  level ids (S h) !! i = Some x → wf_H256Le l → wf_H256Le r → step l r = x →
  content l ++ content r ∈ presented →
  forged b presented ∨
  (level ids h !! (2 * i)%nat = Some l ∧
   (level ids h !! (2 * i + 1)%nat = Some r ∨ r = l)).
Proof.
  intros Hx Wl Wr Heq Hin. destruct (proj1 (pair_up_lookup _ _ _) Hx) as (a & Ha & ->).
  set (c := default a (level ids h !! (2 * i + 1)%nat)) in *.
  injection Heq as Heq.
  destruct (decide (content l ++ content r = content a ++ content c)) as [Hs | Hd].
  - right. apply step_content in Hs as [-> ->]; [| by eapply wf_node | done].
    split; [done |]. unfold c. destruct (level ids h !! (2 * i + 1)%nat); [by left | by right].
  - left. exists (content a ++ content c), (content l ++ content r).
    split_and!; [| done..].
    right. by exists h, i, a.
Qed.

(** A transaction whose id is an inner node is 64 bytes long. *)
Lemma tx_is_node d i x tx :
  level ids (S d) !! i = Some x → txid tx = x → enc_tx_no_witness tx ∈ presented →
  forged b presented ∨ length (enc_tx_no_witness tx) = 64%nat.
Proof.
  intros Hx Hid Hp. destruct (proj1 (pair_up_lookup _ _ _) Hx) as (a & Ha & ->).
  set (c := default a (level ids d !! (2 * i + 1)%nat)) in *.
  assert (wf_H256Le a) as Wa by by eapply wf_node.
  assert (wf_H256Le c) as Wc.
  { unfold c. destruct (level ids d !! (2 * i + 1)%nat) eqn:?; [by eapply wf_node | done]. }
  injection Hid as Hid.
  destruct (decide (enc_tx_no_witness tx = content a ++ content c)) as [-> |].
  - right. by apply content_64.
  - left. exists (content a ++ content c), (enc_tx_no_witness tx).
    split_and!; [right; by exists d, i, a | done..].
Qed.

(** A traversal of [k] levels that ends in a node of level [d + k] has
    located a node of level [d], whatever the claimed transaction count. *)
Lemma extract_member q k d pos i x t y t' :
  Forall wf_H256Le (hashes q) → level ids (k + d) !! i = Some x →
  traverse_and_extract q k (Z.of_nat pos) t = Ok (y, t') → opened q k pos t ⊆ presented →
  wf_H256Le y ∧
  (y = x → forged b presented ∨
     hash_position t' = hash_position t ∨
     ∃ j i' z, hash_position t' = Some j ∧ get_at (hashes q) j = Some z ∧
               level ids d !! i' = Some z).
Proof.
  intros Hq. revert pos i x t y t'. induction k as [| k IH]; intros pos i x t y t' Hx Hr Hopen;
    apply extract_inv in Hr as
      [(f & Hf & Hy & Ht) | (h' & t1 & l & t2 & r & [= <-] & E1 & E2 & Hl & Hr & -> & Ho)].
  1-2: apply get_at_Some in Hy as Hy'; destruct Hy' as [_ Hy'];
    (split; [by eapply Forall_lookup_1 in Hy' |]); intros ->; right.
  - destruct f; [right | left; by destruct Ht]. destruct Ht as [_ Ht].
    by exists (hashes_used t), i, x.
  - destruct Hf as [| ->]; [done |]. left. by destruct Ht.
  - split; [apply wf_step |]. intros Heq.
    destruct (level_children _ _ _ _ Hx) as (a & Ha & _).
    rewrite Ho in Hopen. apply opened_split in Hopen as (Hm & Hol & Hor).
    destruct (IH _ _ _ _ _ _ Ha Hl Hol) as [Wl Sl].
    assert (wf_H256Le r) as Wr.
    { unfold right_extract, right_opened in *. destruct (_ <? _).
      - by eapply (IH _ _ a) in Hr as [? _].
      - by injection Hr as -> _. }
    destruct (node_children _ _ _ _ _ Hx Wl Wr Heq Hm) as [? | [Hla Hra]]; [by left |].
    destruct (Sl ltac:(congruence)) as [? | P1]; [by left |].
    assert (forged b presented ∨ hash_position t' = hash_position t2 ∨
      ∃ j i' z, hash_position t' = Some j ∧ get_at (hashes q) j = Some z ∧
                level ids d !! i' = Some z) as [? | P2]; [| by left | right].
    { unfold right_extract, right_opened in *. destruct (_ <? _); [| by injection Hr as _ ->; auto].
      assert (∃ i', level ids (k + d) !! i' = Some r) as [i' Hi'].
      { destruct Hra as [Hra | ->]; eauto. }
      by apply (IH _ _ _ _ _ _ Hi' Hr Hor). }
    rewrite E2 in P1. destruct P2 as [-> | P2]; [exact P1 | by right].
Qed.

(** A traversal records only positions below its own node. *)
Lemma extract_range q h pos t y t' :
  traverse_and_extract q h (Z.of_nat pos) t = Ok (y, t') →
  merkle_position t' = merkle_position t ∨
  ∃ p, merkle_position t' = Some p ∧ Z.of_nat pos * 2 ^ Z.of_nat h ≤ p.
Proof.
  revert pos t y t'. induction h as [| h IH]; intros pos t y t' Hr;
    apply extract_inv in Hr as
      [(f & Hf & _ & Ht) | (h' & t1 & l & t2 & r & [= <-] & E1 & _ & Hl & Hr & _ & _)].
  - destruct f, Ht as [Hm _]; [right; exists (Z.of_nat pos); split; [done | lia] | by left].
  - destruct Hf as [| ->]; [done | left; by destruct Ht].
  - rewrite Nat2Z.inj_succ, Z.pow_succ_r by lia.
    assert (0 < 2 ^ Z.of_nat h) by (apply Z.pow_pos_nonneg; lia).
    assert (merkle_position t' = merkle_position t2 ∨
      ∃ p, merkle_position t' = Some p ∧ Z.of_nat (2 * pos + 1) * 2 ^ Z.of_nat h ≤ p)
      as [-> | (p & ? & ?)]; [| | right; exists p; split; [done | lia]].
    { unfold right_extract in Hr. destruct (_ <? _); [by eapply IH | left].
      by injection Hr as _ ->. }
    destruct (IH _ _ _ _ Hl) as [-> | (p & ? & ?)]; [by left |].
    right. exists p. split; [done | lia].
Qed.

Lemma extract_wf q h pos t y t' :
  Forall wf_H256Le (hashes q) → traverse_and_extract q h (Z.of_nat pos) t = Ok (y, t') →
  wf_H256Le y.
Proof.
  intros Hq Hr. apply extract_inv in Hr as [(f & _ & Hy & _) | (? & ? & ? & ? & ? & _ & _ & _ & _ & _ & -> & _)];
    [| apply wf_step].
  apply get_at_Some in Hy as [_ Hy]. by eapply Forall_lookup_1 in Hy.
Qed.

Lemma right_wf q h pos l t y t' :
  Forall wf_H256Le (hashes q) → wf_H256Le l → right_extract q h pos l t = Ok (y, t') →
  wf_H256Le y.
Proof.
  intros Hq Hl. unfold right_extract. destruct (_ <? _); [by apply extract_wf |].
  by intros [= -> _].
Qed.

(** A traversal that is deeper than the tree and locates position 0 opens
    the id of the first transaction as a pair of hashes. *)
Lemma extract_deep q k d t x t' :
  Forall wf_H256Le (hashes q) → merkle_position t = None → level ids k !! 0%nat = Some x →
  traverse_and_extract q (k + S d) (Z.of_nat 0) t = Ok (x, t') →
  opened q (k + S d) 0 t ⊆ presented → merkle_position t' = Some 0 →
  forged b presented ∨
  ∃ l r, wf_H256Le l ∧ wf_H256Le r ∧ ids !! 0%nat = Some (step l r) ∧
         content l ++ content r ∈ presented.
Proof.
  intros Hq. revert t x t'. induction k as [| k IH]; intros t x t' Hm Hx Hr Hopen Hp;
    apply extract_inv in Hr as
      [(f & [Hh | ->] & _ & Ht) | (h' & t1 & l & t2 & r & [= <-] & E1 & _ & Hl & Hr & Heq & Ho)];
    try done; try (destruct Ht; congruence);
    rewrite Ho in Hopen; apply opened_split in Hopen as (Hin & Hol & _).
  - right. exists l, r. cbn [level] in Hx. rewrite Hx, Heq.
    split_and!; [by eapply extract_wf | by eapply right_wf; [| eapply extract_wf |] | done..].
  - assert (wf_H256Le l) as Wl by by eapply extract_wf.
    assert (wf_H256Le r) as Wr by by eapply right_wf.
    destruct (node_children _ _ _ _ _ Hx Wl Wr (eq_sym Heq) Hin) as [? | [Hla _]]; [by left |].
    cbn [Nat.mul] in Hl. eapply IH; [| exact Hla | exact Hl | exact Hol |]; [congruence |].
    unfold right_extract in Hr. destruct (_ <? _); [| by injection Hr as _ <-].
    apply extract_range in Hr as [<- | (p & Hp' & Hle)]; [done |].
    assert (0 < 2 ^ Z.of_nat (k + S d)) by (apply Z.pow_pos_nonneg; lia).
    rewrite Hp in Hp'. injection Hp' as <-. lia.
Qed.
End block.

(** *** The two proofs of an inclusion *)

(** A transaction of at most [u32::MAX] serialized bytes. *)
Definition encodable (p : PartialTransactionProof) : Prop :=
  fits 32 (tx_encoded_len p) ∧ zlen (enc_tx_no_witness (transaction p)) < 2 ^ 32 ∧
  Forall wf_H256Le (hashes (merkle_proof p)).

Lemma tx_id_bounded_txid tx len id :
  fits 32 len → zlen (enc_tx_no_witness tx) < 2 ^ 32 → tx_id_bounded tx len = Ok id →
  id = txid tx.
Proof.
  intros Hl Hs. rewrite tx_id_bounded_eq by done. rewrite tx_id_Ok.
  destruct (_ <=? _); [| done]. by intros [= <-].
Qed.

(** [verify_proof], with the height as a natural number. *)
Lemma verify_proof_traversal p res :
  encodable p → fits 32 (transactions_count (merkle_proof p)) → verify_proof p = Ok res →
  ∃ k t j,
    compute_height (transactions_count (merkle_proof p)) = Ok (Z.of_nat k) ∧
    traverse_and_extract (merkle_proof p) k (Z.of_nat 0) (mkTraversal 0 0 None None)
      = Ok (extracted_root res, t) ∧
    opened (merkle_proof p) k 0 (mkTraversal 0 0 None None) ⊆ presented_by p ∧
    merkle_position t = Some (transaction_position res) ∧ hash_position t = Some j ∧
    get_at (hashes (merkle_proof p)) j = Some (txid (transaction p)) ∧
    tx_count res = transactions_count (merkle_proof p) ∧
    proof_transaction res = transaction p ∧
    block_hash res = hash (block_header (merkle_proof p)).
Proof.
  intros (Hlen & Hsz & _) Hf Hv.
  apply verify_proof_inv in Hv as (h & t & j & Hne & Hmax & Hh & Ht & Hm & Hp & Hj & Hid & Hrest).
  change MAX_TRANSACTIONS_IN_PROOF with 16666 in Hmax. unfold fits in Hf.
  pose proof Hh as Hh'.
  rewrite compute_height_log2_up in Hh' by (unfold MAX_COUNT; lia). injection Hh' as Hh'.
  pose proof (Z.log2_up_nonneg (transactions_count (merkle_proof p))).
  exists (Z.to_nat h), t, j. rewrite Z2Nat.id by lia.
  split_and!; try done; try apply Hrest.
  { unfold presented_by, opened_by. rewrite Hh. set_solver. }
  by rewrite Hj, (tx_id_bounded_txid _ _ _ Hlen Hsz Hid).
Qed.

(** The block contains the transaction: some transaction of it has the same
    serialization without witnesses. *)
Definition included (b : Block) (tx : Transaction) : Prop :=
  ∃ tx', tx' ∈ transactions b ∧ enc_tx_no_witness tx' = enc_tx_no_witness tx.

(** A coinbase transaction that is as long as two hashes. *)
Definition coinbase_64 (b : Block) (coinbase : Transaction) : Prop :=
  length (enc_tx_no_witness coinbase) = 64%nat ∨
  ∃ tx0, transactions b !! 0%nat = Some tx0 ∧ length (enc_tx_no_witness tx0) = 64%nat.

Lemma leaf_included b presented i tx :
  (txid <$> transactions b) !! i = Some (txid tx) → enc_tx_no_witness tx ∈ presented →
  forged b presented ∨ included b tx.
Proof.
  rewrite list_lookup_fmap. destruct (transactions b !! i) as [tx' |] eqn:Hi; [| done].
  intros Hid Hp. apply (inj Some) in Hid. injection Hid as Hid.
  apply list_elem_of_lookup_2 in Hi.
  destruct (decide (enc_tx_no_witness tx' = enc_tx_no_witness tx)) as [| Hne].
  - right. by exists tx'.
  - left. exists (enc_tx_no_witness tx'), (enc_tx_no_witness tx).
    split_and!; [left; by exists tx' | done | congruence | done].
Qed.

Lemma proofs_include b user coinbase ru rc :
  encodable user → encodable coinbase →
  fits 32 (transactions_count (merkle_proof user)) →
  verify_proof user = Ok ru → verify_proof coinbase = Ok rc →
  transaction_position rc = 0 → extracted_root ru = extracted_root rc →
  tx_count ru = tx_count rc → block_root b = Some (extracted_root ru) →
  included b (transaction user) ∨
  forged b (presented_by user ++ presented_by coinbase) ∨
  coinbase_64 b (transaction coinbase).
Proof.
  intros Eu Ec Hf Hu Hc Hpos Hroot Hcount Hb.
  set (presented := _ ++ _).
  assert (enc_tx_no_witness (transaction user) ∈ presented) as Pu by (unfold presented, presented_by; set_solver).
  assert (enc_tx_no_witness (transaction coinbase) ∈ presented) as Pc by (unfold presented, presented_by; set_solver).
  apply verify_proof_traversal in Hu as (k & tu & ju & Hk & Ru & Ou & _ & Ju & Gu & Cu & _); [| done..].
  assert (fits 32 (transactions_count (merkle_proof coinbase))) as Hf'.
  { apply verify_proof_inv in Hc as (? & ? & ? & _ & _ & _ & _ & _ & _ & _ & _ & Cc & _).
    by rewrite <- Cc, <- Hcount, Cu. }
  apply verify_proof_traversal in Hc as (k' & tc & jc & Hk' & Rc & Oc & Mc & Jc & Gc & Cc & _); [| done..].
  assert (k' = k) as -> by (rewrite <- Cc, <- Hcount, Cu, Hk in Hk'; injection Hk'; lia).
  assert (opened (merkle_proof user) k 0 (mkTraversal 0 0 None None) ⊆ presented) as Ou'
    by (unfold presented; set_solver).
  assert (opened (merkle_proof coinbase) k 0 (mkTraversal 0 0 None None) ⊆ presented) as Oc'
    by (unfold presented; set_solver).
  unfold block_root, tree_root in Hb. set (h := tree_height (txid <$> transactions b)) in *.
  rewrite <- Hroot in Rc. rewrite Hpos in Mc.
  destruct (lt_eq_lt_dec k h) as [[Hlt | ->] | Hgt].
  - (* the claimed tree is too low: the coinbase is an inner node *)
    replace h with (k + S (h - k - 1))%nat in Hb by lia.
    apply (extract_member b presented _ _ _ _ _ _ _ _ _ (proj2 (proj2 Ec)) Hb) in Rc as [_ Rc]; [| done].
    destruct (Rc eq_refl) as [? | [Hn | (j & i & z & Hj & Hz & Hi)]];
      [by right; left | rewrite Jc in Hn; done |].
    assert (z = txid (transaction coinbase)) as -> by congruence.
    destruct (tx_is_node b presented _ _ _ _ Hi eq_refl Pc) as [? | ?];
      [by right; left | right; right; by left].
  - replace h with (h + 0)%nat in Hb by lia.
    apply (extract_member b presented _ _ _ _ _ _ _ _ _ (proj2 (proj2 Eu)) Hb) in Ru as [_ Ru]; [| done].
    destruct (Ru eq_refl) as [? | [Hn | (j & i & z & Hj & Hz & Hi)]];
      [by right; left | rewrite Ju in Hn; done |].
    assert (z = txid (transaction user)) as -> by congruence.
    destruct (leaf_included b presented _ _ Hi Pu); [by right; left | by left].
  - (* too high: the first transaction of the block is a pair of hashes *)
    replace k with (h + S (k - h - 1))%nat in Rc, Oc' by lia.
    destruct (extract_deep b presented _ _ _ (mkTraversal 0 0 None None) _ _
      (proj2 (proj2 Ec)) eq_refl Hb Rc Oc' Mc) as [? | (l & r & Wl & Wr & Hi & Hin)];
      [by right; left | right].
    rewrite list_lookup_fmap in Hi. destruct (transactions b !! 0%nat) as [tx0 |] eqn:H0; [| done].
    apply (inj Some) in Hi. injection Hi as Hi.
    destruct (decide (enc_tx_no_witness tx0 = content l ++ content r)) as [Heq | Hne].
    + right. right. exists tx0. split; [done |]. rewrite Heq. by apply content_64.
    + left. exists (enc_tx_no_witness tx0), (content l ++ content r).
      split_and!; [left; exists tx0; split; [by eapply list_elem_of_lookup_2 | done]
        | done | congruence | done].
Qed.

(** C25: when the relay accepts an inclusion proof, the header it
    was checked against is a sufficiently confirmed main-chain header, and
    every block with that header's Merkle root contains the transaction --
    for any transaction count the prover claims -- unless one of the two
    transactions or of the pairs of hashes that are combined when the two proofs are
    verified is a second preimage of something hashed in the block, or a coinbase
    transaction of exactly 64 bytes is involved.  The inclusion check has to be enabled
    ([DisableInclusionCheck] is false: else the code accepts every proof), hashes
    are of 32 bytes, and lengths and counts are [u32]s. *)
Theorem transaction_inclusion_sound unchecked confs s tx :
  let user := user_tx_proof unchecked in
  let coinbase := coinbase_proof unchecked in
  encodable user → encodable coinbase → fits 32 (transactions_count (merkle_proof user)) →
  DisableInclusionCheck s = false →
  _verify_transaction_inclusion unchecked confs s = Ok tx →
  tx = transaction user ∧ is_coinbase (transaction coinbase) = true ∧
  ∃ stored, verify_block_header_inclusion (hash (block_header (merkle_proof user))) confs s = Ok stored ∧
    ∀ b, block_root b = Some (merkle_root stored) →
      included b tx ∨
      forged b (presented_by user ++ presented_by coinbase) ∨
      coinbase_64 b (transaction coinbase).
Proof.
  intros user coinbase Eu Ec Hf Hd Hv. unfold _verify_transaction_inclusion in Hv.
  change (disable_inclusion_check s) with (DisableInclusionCheck s) in Hv. rewrite Hd in Hv.
  unfold verify_merkle_proof in Hv.
  change (user_tx_proof unchecked) with user in Hv.
  change (coinbase_proof unchecked) with coinbase in Hv. outcome_inv.
  repeat match goal with
  | H : bool_decide _ = true |- _ => apply bool_decide_eq_true in H
  | H : (_ =? _) = true |- _ => apply Z.eqb_eq in H
  | H : block_matches_merkle_root _ _ = true |- _ => apply bool_decide_eq_true in H
  end.
  match goal with
  | Hu : verify_proof user = Ok ?ru, Hc : verify_proof coinbase = Ok ?rc |- _ =>
      destruct (verify_proof_traversal _ _ Eu Hf Hu) as (_ & _ & _ & _ & _ & _ & _ & _ & _ & _ & Tu & Bu);
      pose proof (verify_proof_inv _ _ Hc) as (_ & _ & _ & _ & _ & _ & _ & _ & _ & _ & _ & _ & Tc & _);
      pose proof (λ b, proofs_include b user coinbase ru rc Eu Ec Hf Hu Hc) as Hin
  end.
  rewrite Tu, <- Tc. split_and!; [done | done |].
  eexists. split; [rewrite <- Bu; eassumption |]. intros b Hb. rewrite Tc.
  apply Hin; congruence.
Qed.
End forgery.

(** ** Witnesses: a relay that knows one block of three transactions *)
Section witnesses.
Local Existing Instance toy_sha256.

Definition toy_coinbase : Transaction :=
  mkTransaction 2 [mkTransactionInput (Coinbase (Some 7)) [] (umax 32) []]
    [mkTransactionOutput 50 (mkScript [u8 1])] (BlockHeight 0).
Definition relay_txs : list Transaction := [toy_coinbase; toy_tx 20; toy_tx 30].
Definition relay_root : H256Le :=
  match builder_compute_merkle_root (mkBlock toy_header relay_txs) with
  | Ok r => r
  | _ => H256.zero
  end.
Definition relay_header : BlockHeader :=
  mkBlockHeader relay_root 0 0 4 (toy_id 1) (toy_id 2) 0.
Definition relay_block : Block := mkBlock relay_header relay_txs.
Definition relay_proof (tx : Transaction) : PartialTransactionProof :=
  mkPartialTransactionProof tx 200
    match block_merkle_proof relay_block [txid tx] with
    | Ok p => p
    | _ => mkMerkleProof relay_header [] 0 []
    end.
Definition relay_full : FullTransactionProof :=
  mkFullTransactionProof (relay_proof (toy_tx 20)) (relay_proof toy_coinbase).

Definition relay_rich : RichBlockHeader := mkRich relay_header 100 0 10.
Definition relay_storage : Storage :=
  mkStorage {[toy_id 1 := relay_rich]} {[0 := 0]} {[0 := mkBlockChain 0 100 105]}
    {[(0, 100) := toy_id 1]} (Some (toy_id 1)) 105 (Some 100) 1 6 5 false false
    (Security.mkStorage 0 20 false []) [].

Lemma relay_storage_bounds : relay_bounds relay_storage.
Proof.
  split_and!; [split; vm_compute; (discriminate || reflexivity).. | |].
  - intros id chain Hl. unfold relay_storage, ChainsIndex in Hl. apply lookup_singleton_Some in Hl as [<- <-].
    split; [split |]; vm_compute; (discriminate || reflexivity).
  - intros hash rich Hl. unfold relay_storage, BlockHeaders in Hl. apply lookup_singleton_Some in Hl as [<- <-].
    split; split; vm_compute; (discriminate || reflexivity).
Qed.

(** The same relay with two forks, at heights 99 and 98. *)
Definition forked_storage : Storage :=
  mkStorage {[toy_id 1 := relay_rich]} (<[1 := 1]> (<[2 := 2]> {[0 := 0]}))
    (<[1 := mkBlockChain 1 90 99]> (<[2 := mkBlockChain 2 90 98]> {[0 := mkBlockChain 0 100 105]}))
    {[(0, 100) := toy_id 1]} (Some (toy_id 1)) 105 (Some 100) 1 6 5 false false
    (Security.mkStorage 0 20 false []) [].

Lemma forked_storage_bounds : relay_bounds forked_storage.
Proof.
  split_and!; [split; vm_compute; (discriminate || reflexivity).. | |].
  - intros id chain Hl. unfold forked_storage, ChainsIndex in Hl.
    apply lookup_insert_Some in Hl as [[_ <-] | [_ Hl]]; [| apply lookup_insert_Some in Hl as [[_ <-] | [_ Hl]];
      [| apply lookup_singleton_Some in Hl as [_ <-]]];
    (split; [split |]; vm_compute; (discriminate || reflexivity)).
  - intros hash rich Hl. unfold forked_storage, BlockHeaders in Hl. apply lookup_singleton_Some in Hl as [<- <-].
    split; split; vm_compute; (discriminate || reflexivity).
Qed.

Lemma forked_storage_ordered : forks_ordered forked_storage.
Proof.
  intros p q j Hpq Hj. unfold forked_storage, Chains in Hj.
  assert (p = 1 ∧ q = 1 ∧ j = 1 ∨ p = 1 ∧ q = 2 ∧ j = 2 ∨ p = 2 ∧ q = 2 ∧ j = 2) as Hc.
  { apply lookup_insert_Some in Hj as [[<- <-] | [_ Hj]]; [lia |].
    apply lookup_insert_Some in Hj as [[<- <-] | [_ Hj]]; [lia |].
    apply lookup_singleton_Some in Hj. lia. }
  destruct Hc as [(-> & -> & ->) | [(-> & -> & ->) | (-> & -> & ->)]];
    do 3 eexists; (split; [reflexivity |]; split; [reflexivity |]; split; [reflexivity |]); cbn; lia.
Qed.

Lemma verify_block_header_inclusion_iff_witness :
  fits 32 6 ∧
  verify_block_header_inclusion (toy_id 1) (Some 6) forked_storage = Ok relay_header ∧
  (∃ rich, BlockHeaders forked_storage !! toy_id 1 = Some rich ∧ rich_header rich = relay_header ∧
    rich_height rich + 6 ≤ BestBlockHeight forked_storage + 1) ∧
  no_ongoing_fork forked_storage ∧ Chains forked_storage !! 2 = Some 2.
Proof.
  assert (fits 32 6) as Hf by (split; lia).
  assert (verify_block_header_inclusion (toy_id 1) (Some 6) forked_storage = Ok relay_header) as Hv
    by (vm_compute; reflexivity).
  split; [exact Hf |]. split; [exact Hv |].
  destruct (verify_block_header_inclusion_iff (toy_id 1) (Some 6) forked_storage relay_header
    forked_storage_bounds Hf) as [Hiff Hno].
  destruct (proj1 Hiff Hv) as (rich & Hr & Hh & _ & _ & Hc & _).
  split; [exists rich; split; [exact Hr |]; split; [exact Hh | exact Hc] |].
  split; [exact (Hno Hv forked_storage_ordered) | reflexivity].
Defined.

Lemma relay_encodable tx : In tx relay_txs → encodable (relay_proof tx).
Proof.
  intros Hin. split; [split; [discriminate | reflexivity] |].
  destruct Hin as [<- | [<- | [<- | []]]]; (split; [vm_compute; reflexivity |]);
    apply (bool_decide_eq_true_1 _); vm_compute; reflexivity.
Qed.

Lemma transaction_inclusion_sound_witness :
  _verify_transaction_inclusion relay_full (Some 6) relay_storage = Ok (toy_tx 20) ∧
  is_coinbase toy_coinbase = true ∧
  ∃ stored, verify_block_header_inclusion (toy_id 1) (Some 6) relay_storage = Ok stored ∧
    (block_root relay_block = Some (merkle_root stored) →
     included relay_block (toy_tx 20) ∨
     forged relay_block (presented_by (relay_proof (toy_tx 20)) ++ presented_by (relay_proof toy_coinbase)) ∨
     coinbase_64 relay_block toy_coinbase).
Proof.
  assert (_verify_transaction_inclusion relay_full (Some 6) relay_storage = Ok (toy_tx 20)) as Hv
    by (vm_compute; reflexivity).
  split; [exact Hv |].
  destruct (transaction_inclusion_sound relay_full (Some 6) relay_storage (toy_tx 20)
    (relay_encodable (toy_tx 20) ltac:(right; left; reflexivity))
    (relay_encodable toy_coinbase ltac:(left; reflexivity))
    ltac:(split; vm_compute; [discriminate | reflexivity]) eq_refl Hv)
    as (_ & Hc & stored & Hs & Hb).
  split; [exact Hc |]. exists stored. split; [vm_compute in Hs |- *; exact Hs | exact (Hb relay_block)].
Defined.
End witnesses.
