(* ===== verification/RelayPayments.v ===== *)
(** * What a valid Bitcoin payment looks like

    Complete characterisations of the payments the relay accepts: op-return
    payments (redeem, replace, refund) and plain payments (issue). *)

From coqutil Require Import Byte Word.LittleEndianList.
From Stdlib Require Import ZArith Lia.
From stdpp Require Import base tactics option list numbers gmap sorting.
From S2P Require Import Prelude Bytes BtcTypes BtcCompact BtcFormat BtcMerkle Security.
From S2P Require Import Relay RelayVerify RelayInclusion.

Local Open Scope Z_scope.

(** [o] sends [v] to the address [a]: its script is the address's script. *)
Definition pays (o : TransactionOutput) (a : Address) (v : Z) : Prop :=
  value o = v ∧ wf_Address a ∧ to_script_pub_key a = Ok (out_script o).

(** [o] carries the 32 bytes [id] and no value. *)
Definition returns (o : TransactionOutput) (id : list byte) : Prop :=
  value o = 0 ∧ (∀ a, wf_Address a → to_script_pub_key a ≠ Ok (out_script o)) ∧
  extract_op_return_data (out_script o) = Ok id ∧ zlen id = 32.

(** ** Classification of outputs *)

Definition pay_of (o : TransactionOutput) : option (Z * Address) :=
  match extract_address o with Ok a => Some (value o, a) | _ => None end.
Definition ret_of (o : TransactionOutput) : option (list byte) :=
  match extract_address o with
  | Ok _ => None
  | _ =>
      match extract_op_return_data (out_script o) with
      | Ok d => if (value o =? 0) && (zlen d =? 32) then Some d else None
      | _ => None
      end
  end.

Lemma extract_address_iff o a :
  extract_address o = Ok a ↔ wf_Address a ∧ to_script_pub_key a = Ok (out_script o).
Proof. apply from_script_pub_key_spec. Qed.

Lemma pay_of_iff o v a : pay_of o = Some (v, a) ↔ pays o a v.
Proof.
  unfold pay_of, pays. rewrite <- extract_address_iff.
  destruct (extract_address o); (split; [intros Hp; by simplify_eq | intros [? ?]; by simplify_eq]).
Qed.

Lemma ret_of_iff o d : ret_of o = Some d ↔ returns o d.
Proof.
  unfold ret_of, returns.
  assert ((∀ a, wf_Address a → to_script_pub_key a ≠ Ok (out_script o)) ↔
          ∀ a, extract_address o ≠ Ok a) as ->.
  { split; intros Hn a.
    - rewrite extract_address_iff. intros [? ?]. by eapply Hn.
    - intros Hw Ha. eapply Hn. by apply extract_address_iff. }
  destruct (extract_address o) as [a | | |].
  1: split; [done | intros (_ & Hn & _); by destruct (Hn a)].
  all: destruct (extract_op_return_data (out_script o)) as [d' | | |];
    (split; [| intros (Hv & _ & [= <-] & Hd)]).
  all: try done; try by intros [= ].
  all: try (destruct (Z.eqb_spec (value o) 0), (Z.eqb_spec (zlen d') 32); cbn; try done;
    intros [= <-]; by split_and!).
  all: by rewrite Hv, Hd.
Qed.

Lemma classify_one o :
  (∃ a, extract_address o = Ok a ∧ pay_of o = Some (value o, a) ∧ ret_of o = None) ∨
  (∃ d, (∀ a, extract_address o ≠ Ok a) ∧ extract_op_return_data (out_script o) = Ok d ∧
        pay_of o = None ∧ ret_of o = Some d) ∨
  ((∀ a, extract_address o ≠ Ok a) ∧ pay_of o = None ∧ ret_of o = None).
Proof.
  unfold pay_of, ret_of. destruct (extract_address o) as [a | | |]; [left; by exists a |..]; right;
    (destruct (extract_op_return_data (out_script o)) as [d | | |]; [| right; by split_and!..]).
  all: destruct ((value o =? 0) && (zlen d =? 32)); [left; by exists d | right; by split_and!].
Qed.

(** The loop accepts exactly the outputs that pay or return, and splits them. *)
Lemma classify_outputs_iff outs p r p' r' :
  classify_outputs outs p r = Ok (p', r') ↔
  Forall (λ o, is_Some (pay_of o) ∨ is_Some (ret_of o)) outs ∧
  p' = p ++ omap pay_of outs ∧ r' = r ++ omap ret_of outs.
Proof.
  revert p r. induction outs as [| o outs IH]; intros p r.
  - cbn. rewrite !app_nil_r. split; [intros [= -> ->]; by split_and! | by intros (_ & -> & ->)].
  - cbn [classify_outputs]. rewrite Forall_cons. cbn [omap list_omap].
    destruct (classify_one o) as [(a & Ha & -> & ->) | [(d & Hna & Hd & Hp & Hr) | (Hn & Hp & Hr)]].
    + rewrite Ha, IH, <- (assoc_L (++)). cbn [app]. split.
      * intros (? & -> & ->). split_and!; [left; by eexists | done..].
      * by intros ([_ ?] & -> & ->).
    + pose proof Hr as Hr'. rewrite Hp, Hr. revert Hr'. unfold ret_of at 1.
      destruct (extract_address o) as [a | | |]; [done |..]; rewrite Hd;
        (destruct (Z.eqb_spec (value o) 0), (Z.eqb_spec (zlen d) 32); try done; intros _;
         cbn [ensure mbind outcome_bind]; rewrite IH, <- (assoc_L (++)); cbn [app]; split;
         [intros (? & -> & ->); split_and!; [right; by eexists | done..] | by intros ([_ ?] & -> & ->)]).
    + split; [intros Hc | intros ([[Hs | Hs] _] & _); [rewrite Hp in Hs | rewrite Hr in Hs]; by destruct Hs].
      revert Hr Hp Hc. unfold ret_of, pay_of. destruct (extract_address o); [done |..];
        (destruct (extract_op_return_data _); try done;
         destruct (_ =? 0), (_ =? 32); try done).
Qed.

#[export] Instance wf_Address_dec a : Decision (wf_Address a).
Proof. destruct a; cbn; apply _. Defined.
#[export] Instance pays_dec o a v : Decision (pays o a v).
Proof.
  refine (cast_if (decide (pay_of o = Some (v, a)))); by rewrite <- pay_of_iff.
Defined.

(** ** Op-return payments *)

Lemma pays_not_returns o p : pay_of o = Some p → ret_of o = None.
Proof. unfold pay_of, ret_of. by destruct (extract_address o). Qed.

Lemma returns_not_pays o d : ret_of o = Some d → pay_of o = None.
Proof. unfold pay_of, ret_of. by destruct (extract_address o). Qed.

(** An output split by kind: a transaction's outputs are, up to order, its
    paying outputs followed by its op-returns. *)
Lemma outputs_split outs :
  Forall (λ o, is_Some (pay_of o) ∨ is_Some (ret_of o)) outs →
  ∃ ps rs, outs ≡ₚ ps ++ rs ∧
    Forall2 (λ o p, pay_of o = Some p) ps (omap pay_of outs) ∧
    Forall2 (λ o d, ret_of o = Some d) rs (omap ret_of outs).
Proof.
  induction 1 as [| o outs Ho _ (ps & rs & Hperm & Hp & Hr)]; [by exists [], [] |].
  cbn [omap list_omap]. destruct Ho as [[p Hpo] | [d Hdo]].
  - rewrite Hpo, (pays_not_returns _ _ Hpo). exists (o :: ps), rs.
    split_and!; [by rewrite Hperm | by constructor | done].
  - rewrite Hdo, (returns_not_pays _ _ Hdo). exists ps, (o :: rs).
    split_and!; [rewrite Hperm; apply Permutation_middle | done | by constructor].
Qed.

Lemma zlen_1 {A} (l : list A) : zlen l = 1 → ∃ x, l = [x].
Proof. destruct l as [| x []]; unfold zlen; cbn; try lia. by exists x. Qed.

(** The outputs of an op-return payment: one op-return, and one payment or two
    payments to different addresses. *)
Inductive op_return_outputs : list TransactionOutput → list (Z * Address) → list byte → Prop :=
  | outputs_one o v a ret id :
      pays o a v → returns ret id → op_return_outputs [o; ret] [(v, a)] id
  | outputs_two o1 v1 a1 o2 v2 a2 ret id :
      pays o1 a1 v1 → pays o2 a2 v2 → a1 ≠ a2 → returns ret id →
      op_return_outputs [o1; o2; ret] [(v1, a1); (v2, a2)] id.

Lemma op_return_try_from_Ok tx d :
  op_return_try_from tx = Ok d →
  ∃ outs, outputs tx ≡ₚ outs ∧ op_return_outputs outs (payments d) (op_return_id d).
Proof.
  unfold op_return_try_from. intros Ht. outcome_inv.
  match goal with x : _ * _ |- _ => destruct x as [ps rs] end. outcome_inv.
  match goal with H : classify_outputs _ _ _ = _ |- _ =>
    apply classify_outputs_iff in H as (Hall & -> & ->) end.
  cbn [app] in *. apply outputs_split in Hall as (os & rs & Hperm & Hp & Hr).
  match goal with H : (zlen _ =? 1) = true |- _ =>
    apply Z.eqb_eq, zlen_1 in H as [id Hid]; rewrite Hid in * end.
  apply Forall2_cons_inv_r in Hr as (ret & ? & Hret%ret_of_iff & Hnil & ->).
  apply Forall2_nil_inv_r in Hnil as ->. cbn in *. outcome_inv. exists (os ++ [ret]).
  split; [done |]. cbn [payments op_return_id].
  destruct (omap pay_of (outputs tx)) as [| [v1 a1] [| [v2 a2] []]];
    unfold err in *; outcome_inv; try done.
  - apply Forall2_cons_inv_r in Hp as (o & ? & Ho%pay_of_iff & Hnil & ->).
    apply Forall2_nil_inv_r in Hnil as ->. by constructor.
  - apply Forall2_cons_inv_r in Hp as (o1 & ? & Ho1%pay_of_iff & Hp & ->).
    apply Forall2_cons_inv_r in Hp as (o2 & ? & Ho2%pay_of_iff & Hnil & ->).
    apply Forall2_nil_inv_r in Hnil as ->. cbn in *.
    match goal with H : negb _ = true |- _ => apply negb_true_iff, bool_decide_eq_false in H end.
    by constructor.
Qed.

Lemma omap_perm {A B} (f : A → option B) l k : l ≡ₚ k → omap f l ≡ₚ omap f k.
Proof. apply omap_Permutation. Qed.

Lemma op_return_outputs_omap outs ps id :
  op_return_outputs outs ps id →
  Forall (λ o, is_Some (pay_of o) ∨ is_Some (ret_of o)) outs ∧
  omap pay_of outs = ps ∧ omap ret_of outs = [id] ∧ zlen outs ≤ 3.
Proof.
  destruct 1 as [o v a ret id Ho%pay_of_iff Hr%ret_of_iff
    | o1 v1 a1 o2 v2 a2 ret id H1%pay_of_iff H2%pay_of_iff _ Hr%ret_of_iff];
    pose proof (returns_not_pays _ _ Hr) as Hn.
  - pose proof (pays_not_returns _ _ Ho) as Hm.
    split_and!; [| cbn; by rewrite ?Ho, ?Hr, ?Hn, ?Hm.. | done].
    repeat apply Forall_cons_2; [left; by eexists | right; by eexists | done].
  - pose proof (pays_not_returns _ _ H1) as M1. pose proof (pays_not_returns _ _ H2) as M2.
    split_and!; [| cbn; by rewrite ?H1, ?H2, ?Hr, ?Hn, ?M1, ?M2.. | done].
    repeat apply Forall_cons_2; [left; by eexists.. | right; by eexists | done].
Qed.

Lemma op_return_try_from_perm tx outs ps id :
  outputs tx ≡ₚ outs → op_return_outputs outs ps id →
  ∃ d, op_return_try_from tx = Ok d ∧ op_return_id d = id ∧ payments d ≡ₚ ps.
Proof.
  intros Hperm Ho. pose proof (op_return_outputs_omap _ _ _ Ho) as (Hall & Hp & Hr & Hl).
  exists (mkOpReturnPaymentData id (omap pay_of (outputs tx))).
  assert (omap pay_of (outputs tx) ≡ₚ ps) as Hps by (rewrite <- Hp; by apply omap_perm).
  split_and!; [| done | done]. unfold op_return_try_from.
  rewrite (proj2 (Z.leb_le _ _)).
  2:{ unfold zlen in *. rewrite Hperm. done. }
  cbn [ensure mbind outcome_bind].
  rewrite (proj2 (classify_outputs_iff (outputs tx) [] []
    (omap pay_of (outputs tx)) (omap ret_of (outputs tx))));
    [| split_and!; [by rewrite Hperm | done..]].
  assert (omap ret_of (outputs tx) = [id]) as ->.
  { apply Permutation_singleton_r. rewrite <- Hr. by apply omap_perm. }
  cbn [mbind outcome_bind app]. change (zlen [id] =? 1) with true. cbn [ensure mbind outcome_bind].
  destruct Ho as [o v a ret id _ _ | o1 v1 a1 o2 v2 a2 ret id _ _ Hne _].
  - apply Permutation_singleton_r in Hps as ->. done.
  - apply Permutation_sym, Permutation_length_2_inv in Hps as [-> | ->]; cbn;
      rewrite bool_decide_eq_false_2 by congruence; done.
Qed.

(** The searches of [ensure_valid_payment_to], on one or two payments. *)
Lemma ensure_valid_one v a e rcp id r :
  ensure_valid_payment_to (mkOpReturnPaymentData id [(v, a)]) e rcp (Some id) = Ok r ↔
  a = rcp ∧ v = e ∧ r = None.
Proof.
  unfold ensure_valid_payment_to. cbn. rewrite (bool_decide_eq_true_2 (id = id)) by done. cbn.
  destruct (bool_decide_reflect (a = rcp)) as [-> | Hne]; cbn.
  - rewrite (bool_decide_eq_false_2 (rcp ≠ rcp)) by (intros Hn; by apply Hn).
    destruct (Z.eqb_spec v e); cbn; naive_solver.
  - naive_solver.
Qed.

Lemma ensure_valid_two v1 a1 v2 a2 e rcp id r :
  a1 ≠ a2 →
  ensure_valid_payment_to (mkOpReturnPaymentData id [(v1, a1); (v2, a2)]) e rcp (Some id) = Ok r ↔
  (a1 = rcp ∧ v1 = e ∧ r = Some a2) ∨ (a2 = rcp ∧ v2 = e ∧ r = Some a1).
Proof.
  intros Hne. unfold ensure_valid_payment_to. cbn. rewrite (bool_decide_eq_true_2 (id = id)) by done. cbn.
  destruct (bool_decide_reflect (a1 = rcp)) as [-> | H1]; cbn.
  - rewrite (bool_decide_eq_false_2 (rcp ≠ rcp)) by (intros Hn; by apply Hn).
    rewrite (bool_decide_eq_true_2 (a2 ≠ rcp)) by congruence.
    destruct (Z.eqb_spec v1 e); cbn; naive_solver.
  - rewrite (bool_decide_eq_true_2 (a1 ≠ rcp)) by done.
    destruct (bool_decide_reflect (a2 = rcp)) as [-> | H2]; cbn; [| naive_solver].
    destruct (Z.eqb_spec v2 e); cbn; naive_solver.
Qed.

Lemma ensure_valid_op_return d e rcp id r :
  ensure_valid_payment_to d e rcp (Some id) = Ok r → op_return_id d = id.
Proof.
  unfold ensure_valid_payment_to. intros Hv. outcome_inv.
  match goal with H : bool_decide _ = true |- _ => by apply bool_decide_eq_true in H end.
Qed.

(** C28: a transaction is accepted as the payment of
    [expected] satoshi to [recipient] for request [id] exactly when its
    outputs are, in any order, that payment, an op-return with the 32 bytes of
    [id] and no value, and at most one payment to one other address, which is
    the address returned. *)
Theorem validate_op_return_transaction_iff tx recipient expected id r :
  validate_op_return_transaction tx recipient (Some expected) id = Ok r ↔
  ∃ pay ret, pays pay recipient expected ∧ returns ret id ∧
    ((r = None ∧ outputs tx ≡ₚ [pay; ret]) ∨
     (∃ other other_value other_address, r = Some other_address ∧ other_address ≠ recipient ∧
        pays other other_address other_value ∧ outputs tx ≡ₚ [pay; other; ret])).
Proof.
  unfold validate_op_return_transaction. cbn [or_err ok_or]. split.
  - intros Hv. outcome_inv.
    match goal with H : op_return_try_from _ = Ok ?d |- _ =>
      apply op_return_try_from_Ok in H as (outs & Hperm & Ho); destruct d as [id' ps] end.
    unfold or_err in *. outcome_inv.
    pose proof (ensure_valid_op_return _ _ _ _ _ Hv) as Hid. cbn in *. subst id'.
    destruct Ho as [o v a ret id Hp Hr | o1 v1 a1 o2 v2 a2 ret id H1 H2 Hne Hr].
    + apply ensure_valid_one in Hv as (-> & -> & ->). exists o, ret. split_and!; [done.. | by left].
    + apply ensure_valid_two in Hv as [(-> & -> & ->) | (-> & -> & ->)]; [| | done].
      * exists o1, ret. split_and!; [done.. | right]. by exists o2, v2, a2.
      * exists o2, ret. split_and!; [done.. | right]. exists o1, v1, a1.
        split_and!; [done.. |]. rewrite Hperm. apply perm_swap.
  - intros (pay & ret & Hp & Hr & [[-> Hperm] | (other & ov & oa & -> & Hne & Ho & Hperm)]).
    + destruct (op_return_try_from_perm _ _ _ _ Hperm (outputs_one _ _ _ _ _ Hp Hr))
        as ([id' ps] & -> & Hid & Hps). cbn in *. subst id'.
      apply Permutation_singleton_r in Hps as ->. by apply ensure_valid_one.
    + destruct (op_return_try_from_perm _ _ _ _ Hperm
        (outputs_two _ _ _ _ _ _ _ _ Hp Ho (not_eq_sym Hne) Hr)) as ([id' ps] & -> & Hid & Hps).
      cbn in *. subst id'.
      apply Permutation_sym, Permutation_length_2_inv in Hps as [-> | ->];
        apply ensure_valid_two; auto.
Qed.

(** ** Plain payments *)

(** The amount of an issue payment is the value of the first
    output to the recipient, if it converts to the caller's amount type;
    without such an output the transaction is malformed. *)
Theorem get_issue_payment_spec {V} (try_from : Z → option V) tx recipient :
  (∃ pre o post, outputs tx = pre ++ o :: post ∧ (∀ o' v, o' ∈ pre → ¬ pays o' recipient v) ∧
     pays o recipient (value o) ∧
     get_issue_payment try_from tx recipient = or_err (try_from (value o)) InvalidPaymentAmount) ∨
  ((∀ o v, o ∈ outputs tx → ¬ pays o recipient v) ∧
   get_issue_payment try_from tx recipient = err MalformedTransaction).
Proof.
  unfold get_issue_payment. induction (outputs tx) as [| o outs IH].
  - right. split; [by intros ? ? ?%elem_of_nil | done].
  - cbn [find_map]. destruct (decide (pays o recipient (value o))) as [Hp | Hn].
    + left. exists [], o, outs. split_and!; [done | by intros ? ? ?%elem_of_nil | done |].
      destruct Hp as (_ & Ha). rewrite (proj2 (extract_address_iff o recipient) Ha).
      by rewrite bool_decide_eq_true_2.
    + assert (match extract_address o with
              | Ok address => if bool_decide (address = recipient) then Some (value o) else None
              | _ => None
              end = None) as ->.
      { destruct (extract_address o) as [a | | |] eqn:Ha; try done. apply extract_address_iff in Ha.
        destruct (bool_decide_reflect (a = recipient)) as [-> |]; [| done]. by destruct Hn. }
      assert (∀ v, ¬ pays o recipient v) as Hn' by (intros v [<- Ha]; by apply Hn).
      destruct IH as [(pre & o' & post & -> & Hpre & Hp & ->) | [Hall ->]].
      * left. exists (o :: pre), o', post. split_and!; [done | | done | done].
        by intros o2 v [-> | ?]%elem_of_cons; [apply Hn' | apply Hpre].
      * right. split; [| done]. by intros o2 v [-> | ?]%elem_of_cons; [apply Hn' | apply Hall].
Qed.
