(* ===== verification/RelayReorder.v ===== *)
(** * A submission after which [Chains] is not sorted

    [Chains] is documented as a priority queue ordered by maximum height, and
    [ensure_no_ongoing_fork] looks only at its position 1.  In
    [reorganize_chains] the height carried to the next iteration is the one of
    the chain just overtaken ([current_height = prev_height]) instead of the
    one of the moving fork, so a fork moves past one lower fork and then stops
    below the next, lower than it as well.  The theorem is about every such storage; the run at
    the end reaches one through [_initialize] and [_store_block_header]. *)

From coqutil Require Import Byte Word.LittleEndianList.
From Stdlib Require Import ZArith Lia.
From stdpp Require Import base tactics option list numbers gmap sorting.
From S2P Require Import Prelude Bytes BtcTypes BtcCompact BtcFormat BtcMerkle.
From S2P Require Import BtcMerkleTree Security Relay RelayVerify RelayInclusion.

Local Open Scope Z_scope.

(** The iteration order of [map_to_list]. *)
Definition map_to_list_iter : ChainsIter :=
  {| chains_iter := map_to_list; chains_iter_perm m := reflexivity _ |}.

(** ** The fork stops too early *)
Section reorder.
Context `{Sha256} `{ChainsIter}.

(** Where a chain that is stored once is found. *)
Lemma position_of_chain s id q :
  (∀ p, Chains s !! p = Some id ↔ p = q) → get_chain_position_from_chain_id id s = Ok q.
Proof.
  intros Hq. unfold get_chain_position_from_chain_id.
  assert (∀ p v, (p, v) ∈ chains_iter (Chains s) ↔ Chains s !! p = Some v) as Hin
    by (intros p v; rewrite chains_iter_perm; apply elem_of_map_to_list).
  destruct (find _ _) as [[p v] |] eqn:Hf.
  - apply find_some in Hf as [Hx%list_elem_of_In%Hin ->%Z.eqb_eq]. apply Hq in Hx as ->. done.
  - eapply find_none in Hf; [| apply list_elem_of_In, Hin, Hq; reflexivity].
    cbn in Hf. by rewrite Z.eqb_refl in Hf.
Qed.

Lemma swap_keys_lookup {A} (m : gmap Z A) p q a b :
  p ≠ q → m !! p = Some a → m !! q = Some b →
  swap_keys p q m !! p = Some b ∧ swap_keys p q m !! q = Some a ∧
  ∀ k, k ≠ p → k ≠ q → swap_keys p q m !! k = m !! k.
Proof.
  intros Hne Hp Hq. unfold swap_keys. split_and!; [.. | intros k Hkp Hkq].
  - by rewrite lookup_partial_alter_ne, lookup_partial_alter_eq.
  - by rewrite lookup_partial_alter_eq.
  - by rewrite !lookup_partial_alter_ne.
Qed.

Lemma query_chain i c s : ChainsIndex s !! i = Some c → query (get_block_chain_from_id i) s = Ok (c, s).
Proof. intros Hc. unfold query, get_block_chain_from_id. by rewrite Hc. Qed.

(** One iteration at a fork that is higher than the chain before it. *)
Lemma reorganize_loop_pass fuel fork q height i1 c1 s :
  1 ≤ q → Chains s !! (q - 1) = Some i1 → ChainsIndex s !! i1 = Some c1 → i1 ≠ MAIN_CHAIN_ID →
  max_height c1 < height →
  reorganize_loop (S fuel) fork q height s =
  reorganize_loop fuel fork (q - 1) (max_height c1) (with_Chains (swap_keys (q - 1) q) s).
Proof.
  intros Hq Hi Hc Hm Hlt. cbn [reorganize_loop].
  rewrite Z.gtb_ltb, (proj2 (Z.ltb_lt _ _)) by lia. cbn [negb].
  unfold saturating_sub. rewrite (Z.max_l (q - 1)) by lia. run. unfold get_chain_id_from_position. rewrite Hi.
  cbn [or_err ok_or]. erewrite run_bind by by apply query_chain.
  rewrite (proj2 (Z.ltb_lt _ _)), (proj2 (Z.eqb_neq _ _)) by done. by unfold swap_chain; run.
Qed.

(** One iteration at a fork whose carried height is not above the chain before it. *)
Lemma reorganize_loop_stop fuel fork q height i1 c1 s :
  1 ≤ q → Chains s !! (q - 1) = Some i1 → ChainsIndex s !! i1 = Some c1 → height ≤ max_height c1 →
  reorganize_loop (S fuel) fork q height s = Ok (tt, s).
Proof.
  intros Hq Hi Hc Hle. cbn [reorganize_loop].
  rewrite Z.gtb_ltb, (proj2 (Z.ltb_lt _ _)) by lia. cbn [negb].
  unfold saturating_sub. rewrite (Z.max_l (q - 1)) by lia. run. unfold get_chain_id_from_position. rewrite Hi.
  cbn [or_err ok_or]. erewrite run_bind by by apply query_chain.
  by rewrite (proj2 (Z.ltb_ge _ _)) by done.
Qed.

(** C40: a fork that has grown above the two forks before it in [Chains] is moved
    before the first of them only, when these two are in order: [reorganize_chains] then
    compares the height of the chain that was overtaken, not the fork's, and stops.
    [Chains], documented as ordered by decreasing height, is left unsorted, with the lower
    fork first.  If that happens at position 1, and the lower fork is far
    enough behind the main chain while the fork that has grown is not, then
    [ensure_no_ongoing_fork] passes although a fork is ongoing. *)
Theorem reorganize_chains_leaves_unsorted fork s q i1 i2 c1 c2 :
  3 ≤ q → (∀ p, Chains s !! p = Some (chain_id fork) ↔ p = q) →
  ChainsIndex s !! chain_id fork = Some fork →
  Chains s !! (q - 1) = Some i1 → ChainsIndex s !! i1 = Some c1 → i1 ≠ MAIN_CHAIN_ID →
  Chains s !! (q - 2) = Some i2 → ChainsIndex s !! i2 = Some c2 →
  max_height c1 ≤ max_height c2 < max_height fork →
  ∃ s', reorganize_chains fork s = Ok (tt, s') ∧
    Chains s' !! (q - 2) = Some i2 ∧ Chains s' !! (q - 1) = Some (chain_id fork) ∧
    Chains s' !! q = Some i1 ∧ ChainsIndex s' = ChainsIndex s ∧ ¬ forks_ordered s' ∧
    (q = 3 → relay_bounds s →
     max_height c2 + StableBitcoinConfirmations s ≤ BestBlockHeight s
       < max_height fork + StableBitcoinConfirmations s →
     ensure_no_ongoing_fork (get_best_block_height s') s' = Ok tt ∧ ¬ no_ongoing_fork s').
Proof.
  intros Hq Hpos Hf H1 Hc1 Hm H2 Hc2 Hle. set (s' := with_Chains (swap_keys (q - 1) q) s). exists s'.
  destruct (swap_keys_lookup (Chains s) (q - 1) q i1 (chain_id fork)) as (S1 & S2 & S3);
    [lia | done | by apply Hpos |].
  assert (Chains s' !! (q - 2) = Some i2) as S4 by (etrans; [apply S3; lia | done]).
  split_and!; [| exact S4 | exact S1 | exact S2 | done | |].
  - unfold reorganize_chains.
    erewrite run_bind by (unfold query; rewrite (position_of_chain s _ q Hpos); reflexivity).
    destruct (Z.to_nat (2 * q)) as [| fuel] eqn:Hfuel; [lia |].
    rewrite (reorganize_loop_pass _ _ _ _ i1 c1) by (done || lia).
    apply (reorganize_loop_stop _ _ _ _ i2 c2); [lia | | done | lia].
    by replace (q - 1 - 1) with (q - 2) by lia.
  - intros Ho. destruct (Ho (q - 2) (q - 1) (chain_id fork) ltac:(lia) S1) as (i & c & d & Hi & Hc & Hd & Hcd).
    change (ChainsIndex s') with (ChainsIndex s) in *. simplify_eq. lia.
  - intros -> Hb Hh. split.
    + apply ensure_no_ongoing_fork_iff; [exact Hb |]. intros id Hid. change (3 - 2) with 1 in S4.
      simplify_eq. exists c2. split; [exact Hc2 | apply Hh].
    + intros Hn. destruct (Hn 2 (chain_id fork) ltac:(lia) S1) as (d & Hd & Hle').
      change (ChainsIndex s') with (ChainsIndex s) in Hd. simplify_eq.
      change (BestBlockHeight s') with (BestBlockHeight s) in Hle'.
      change (StableBitcoinConfirmations s') with (StableBitcoinConfirmations s) in Hle'. lia.
Qed.
End reorder.

Section example.
Local Existing Instances toy_sha256 map_to_list_iter.

(** Six confirmations, difficulty checks off, one initial block. *)
Definition reorder_start : Storage :=
  with_config 6 0 true false empty_storage.

Definition toy_block_header (id prev : Z) : BlockHeader :=
  mkBlockHeader (toy_id 0) (umax 256) 0 4 (toy_id id) (toy_id prev) 0.

Fixpoint submit (l : list (Z * Z)) : R unit :=
  match l with
  | [] => mret tt
  | (id, prev) :: l => _store_block_header [] (toy_block_header id prev);; submit l
  end.

(** Blocks 1 to 12 are the main chain at heights 0 to 11; 101, 102 and 103
    are three children of block 5 (height 4); 104 extends the last of them. *)
Definition main_blocks : list (Z * Z) :=
  (λ i : nat, (Z.of_nat i + 2, Z.of_nat i + 1)) <$> seq 0 11.
Definition fork_blocks : list (Z * Z) := [(101, 5); (102, 5); (103, 5); (104, 103)].

Definition reorder_run : R unit :=
  _initialize [] (toy_block_header 1 0) 0;; submit (main_blocks ++ fork_blocks).

Definition reorder_final : Storage :=
  match reorder_run reorder_start with Ok (_, s) => s | _ => reorder_start end.

(** What the last submission does before it calls [reorganize_chains]. *)
Definition extend_run : R BlockChain :=
  _initialize [] (toy_block_header 1 0) 0;;
  submit (main_blocks ++ [(101, 5); (102, 5); (103, 5)]);;
  prev_blockchain ← query (get_block_chain_from_id 3);
  extend_blockchain 6 (toy_block_header 104 103) prev_blockchain.
Definition extended : BlockChain * Storage :=
  match extend_run reorder_start with Ok x => x | _ => (mkBlockChain 0 0 0, reorder_start) end.

Definition fork_height (s : Storage) (position : Z) : option Z :=
  id ← Chains s !! position; max_height <$> ChainsIndex s !! id.

(** The run succeeds and leaves the fork of height 6 below one of height 5. *)
Example reorder_run_unsorted :
  is_ok (reorder_run reorder_start) = true ∧
  fork_height reorder_final <$> [0; 1; 2; 3] = [Some 11; Some 5; Some 6; Some 5] ∧
  is_ok (verify_block_header_inclusion (toy_id 2) None reorder_final) = true.
Proof. split_and!; vm_compute; reflexivity. Qed.

Lemma extended_chains : Chains extended.2 = <[3 := 3]> (<[2 := 2]> (<[1 := 1]> {[0 := 0]})).
Proof. vm_compute. reflexivity. Qed.
Lemma extended_index :
  ChainsIndex extended.2 =
  <[3 := mkBlockChain 3 5 6]> (<[2 := mkBlockChain 2 5 5]> (<[1 := mkBlockChain 1 5 5]> {[0 := mkBlockChain 0 0 11]})).
Proof. vm_compute. reflexivity. Qed.

Lemma extended_bounds : relay_bounds extended.2.
Proof.
  split_and!; [split; vm_compute; (discriminate || reflexivity).. | |].
  - intros id chain Hl. rewrite extended_index in Hl.
    repeat (apply lookup_insert_Some in Hl as [[_ <-] | [_ Hl]]; [split; [split |]; vm_compute; (discriminate || reflexivity) |]).
    apply lookup_singleton_Some in Hl as [_ <-]. split; [split |]; vm_compute; (discriminate || reflexivity).
  - intros hash rich Hl. apply elem_of_map_to_list in Hl. revert hash rich Hl.
    assert (Forall (λ '(_, rich), fits 32 (rich_height rich) ∧
      fits BN (rich_para_height rich + StableParachainConfirmations extended.2))
      (map_to_list (BlockHeaders extended.2))) as Hall.
    { apply (bool_decide_eq_true_1 _). vm_compute. reflexivity. }
    intros hash rich Hl. by apply (proj1 (Forall_forall _ _) Hall) in Hl.
Qed.

Lemma reorganize_chains_leaves_unsorted_witness :
  extended.1 = mkBlockChain 3 5 6 ∧
  ∃ s', reorganize_chains extended.1 extended.2 = Ok (tt, s') ∧
    Chains s' !! 1 = Some 1 ∧ Chains s' !! 2 = Some 3 ∧
    ensure_no_ongoing_fork (get_best_block_height s') s' = Ok tt ∧ ¬ no_ongoing_fork s'.
Proof.
  assert (extended.1 = mkBlockChain 3 5 6) as Hf by (vm_compute; reflexivity). split; [exact Hf |]. rewrite Hf.
  assert (∀ p, Chains extended.2 !! p = Some (chain_id (mkBlockChain 3 5 6)) ↔ p = 3) as Hp.
  { intros p. rewrite extended_chains. split; [| intros ->; reflexivity]. intros Hl.
    rewrite !lookup_insert_Some, lookup_singleton_Some in Hl. cbn in Hl. lia. }
  destruct (reorganize_chains_leaves_unsorted (mkBlockChain 3 5 6) extended.2 3 2 1 (mkBlockChain 2 5 5)
    (mkBlockChain 1 5 5) ltac:(lia) Hp) as (s' & Hr & H1 & H2 & _ & _ & _ & Hb);
    [by rewrite extended_index | by rewrite extended_chains | by rewrite extended_index | discriminate
    | by rewrite extended_chains | by rewrite extended_index | cbn; lia |].
  exists s'. split; [exact Hr |]. split; [exact H1 |]. split; [exact H2 |].
  apply Hb; [reflexivity | exact extended_bounds | vm_compute; split; [discriminate | reflexivity]].
Defined.
End example.
