(* ===== verification/Primitives.v ===== *)
(** * Shared types ([src/primitives/src/lib.rs])

    Currencies, vault identifiers and the request records of the issue, redeem
    and replace pallets.  Foreign asset, lend token and stable pool ids are
    [u32]; balances are [u128]; account ids are the 32 bytes of [Security]. *)

From coqutil Require Import Byte.
From Stdlib Require Import ZArith Lia String.
From stdpp Require Import base tactics option list numbers countable gmap.
From S2P Require Import Prelude Bytes BtcTypes BtcFormat BtcBuild Security.

Local Open Scope Z_scope.

(** Width of a balance. *)
Definition BALANCE : Z := 128.

Module TokenSymbol.
Inductive t : Type := DOT | IBTC | INTR | KSM | KBTC | KINT.

#[global] Instance t_eq_dec : EqDecision t.
Proof. solve_decision. Defined.

Definition all : list t := [DOT; IBTC; INTR; KSM; KBTC; KINT].

(** [From<TokenSymbol> for u8] and [TryFrom<u8>]. *)
Definition into (s : t) : Z :=
  match s with DOT => 0 | IBTC => 1 | INTR => 2 | KSM => 10 | KBTC => 11 | KINT => 12 end.
Definition try_from (v : Z) : option t :=
  match v with
  | 0 => Some DOT | 1 => Some IBTC | 2 => Some INTR
  | 10 => Some KSM | 11 => Some KBTC | 12 => Some KINT
  | _ => None
  end.

Definition name (s : t) : string :=
  match s with
  | DOT => "Polkadot" | IBTC => "interBTC" | INTR => "Interlay"
  | KSM => "Kusama" | KBTC => "kBTC" | KINT => "Kintsugi"
  end.
Definition symbol (s : t) : string :=
  match s with
  | DOT => "DOT" | IBTC => "IBTC" | INTR => "INTR" | KSM => "KSM" | KBTC => "KBTC" | KINT => "KINT"
  end.
Definition decimals (s : t) : Z :=
  match s with DOT => 10 | IBTC => 8 | INTR => 10 | KSM => 12 | KBTC => 8 | KINT => 12 end.
Definition one (s : t) : Z := 10 ^ decimals s.
Definition get_info : list (string * Z) := (λ s, (symbol s, decimals s)) <$> all.

(** [TryFrom<Vec<u8>>]: the letters of the symbol. *)
Definition try_from_vec (v : list byte) : option t :=
  head (filter (λ s, list_byte_of_string (symbol s) = v) all).

#[global] Program Instance t_countable : Countable t :=
  inj_countable' (λ s, Z.to_N (into s)) (λ n, default DOT (try_from (Z.of_N n))) _.
Next Obligation. by intros []. Qed.
End TokenSymbol.

(** ** Currencies *)

Module LpToken.
Inductive t : Type :=
  | Token (s : TokenSymbol.t)
  | ForeignAsset (id : Z)
  | StableLpToken (id : Z).

#[global] Instance t_eq_dec : EqDecision t.
Proof. solve_decision. Defined.

(** The variant and its contents, compared in this order by the derived [Ord]. *)
Definition key (x : t) : Z * Z :=
  match x with
  | Token s => (0, TokenSymbol.into s)
  | ForeignAsset id => (1, id)
  | StableLpToken id => (2, id)
  end.
Definition gtb (x y : t) : bool :=
  ((key x).1 >? (key y).1) || (((key x).1 =? (key y).1) && ((key x).2 >? (key y).2)).

#[global] Program Instance t_countable : Countable t :=
  inj_countable'
    (λ x, match x with
          | Token s => inl s | ForeignAsset id => inr (inl id) | StableLpToken id => inr (inr id)
          end)
    (λ x, match x with
          | inl s => Token s | inr (inl id) => ForeignAsset id | inr (inr id) => StableLpToken id
          end) _.
Next Obligation. by intros []. Qed.
End LpToken.

Module CurrencyId.
Inductive t : Type :=
  | Token (s : TokenSymbol.t)
  | ForeignAsset (id : Z)
  | LendToken (id : Z)
  | LpToken (x y : LpToken.t)
  | StableLpToken (id : Z).

#[global] Instance t_eq_dec : EqDecision t.
Proof. solve_decision. Defined.

#[global] Program Instance t_countable : Countable t :=
  inj_countable'
    (λ c, match c with
          | Token s => inl s | ForeignAsset id => inr (inl id) | LendToken id => inr (inr (inl id))
          | LpToken x y => inr (inr (inr (inl (x, y)))) | StableLpToken id => inr (inr (inr (inr id)))
          end)
    (λ c, match c with
          | inl s => Token s | inr (inl id) => ForeignAsset id | inr (inr (inl id)) => LendToken id
          | inr (inr (inr (inl (x, y)))) => LpToken x y | inr (inr (inr (inr id))) => StableLpToken id
          end) _.
Next Obligation. by intros []. Qed.

Definition sort (c : t) : t :=
  match c with
  | LpToken x y => if LpToken.gtb x y then LpToken y x else c
  | _ => c
  end.
Definition is_lend_token (c : t) : bool := match c with LendToken _ => true | _ => false end.
(** The arms of the matches on a single currency. *)
Definition to_lp_token (c : t) : option LpToken.t :=
  match c with
  | Token s => Some (LpToken.Token s)
  | ForeignAsset id => Some (LpToken.ForeignAsset id)
  | StableLpToken id => Some (LpToken.StableLpToken id)
  | _ => None
  end.
Definition join_lp_token (c0 c1 : t) : option t :=
  lp_token_0 ← to_lp_token c0;
  lp_token_1 ← to_lp_token c1;
  Some (LpToken lp_token_0 lp_token_1).
Definition is_lp_token (c : t) : bool :=
  match c with Token _ | ForeignAsset _ | StableLpToken _ => true | _ => false end.
(** [Into<CurrencyId> for LpToken]. *)
Definition of_lp_token (x : LpToken.t) : t :=
  match x with
  | LpToken.Token s => Token s
  | LpToken.ForeignAsset id => ForeignAsset id
  | LpToken.StableLpToken id => StableLpToken id
  end.

Lemma of_to_lp_token c x : to_lp_token c = Some x ↔ c = of_lp_token x.
Proof. destruct c, x; cbn; naive_solver. Qed.

Lemma key_inj x y : LpToken.key x = LpToken.key y → x = y.
Proof. destruct x as [[]| |], y as [[]| |]; cbn; by intros [=]; subst. Qed.

Lemma gtb_total x y : x ≠ y → LpToken.gtb x y = negb (LpToken.gtb y x).
Proof.
  intros Hne. assert (LpToken.key x ≠ LpToken.key y) as Hk by (intros ?%key_inj; done).
  unfold LpToken.gtb. destruct (LpToken.key x) as [a b], (LpToken.key y) as [a' b']. cbn.
  destruct (Z.gtb_spec a a'), (Z.gtb_spec a' a), (Z.eqb_spec a a'), (Z.eqb_spec a' a),
    (Z.gtb_spec b b'), (Z.gtb_spec b' b); cbn; try lia.
  all: assert (b = b') by lia; congruence.
Qed.

(** The pool of two currencies does not depend on their order: both orders
    give the same sorted token, which sorting again does not change. *)
Theorem join_lp_token_sorted c0 c1 :
  sort <$> join_lp_token c0 c1 = sort <$> join_lp_token c1 c0 ∧
  (∀ c, sort (sort c) = sort c) ∧
  (is_Some (join_lp_token c0 c1) ↔ is_lp_token c0 = true ∧ is_lp_token c1 = true).
Proof.
  split_and!.
  - unfold join_lp_token. destruct (to_lp_token c0) as [x |], (to_lp_token c1) as [y |]; try done.
    cbn. destruct (decide (x = y)) as [-> | Hne]; [done |]. rewrite (gtb_total x y Hne).
    by destruct (LpToken.gtb y x).
  - intros []; try done. cbn. destruct (LpToken.gtb x y) eqn:E; cbn; [| by rewrite E].
    destruct (decide (x = y)) as [-> | Hne]; [by rewrite E |].
    rewrite (gtb_total x y Hne) in E. by apply negb_true_iff in E as ->.
  - destruct c0, c1; cbn; split; try done; try (by intros [? ?]); try (by intros [??]); by eexists.
Qed.
End CurrencyId.

(** The codes and the letters of a token symbol identify it. *)
Theorem token_symbol_codes s :
  (∀ v, TokenSymbol.try_from v = Some s ↔ v = TokenSymbol.into s) ∧
  (∀ v, TokenSymbol.try_from_vec v = Some s ↔ v = list_byte_of_string (TokenSymbol.symbol s)).
Proof.
  split; intros v.
  - split; [| by intros ->; destruct s].
    unfold TokenSymbol.try_from. by repeat case_match; intros [= <-].
  - split.
    + unfold TokenSymbol.try_from_vec. intros Hh.
      assert (s ∈ filter (λ s, list_byte_of_string (TokenSymbol.symbol s) = v) TokenSymbol.all) as Hs.
      { destruct (filter _ _); [done |]. injection Hh as ->. left. }
      by apply list_elem_of_filter in Hs as [<- _].
    + intros ->. by destruct s.
Qed.

(** ** Vaults *)

Record VaultCurrencyPair : Type := mkPair { collateral : CurrencyId.t; wrapped : CurrencyId.t }.
#[export] Instance VaultCurrencyPair_eq_dec : EqDecision VaultCurrencyPair.
Proof. solve_decision. Defined.
#[export] Program Instance VaultCurrencyPair_countable : Countable VaultCurrencyPair :=
  inj_countable' (λ p, (collateral p, wrapped p)) (λ p, mkPair p.1 p.2) _.
Next Obligation. by intros []. Qed.

Record VaultId : Type := mkVaultId { account_id : AccountId; currencies : VaultCurrencyPair }.
#[export] Instance VaultId_eq_dec : EqDecision VaultId.
Proof. solve_decision. Defined.
#[export] Program Instance VaultId_countable : Countable VaultId :=
  inj_countable' (λ v, (account_id v, currencies v)) (λ v, mkVaultId v.1 v.2) _.
Next Obligation. by intros []. Qed.

Definition vault_id_new (account : AccountId) (collateral_currency wrapped_currency : CurrencyId.t)
  : VaultId := mkVaultId account (mkPair collateral_currency wrapped_currency).
Definition from_pair (account : AccountId) (pair : VaultCurrencyPair) : VaultId :=
  mkVaultId account pair.
Definition collateral_currency (v : VaultId) : CurrencyId.t := collateral (currencies v).
Definition wrapped_currency (v : VaultId) : CurrencyId.t := wrapped (currencies v).

(** ** Requests *)

Inductive IssueRequestStatus : Type := IssuePending | IssueCompleted | IssueCancelled.
Record IssueRequest : Type := mkIssueRequest {
  issue_vault : VaultId;
  issue_opentime : Z;
  issue_period : Z;
  issue_griefing_collateral : Z;
  issue_griefing_currency : CurrencyId.t;
  issue_amount : Z;
  issue_fee : Z;
  issue_requester : AccountId;
  issue_btc_address : Address;
  issue_btc_public_key : PublicKey;
  issue_btc_height : Z;
  issue_status : IssueRequestStatus;
}.

Inductive RedeemRequestStatus : Type :=
  | RedeemPending | RedeemCompleted | Reimbursed (minted : bool) | Retried.
Record RedeemRequest : Type := mkRedeemRequest {
  redeem_vault : VaultId;
  redeem_opentime : Z;
  redeem_period : Z;
  redeem_fee : Z;
  redeem_transfer_fee_btc : Z;
  redeem_amount_btc : Z;
  redeem_premium : Z;
  redeem_redeemer : AccountId;
  redeem_btc_address : Address;
  redeem_btc_height : Z;
  redeem_status : RedeemRequestStatus;
}.

Inductive ReplaceRequestStatus : Type := ReplacePending | ReplaceCompleted | ReplaceCancelled.
Record ReplaceRequest : Type := mkReplaceRequest {
  replace_old_vault : VaultId;
  replace_new_vault : VaultId;
  replace_amount : Z;
  replace_griefing_collateral : Z;
  replace_collateral : Z;
  replace_accept_time : Z;
  replace_period : Z;
  replace_btc_address : Address;
  replace_btc_height : Z;
  replace_status : ReplaceRequestStatus;
}.

(** [oracle::Key]. *)
Inductive OracleKey : Type := ExchangeRate (currency : CurrencyId.t) | FeeEstimation.
#[export] Instance OracleKey_eq_dec : EqDecision OracleKey.
Proof. solve_decision. Defined.
#[export] Program Instance OracleKey_countable : Countable OracleKey :=
  inj_countable' (λ k, match k with ExchangeRate c => Some c | FeeEstimation => None end)
    (λ o, match o with Some c => ExchangeRate c | None => FeeEstimation end) _.
Next Obligation. by intros []. Qed.
