(* ===== verification/Escrow.v ===== *)
(** * Vote escrow ([crates/escrow/src/lib.rs])

    Accounts lock the native currency and receive voting power that decreases
    linearly to zero at the end of the lock.  [Point] is a line; the pallet
    keeps one per account and a global one, advanced by [checkpoint].  The
    currency and the reward pallet behind the [Config] trait are the class
    [Env]; [Span] and [MaxPeriod] are the constants of the runtime.  Balances
    are [u128], block numbers and epochs [u32]. *)

From coqutil Require Import Byte.
From Stdlib Require Import ZArith Lia.
From stdpp Require Import base tactics option list numbers gmap.
From S2P Require Import Prelude Bytes Security.

Local Open Scope Z_scope.

(** Width of a balance. *)
Definition BAL : Z := 128.

Module Escrow.
Inductive Error : Type :=
  | InputAmountZero | LockFound | LockNotFound | UnlockHeightNotInTheFuture
  | UnlockHeightTooFarInTheFuture | LockAmountZero | UnlockHeightMustIncrease
  | LockNotExpired | LockHasExpired | LockAmountTooLow | InsufficientFunds
  | NotSupported | IncorrectPercent.

Inductive Event : Type :=
  | Deposit (who : AccountId) (amount unlock_height : Z)
  | Withdraw (who : AccountId) (amount : Z).

(** ** Points *)
Record Point : Type := mkPoint { bias : Z; slope : Z; ts : Z }.
Definition default_point : Point := mkPoint 0 0 0.

Definition saturating_mul (w a b : Z) : Z := Z.min (a * b) (2 ^ w - 1).
Definition checked_div (a b : Z) : option Z := if b =? 0 then None else Some (a / b).

(** [Point::new]; [BlockNumberToBalance] widens a [u32] to a [u128]. *)
Definition point_new (amount start_height end_height max_period : Z) : Point :=
  let height_diff := saturating_sub end_height start_height in
  let slope := default 0 (checked_div amount max_period) in
  let bias := saturating_mul BAL slope height_diff in
  mkPoint bias slope start_height.

Definition point_balance_at (self : Point) (height : Z) : Z :=
  let height_diff := saturating_sub height (ts self) in
  saturating_sub (bias self) (saturating_mul BAL (slope self) height_diff).

Definition reverse_balance_at (self : Point) (end_ now : Z) : Z :=
  let height_diff := saturating_sub end_ now in
  saturating_sub (bias self) (saturating_mul BAL (slope self) height_diff).

Record LockedBalance : Type := mkLocked { amount : Z; end_ : Z }.
Definition default_locked : LockedBalance := mkLocked 0 0.

(** ** The environment *)
Class Env : Type := {
  Ext : Type;
  free_balance : Ext → AccountId → Z;
  minimum_balance : Ext → Z;
  set_lock : AccountId → Z → Ext → Ext;
  remove_lock : AccountId → Ext → Ext;
  withdraw_all_stake : AccountId → Ext → outcome (DispatchError Error) Ext;
  deposit_stake : AccountId → Z → Ext → outcome (DispatchError Error) Ext;
}.

Section escrow.
Context `{Env} (Span MaxPeriod : Z).

Record Storage : Type := mkStorage {
  Reserved : gmap AccountId Z;
  Locked : gmap AccountId LockedBalance;
  Epoch : Z;
  PointHistory : gmap Z Point;
  UserPointHistory : gmap (AccountId * Z) Point;
  UserPointEpoch : gmap AccountId Z;
  SlopeChanges : gmap Z Z;
  Limits : gmap AccountId (Z * Z);
  Blocks : gmap AccountId bool;
  block_number : Z;
  ext : Ext;
  events : list Event;
}.

Definition with_Reserved f (s : Storage) : Storage :=
  mkStorage (f (Reserved s)) (Locked s) (Epoch s) (PointHistory s) (UserPointHistory s)
    (UserPointEpoch s) (SlopeChanges s) (Limits s) (Blocks s) (block_number s) (ext s) (events s).
Definition with_Locked f (s : Storage) : Storage :=
  mkStorage (Reserved s) (f (Locked s)) (Epoch s) (PointHistory s) (UserPointHistory s)
    (UserPointEpoch s) (SlopeChanges s) (Limits s) (Blocks s) (block_number s) (ext s) (events s).
Definition with_Epoch v (s : Storage) : Storage :=
  mkStorage (Reserved s) (Locked s) v (PointHistory s) (UserPointHistory s)
    (UserPointEpoch s) (SlopeChanges s) (Limits s) (Blocks s) (block_number s) (ext s) (events s).
Definition with_PointHistory f (s : Storage) : Storage :=
  mkStorage (Reserved s) (Locked s) (Epoch s) (f (PointHistory s)) (UserPointHistory s)
    (UserPointEpoch s) (SlopeChanges s) (Limits s) (Blocks s) (block_number s) (ext s) (events s).
Definition with_UserPointHistory f (s : Storage) : Storage :=
  mkStorage (Reserved s) (Locked s) (Epoch s) (PointHistory s) (f (UserPointHistory s))
    (UserPointEpoch s) (SlopeChanges s) (Limits s) (Blocks s) (block_number s) (ext s) (events s).
Definition with_UserPointEpoch f (s : Storage) : Storage :=
  mkStorage (Reserved s) (Locked s) (Epoch s) (PointHistory s) (UserPointHistory s)
    (f (UserPointEpoch s)) (SlopeChanges s) (Limits s) (Blocks s) (block_number s) (ext s) (events s).
Definition with_SlopeChanges f (s : Storage) : Storage :=
  mkStorage (Reserved s) (Locked s) (Epoch s) (PointHistory s) (UserPointHistory s)
    (UserPointEpoch s) (f (SlopeChanges s)) (Limits s) (Blocks s) (block_number s) (ext s) (events s).
Definition with_Limits f (s : Storage) : Storage :=
  mkStorage (Reserved s) (Locked s) (Epoch s) (PointHistory s) (UserPointHistory s)
    (UserPointEpoch s) (SlopeChanges s) (f (Limits s)) (Blocks s) (block_number s) (ext s) (events s).
Definition with_Blocks f (s : Storage) : Storage :=
  mkStorage (Reserved s) (Locked s) (Epoch s) (PointHistory s) (UserPointHistory s)
    (UserPointEpoch s) (SlopeChanges s) (Limits s) (f (Blocks s)) (block_number s) (ext s) (events s).
Definition with_ext v (s : Storage) : Storage :=
  mkStorage (Reserved s) (Locked s) (Epoch s) (PointHistory s) (UserPointHistory s)
    (UserPointEpoch s) (SlopeChanges s) (Limits s) (Blocks s) (block_number s) v (events s).
Definition with_event e (s : Storage) : Storage :=
  mkStorage (Reserved s) (Locked s) (Epoch s) (PointHistory s) (UserPointHistory s)
    (UserPointEpoch s) (SlopeChanges s) (Limits s) (Blocks s) (block_number s) (ext s)
    (events s ++ [e]).

Abbreviation R := (M Storage (DispatchError Error)).
Definition ensureR (b : bool) (e : Error) : R unit := ensureM b (ModuleError e).
(** A call into another pallet. *)
Definition call (f : Ext → outcome (DispatchError Error) Ext) : R unit := λ s,
  e ← f (ext s); Ok (tt, with_ext e s).

(** The [ValueQuery] getters. *)
Definition locked_balance (who : AccountId) (s : Storage) : LockedBalance :=
  default default_locked (Locked s !! who).
Definition reserved_balance (who : AccountId) (s : Storage) : Z := default 0 (Reserved s !! who).
Definition user_epoch (who : AccountId) (s : Storage) : Z := default 0 (UserPointEpoch s !! who).
Definition user_point (who : AccountId) (i : Z) (s : Storage) : Point :=
  default default_point (UserPointHistory s !! (who, i)).
Definition point_at (epoch : Z) (s : Storage) : Point :=
  default default_point (PointHistory s !! epoch).
Definition slope_change (height : Z) (s : Storage) : Z := default 0 (SlopeChanges s !! height).

Definition current_height : Storage → Z := block_number.

(** Division by a zero span panics. *)
Definition round_height (height : Z) : outcome (DispatchError Error) Z :=
  q ← unwrap (checked_div height Span);
  Ok (wrap BN (q * Span)).

(** ** Checkpoints *)

(** One turn of [while t_i < now]: the point moved to the next multiple of
    the span, or to [now]; the last write is skipped by the [break]. *)
Fixpoint checkpoint_loop (fuel : nat) (now t_i last_checkpoint epoch : Z) (last_point : Point)
  : R (Z * Point) :=
  match fuel with
  | O => no_fuel
  | S fuel =>
      if negb (t_i <? now) then mret (epoch, last_point)
      else
        let t_i := saturating_add BN t_i Span in
        change ← gets (slope_change t_i);
        let '(t_i, d_slope) := if t_i >? now then (now, 0) else (t_i, change) in
        let height_diff := saturating_sub t_i last_checkpoint in
        let last_point := mkPoint
          (saturating_sub (bias last_point) (wrap BAL (slope last_point * height_diff)))
          (saturating_add BAL (slope last_point) d_slope) t_i in
        let epoch := saturating_add 32 epoch 1 in
        if t_i =? now then mret (epoch, last_point)
        else
          modify (with_PointHistory (<[epoch := last_point]>));;
          checkpoint_loop fuel now t_i t_i epoch last_point
  end.

(** Every turn moves [t_i] by a positive span. *)
Definition checkpoint_fuel (now t_i : Z) : nat := S (S (Z.to_nat ((now - t_i) / Span))).

Definition lock_point (locked : LockedBalance) (now : Z) : Point :=
  if (end_ locked >? now) && (amount locked >? 0)
  then point_new (amount locked) now (end_ locked) MaxPeriod
  else default_point.

Definition checkpoint (who : AccountId) (old_locked new_locked : LockedBalance) : R unit :=
  now ← gets current_height;
  let u_old := lock_point old_locked now in
  let u_new := lock_point new_locked now in
  old_dslope ← gets (slope_change (end_ old_locked));
  new_dslope ← gets (λ s,
    if negb (end_ new_locked =? 0) then
      if end_ new_locked =? end_ old_locked then old_dslope else slope_change (end_ new_locked) s
    else 0);
  epoch ← gets Epoch;
  last_point ← gets (point_at epoch);
  t_i ← lift (round_height (ts last_point));
  '(epoch, last_point) ←
    checkpoint_loop (checkpoint_fuel now t_i) now t_i (ts last_point) epoch last_point;
  modify (with_Epoch epoch);;
  let last_point := mkPoint
    (saturating_add BAL (bias last_point) (saturating_sub (bias u_new) (bias u_old)))
    (saturating_add BAL (slope last_point) (saturating_sub (slope u_new) (slope u_old)))
    (ts last_point) in
  modify (with_PointHistory (<[epoch := last_point]>));;
  whenM (end_ old_locked >? now)
    (let old_dslope := saturating_add BAL old_dslope (slope u_old) in
     let old_dslope :=
       if end_ new_locked =? end_ old_locked then saturating_sub old_dslope (slope u_new)
       else old_dslope in
     modify (with_SlopeChanges (<[end_ old_locked := old_dslope]>)));;
  whenM ((end_ new_locked >? now) && (end_ new_locked >? end_ old_locked))
    (modify (with_SlopeChanges
      (<[end_ new_locked := saturating_sub new_dslope (slope u_new)]>)));;
  modify (λ s, with_UserPointEpoch (<[who := saturating_add 32 (user_epoch who s) 1]>) s);;
  i ← gets (user_epoch who);
  modify (with_UserPointHistory (<[(who, i) := u_new]>)).

(** ** Balances *)

Definition get_free_balance (who : AccountId) (s : Storage) : Z :=
  let free := free_balance (ext s) who in
  if default false (Blocks s !! who) then 0
  else match Limits s !! who with
  | Some (start, end_) =>
      let point := point_new free start end_ (saturating_sub end_ start) in
      reverse_balance_at point end_ (current_height s)
  | None => free
  end.

Definition free_stakable (who : AccountId) (s : Storage) : Z :=
  saturating_sub (get_free_balance who s) (amount (locked_balance who s)).

Definition balance_at (who : AccountId) (height : option Z) (s : Storage) : Z :=
  let height := default (current_height s) height in
  let last_point := user_point who (user_epoch who s) s in
  point_balance_at last_point height.

(** The loop of [supply_at]. *)
Fixpoint supply_loop (fuel : nat) (height t_i : Z) (last_point : Point) (s : Storage)
  : outcome (DispatchError Error) Z :=
  match fuel with
  | O => NoFuel
  | S fuel =>
      if negb (t_i <? height) then Ok (bias last_point)
      else
        let t_i := saturating_add BN t_i Span in
        let '(t_i, d_slope) :=
          if t_i >? height then (height, 0) else (t_i, slope_change t_i s) in
        let height_diff := saturating_sub t_i (ts last_point) in
        let bias := saturating_sub (bias last_point) (wrap BAL (slope last_point * height_diff)) in
        if t_i =? height then Ok bias
        else supply_loop fuel height t_i
               (mkPoint bias (saturating_add BAL (slope last_point) d_slope) t_i) s
  end.

Definition supply_at (point : Point) (height : Z) (s : Storage)
  : outcome (DispatchError Error) Z :=
  t_i ← round_height (ts point);
  supply_loop (checkpoint_fuel height t_i) height t_i point s.

Definition total_supply (height : option Z) (s : Storage) : outcome (DispatchError Error) Z :=
  let height := default (current_height s) height in
  supply_at (point_at (Epoch s) s) height s.

(** ** Locks *)

Definition deposit_for (who : AccountId) (amount unlock_height : Z) : R unit :=
  old_locked ← gets (locked_balance who);
  let new_locked := mkLocked (saturating_add BAL (Escrow.amount old_locked) amount)
    (if unlock_height >? 0 then unlock_height else end_ old_locked) in
  ensureR (Escrow.amount new_locked >=? MaxPeriod) LockAmountTooLow;;
  free ← gets (get_free_balance who);
  ensureR (free >=? Escrow.amount new_locked) InsufficientFunds;;
  modify (λ s, with_ext (set_lock who (Escrow.amount new_locked) (ext s)) s);;
  modify (with_Locked (<[who := new_locked]>));;
  checkpoint who old_locked new_locked;;
  call (withdraw_all_stake who);;
  stake ← gets (balance_at who None);
  call (deposit_stake who stake);;
  modify (with_event (Deposit who amount unlock_height)).

Definition round_height_and_deposit_for (who : AccountId) (amount unlock_height : Z) : R unit :=
  unlock_height ← lift (round_height unlock_height);
  deposit_for who amount unlock_height.

(** [clear_prefix(who, u32::MAX, None)] removes every point of the account. *)
Definition clear_history (who : AccountId) (m : gmap (AccountId * Z) Point)
  : gmap (AccountId * Z) Point :=
  filter (λ kv, kv.1.1 ≠ who) m.

Definition remove_lock_of (who : AccountId) : R unit :=
  old_locked ← gets (locked_balance who);
  modify (with_Locked (delete who));;
  now ← gets current_height;
  ensureR (now >=? end_ old_locked) LockNotExpired;;
  call (withdraw_all_stake who);;
  checkpoint who old_locked default_locked;;
  modify (λ s, with_ext (remove_lock who (ext s)) s);;
  modify (with_UserPointHistory (clear_history who));;
  modify (with_event (Withdraw who (amount old_locked))).

(** ** Extrinsics *)

Definition create_lock (origin : Origin) (amount unlock_height : Z) : R unit :=
  who ← lift (ensure_signed origin);
  now ← gets current_height;
  unlock_height ← lift (round_height unlock_height);
  ensureR (negb (amount =? 0)) InputAmountZero;;
  locked ← gets (locked_balance who);
  ensureR (Escrow.amount locked =? 0) LockFound;;
  ensureR (unlock_height >? now) UnlockHeightNotInTheFuture;;
  ensureR (unlock_height <=? saturating_add BN now MaxPeriod) UnlockHeightTooFarInTheFuture;;
  deposit_for who amount unlock_height.

Definition increase_amount (origin : Origin) (amount : Z) : R unit :=
  who ← lift (ensure_signed origin);
  locked ← gets (locked_balance who);
  now ← gets current_height;
  ensureR (negb (amount =? 0)) InputAmountZero;;
  ensureR (negb (Escrow.amount locked =? 0)) LockNotFound;;
  ensureR (end_ locked >? now) LockHasExpired;;
  deposit_for who amount 0.

Definition increase_unlock_height (origin : Origin) (unlock_height : Z) : R unit :=
  who ← lift (ensure_signed origin);
  locked ← gets (locked_balance who);
  now ← gets current_height;
  unlock_height ← lift (round_height unlock_height);
  ensureR (end_ locked >? now) LockHasExpired;;
  ensureR (negb (Escrow.amount locked =? 0)) LockAmountZero;;
  ensureR (unlock_height >? end_ locked) UnlockHeightMustIncrease;;
  ensureR (unlock_height <=? saturating_add BN now MaxPeriod) UnlockHeightTooFarInTheFuture;;
  deposit_for who 0 unlock_height.

Definition withdraw (origin : Origin) : R unit :=
  who ← lift (ensure_signed origin);
  remove_lock_of who.

Definition set_account_limit (origin : Origin) (who : AccountId) (start end_ : Z) : R unit :=
  lift (ensure_root origin);;
  modify (with_Limits (<[who := (start, end_)]>)).

Definition set_account_block (origin : Origin) (who : AccountId) : R unit :=
  lift (ensure_root origin);;
  modify (with_Blocks (<[who := true]>)).

Definition update_user_stake (origin : Origin) (target_user : AccountId) : R unit :=
  lift (ensure_signed origin);;
  deposit_for target_user 0 0.

(** ** [impl Currency] and [impl ReservableCurrency]

    The unsupported operations return [NotSupported] or zero. *)
Definition total_balance (who : AccountId) (s : Storage) : Z := balance_at who None s.
Definition total_issuance (s : Storage) : outcome (DispatchError Error) Z := total_supply None s.
Definition currency_minimum_balance (s : Storage) : Z := minimum_balance (ext s).
Definition currency_free_balance (who : AccountId) (s : Storage) : Z :=
  saturating_sub (balance_at who None s) (reserved_balance who s).
Definition ensure_can_withdraw (who : AccountId) (amount : Z) : outcome (DispatchError Error) unit :=
  Err (ModuleError NotSupported).
Definition transfer (source dest : AccountId) (value : Z) : outcome (DispatchError Error) unit :=
  Err (ModuleError NotSupported).
Definition can_slash (who : AccountId) (value : Z) : bool := false.

Definition make_free_balance_be (who : AccountId) (balance : Z) : R unit :=
  now ← gets current_height;
  let end_height := saturating_add BN now MaxPeriod in
  i ← gets (user_epoch who);
  modify (with_UserPointHistory (<[(who, i) := point_new balance now end_height MaxPeriod]>)).

Definition can_reserve (who : AccountId) (value : Z) (s : Storage) : bool :=
  bool_decide (is_Some (checked_sub (currency_free_balance who s) value)).

Definition reserve (who : AccountId) (value : Z) : R unit :=
  ok ← gets (can_reserve who value);
  if negb (ok : bool) then lift (Err (ModuleError InsufficientFunds))
  else modify (λ s, with_Reserved (<[who := saturating_add BAL (reserved_balance who s) value]>) s).

Definition unreserve (who : AccountId) (value : Z) : R Z :=
  previous ← gets (reserved_balance who);
  if value >? previous then
    modify (with_Reserved (<[who := 0]>));;
    mret (saturating_sub value previous)
  else
    modify (with_Reserved (<[who := saturating_sub previous value]>));;
    mret 0.
End escrow.
End Escrow.
