(* ===== verification/EscrowProps.v ===== *)
(** * Properties of vote escrow

    Voting power is the linear function it is meant to be; locks can only be
    created, extended and withdrawn under the documented conditions; the loops
    over spans terminate and, without slope changes, compute one subtraction.
    The last part has a concrete environment for the interface [Env], the
    witnesses, and runs after which the total supply is not the sum of the
    balances: scheduled slope changes are unsigned, so the decrease at the end of
    a lock is lost ([saturating_sub] gives 0), and moving the end of a lock
    schedules an increase where the old end was. *)

From coqutil Require Import Byte.
From Stdlib Require Import ZArith Lia.
From stdpp Require Import base tactics option list numbers gmap.
From S2P Require Import Prelude Bytes Security Escrow.

Local Open Scope Z_scope.
Import Escrow.

(** ** Points *)

Lemma saturating_sub_spec a b : saturating_sub a b = Z.max (a - b) 0.
Proof. done. Qed.

Lemma slope_bound amount max diff :
  fits BAL amount → 0 < max → 0 ≤ diff ≤ max → 0 ≤ amount / max * diff ≤ amount.
Proof.
  unfold fits. intros Ha Hm Hd. pose proof (Z.div_pos amount max). pose proof (Z.mul_div_le amount max).
  nia.
Qed.

Lemma point_new_eq amount start end_ max :
  fits BAL amount → 0 < max → 0 ≤ end_ - start ≤ max →
  point_new amount start end_ max =
    mkPoint (amount / max * (end_ - start)) (amount / max) start.
Proof.
  intros Ha Hm Hd. pose proof (slope_bound amount max (end_ - start) Ha Hm Hd) as Hs.
  unfold point_new, checked_div, saturating_sub, saturating_mul.
  rewrite (proj2 (Z.eqb_neq max 0)) by lia. cbn [default from_option]. unfold id.
  rewrite (Z.max_l (end_ - start)) by lia. unfold fits in Ha. rewrite Z.min_l; [done |]. lia.
Qed.

Lemma point_balance_eq amount start end_ max h :
  fits BAL amount → 0 < max → 0 ≤ end_ - start ≤ max → start ≤ h →
  point_balance_at (point_new amount start end_ max) h = amount / max * Z.max (end_ - h) 0.
Proof.
  intros Ha Hm Hd Hh. rewrite point_new_eq by done.
  unfold point_balance_at, saturating_sub, saturating_mul. cbn [bias slope ts].
  pose proof (slope_bound amount max (end_ - start) Ha Hm Hd).
  pose proof (Z.div_pos amount max ltac:(unfold fits in Ha; lia) Hm).
  unfold fits in Ha. rewrite (Z.max_l (h - start)) by lia.
  set (q := amount / max) in *.
  destruct (Z.le_gt_cases (q * (h - start)) (2 ^ BAL - 1)).
  - rewrite (Z.min_l (q * (h - start))) by done. nia.
  - rewrite Z.min_r by lia. nia.
Qed.

(** The voting power of a lock of [amount] until [end_] is, at
    every height, [amount / max] per block left; it never exceeds the amount,
    never grows, and is zero from the end on. *)
Theorem voting_power_linear amount start end_ max h h' :
  fits BAL amount → 0 < max → 0 ≤ end_ - start ≤ max → start ≤ h ≤ h' →
  let p := point_new amount start end_ max in
  point_balance_at p h = amount / max * Z.max (end_ - h) 0 ∧
  0 ≤ point_balance_at p h' ≤ point_balance_at p h ∧ point_balance_at p h ≤ amount ∧
  (end_ ≤ h → point_balance_at p h = 0).
Proof.
  intros Ha Hm Hd Hh p. unfold p. rewrite !point_balance_eq by (done || lia).
  pose proof (Z.div_pos amount max ltac:(unfold fits in Ha; lia) Hm).
  pose proof (slope_bound amount max (Z.max (end_ - h) 0) Ha Hm).
  split_and!; nia.
Qed.

Lemma voting_power_linear_witness :
  fits BAL 2000 ∧ 0 ≤ 140 - 40 ≤ 100 ∧
  point_balance_at (point_new 2000 40 140 100) 100 = 800.
Proof.
  assert (fits BAL 2000) as Ha by (split; vm_compute; (discriminate || reflexivity)).
  split; [exact Ha |]. split; [lia |].
  exact (proj1 (voting_power_linear 2000 40 140 100 100 100 Ha ltac:(lia) ltac:(lia) ltac:(lia))).
Defined.

(** ** The loops over spans *)
Section loops.
Context `{Env} (Span MaxPeriod : Z) (Span_pos : 0 < Span).

(** No step from [t] on changes the slope. *)
Definition no_slope_changes (s : Storage) (a b : Z) : Prop :=
  ∀ t, a < t ≤ b → slope_change t s = 0.

Lemma fuel_step height t fuel :
  t + Span ≤ height → (Z.to_nat ((height - t) / Span) < S fuel)%nat →
  (Z.to_nat ((height - (t + Span)) / Span) < fuel)%nat.
Proof.
  intros Ht. replace (height - t) with (height - (t + Span) + 1 * Span) by lia.
  rewrite Z.div_add by lia. assert (0 ≤ (height - (t + Span)) / Span) by (apply Z.div_pos; lia). lia.
Qed.

(** One subtraction after another is one subtraction. *)
Lemma decay_compose b q d1 d2 :
  0 ≤ q → 0 ≤ d1 → 0 ≤ d2 →
  saturating_sub (saturating_sub b (q * d1)) (q * d2) = saturating_sub b (q * (d1 + d2)).
Proof. unfold saturating_sub. nia. Qed.

Lemma decay_wrap q d h :
  0 ≤ q → 0 ≤ d ≤ h → q * h < 2 ^ BAL → wrap BAL (q * d) = q * d.
Proof. intros. apply wrap_small. unfold fits. nia. Qed.

Lemma supply_loop_linear fuel s height t p :
  0 ≤ t → height < 2 ^ BN → t ≤ ts p ≤ height → ts p < t + Span →
  0 ≤ slope p → slope p < 2 ^ BAL → slope p * height < 2 ^ BAL → 0 ≤ bias p →
  no_slope_changes s t height → (Z.to_nat ((height - t) / Span) < fuel)%nat →
  supply_loop Span fuel height t p s =
    Ok (saturating_sub (bias p) (slope p * (height - ts p))).
Proof.
  revert t p. induction fuel as [| fuel IH]; intros t p Ht Hh Hts Hsp Hq Hq' Hqh Hb Hn Hf; [lia |].
  cbn [supply_loop]. destruct (Z.ltb_spec t height) as [Hlt | Hge]; cbn [negb].
  2: { replace (height - ts p) with 0 by lia. rewrite Z.mul_0_r. unfold saturating_sub. f_equal. lia. }
  unfold saturating_add. destruct (Z.gtb_spec (Z.min (t + Span) (2 ^ BN - 1)) height) as [Hgt | Hle].
  - rewrite Z.eqb_refl. unfold saturating_sub at 2. rewrite Z.max_l by lia.
    by rewrite (decay_wrap _ _ height) by lia.
  - destruct (Z.eqb_spec (Z.min (t + Span) (2 ^ BN - 1)) height) as [Heq | Hne].
    + rewrite Heq. unfold saturating_sub at 2. rewrite Z.max_l by lia.
      by rewrite (decay_wrap _ _ height) by lia.
    + assert (t + Span < height) by lia. rewrite (Z.min_l (t + Span)) in * by lia.
      rewrite (Hn (t + Span)) by lia. rewrite Z.add_0_r, Z.min_l by lia.
      unfold saturating_sub at 2. rewrite (Z.max_l (t + Span - ts p)) by lia.
      rewrite (decay_wrap _ _ height) by lia.
      rewrite IH; cbn [bias slope ts]; try lia.
      * rewrite decay_compose by lia. do 3 f_equal. lia.
      * unfold saturating_sub. lia.
      * intros t' Ht'. apply Hn. lia.
      * apply fuel_step; lia.
Qed.

Lemma round_height_eq h :
  0 ≤ h < 2 ^ BN →
  round_height Span h = Ok (h / Span * Span) ∧ (0 ≤ h / Span * Span ≤ h ∧ h < h / Span * Span + Span).
Proof.
  intros Hh. pose proof (Z.div_pos h Span). pose proof (Z.mul_div_le h Span).
  pose proof (Z.mul_succ_div_gt h Span).
  unfold round_height, checked_div. rewrite (proj2 (Z.eqb_neq Span 0)) by lia. cbn.
  rewrite wrap_small by (unfold fits; nia). split; [done | nia].
Qed.

(** Without slope changes the supply at a later height is the
    line of the last global point: the walk over the spans in between ends,
    and makes no difference. *)
Theorem supply_at_linear p height s :
  0 ≤ ts p ≤ height → height < 2 ^ BN → 0 ≤ bias p → 0 ≤ slope p < 2 ^ BAL →
  slope p * height < 2 ^ BAL → no_slope_changes s (ts p - Span) height →
  supply_at Span p height s = Ok (point_balance_at p height).
Proof.
  intros Hts Hh Hb Hq Hqh Hn. unfold supply_at.
  destruct (round_height_eq (ts p)) as [-> Hr]; [lia |]. cbn [mbind outcome_bind].
  rewrite supply_loop_linear; try lia.
  - unfold point_balance_at, saturating_mul. unfold saturating_sub at 3.
    rewrite (Z.max_l (height - ts p)), (Z.min_l (slope p * _)) by nia. done.
  - intros t Ht. apply Hn. lia.
  - unfold checkpoint_fuel. lia.
Qed.

(** The checkpoint loop always ends, and writes only the point history. *)
Lemma checkpoint_loop_total fuel now t last epoch p s :
  0 ≤ t → now < 2 ^ BN → (Z.to_nat ((now - t) / Span) < fuel)%nat →
  ∃ r m, checkpoint_loop Span fuel now t last epoch p s = Ok (r, with_PointHistory (λ _, m) s) ∧
    ts r.2 = if t <? now then now else ts p.
Proof.
  revert t last epoch p s. induction fuel as [| fuel IH]; intros t last epoch p s Ht Hn Hf; [lia |].
  cbn [checkpoint_loop]. destruct (Z.ltb_spec t now) as [Hlt | Hge]; cbn [negb].
  2: { exists (epoch, p), (PointHistory s). by destruct s. }
  run. unfold saturating_add.
  destruct (Z.gtb_spec (Z.min (t + Span) (2 ^ BN - 1)) now) as [Hgt | Hle].
  - rewrite Z.eqb_refl. eexists _, (PointHistory s). by destruct s.
  - destruct (Z.eqb_spec (Z.min (t + Span) (2 ^ BN - 1)) now) as [Heq | Hne].
    + eexists _, (PointHistory s). by destruct s.
    + assert (t + Span < now) by lia. rewrite (Z.min_l (t + Span)) by lia. run.
      edestruct (IH (t + Span)) as (r & m & -> & Hr);
        [lia | lia | apply fuel_step; [lia | exact Hf] |].
      exists r, m. split; [by destruct s |]. by rewrite Hr, (proj2 (Z.ltb_lt _ _)) by lia.
Qed.

Lemma checkpoint_run who old_locked new_locked s :
  0 ≤ ts (point_at (Epoch s) s) < 2 ^ BN → fits BN (current_height s) →
  ∃ s', checkpoint Span MaxPeriod who old_locked new_locked s = Ok (tt, s') ∧
    Locked s' = Locked s ∧ ext s' = ext s ∧ current_height s' = current_height s ∧
    user_point who (user_epoch who s') s' = lock_point MaxPeriod new_locked (current_height s) ∧
    (∀ other i, other ≠ who → user_point other i s' = user_point other i s ∧
                              user_epoch other s' = user_epoch other s) ∧
    0 ≤ ts (point_at (Epoch s') s') < 2 ^ BN.
Proof.
  intros Hts Hh. unfold checkpoint. run.
  destruct (round_height_eq (ts (point_at (Epoch s) s)) Hts) as [-> Hr]. run.
  edestruct (checkpoint_loop_total (checkpoint_fuel Span (current_height s)
    (ts (point_at (Epoch s) s) / Span * Span)) (current_height s)) as ([e p] & m & Hl & Hp);
    [apply Hr | apply Hh | unfold checkpoint_fuel; lia |].
  erewrite run_bind by exact Hl. cbv beta iota. run.
  eexists. split; [reflexivity |].
  assert (0 ≤ ts p < 2 ^ BN) as Hp'
    by (cbn [snd] in Hp; rewrite Hp; destruct (_ <? _); [exact Hh | exact Hts]).
  unfold user_point, user_epoch, point_at.
  destruct (end_ old_locked >? _), (_ && _); cbn [Locked ext current_height block_number
    UserPointEpoch UserPointHistory with_UserPointHistory with_UserPointEpoch with_SlopeChanges
    with_PointHistory with_Epoch Epoch PointHistory]; unfold current_height; cbn [block_number].
  all: repeat (rewrite lookup_insert_eq; cbn [default from_option]; unfold id); cbn [ts].
  all: split_and!; try done; try apply Hp'; intros other i Hne; split; rewrite lookup_insert_ne by congruence; done.
Qed.

(** [checkpoint] returns on every state with block
    numbers in range: the loop over missed spans ends, and afterwards the
    account has a new point, the one of its new lock. *)
Theorem checkpoint_total who old_locked new_locked s :
  0 ≤ ts (point_at (Epoch s) s) < 2 ^ BN → fits BN (current_height s) →
  ∃ s', checkpoint Span MaxPeriod who old_locked new_locked s = Ok (tt, s') ∧
    Locked s' = Locked s ∧ ext s' = ext s ∧ current_height s' = current_height s ∧
    user_point who (user_epoch who s') s' = lock_point MaxPeriod new_locked (current_height s) ∧
    (∀ other i, other ≠ who → user_point other i s' = user_point other i s ∧
                              user_epoch other s' = user_epoch other s).
Proof.
  intros Hts Hh. destruct (checkpoint_run who old_locked new_locked s Hts Hh)
    as (s' & Hc & HL & He & Hcur & Hp & Ho & _). by exists s'.
Qed.
End loops.

(** ** Locks *)
Section locks.
Context `{Env} (Span MaxPeriod : Z) (Span_pos : 0 < Span) (MaxPeriod_pos : 0 < MaxPeriod).

(** Block numbers in range, and no lock larger than a balance. *)
Definition escrow_bounds (s : Storage) : Prop :=
  fits BN (current_height s) ∧ 0 ≤ ts (point_at (Epoch s) s) < 2 ^ BN ∧
  ∀ who, fits BAL (amount (locked_balance who s)) ∧ fits BN (end_ (locked_balance who s)).

Definition new_lock (who : AccountId) (value unlock_height : Z) (s : Storage) : LockedBalance :=
  mkLocked (saturating_add BAL (amount (locked_balance who s)) value)
    (if unlock_height >? 0 then unlock_height else end_ (locked_balance who s)).

(** What a successful [deposit_for] checked and wrote. *)
Lemma deposit_for_inv who value unlock_height s s' :
  escrow_bounds s → deposit_for Span MaxPeriod who value unlock_height s = Ok (tt, s') →
  let lock := new_lock who value unlock_height s in
  MaxPeriod ≤ amount lock ≤ get_free_balance who s ∧
  Locked s' = <[who := lock]> (Locked s) ∧ current_height s' = current_height s ∧
  user_point who (user_epoch who s') s' = lock_point MaxPeriod lock (current_height s) ∧
  (∃ e, withdraw_all_stake who (set_lock who (amount lock) (ext s)) = Ok e ∧
        deposit_stake who (balance_at who None s') e = Ok (ext s')) ∧
  (∀ other i, other ≠ who → user_point other i s' = user_point other i s ∧
                            user_epoch other s' = user_epoch other s) ∧
  0 ≤ ts (point_at (Epoch s') s') < 2 ^ BN.
Proof.
  intros (Hh & Hts & _) Hd lock. unfold deposit_for, ensureR in Hd. revert Hd. run. fold lock.
  change (mkLocked _ _) with lock. intros Hd. outcome_inv.
  repeat match goal with H : (_ >=? _) = true |- _ => rewrite Z.geb_leb in H; apply Z.leb_le in H end.
  match goal with H : checkpoint _ _ _ _ _ ?s0 = Ok (_, ?s1) |- _ =>
    destruct (checkpoint_run Span MaxPeriod Span_pos who (locked_balance who s) lock s0)
      as (s1' & Hc & HL & Hext & Hcur & Hp & Hother & Hts'); [exact Hts | exact Hh |];
    rewrite Hc in H; injection H as ?; subst end.
  unfold call in *.
  repeat match goal with H : (_ ≫= _) = Ok _ |- _ => apply bind_Ok in H as (? & ? & [= ? ?]) end; subst.
  cbn [ext with_ext with_Locked Locked with_event current_height block_number] in *.
  rewrite Hext in *. split_and!; try done; try apply Hts'. eexists. split; [eassumption | done].
Qed.

(** A successful [create_lock] was signed by an account
    without a lock; it locks the whole (non-zero) amount until the unlock
    height rounded down to a span, which is in the future and at most
    [MaxPeriod] away; the amount is at least [MaxPeriod] and is free; the
    account's voting power, also its reward stake, is the linear one; other
    accounts' locks are untouched. *)
Theorem create_lock_spec who value unlock_height s s' :
  escrow_bounds s → fits BAL value → fits BN unlock_height →
  create_lock Span MaxPeriod (Signed who) value unlock_height s = Ok (tt, s') →
  let rounded := unlock_height / Span * Span in
  let now := current_height s in
  amount (locked_balance who s) = 0 ∧ now < rounded ≤ now + MaxPeriod ∧
  MaxPeriod ≤ value ≤ get_free_balance who s ∧
  Locked s' = <[who := mkLocked value rounded]> (Locked s) ∧
  balance_at who None s' = value / MaxPeriod * (rounded - now) ∧
  balance_at who None s' ≤ value ∧
  ∃ e, withdraw_all_stake who (set_lock who value (ext s)) = Ok e ∧
       deposit_stake who (balance_at who None s') e = Ok (ext s').
Proof.
  intros Hb Hv Hu Hc rounded now. unfold create_lock, ensureR in Hc. revert Hc. cbn [ensure_signed]. run.
  destruct (round_height_eq Span Span_pos unlock_height Hu) as [-> Hr]. run. fold rounded in Hr |- *.
  intros Hc. outcome_inv.
  repeat match goal with
  | H : (_ >? _) = true |- _ => rewrite Z.gtb_ltb in H; apply Z.ltb_lt in H
  | H : (_ <=? _) = true |- _ => apply Z.leb_le in H
  | H : negb _ = true |- _ => apply negb_true_iff, Z.eqb_neq in H
  | H : (_ =? 0) = true |- _ => apply Z.eqb_eq in H
  end.
  unfold now in *. unfold saturating_add in *.
  assert (new_lock who value rounded s = mkLocked value rounded) as Hlock.
  { unfold new_lock. match goal with H : amount _ = 0 |- _ => rewrite H end.
    unfold saturating_add, fits in *. rewrite Z.min_l by lia.
    destruct Hb as ([? ?] & _). by rewrite Z.gtb_ltb, (proj2 (Z.ltb_lt _ _)) by lia. }
  apply deposit_for_inv in Hc as (Ha & HL & Hcur & Hp & (e & Hw & Hd) & _); [| done].
  rewrite Hlock in *. cbn [amount] in *.
  assert (balance_at who None s' = value / MaxPeriod * (rounded - current_height s)) as Hbal.
  { unfold balance_at. rewrite Hp. cbn [default from_option]. rewrite Hcur.
    destruct Hb as ([? ?] & _). unfold fits in Hv.
    unfold lock_point. cbn [end_ amount]. rewrite !Z.gtb_ltb, !(proj2 (Z.ltb_lt _ _)) by lia.
    cbn [andb]. rewrite point_balance_eq by (done || lia). f_equal. lia. }
  split_and!; try done; try lia.
  - rewrite Hbal. apply slope_bound; [done | done | lia].
  - by exists e.
Qed.

(** What a successful [remove_lock_of] checked and wrote. *)
Lemma remove_lock_of_inv who s s' :
  escrow_bounds s → remove_lock_of Span MaxPeriod who s = Ok (tt, s') →
  end_ (locked_balance who s) ≤ current_height s ∧
  Locked s' = delete who (Locked s) ∧ balance_at who None s' = 0 ∧
  (∃ e, withdraw_all_stake who (ext s) = Ok e ∧ ext s' = remove_lock who e) ∧
  (∀ other, other ≠ who → balance_at other None s' = balance_at other None s) ∧
  current_height s' = current_height s ∧ 0 ≤ ts (point_at (Epoch s') s') < 2 ^ BN.
Proof.
  intros (Hh & Hts & _). unfold remove_lock_of, ensureR. run. intros Hw. outcome_inv.
  match goal with H : (_ >=? _) = true |- _ => rewrite Z.geb_leb in H; apply Z.leb_le in H end.
  match goal with H : call _ _ = Ok _ |- _ => unfold call in H; apply bind_Ok in H as (e & He & [= ? ?]); subst end.
  match goal with H : checkpoint _ _ _ _ _ ?s0 = Ok (_, ?s1) |- _ =>
    destruct (checkpoint_run Span MaxPeriod Span_pos who (locked_balance who s) default_locked s0)
      as (s1' & Hc & HL & Hext & Hcur & Hp & Ho & Hts'); [exact Hts | exact Hh |];
    rewrite Hc in H; injection H as ?; subst end.
  cbn [ext with_ext with_Locked Locked] in *.
  split_and!; [done | done | | exists e; split; [done | by rewrite <- Hext] | | done | apply Hts' | apply Hts'].
  - unfold balance_at, user_point. cbn [UserPointHistory with_event with_UserPointHistory].
    unfold clear_history. rewrite map_lookup_filter_None_2; [done | right; intros ? _ Hn; by apply Hn].
  - intros other Hne. destruct (Ho other (user_epoch other s) Hne) as [E1 E2].
    unfold balance_at. cbn [default from_option]. unfold id, current_height in *.
    cbn [block_number with_event with_UserPointHistory with_ext with_Locked] in *.
    rewrite Hcur. unfold user_point, user_epoch in *.
    cbn [UserPointEpoch UserPointHistory with_event with_UserPointHistory with_ext with_Locked] in *.
    rewrite E2. unfold clear_history. rewrite map_lookup_filter.
    rewrite <- E1. f_equal. match goal with |- context [?m !! (other, ?i) ≫= _] =>
      destruct (m !! (other, i)) as [p |] end; [| done].
    cbn [mbind option_bind]. by rewrite option_guard_True by done.
Qed.

(** Releasing a lock that has ended only depends on the reward pallet. *)
Lemma remove_lock_of_runs who s e :
  escrow_bounds s → end_ (locked_balance who s) ≤ current_height s →
  withdraw_all_stake who (ext s) = Ok e →
  ∃ s', remove_lock_of Span MaxPeriod who s = Ok (tt, s').
Proof.
  intros (Hh & Hts & _) He Hw. unfold remove_lock_of, ensureR. run.
  rewrite run_ensure by (rewrite Z.geb_leb; by apply Z.leb_le).
  erewrite run_bind by (unfold call; cbn [ext with_Locked]; rewrite Hw; reflexivity).
  match goal with |- context [checkpoint _ _ _ _ _ ≫= _] =>
    edestruct (checkpoint_run Span MaxPeriod Span_pos who (locked_balance who s) default_locked)
      as (s1 & Hc & _); [| | erewrite run_bind by exact Hc]; [exact Hts | exact Hh |] end.
  run. by eexists.
Qed.

(** A lock is released only at or after its end, and releasing
    removes the lock, its voting power and its reward stake, and nothing of
    other accounts. *)
Theorem withdraw_spec who s s' :
  escrow_bounds s → withdraw Span MaxPeriod (Signed who) s = Ok (tt, s') →
  end_ (locked_balance who s) ≤ current_height s ∧
  Locked s' = delete who (Locked s) ∧ balance_at who None s' = 0 ∧
  (∃ e, withdraw_all_stake who (ext s) = Ok e ∧ ext s' = remove_lock who e) ∧
  (∀ other, other ≠ who → balance_at other None s' = balance_at other None s).
Proof.
  intros Hb Hw. unfold withdraw in Hw. revert Hw. cbn [ensure_signed]. run.
  intros (? & ? & ? & ? & ? & _)%remove_lock_of_inv; done.
Qed.
End locks.

(** ** Reservations and restricted accounts *)
Section reserves.
Context `{Env} (Span MaxPeriod : Z).

(** Reserving succeeds exactly when the unreserved voting power
    covers the value, and the reserve then never exceeds the voting power;
    unreserving returns the part that was not reserved, and undoes a
    reservation. *)
Theorem reserve_spec who value s :
  0 ≤ value → fits BAL (reserved_balance who s) → fits BAL (balance_at who None s) →
  match reserve who value s with
  | Ok (_, s') =>
      value ≤ currency_free_balance who s ∧
      reserved_balance who s' = reserved_balance who s + value ∧
      (0 < value → reserved_balance who s' ≤ balance_at who None s') ∧
      unreserve who value s' = Ok (0, with_Reserved (<[who := reserved_balance who s]>) s')
  | Err e => e = ModuleError InsufficientFunds ∧ currency_free_balance who s < value
  | _ => False
  end.
Proof.
  intros Hv Hr Hb. unfold fits in Hb. unfold reserve. run. unfold can_reserve, checked_sub.
  destruct (Z.leb_spec value (currency_free_balance who s)) as [Hle | Hgt].
  2: { rewrite bool_decide_eq_false_2 by (intros [? [=]]). by split. }
  rewrite bool_decide_eq_true_2 by eauto. cbn [negb modify].
  set (s' := with_Reserved _ s). unfold currency_free_balance, saturating_sub in Hle.
  assert (reserved_balance who s' = reserved_balance who s + value) as Hs'.
  { unfold s', reserved_balance at 1. cbn [Reserved with_Reserved]. rewrite lookup_insert_eq.
    cbn [default from_option]. unfold id, saturating_add, fits in *. lia. }
  assert (balance_at who None s' = balance_at who None s) as Hbal by done.
  split_and!; [unfold currency_free_balance, saturating_sub; lia | done | lia |].
  unfold fits in Hr. unfold unreserve. run. rewrite Hs', Z.gtb_ltb, (proj2 (Z.ltb_ge _ _)) by lia. run.
  by replace (saturating_sub (reserved_balance who s + value) value) with (reserved_balance who s)
    by (unfold saturating_sub; lia).
Qed.

(** Unreserving never creates balance: what is taken off the
    reserve and what is returned as missing add up to the value. *)
Theorem unreserve_spec who value s :
  0 ≤ value → 0 ≤ reserved_balance who s →
  ∃ rest s', unreserve who value s = Ok (rest, s') ∧
    reserved_balance who s' = Z.max 0 (reserved_balance who s - value) ∧
    (reserved_balance who s - reserved_balance who s') + rest = value.
Proof.
  intros Hv Hr. unfold unreserve. run.
  destruct (Z.gtb_spec value (reserved_balance who s)); run; eexists _, _; (split; [done |]);
    unfold reserved_balance in *; cbn [Reserved with_Reserved]; rewrite lookup_insert_eq;
    cbn [default from_option]; unfold id, saturating_sub in *; lia.
Qed.

(** A blocked account can lock nothing; a limited account at
    most its free balance, nothing before the start of its schedule, and no
    less as the blocks go by. *)
Theorem get_free_balance_limits who s start end_ :
  fits BAL (free_balance (ext s) who) → 0 ≤ start < end_ →
  Limits s !! who = Some (start, end_) →
  (Blocks s !! who = Some true → get_free_balance who s = 0) ∧
  (default false (Blocks s !! who) = false →
    get_free_balance who s =
      free_balance (ext s) who / (end_ - start)
        * Z.max 0 (Z.min (current_height s) end_ - start) ∧
    0 ≤ get_free_balance who s ≤ free_balance (ext s) who).
Proof.
  intros Hf Hse Hl. unfold get_free_balance. split; [by intros -> |]. intros ->. rewrite Hl.
  unfold saturating_sub at 1 3. rewrite !Z.max_l by lia.
  rewrite point_new_eq by (done || lia). unfold reverse_balance_at, saturating_mul. cbn [bias slope].
  set (q := free_balance (ext s) who / (end_ - start)).
  assert (0 ≤ q) by (apply Z.div_pos; unfold fits in Hf; lia).
  pose proof (slope_bound (free_balance (ext s) who) (end_ - start) (end_ - start) Hf) as Hb.
  fold q in Hb. specialize (Hb ltac:(lia) ltac:(lia)).
  unfold saturating_sub, fits in *. set (d := Z.max (end_ - current_height s) 0) in *.
  assert (0 ≤ d) by lia.
  assert (Z.max (q * (end_ - start) - Z.min (q * d) (2 ^ BAL - 1)) 0
          = q * Z.max 0 (Z.min (current_height s) end_ - start)) as ->.
  { destruct (Z.le_gt_cases (q * d) (2 ^ BAL - 1)).
    - rewrite Z.min_l by done. unfold d in *. nia.
    - rewrite Z.min_r by lia. unfold d in *. nia. }
  split; [done | nia].
Qed.
End reserves.

Import Escrow.

(** Balances, locks and reward stakes as maps; no call fails. *)
Record ToyExt : Type := mkToyExt {
  toy_free : gmap AccountId Z;
  toy_locks : gmap AccountId Z;
  toy_stakes : gmap AccountId Z;
}.

#[local] Instance toy_env : Env := {|
  Ext := ToyExt;
  free_balance e who := default 0 (toy_free e !! who);
  minimum_balance _ := 0;
  set_lock who v e := mkToyExt (toy_free e) (<[who := v]> (toy_locks e)) (toy_stakes e);
  remove_lock who e := mkToyExt (toy_free e) (delete who (toy_locks e)) (toy_stakes e);
  withdraw_all_stake who e := Ok (mkToyExt (toy_free e) (toy_locks e) (delete who (toy_stakes e)));
  deposit_stake who v e := Ok (mkToyExt (toy_free e) (toy_locks e) (<[who := v]> (toy_stakes e)));
|}.

Definition ALICE : AccountId := [u8 1].
Definition BOB : AccountId := [u8 2].

(** As in the mock runtime of the tests. *)
Definition Span : Z := 10.
Definition MaxPeriod : Z := 100.

Definition start : Storage :=
  mkStorage ∅ ∅ 0 ∅ ∅ ∅ ∅ ∅ ∅ 0 (mkToyExt {[ALICE := 5000; BOB := 5000]} ∅ ∅) [].

Definition set_block_number (n : Z) (s : Storage) : Storage :=
  mkStorage (Reserved s) (Locked s) (Epoch s) (PointHistory s) (UserPointHistory s)
    (UserPointEpoch s) (SlopeChanges s) (Limits s) (Blocks s) n (ext s) (events s).

Definition run_to (m : M Storage (DispatchError Error) unit) (s : Storage) : Storage :=
  match m s with Ok (_, s') => s' | _ => s end.

(** ** Witnesses *)

Definition locked_once : Storage :=
  run_to (create_lock Span MaxPeriod (Signed ALICE) 1000 107) start.

Lemma start_bounds : escrow_bounds start.
Proof.
  unfold escrow_bounds, fits. split_and!; [vm_compute; (discriminate || reflexivity).. |].
  intros who. unfold locked_balance, start. cbn [Locked]. rewrite lookup_empty.
  split_and!; vm_compute; (discriminate || reflexivity).
Qed.

Lemma create_lock_spec_witness :
  create_lock Span MaxPeriod (Signed ALICE) 1000 107 start = Ok (tt, locked_once) ∧
  Locked locked_once = <[ALICE := mkLocked 1000 100]> ∅ ∧
  balance_at ALICE None locked_once = 1000.
Proof.
  assert (create_lock Span MaxPeriod (Signed ALICE) 1000 107 start = Ok (tt, locked_once)) as Hc
    by vm_refl.
  assert (fits BAL 1000) as H1000 by (apply fitsb_spec; reflexivity).
  assert (fits BN 107) as H107 by (apply fitsb_spec; reflexivity).
  split; [exact Hc |].
  destruct (create_lock_spec Span MaxPeriod ltac:(reflexivity) ltac:(reflexivity) ALICE 1000 107 start locked_once
    start_bounds H1000 H107 Hc) as (_ & _ & _ & HL & Hb & _).
  split; [exact HL | exact Hb].
Defined.

(** A lock that has ended; the last global point is ten blocks old. *)
Definition lock_over : Storage :=
  mkStorage ∅ {[ALICE := mkLocked 1000 100]} 0 {[0 := mkPoint 0 0 110]} ∅ ∅ ∅ ∅ ∅ 120 (mkToyExt ∅ {[ALICE := 1000]} ∅) [].
Definition after_withdraw : Storage := run_to (withdraw Span MaxPeriod (Signed ALICE)) lock_over.

Lemma lock_over_bounds : escrow_bounds lock_over.
Proof.
  unfold escrow_bounds, fits. split_and!; [vm_compute; (discriminate || reflexivity).. |].
  intros who. unfold locked_balance, lock_over. cbn [Locked].
  destruct (decide (who = ALICE)) as [-> | Hne].
  - rewrite lookup_singleton_eq. split_and!; vm_compute; (discriminate || reflexivity).
  - rewrite lookup_singleton_ne by congruence.
    split_and!; vm_compute; (discriminate || reflexivity).
Qed.

Lemma withdraw_spec_witness :
  withdraw Span MaxPeriod (Signed ALICE) lock_over = Ok (tt, after_withdraw) ∧
  Locked after_withdraw = delete ALICE (Locked lock_over).
Proof.
  assert (withdraw Span MaxPeriod (Signed ALICE) lock_over = Ok (tt, after_withdraw)) as Hw
    by vm_refl.
  split; [exact Hw |].
  destruct (withdraw_spec Span MaxPeriod ltac:(reflexivity) ALICE lock_over after_withdraw
    lock_over_bounds Hw) as (_ & HL & _). exact HL.
Defined.

Lemma supply_at_linear_witness :
  no_slope_changes locked_once (0 - Span) 60 ∧
  supply_at Span (mkPoint 1000 10 0) 60 locked_once = Ok 400.
Proof.
  assert (no_slope_changes locked_once (0 - Span) 60) as Hn.
  { intros t Ht. unfold slope_change. replace (SlopeChanges locked_once) with ({[100 := 0]} : gmap Z Z)
      by (vm_compute; reflexivity). rewrite lookup_singleton_ne by lia. reflexivity. }
  split; [exact Hn |].
  exact (supply_at_linear Span ltac:(reflexivity) (mkPoint 1000 10 0) 60 locked_once
    ltac:(cbn; lia) ltac:(reflexivity) ltac:(cbn; lia)
    ltac:(split; vm_compute; (discriminate || reflexivity)) ltac:(reflexivity) Hn).
Defined.

Lemma checkpoint_total_witness :
  fits BN (current_height lock_over) ∧
  ∃ s', checkpoint Span MaxPeriod ALICE default_locked (mkLocked 1000 200) lock_over = Ok (tt, s') ∧
    user_point ALICE (user_epoch ALICE s') s' = lock_point MaxPeriod (mkLocked 1000 200) 120.
Proof.
  assert (fits BN (current_height lock_over)) as Hf
    by (split; vm_compute; (discriminate || reflexivity)).
  split; [exact Hf |].
  destruct (checkpoint_total Span MaxPeriod ltac:(reflexivity) ALICE default_locked (mkLocked 1000 200)
    lock_over ltac:(split; vm_compute; (discriminate || reflexivity)) Hf)
    as (s' & Hc & _ & _ & _ & Hp & _).
  exists s'. split; [exact Hc | exact Hp].
Defined.

Lemma reserve_spec_witness :
  fits BAL (balance_at ALICE None locked_once) ∧
  match reserve ALICE 300 locked_once with
  | Ok (_, s') => reserved_balance ALICE s' = 300
  | _ => False
  end.
Proof.
  assert (fits BAL (balance_at ALICE None locked_once)) as Hf
    by (split; vm_compute; (discriminate || reflexivity)).
  split; [exact Hf |].
  pose proof (reserve_spec ALICE 300 locked_once ltac:(lia)
    ltac:(split; vm_compute; (discriminate || reflexivity)) Hf) as Hr.
  assert (is_ok (reserve ALICE 300 locked_once) = true) as Hok by (vm_compute; reflexivity).
  destruct (reserve ALICE 300 locked_once) as [[u s'] | | |];
    [exact (proj1 (proj2 Hr)) | discriminate Hok | exact Hr | exact Hr].
Defined.

Lemma unreserve_spec_witness :
  0 ≤ reserved_balance ALICE start ∧
  ∃ rest s', unreserve ALICE 40 start = Ok (rest, s') ∧
    (reserved_balance ALICE start - reserved_balance ALICE s') + rest = 40.
Proof.
  assert (0 ≤ reserved_balance ALICE start) as Hr by (vm_compute; discriminate).
  split; [exact Hr |].
  destruct (unreserve_spec ALICE 40 start ltac:(lia) Hr) as (rest & s' & Hu & _ & Hs).
  exists rest, s'. split; [exact Hu | exact Hs].
Defined.

Definition limited : Storage := with_Limits (<[ALICE := (20, 120)]>) (set_block_number 70 start).

Lemma get_free_balance_limits_witness :
  Limits limited !! ALICE = Some (20, 120) ∧ get_free_balance ALICE limited = 2500.
Proof.
  assert (Limits limited !! ALICE = Some (20, 120)) as Hl by (vm_compute; reflexivity).
  split; [exact Hl |].
  destruct (get_free_balance_limits ALICE limited 20 120
    ltac:(split; vm_compute; (discriminate || reflexivity)) ltac:(lia) Hl) as [_ Hf].
  exact (proj1 (Hf ltac:(vm_compute; reflexivity))).
Defined.

(** ** The total supply *)

(** Alice locks 1000 until 100; at 40 Bob locks 2000 until 140. *)
Definition two_locks : Storage :=
  run_to (create_lock Span MaxPeriod (Signed BOB) 2000 140)
    (set_block_number 40 (run_to (create_lock Span MaxPeriod (Signed ALICE) 1000 100) start)).

(** Alice locks 1000 until 50 and moves the end to 100. *)
Definition moved_lock : Storage :=
  run_to (increase_unlock_height Span MaxPeriod (Signed ALICE) 100)
    (run_to (create_lock Span MaxPeriod (Signed ALICE) 1000 50) start).

(** The total supply is the sum of the balances up to the first end
    of a lock (here 100), and too small afterwards: ten blocks later 500
    instead of Bob's 600.  After an unlock height is increased it is too small
    from the old end on: at 60, 300 instead of Alice's 400. *)
Theorem total_supply_diverges :
  (balance_at ALICE (Some 100) two_locks + balance_at BOB (Some 100) two_locks = 800 ∧
   total_supply Span (Some 100) two_locks = Ok 800) ∧
  (balance_at ALICE (Some 110) two_locks + balance_at BOB (Some 110) two_locks = 600 ∧
   total_supply Span (Some 110) two_locks = Ok 500) ∧
  (balance_at ALICE (Some 60) moved_lock = 400 ∧
   total_supply Span (Some 60) moved_lock = Ok 300).
Proof. split_and!; vm_compute; reflexivity. Qed.
