(* ===== verification/FixedPoint.v ===== *)
(** * Fixed-point numbers ([src/primitives/src/lib.rs], [mod arithmetic])

    [SignedFixedPoint] is [FixedI128] and [UnsignedFixedPoint] is [FixedU128]
    of [sp_arithmetic]: an inner 128-bit integer counting units of [10^-18].
    Their addition, subtraction and integer conversions are exact; products
    and quotients are parameters, of which only the documentation is used: the
    result is within one unit of the exact one, and [None] is an overflow or a
    division by zero.  [multiply_by_rational_with_rounding] is documented to
    compute [a * b / c] rounded as asked. *)

From Stdlib Require Import ZArith Lia.
From stdpp Require Import base tactics option list numbers.
From S2P Require Import Prelude.

Local Open Scope Z_scope.

(** [FixedPointNumber::accuracy()], also [DIV]. *)
Definition DIV : Z := 10 ^ 18.

(** ** Signed numbers: [FixedI128] *)

Definition fitsb_signed (z : Z) : bool := (- 2 ^ 127 <=? z) && (z <? 2 ^ 127).
Definition checked_i128 (z : Z) : option Z := if fitsb_signed z then Some z else None.
Definition fixed_add (a b : Z) : option Z := checked_i128 (a + b).
Definition fixed_sub (a b : Z) : option Z := checked_i128 (a - b).

(** [checked_from_integer] and [TruncateFixedPointToInt::truncate_to_inner]:
    [checked_div] on [i128] truncates towards zero. *)
Definition checked_from_integer (n : Z) : option Z := checked_i128 (n * DIV).
Definition truncate_to_inner (a : Z) : option Z := Some (Z.quot a DIV).

(** [BalanceToFixedPoint::to_fixed] on a [u128]. *)
Definition to_fixed (balance : Z) : option Z :=
  n ← checked_i128 balance; checked_from_integer n.

Class SignedFixedPoint : Type := {
  fixed_mul : Z → Z → option Z;
  fixed_div : Z → Z → option Z;
  fixed_mul_within a b c : fixed_mul a b = Some c → Z.abs (c * DIV - a * b) < DIV;
  fixed_mul_overflow a b : Z.abs (a * b) < (2 ^ 127 - 1) * DIV → is_Some (fixed_mul a b);
  fixed_div_within a b c : fixed_div a b = Some c → b ≠ 0 ∧ Z.abs (c * b - a * DIV) < Z.abs b;
  fixed_div_overflow a b :
    b ≠ 0 → Z.abs (a * DIV) < (2 ^ 127 - 1) * Z.abs b → is_Some (fixed_div a b);
}.

(** ** Unsigned numbers: [FixedU128] and 128-bit rationals *)

Inductive Rounding : Type := Up | Down | NearestPrefUp | NearestPrefDown.

Definition rounded_div (r : Rounding) (n d : Z) : Z :=
  match r with
  | Down => n / d
  | Up => (n + d - 1) / d
  | NearestPrefUp => (2 * n + d) / (2 * d)
  | NearestPrefDown => (2 * n + d - 1) / (2 * d)
  end.

Class Rational128 : Type := {
  (** [multiply_by_rational_with_rounding a b c r] *)
  multiply_by_rational : Z → Z → Z → Rounding → option Z;
  multiply_by_rational_spec a b c r :
    fits 128 a → fits 128 b → fits 128 c →
    multiply_by_rational a b c r =
      if c =? 0 then None else checked 128 (rounded_div r (a * b) c);
  (** [FixedU128::checked_from_rational n d] *)
  checked_from_rational : Z → Z → option Z;
  checked_from_rational_within n d q :
    checked_from_rational n d = Some q →
    d ≠ 0 ∧ fits 128 q ∧ Z.abs (q * d - n * DIV) < Z.abs d;
  (** products and quotients of two [FixedU128] *)
  ufixed_mul : Z → Z → option Z;
  ufixed_mul_within a b c : ufixed_mul a b = Some c → fits 128 c ∧ Z.abs (c * DIV - a * b) < DIV;
  ufixed_div : Z → Z → option Z;
  ufixed_div_within a b c :
    ufixed_div a b = Some c → b ≠ 0 ∧ fits 128 c ∧ Z.abs (c * b - a * DIV) < Z.abs b;
}.

(** ** An implementation, rounding down *)

Definition floor_mul (a b : Z) : option Z := checked_i128 (a * b / DIV).
Definition floor_div (a b : Z) : option Z := if b =? 0 then None else checked_i128 (a * DIV / b).

Lemma checked_i128_Some z x : checked_i128 z = Some x ↔ x = z ∧ - 2 ^ 127 ≤ z < 2 ^ 127.
Proof.
  unfold checked_i128, fitsb_signed.
  destruct (Z.leb_spec (- 2 ^ 127) z), (Z.ltb_spec z (2 ^ 127)); cbn;
    (split; [intros Hc; try discriminate Hc; injection Hc as <-; lia | intros [-> ?]; (done || lia)]).
Qed.

Lemma checked_i128_fits z : - 2 ^ 127 ≤ z < 2 ^ 127 → checked_i128 z = Some z.
Proof. intros. by apply checked_i128_Some. Qed.

Lemma checked_i128_small a q d :
  0 < Z.abs d → Z.abs (q * d - a) < Z.abs d → Z.abs a < (2 ^ 127 - 1) * Z.abs d →
  is_Some (checked_i128 q).
Proof.
  intros Hd Hq Ha. exists q. apply checked_i128_fits.
  assert (Z.abs q * Z.abs d < 2 ^ 127 * Z.abs d) as Hlt by (rewrite <- Z.abs_mul; lia).
  apply Z.mul_lt_mono_pos_r in Hlt; lia.
Qed.

Lemma floor_within a b : b ≠ 0 → Z.abs (a / b * b - a) < Z.abs b.
Proof.
  intros Hb. pose proof (Z.div_mod a b Hb). pose proof (Z.mod_bound_or a b Hb).
  rewrite (Z.mul_comm (a / b)). lia.
Qed.

#[program] Definition floor_fixed : SignedFixedPoint := {|
  fixed_mul := floor_mul;
  fixed_div := floor_div;
|}.
Next Obligation.
  intros a b c [-> _]%checked_i128_Some. by apply floor_within.
Qed.
Next Obligation.
  intros a b Ha. apply (checked_i128_small (a * b) _ DIV); [done | by apply floor_within |].
  by rewrite (Z.abs_eq DIV).
Qed.
Next Obligation.
  unfold floor_div. intros a b c. destruct (Z.eqb_spec b 0); [done |].
  intros [-> _]%checked_i128_Some. split; [done | by apply floor_within].
Qed.
Next Obligation.
  unfold floor_div. intros a b Hb Ha. rewrite (proj2 (Z.eqb_neq b 0) Hb).
  apply (checked_i128_small (a * DIV) _ b); [lia | by apply floor_within | done].
Qed.

Definition floor_ufixed (n d : Z) : option Z := if d =? 0 then None else checked 128 (n / d).

#[program] Definition floor_rational : Rational128 := {|
  multiply_by_rational a b c r := if c =? 0 then None else checked 128 (rounded_div r (a * b) c);
  checked_from_rational n d := floor_ufixed (n * DIV) d;
  ufixed_mul a b := floor_ufixed (a * b) DIV;
  ufixed_div a b := floor_ufixed (a * DIV) b;
|}.
Next Obligation. done. Qed.
Next Obligation.
  unfold floor_ufixed. intros n d q. destruct (Z.eqb_spec d 0); [done |].
  intros [-> Hf]%checked_Some. split_and!; [done | done | by apply floor_within].
Qed.
Next Obligation.
  unfold floor_ufixed. intros a b c. cbn [Z.eqb].
  intros [-> Hf]%checked_Some. split; [done | by apply floor_within].
Qed.
Next Obligation.
  unfold floor_ufixed. intros a b c. destruct (Z.eqb_spec b 0); [done |].
  intros [-> Hf]%checked_Some. split_and!; [done | done | by apply floor_within].
Qed.

(** ** Consequences of the laws *)
Section fixed.
Context `{SignedFixedPoint}.

Lemma fixed_mul_bounds a b c : fixed_mul a b = Some c → a * b - DIV < c * DIV < a * b + DIV.
Proof. intros Hc%fixed_mul_within. lia. Qed.

Lemma fixed_add_Some a b c : fixed_add a b = Some c → c = a + b.
Proof. by intros [-> _]%checked_i128_Some. Qed.

Lemma fixed_sub_Some a b c : fixed_sub a b = Some c → c = a - b.
Proof. by intros [-> _]%checked_i128_Some. Qed.

Lemma fixed_sub_diag a : fixed_sub a a = Some 0.
Proof. unfold fixed_sub. by rewrite Z.sub_diag. Qed.

Lemma fixed_sub_0 a : - 2 ^ 127 ≤ a < 2 ^ 127 → fixed_sub a 0 = Some a.
Proof. intros Ha. unfold fixed_sub. by rewrite Z.sub_0_r, checked_i128_fits. Qed.

(** A product with zero is zero. *)
Lemma fixed_mul_0_l a : fixed_mul 0 a = Some 0.
Proof.
  destruct (fixed_mul_overflow 0 a) as [c Hc]; [done |]. rewrite Hc. f_equal.
  apply fixed_mul_within in Hc. unfold DIV in *. lia.
Qed.

Lemma fixed_mul_0_r a : fixed_mul a 0 = Some 0.
Proof.
  destruct (fixed_mul_overflow a 0) as [c Hc]; [by rewrite Z.mul_0_r |]. rewrite Hc. f_equal.
  apply fixed_mul_within in Hc. unfold DIV in *. lia.
Qed.

Lemma to_fixed_Some balance x :
  to_fixed balance = Some x → x = balance * DIV ∧ - 2 ^ 127 ≤ x < 2 ^ 127.
Proof.
  unfold to_fixed. intros Hx. destruct (checked_i128 balance) as [n |] eqn:Hn; [| done].
  apply checked_i128_Some in Hn as [-> _]. by apply checked_i128_Some in Hx as [-> ?].
Qed.
End fixed.
