(* ===== verification/Reward.v ===== *)
(** * Reward distribution ([src/crates/reward/src/lib.rs])

    The scalable reward distribution: a reward for a pool raises the pool's
    reward per unit of stake; what a participant is due is its stake times
    that rate, less a tally that stands for what it was paid or never earned.
    Pool, stake and currency identifiers are the type parameters of the pallet. *)

From Stdlib Require Import ZArith Lia.
From stdpp Require Import base tactics option list numbers gmap sorting.
From S2P Require Import Prelude Security FixedPoint.

Local Open Scope Z_scope.

Module Reward.
Inductive Error : Type := TryIntoIntError | InsufficientFunds | ZeroTotalStake | MaxRewardCurrencies.
Abbreviation RError := (DispatchError Error).

Section reward.
Context {PoolId StakeId CurrencyId : Type}.
Context `{Countable PoolId} `{Countable StakeId} `{Countable CurrencyId}.
(** [CurrencyId: Ord], the iteration order of a [BTreeSet]. *)
Context (currency_le : relation CurrencyId) `{!RelDecision currency_le}.
Context `{SignedFixedPoint}.
(** [T::MaxRewardCurrencies] *)
Context (MaxRewardCurrenciesBound : Z).

Inductive Event : Type :=
  | DepositStake (pool_id : PoolId) (stake_id : StakeId) (amount : Z)
  | DistributeReward (currency_id : CurrencyId) (amount : Z)
  | WithdrawStake (pool_id : PoolId) (stake_id : StakeId) (amount : Z)
  | WithdrawReward (pool_id : PoolId) (stake_id : StakeId) (currency_id : CurrencyId) (amount : Z).

Record Storage : Type := mkStorage {
  TotalStake : gmap PoolId Z;
  TotalRewards : gmap CurrencyId Z;
  RewardPerToken : gmap (CurrencyId * PoolId) Z;
  Stake : gmap (PoolId * StakeId) Z;
  RewardTally : gmap (CurrencyId * (PoolId * StakeId)) Z;
  RewardCurrencies : gmap PoolId (gset CurrencyId);
  events : list Event;
}.

Definition with_TotalStake f (s : Storage) : Storage :=
  mkStorage (f (TotalStake s)) (TotalRewards s) (RewardPerToken s) (Stake s) (RewardTally s)
    (RewardCurrencies s) (events s).
Definition with_TotalRewards f (s : Storage) : Storage :=
  mkStorage (TotalStake s) (f (TotalRewards s)) (RewardPerToken s) (Stake s) (RewardTally s)
    (RewardCurrencies s) (events s).
Definition with_RewardPerToken f (s : Storage) : Storage :=
  mkStorage (TotalStake s) (TotalRewards s) (f (RewardPerToken s)) (Stake s) (RewardTally s)
    (RewardCurrencies s) (events s).
Definition with_Stake f (s : Storage) : Storage :=
  mkStorage (TotalStake s) (TotalRewards s) (RewardPerToken s) (f (Stake s)) (RewardTally s)
    (RewardCurrencies s) (events s).
Definition with_RewardTally f (s : Storage) : Storage :=
  mkStorage (TotalStake s) (TotalRewards s) (RewardPerToken s) (Stake s) (f (RewardTally s))
    (RewardCurrencies s) (events s).
Definition with_RewardCurrencies f (s : Storage) : Storage :=
  mkStorage (TotalStake s) (TotalRewards s) (RewardPerToken s) (Stake s) (RewardTally s)
    (f (RewardCurrencies s)) (events s).
Definition with_event e (s : Storage) : Storage :=
  mkStorage (TotalStake s) (TotalRewards s) (RewardPerToken s) (Stake s) (RewardTally s)
    (RewardCurrencies s) (events s ++ [e]).
Definition empty_storage : Storage := mkStorage ∅ ∅ ∅ ∅ ∅ ∅ [].

Abbreviation R := (M Storage RError).

(** ** Getters: every map is a [ValueQuery] with default zero *)
Definition total_stake (pool_id : PoolId) (s : Storage) : Z := default 0 (TotalStake s !! pool_id).
Definition total_rewards (currency_id : CurrencyId) (s : Storage) : Z :=
  default 0 (TotalRewards s !! currency_id).
Definition reward_per_token (currency_id : CurrencyId) (pool_id : PoolId) (s : Storage) : Z :=
  default 0 (RewardPerToken s !! (currency_id, pool_id)).
Definition stake (pool_id : PoolId) (stake_id : StakeId) (s : Storage) : Z :=
  default 0 (Stake s !! (pool_id, stake_id)).
Definition reward_tally (currency_id : CurrencyId) (pool_id : PoolId) (stake_id : StakeId)
    (s : Storage) : Z :=
  default 0 (RewardTally s !! (currency_id, (pool_id, stake_id))).
Definition reward_currencies (pool_id : PoolId) (s : Storage) : gset CurrencyId :=
  default ∅ (RewardCurrencies s !! pool_id).
(** Iterating a [BTreeSet]. *)
Definition currencies_iter (pool_id : PoolId) (s : Storage) : list CurrencyId :=
  merge_sort currency_le (elements (reward_currencies pool_id s)).

Definition get_total_rewards (currency_id : CurrencyId) (s : Storage) : outcome RError Z :=
  ok_or (truncate_to_inner (total_rewards currency_id s)) (ModuleError TryIntoIntError).

(** [checked_add_mut!] and [checked_sub_mut!]: [value] is the present value of
    the item and [put] writes the new one. *)
Definition checked_add_mut (value : Storage → Z) (put : Z → Storage → Storage) (amount : Z) : R unit :=
  old ← gets value;
  new ← lift (ok_or (fixed_add old amount) (Arithmetic Overflow));
  modify (put new).
Definition checked_sub_mut (value : Storage → Z) (put : Z → Storage → Storage) (amount : Z) : R unit :=
  old ← gets value;
  new ← lift (ok_or (fixed_sub old amount) (Arithmetic Underflow));
  modify (put new).

Definition put_stake pool_id stake_id v := with_Stake <[(pool_id, stake_id) := v]>.
Definition put_total_stake pool_id v := with_TotalStake <[pool_id := v]>.
Definition put_total_rewards currency_id v := with_TotalRewards <[currency_id := v]>.
Definition put_reward_per_token currency_id pool_id v :=
  with_RewardPerToken <[(currency_id, pool_id) := v]>.
Definition put_reward_tally currency_id pool_id stake_id v :=
  with_RewardTally <[(currency_id, (pool_id, stake_id)) := v]>.

(** The body of the loops over the currencies of the pool. *)
Definition add_tally (pool_id : PoolId) (stake_id : StakeId) (amount : Z) (currency_id : CurrencyId)
  : R unit :=
  rate ← gets (reward_per_token currency_id pool_id);
  product ← lift (ok_or (fixed_mul rate amount) (Arithmetic Overflow));
  checked_add_mut (reward_tally currency_id pool_id stake_id)
    (put_reward_tally currency_id pool_id stake_id) product.
Definition sub_tally (pool_id : PoolId) (stake_id : StakeId) (amount : Z) (currency_id : CurrencyId)
  : R unit :=
  rate ← gets (reward_per_token currency_id pool_id);
  product ← lift (ok_or (fixed_mul rate amount) (Arithmetic Overflow));
  checked_sub_mut (reward_tally currency_id pool_id stake_id)
    (put_reward_tally currency_id pool_id stake_id) product.

(** ** Operations on fixed-point amounts *)

Definition deposit_stake (pool_id : PoolId) (stake_id : StakeId) (amount : Z) : R unit :=
  checked_add_mut (stake pool_id stake_id) (put_stake pool_id stake_id) amount;;
  checked_add_mut (total_stake pool_id) (put_total_stake pool_id) amount;;
  currencies ← gets (currencies_iter pool_id);
  for_each (add_tally pool_id stake_id amount) currencies;;
  modify (with_event (DepositStake pool_id stake_id amount)).

(** [BoundedBTreeSet::try_insert]: an error when the set would grow beyond the bound. *)
Definition try_insert (currency_id : CurrencyId) (l : gset CurrencyId) : option (gset CurrencyId) :=
  let l' := {[currency_id]} ∪ l in
  if Z.of_nat (size l') <=? MaxRewardCurrenciesBound then Some l' else None.

Definition distribute_reward (pool_id : PoolId) (currency_id : CurrencyId) (reward : Z) : R unit :=
  if reward =? 0 then mret tt
  else
    total_stake ← gets (total_stake pool_id);
    ensureM (negb (total_stake =? 0)) (ModuleError ZeroTotalStake);;
    currencies ← gets (reward_currencies pool_id);
    currencies ← lift (ok_or (try_insert currency_id currencies) (ModuleError MaxRewardCurrencies));
    modify (with_RewardCurrencies <[pool_id := currencies]>);;
    rate ← lift (ok_or (fixed_div reward total_stake) (Arithmetic Underflow));
    checked_add_mut (reward_per_token currency_id pool_id) (put_reward_per_token currency_id pool_id)
      rate;;
    checked_add_mut (total_rewards currency_id) (put_total_rewards currency_id) reward;;
    modify (with_event (DistributeReward currency_id reward)).

Definition compute_reward (pool_id : PoolId) (stake_id : StakeId) (currency_id : CurrencyId)
    (s : Storage) : outcome RError Z :=
  product ← ok_or (fixed_mul (stake pool_id stake_id s) (reward_per_token currency_id pool_id s))
    (Arithmetic Overflow);
  due ← ok_or (fixed_sub product (reward_tally currency_id pool_id stake_id s)) (Arithmetic Underflow);
  ok_or (truncate_to_inner due) (ModuleError TryIntoIntError).

Definition withdraw_stake (pool_id : PoolId) (stake_id : StakeId) (amount : Z) : R unit :=
  staked ← gets (stake pool_id stake_id);
  ensureM (negb (amount >? staked)) (ModuleError InsufficientFunds);;
  checked_sub_mut (stake pool_id stake_id) (put_stake pool_id stake_id) amount;;
  checked_sub_mut (total_stake pool_id) (put_total_stake pool_id) amount;;
  currencies ← gets (currencies_iter pool_id);
  for_each (sub_tally pool_id stake_id amount) currencies;;
  modify (with_event (WithdrawStake pool_id stake_id amount)).

Definition withdraw_reward (pool_id : PoolId) (stake_id : StakeId) (currency_id : CurrencyId) : R Z :=
  reward ← query (compute_reward pool_id stake_id currency_id);
  reward_as_fixed ← lift (ok_or (checked_from_integer reward) (ModuleError TryIntoIntError));
  checked_sub_mut (total_rewards currency_id) (put_total_rewards currency_id) reward_as_fixed;;
  stake ← gets (stake pool_id stake_id);
  rate ← gets (reward_per_token currency_id pool_id);
  tally ← lift (ok_or (fixed_mul stake rate) (Arithmetic Overflow));
  modify (put_reward_tally currency_id pool_id stake_id tally);;
  modify (with_event (WithdrawReward pool_id stake_id currency_id reward_as_fixed));;
  mret reward.

(** ** Callers that ignore an error

    These functions are not transactional: a caller that does not pass an error
    on keeps what was written before it, the effect of the leading steps. *)
Fixpoint run_steps (l : list (R unit)) (s : Storage) : Storage :=
  match l with
  | [] => s
  | m :: l => match m s with Ok (_, s') => run_steps l s' | _ => s end
  end.

Definition distribute_reward_steps (pool_id : PoolId) (currency_id : CurrencyId) (reward : Z)
  : list (R unit) :=
  [ total_stake ← gets (total_stake pool_id);
    ensureM (negb (total_stake =? 0)) (ModuleError ZeroTotalStake);
    currencies ← gets (reward_currencies pool_id);
    currencies ← lift (ok_or (try_insert currency_id currencies) (ModuleError MaxRewardCurrencies));
    modify (with_RewardCurrencies <[pool_id := currencies]>);
    total_stake ← gets (total_stake pool_id);
    rate ← lift (ok_or (fixed_div reward total_stake) (Arithmetic Underflow));
    checked_add_mut (reward_per_token currency_id pool_id) (put_reward_per_token currency_id pool_id) rate;
    checked_add_mut (total_rewards currency_id) (put_total_rewards currency_id) reward;
    modify (with_event (DistributeReward currency_id reward)) ].

Definition deposit_stake_steps (pool_id : PoolId) (stake_id : StakeId) (amount : Z) (s : Storage)
  : list (R unit) :=
  [ checked_add_mut (stake pool_id stake_id) (put_stake pool_id stake_id) amount;
    checked_add_mut (total_stake pool_id) (put_total_stake pool_id) amount ] ++
  (add_tally pool_id stake_id amount <$> currencies_iter pool_id s) ++
  [ modify (with_event (DepositStake pool_id stake_id amount)) ].

Definition withdraw_stake_steps (pool_id : PoolId) (stake_id : StakeId) (amount : Z) (s : Storage)
  : list (R unit) :=
  [ staked ← gets (stake pool_id stake_id);
    ensureM (negb (amount >? staked)) (ModuleError InsufficientFunds);
    checked_sub_mut (stake pool_id stake_id) (put_stake pool_id stake_id) amount;
    checked_sub_mut (total_stake pool_id) (put_total_stake pool_id) amount ] ++
  (sub_tally pool_id stake_id amount <$> currencies_iter pool_id s) ++
  [ modify (with_event (WithdrawStake pool_id stake_id amount)) ].

Lemma run_steps_cons m l s s' : m s = Ok (tt, s') → run_steps (m :: l) s = run_steps l s'.
Proof. intros Hm. cbn [run_steps]. by rewrite Hm. Qed.

Lemma run_steps_app l l' s s' :
  for_each (λ m, m) l s = Ok (tt, s') → run_steps (l ++ l') s = run_steps l' s'.
Proof.
  revert s. induction l as [| m l IH]; intros s Hl; cbn [for_each app] in *; [by injection Hl as -> |].
  apply M_bind_Ok in Hl as ([] & s1 & Hm & Hl). rewrite (run_steps_cons m _ s s1 Hm). by apply IH.
Qed.

Lemma for_each_fmap {A} (f : A → R unit) l s : for_each (λ m, m) (f <$> l) s = for_each f l s.
Proof.
  revert s. induction l as [| x l IH]; intros s; [done |]. cbn.
  unfold mbind, M_bind. destruct (f x s) as [[? ?] | | |]; [apply IH | done..].
Qed.

(** A call that ends well has taken all its steps. *)
Lemma distribute_reward_taken pool_id currency_id reward s s' :
  reward ≠ 0 → distribute_reward pool_id currency_id reward s = Ok (tt, s') →
  run_steps (distribute_reward_steps pool_id currency_id reward) s = s'.
Proof.
  intros Hr Hd. unfold distribute_reward in Hd. rewrite (proj2 (Z.eqb_neq _ _) Hr) in Hd.
  revert Hd. run. intros Hd.
  apply M_bind_Ok in Hd as ([] & s1 & He & Hd). apply ensureM_Ok in He as [He ->].
  revert Hd. run. intros Hd.
  apply M_bind_Ok in Hd as (l & s1 & Hl & Hd). apply lift_Ok in Hl as [Hl ->].
  revert Hd. run. intros Hd.
  apply M_bind_Ok in Hd as (rate & s1 & Hrate & Hd). apply lift_Ok in Hrate as [Hrate ->].
  apply M_bind_Ok in Hd as ([] & s2 & Ha & Hd). apply M_bind_Ok in Hd as ([] & s3 & Hb & Hd).
  unfold distribute_reward_steps.
  erewrite run_steps_cons; [| rewrite run_gets; by apply ensureM_Ok].
  erewrite run_steps_cons; [| rewrite run_gets, (run_bind _ _ _ _ _ (proj2 (lift_Ok _ _ _ _) (conj Hl eq_refl)));
    reflexivity].
  erewrite run_steps_cons; [| rewrite run_gets, (run_bind _ _ _ _ _ (proj2 (lift_Ok _ _ _ _) (conj Hrate eq_refl)));
    exact Ha].
  erewrite run_steps_cons; [| exact Hb]. erewrite run_steps_cons; [| exact Hd]. done.
Qed.

Lemma deposit_stake_taken pool_id stake_id amount s s' :
  deposit_stake pool_id stake_id amount s = Ok (tt, s') →
  run_steps (deposit_stake_steps pool_id stake_id amount s) s = s'.
Proof.
  intros Hd. unfold deposit_stake in Hd.
  apply M_bind_Ok in Hd as ([] & s1 & Ha & Hd). apply M_bind_Ok in Hd as ([] & s2 & Hb & Hd).
  revert Hd. run. intros Hd. apply M_bind_Ok in Hd as ([] & s3 & Hc & Hd).
  assert (currencies_iter pool_id s2 = currencies_iter pool_id s) as Hi.
  { unfold checked_add_mut in Ha, Hb. outcome_inv. done. }
  unfold deposit_stake_steps. cbn [app].
  erewrite run_steps_cons by exact Ha. erewrite run_steps_cons by exact Hb.
  erewrite run_steps_app; [erewrite run_steps_cons by exact Hd; done |].
  rewrite for_each_fmap, <- Hi. exact Hc.
Qed.

Lemma withdraw_stake_taken pool_id stake_id amount s s' :
  withdraw_stake pool_id stake_id amount s = Ok (tt, s') →
  run_steps (withdraw_stake_steps pool_id stake_id amount s) s = s'.
Proof.
  intros Hd. unfold withdraw_stake in Hd. revert Hd. run. intros Hd.
  apply M_bind_Ok in Hd as ([] & s1 & He & Hd). apply ensureM_Ok in He as [He ->].
  apply M_bind_Ok in Hd as ([] & s1 & Ha & Hd). apply M_bind_Ok in Hd as ([] & s2 & Hb & Hd).
  revert Hd. run. intros Hd. apply M_bind_Ok in Hd as ([] & s3 & Hc & Hd).
  assert (currencies_iter pool_id s2 = currencies_iter pool_id s) as Hi.
  { unfold checked_sub_mut in Ha, Hb. outcome_inv. done. }
  unfold withdraw_stake_steps. cbn [app].
  erewrite run_steps_cons; [| rewrite run_gets; by apply ensureM_Ok].
  erewrite run_steps_cons by exact Ha. erewrite run_steps_cons by exact Hb.
  erewrite run_steps_app; [erewrite run_steps_cons by exact Hd; done |].
  rewrite for_each_fmap, <- Hi. exact Hc.
Qed.
End reward.
End Reward.

(** ** [impl RewardsApi for Pallet]: the same on balances *)
Module RewardsApi.
Import Reward.

Section api.
Context {PoolId StakeId CurrencyId : Type}.
Context `{Countable PoolId} `{Countable StakeId} `{Countable CurrencyId}.
Context (currency_le : relation CurrencyId) `{!RelDecision currency_le}.
Context `{SignedFixedPoint}.
Context (MaxRewardCurrenciesBound : Z).
Abbreviation Storage := (@Storage PoolId StakeId CurrencyId _ _ _ _ _ _).
Abbreviation R := (M Storage RError).

(** [TryInto<Balance>] from [i128] to [u128]. *)
Definition try_into_balance (v : Z) : outcome RError Z :=
  if v <? 0 then Err (ModuleError TryIntoIntError) else Ok v.
Definition from_balance (amount : Z) : outcome RError Z :=
  ok_or (to_fixed amount) (ModuleError TryIntoIntError).

Definition reward_currencies_len (pool_id : PoolId) (s : Storage) : Z :=
  Z.of_nat (size (reward_currencies pool_id s)).
Definition distribute_reward (pool_id : PoolId) (currency_id : CurrencyId) (amount : Z) : R unit :=
  reward ← lift (from_balance amount);
  Reward.distribute_reward MaxRewardCurrenciesBound pool_id currency_id reward.
Definition compute_reward (pool_id : PoolId) (stake_id : StakeId) (currency_id : CurrencyId)
    (s : Storage) : outcome RError Z :=
  reward ← Reward.compute_reward pool_id stake_id currency_id s;
  try_into_balance reward.
Definition withdraw_reward (pool_id : PoolId) (stake_id : StakeId) (currency_id : CurrencyId) : R Z :=
  reward ← Reward.withdraw_reward pool_id stake_id currency_id;
  lift (try_into_balance reward).
Definition get_total_stake (pool_id : PoolId) (s : Storage) : outcome RError Z :=
  v ← ok_or (truncate_to_inner (total_stake pool_id s)) (ModuleError TryIntoIntError);
  try_into_balance v.
Definition get_stake (pool_id : PoolId) (stake_id : StakeId) (s : Storage) : outcome RError Z :=
  v ← ok_or (truncate_to_inner (stake pool_id stake_id s)) (ModuleError TryIntoIntError);
  try_into_balance v.
Definition deposit_stake (pool_id : PoolId) (stake_id : StakeId) (amount : Z) : R unit :=
  amount ← lift (from_balance amount);
  Reward.deposit_stake currency_le pool_id stake_id amount.
Definition withdraw_stake (pool_id : PoolId) (stake_id : StakeId) (amount : Z) : R unit :=
  amount ← lift (from_balance amount);
  Reward.withdraw_stake currency_le pool_id stake_id amount.

(** The provided methods of the trait. *)
Definition withdraw_all_stake (pool_id : PoolId) (stake_id : StakeId) : R Z :=
  amount ← query (get_stake pool_id stake_id);
  withdraw_stake pool_id stake_id amount;;
  mret amount.
Definition set_stake (pool_id : PoolId) (stake_id : StakeId) (amount : Z) : R unit :=
  current_stake ← query (get_stake pool_id stake_id);
  if current_stake <? amount then
    deposit_stake pool_id stake_id (saturating_sub amount current_stake)
  else if current_stake >? amount then
    withdraw_stake pool_id stake_id (saturating_sub current_stake amount)
  else mret tt.

(** [if let Err(_) = distribute_reward(..)] and [let _ = set_stake(..)]: whether
    the call ended well, and what it has written in either case. *)
Definition try_distribute_reward (pool_id : PoolId) (currency_id : CurrencyId) (amount : Z)
    (s : Storage) : bool * Storage :=
  (is_ok (distribute_reward pool_id currency_id amount s),
   match to_fixed amount with
   | None => s
   | Some reward =>
       if reward =? 0 then s
       else run_steps (distribute_reward_steps MaxRewardCurrenciesBound pool_id currency_id reward) s
   end).
Definition set_stake_unchecked (pool_id : PoolId) (stake_id : StakeId) (amount : Z) (s : Storage) : Storage :=
  match get_stake pool_id stake_id s with
  | Ok current_stake =>
      if current_stake <? amount then
        match to_fixed (saturating_sub amount current_stake) with
        | Some d => run_steps (deposit_stake_steps currency_le pool_id stake_id d s) s
        | None => s
        end
      else if current_stake >? amount then
        match to_fixed (saturating_sub current_stake amount) with
        | Some d => run_steps (withdraw_stake_steps currency_le pool_id stake_id d s) s
        | None => s
        end
      else s
  | _ => s
  end.

Lemma try_distribute_reward_Ok pool_id currency_id amount s s' :
  distribute_reward pool_id currency_id amount s = Ok (tt, s') →
  try_distribute_reward pool_id currency_id amount s = (true, s').
Proof.
  intros Hd. unfold try_distribute_reward. rewrite Hd. cbn [is_ok]. f_equal.
  unfold distribute_reward, from_balance in Hd.
  apply M_bind_Ok in Hd as (reward & s1 & Hr & Hd). apply lift_Ok in Hr as [Hr ->].
  apply ok_or_Ok in Hr as ->. destruct (Z.eqb_spec reward 0) as [-> | Hne].
  - unfold Reward.distribute_reward in Hd. by injection Hd as ->.
  - by apply distribute_reward_taken.
Qed.

Lemma set_stake_unchecked_Ok pool_id stake_id amount s s' :
  set_stake pool_id stake_id amount s = Ok (tt, s') → set_stake_unchecked pool_id stake_id amount s = s'.
Proof.
  intros Hs. unfold set_stake in Hs. apply M_bind_Ok in Hs as (cur & s1 & Hc & Hs).
  apply query_Ok in Hc as [Hc ->]. unfold set_stake_unchecked. rewrite Hc.
  destruct (cur <? amount); [| destruct (cur >? amount)]; [| | by injection Hs as ->].
  - unfold deposit_stake, from_balance in Hs. apply M_bind_Ok in Hs as (d & s1 & Hd & Hs).
    apply lift_Ok in Hd as [Hd ->]. apply ok_or_Ok in Hd as ->. by apply deposit_stake_taken.
  - unfold withdraw_stake, from_balance in Hs. apply M_bind_Ok in Hs as (d & s1 & Hd & Hs).
    apply lift_Ok in Hd as [Hd ->]. apply ok_or_Ok in Hd as ->. by apply withdraw_stake_taken.
Qed.
End api.
End RewardsApi.
