(* ===== verification/RewardProps.v ===== *)
(** * Properties of reward distribution

    What a participant is due ([accrued], exact, in units of [10^-36]) only
    changes by rounding when stake is deposited or withdrawn, grows in
    proportion to its stake when a reward is distributed, and is paid out by a
    withdrawal; over any run, what is due and what was paid add up to what was
    distributed, within an explicit bound on rounding. *)

From Stdlib Require Import ZArith Lia.
From stdpp Require Import base tactics option list numbers gmap sorting.
From S2P Require Import Prelude Security FixedPoint Reward.

Local Open Scope Z_scope.
Import Reward.

Section props.
Context {PoolId StakeId CurrencyId : Type}.
Context `{Countable PoolId} `{Countable StakeId} `{Countable CurrencyId}.
Context (currency_le : relation CurrencyId) `{!RelDecision currency_le}.
Context `{SignedFixedPoint}.
Context (bound : Z).
Abbreviation Storage := (@Storage PoolId StakeId CurrencyId _ _ _ _ _ _).
Implicit Types (s : Storage) (p : PoolId) (i : StakeId) (c : CurrencyId).

Definition accrued c p i s : Z :=
  stake p i s * reward_per_token c p s - reward_tally c p i s * DIV.

(** A currency that was never distributed to a pool has no rate there, and a
    participant that never deposited has no tally. *)
Definition wf s : Prop :=
  (∀ c p, c ∉ reward_currencies p s → reward_per_token c p s = 0) ∧
  (∀ c p i, Stake s !! (p, i) = None → reward_tally c p i s = 0).

(** Everything but tallies and events. *)
Definition same_but_tally s s' : Prop :=
  TotalStake s' = TotalStake s ∧ TotalRewards s' = TotalRewards s ∧
  RewardPerToken s' = RewardPerToken s ∧ Stake s' = Stake s ∧
  RewardCurrencies s' = RewardCurrencies s.

Lemma put_tally_lookup c p i v s c' p' i' :
  reward_tally c' p' i' (put_reward_tally c p i v s) =
    if decide ((c', p', i') = (c, p, i)) then v else reward_tally c' p' i' s.
Proof.
  unfold reward_tally, put_reward_tally. cbn. case_decide as Heq.
  - injection Heq as -> -> ->. by rewrite lookup_insert_eq.
  - rewrite lookup_insert_ne; [done | congruence].
Qed.

Lemma put_stake_lookup p i v s p' i' :
  stake p' i' (put_stake p i v s) = if decide ((p', i') = (p, i)) then v else stake p' i' s.
Proof.
  unfold stake, put_stake. cbn. case_decide as Heq.
  - injection Heq as -> ->. by rewrite lookup_insert_eq.
  - rewrite lookup_insert_ne; [done | congruence].
Qed.

(** ** The loop over the currencies of a pool *)

(** What one turn of [add_tally] ([sgn = 1]) or [sub_tally] ([sgn = -1]) does. *)
Definition tally_turn sgn p i amount c s s' : Prop :=
  ∃ product, fixed_mul (reward_per_token c p s) amount = Some product ∧
    s' = put_reward_tally c p i (reward_tally c p i s + sgn * product) s.

Lemma add_tally_turn p i amount c s s' :
  add_tally p i amount c s = Ok (tt, s') → tally_turn 1 p i amount c s s'.
Proof.
  unfold add_tally, checked_add_mut. intros Hr. outcome_inv.
  match goal with Ha : fixed_add _ _ = Some _ |- _ => apply fixed_add_Some in Ha as -> end.
  eexists. split; [eassumption |]. f_equal; lia.
Qed.

Lemma sub_tally_turn p i amount c s s' :
  sub_tally p i amount c s = Ok (tt, s') → tally_turn (-1) p i amount c s s'.
Proof.
  unfold sub_tally, checked_sub_mut. intros Hr. outcome_inv.
  match goal with Ha : fixed_sub _ _ = Some _ |- _ => apply fixed_sub_Some in Ha as -> end.
  eexists. split; [eassumption |]. f_equal; lia.
Qed.

(** The loop changes the tallies of the participant in the currencies [l]. *)
Definition tallies_changed sgn p i amount (l : list CurrencyId) s s' : Prop :=
  same_but_tally s s' ∧
  (∀ c, c ∈ l → ∃ product, fixed_mul (reward_per_token c p s) amount = Some product ∧
     reward_tally c p i s' = reward_tally c p i s + sgn * product) ∧
  (∀ c p' i', c ∉ l ∨ (p', i') ≠ (p, i) → reward_tally c p' i' s' = reward_tally c p' i' s).

Lemma for_each_tally sgn p i amount (f : CurrencyId → M Storage RError unit) l s s' :
  (∀ c s s', f c s = Ok (tt, s') → tally_turn sgn p i amount c s s') →
  NoDup l → for_each f l s = Ok (tt, s') → tallies_changed sgn p i amount l s s'.
Proof.
  intros Hf. revert s. induction l as [| c l IH]; intros s Hl; cbn [for_each].
  { intros Hr. outcome_inv. split_and!; [done | set_solver | done]. }
  intros Hr. outcome_inv. apply NoDup_cons in Hl as [Hc Hl].
  match goal with Hx : f c s = Ok (?u, _) |- _ => destruct u; apply Hf in Hx as (m & Hm & ->) end.
  destruct (IH _ Hl Hr) as (Hsame & Hin & Hout). split_and!.
  - exact Hsame.
  - intros c' [-> | Hc']%elem_of_cons.
    + exists m. split; [done |]. rewrite Hout by auto. rewrite put_tally_lookup.
      by rewrite decide_True.
    + destruct (Hin _ Hc') as (m' & Hm' & ->). exists m'. split; [done |].
      rewrite put_tally_lookup, decide_False; [done |]. intros [= ->]. done.
  - intros c' p' i' Hor. rewrite Hout, put_tally_lookup, decide_False; [done | |].
    + intros [= -> -> ->]. destruct Hor as [Hn | Hn]; [apply Hn; left | by apply Hn].
    + destruct Hor as [Hn |]; [left; set_solver | by right].
Qed.

Lemma currencies_iter_NoDup p s : NoDup (currencies_iter currency_le p s).
Proof. unfold currencies_iter. rewrite merge_sort_Permutation. apply NoDup_elements. Qed.

Lemma elem_of_currencies_iter c p s :
  c ∈ currencies_iter currency_le p s ↔ c ∈ reward_currencies p s.
Proof. unfold currencies_iter. by rewrite merge_sort_Permutation, elem_of_elements. Qed.

(** ** Deposits and withdrawals of stake *)

(** The effect of moving [sgn * amount] of stake. *)
Definition stake_moved sgn p i amount s s' : Prop :=
  Stake s' = <[(p, i) := stake p i s + sgn * amount]> (Stake s) ∧
  TotalStake s' = <[p := total_stake p s + sgn * amount]> (TotalStake s) ∧
  TotalRewards s' = TotalRewards s ∧ RewardPerToken s' = RewardPerToken s ∧
  RewardCurrencies s' = RewardCurrencies s ∧
  (∀ c, c ∈ reward_currencies p s → ∃ product,
     fixed_mul (reward_per_token c p s) amount = Some product ∧
     reward_tally c p i s' = reward_tally c p i s + sgn * product) ∧
  (∀ c p' i', c ∉ reward_currencies p s ∨ (p', i') ≠ (p, i) →
     reward_tally c p' i' s' = reward_tally c p' i' s).

Lemma stake_moved_loop sgn p i amount (f : CurrencyId → M Storage RError unit) s s' :
  (∀ c s s', f c s = Ok (tt, s') → tally_turn sgn p i amount c s s') →
  let s0 := put_total_stake p (total_stake p s + sgn * amount)
              (put_stake p i (stake p i s + sgn * amount) s) in
  for_each f (currencies_iter currency_le p s0) s0 = Ok (tt, s') →
  stake_moved sgn p i amount s s'.
Proof.
  intros Hf s0 Hr. apply (for_each_tally sgn p i amount) in Hr;
    [| done | apply currencies_iter_NoDup].
  destruct Hr as ((Ht & Htr & Hr & Hs & Hc) & Hin & Hout). split_and!; try done.
  - intros c Hcc. apply Hin. by apply elem_of_currencies_iter.
  - intros c p' i' [Hn | Hn]; apply Hout; [left | by right].
    by rewrite elem_of_currencies_iter.
Qed.

Lemma stake_moved_event sgn p i amount s s' e :
  stake_moved sgn p i amount s s' → stake_moved sgn p i amount s (with_event e s').
Proof. by intros (? & ? & ? & ? & ? & ? & ?). Qed.

Lemma deposit_stake_moved p i amount s s' :
  deposit_stake currency_le p i amount s = Ok (tt, s') → stake_moved 1 p i amount s s'.
Proof.
  unfold deposit_stake, checked_add_mut. intros Hr. outcome_inv.
  repeat match goal with Ha : fixed_add _ _ = Some _ |- _ => apply fixed_add_Some in Ha as -> end.
  apply stake_moved_event. eapply stake_moved_loop; [apply add_tally_turn |].
  cbv zeta. rewrite !Z.mul_1_l. match goal with Hl : for_each _ _ _ = Ok (?u, _) |- _ => by destruct u end.
Qed.

Lemma withdraw_stake_moved p i amount s s' :
  withdraw_stake currency_le p i amount s = Ok (tt, s') →
  amount ≤ stake p i s ∧ stake_moved (-1) p i amount s s'.
Proof.
  unfold withdraw_stake, checked_sub_mut. intros Hr. outcome_inv.
  match goal with Hn : negb _ = true |- _ => apply negb_true_iff in Hn; rewrite Z.gtb_ltb in Hn;
    apply Z.ltb_ge in Hn; split; [exact Hn |] end.
  repeat match goal with Ha : fixed_sub _ _ = Some _ |- _ => apply fixed_sub_Some in Ha as -> end.
  apply stake_moved_event. eapply stake_moved_loop; [apply sub_tally_turn |].
  cbv zeta. replace (-1 * amount) with (- amount) by lia. rewrite !Z.add_opp_r.
  match goal with Hl : for_each _ _ _ = Ok (?u, _) |- _ => by destruct u end.
Qed.

Lemma stake_moved_stake sgn p i amount s s' p' i' :
  stake_moved sgn p i amount s s' →
  stake p' i' s' = if decide ((p', i') = (p, i)) then stake p i s + sgn * amount else stake p' i' s.
Proof.
  intros (Hs & _). unfold stake at 1. rewrite Hs.
  case_decide as Heq; [by rewrite Heq, lookup_insert_eq | by rewrite lookup_insert_ne by congruence].
Qed.

Lemma stake_moved_rate sgn p i amount s s' c p' :
  stake_moved sgn p i amount s s' → reward_per_token c p' s' = reward_per_token c p' s.
Proof. intros (_ & _ & _ & Hr & _). unfold reward_per_token. by rewrite Hr. Qed.

Lemma stake_moved_wf sgn p i amount s s' : wf s → stake_moved sgn p i amount s s' → wf s'.
Proof.
  intros [Hrate Htally] Hm. split.
  - intros c p' Hc. rewrite (stake_moved_rate _ _ _ _ _ _ c p' Hm). apply Hrate.
    destruct Hm as (_ & _ & _ & _ & Hcs & _). unfold reward_currencies in *. by rewrite <- Hcs.
  - intros c p' i' Hn. destruct Hm as (Hs & _ & _ & _ & _ & _ & Hout). rewrite Hs in Hn.
    apply lookup_insert_None in Hn as [Hn Hne].
    rewrite Hout by (right; congruence). by apply Htally.
Qed.

(** Moving stake changes what the participant is due by rounding only, and
    nothing for anyone else. *)
Lemma stake_moved_accrued sgn p i amount s s' c p' i' :
  sgn = 1 ∨ sgn = -1 → wf s → stake_moved sgn p i amount s s' →
  if decide ((p', i') = (p, i)) then Z.abs (accrued c p i s' - accrued c p i s) < DIV
  else accrued c p' i' s' = accrued c p' i' s.
Proof.
  intros Hsgn [Hrate _] Hm. unfold accrued.
  rewrite !(stake_moved_rate _ _ _ _ _ _ c _ Hm), !(stake_moved_stake _ _ _ _ _ _ _ _ Hm).
  case_decide as Heq; [rewrite decide_True by done |].
  - destruct Hm as (_ & _ & _ & _ & _ & Hin & Hout).
    destruct (decide (c ∈ reward_currencies p s)) as [Hc | Hc].
    + destruct (Hin c Hc) as (m & Hp%fixed_mul_within & ->). lia.
    + rewrite (Hout c p i) by auto. rewrite (Hrate c p Hc). unfold DIV. lia.
  - destruct Hm as (_ & _ & _ & _ & _ & _ & Hout). by rewrite Hout by auto.
Qed.

(** *** When a withdrawal of stake goes through *)

(** The product of rate and stake, and the tally, are below half the range of a
    fixed-point number. *)
Definition room p i amount c s : Prop :=
  Z.abs (reward_per_token c p s * amount) < 2 ^ 126 * DIV ∧ Z.abs (reward_tally c p i s) < 2 ^ 126.

Lemma checked_sub_mut_runs (value : Storage → Z) put amount s :
  - 2 ^ 127 ≤ value s - amount < 2 ^ 127 →
  checked_sub_mut value put amount s = Ok (tt, put (value s - amount) s).
Proof. intros Hf. unfold checked_sub_mut, fixed_sub. run. by rewrite checked_i128_fits. Qed.

Lemma sub_tally_runs p i amount c s :
  room p i amount c s →
  ∃ product, sub_tally p i amount c s =
    Ok (tt, put_reward_tally c p i (reward_tally c p i s - product) s).
Proof.
  intros [Hr Ht]. destruct (fixed_mul_overflow (reward_per_token c p s) amount) as [m Hm].
  { etrans; [exact Hr |]. apply Z.mul_lt_mono_pos_r; reflexivity. }
  exists m. unfold sub_tally. run. rewrite Hm. cbn [ok_or]. run.
  apply fixed_mul_within in Hm. apply checked_sub_mut_runs. unfold DIV in *. lia.
Qed.

Lemma for_each_sub_tally_runs p i amount l s :
  NoDup l → (∀ c, c ∈ l → room p i amount c s) →
  ∃ s', for_each (sub_tally p i amount) l s = Ok (tt, s').
Proof.
  revert s. induction l as [| c l IH]; intros s Hl Hroom; cbn [for_each]; [by eexists |].
  apply NoDup_cons in Hl as [Hc Hl].
  destruct (sub_tally_runs p i amount c s) as [m Hm]; [apply Hroom; by left |].
  erewrite run_bind by exact Hm. apply IH; [done |]. intros c' Hc'.
  destruct (Hroom c') as [Hr Ht]; [by right |]. split; [exact Hr |].
  rewrite put_tally_lookup, decide_False; [exact Ht |]. intros [= ->]. done.
Qed.

Lemma withdraw_stake_runs p i amount s :
  amount ≤ stake p i s → stake p i s - amount < 2 ^ 127 →
  - 2 ^ 127 ≤ total_stake p s - amount < 2 ^ 127 →
  (∀ c, c ∈ reward_currencies p s → room p i amount c s) →
  ∃ s', withdraw_stake currency_le p i amount s = Ok (tt, s').
Proof.
  intros Hle Hst Htot Hroom. unfold withdraw_stake. run.
  rewrite run_ensure by (rewrite Z.gtb_ltb; by rewrite (proj2 (Z.ltb_ge _ _))).
  erewrite run_bind by (apply checked_sub_mut_runs; lia).
  erewrite run_bind by (apply checked_sub_mut_runs; exact Htot). run.
  match goal with |- context [for_each _ (currencies_iter _ p ?s0)] =>
    destruct (for_each_sub_tally_runs p i amount (currencies_iter currency_le p s0) s0) as [s' Hs'] end.
  - apply currencies_iter_NoDup.
  - intros c Hc%elem_of_currencies_iter. by apply Hroom.
  - erewrite run_bind by exact Hs'. run. by eexists.
Qed.

(** A deposit leaves a total that is in range. *)
Lemma deposit_stake_total p i amount s s' :
  deposit_stake currency_le p i amount s = Ok (tt, s') → total_stake p s' < 2 ^ 127.
Proof.
  intros Hd. pose proof (deposit_stake_moved p i amount s s' Hd) as (_ & Ht & _).
  unfold total_stake at 1. rewrite Ht, lookup_insert_eq. cbn [default from_option]. unfold id.
  unfold deposit_stake, checked_add_mut in Hd. outcome_inv.
  repeat match goal with Ha : fixed_add _ _ = Some _ |- _ => apply checked_i128_Some in Ha as [-> ?] end.
  unfold total_stake in *. cbn [TotalStake put_stake with_Stake] in *. lia.
Qed.

(** ** Distribution *)

Lemma distribute_reward_spec p c reward s s' :
  distribute_reward bound p c reward s = Ok (tt, s') → reward ≠ 0 →
  ∃ rate, Z.abs (rate * total_stake p s - reward * DIV) < Z.abs (total_stake p s) ∧
    RewardPerToken s' = <[(c, p) := reward_per_token c p s + rate]> (RewardPerToken s) ∧
    RewardCurrencies s' = <[p := {[c]} ∪ reward_currencies p s]> (RewardCurrencies s) ∧
    TotalRewards s' = <[c := total_rewards c s + reward]> (TotalRewards s) ∧
    Stake s' = Stake s ∧ TotalStake s' = TotalStake s ∧ RewardTally s' = RewardTally s.
Proof.
  unfold distribute_reward. intros Hr Hne. rewrite (proj2 (Z.eqb_neq reward 0) Hne) in Hr.
  unfold checked_add_mut in Hr. outcome_inv.
  repeat match goal with Ha : fixed_add _ _ = Some _ |- _ => apply fixed_add_Some in Ha as -> end.
  match goal with Hd : fixed_div _ _ = Some ?r |- _ =>
    apply fixed_div_within in Hd as [_ Hd]; exists r end.
  match goal with Ht : try_insert _ _ _ = Some _ |- _ =>
    unfold try_insert in Ht; case_match; [injection Ht as <- | done] end.
  split_and!; done || exact Hd.
Qed.

Lemma distribute_accrued p c reward s s' c' p' i :
  distribute_reward bound p c reward s = Ok (tt, s') → reward ≠ 0 →
  accrued c' p' i s' = accrued c' p' i s +
    if decide ((c', p') = (c, p)) then stake p i s * (reward_per_token c p s' - reward_per_token c p s)
    else 0.
Proof.
  intros Hd Hne. apply distribute_reward_spec in Hd as (rate & _ & Hr & _ & _ & Hs & _ & Ht); [| done].
  unfold accrued, stake, reward_tally, reward_per_token. rewrite Hs, Ht, Hr.
  case_decide as Heq; [injection Heq as -> ->; rewrite !lookup_insert_eq; cbn; unfold reward_per_token; lia |].
  rewrite (lookup_insert_ne _ (c, p) (c', p')) by congruence. lia.
Qed.

(** ** Withdrawal of rewards *)

Lemma withdraw_reward_spec p i c s s' reward :
  withdraw_reward p i c s = Ok (reward, s') →
  ∃ product, fixed_mul (stake p i s) (reward_per_token c p s) = Some product ∧
    reward = Z.quot (product - reward_tally c p i s) DIV ∧
    RewardTally s' = <[(c, (p, i)) := product]> (RewardTally s) ∧
    TotalRewards s' = <[c := total_rewards c s - reward * DIV]> (TotalRewards s) ∧
    Stake s' = Stake s ∧ TotalStake s' = TotalStake s ∧ RewardPerToken s' = RewardPerToken s ∧
    RewardCurrencies s' = RewardCurrencies s.
Proof.
  unfold withdraw_reward, compute_reward, checked_sub_mut, checked_from_integer, truncate_to_inner.
  intros Hr. outcome_inv.
  repeat match goal with Ha : fixed_sub _ _ = Some _ |- _ => apply fixed_sub_Some in Ha as -> end.
  repeat match goal with Ha : checked_i128 _ = Some _ |- _ => apply checked_i128_Some in Ha as [-> _] end.
  repeat match goal with Ha : Some _ = Some _ |- _ => injection Ha as <- end.
  match goal with Hm : fixed_mul (stake p i s) _ = Some ?m, Hm' : fixed_mul _ _ = Some ?m' |- _ =>
    lazymatch m with m' => fail | _ =>
      change (fixed_mul (stake p i s) (reward_per_token c p s) = Some m') in Hm';
      assert (m' = m) as -> by congruence; exists m end end.
  done.
Qed.

(** ** Runs *)

Definition total_staked p s : Z := msum (λ k v, if decide (k.1 = p) then v else 0) (Stake s).
Definition total_accrued c p s : Z :=
  msum (λ k _, if decide (k.1 = p) then accrued c p k.2 s else 0) (Stake s).

Inductive action : Type :=
  | Deposit p i (amount : Z)
  | Withdraw p i (amount : Z)
  | Distribute p c (reward : Z)
  | Collect p i c.

Definition perform (a : action) : M Storage RError Z :=
  match a with
  | Deposit p i amount => deposit_stake currency_le p i amount;; mret 0
  | Withdraw p i amount => withdraw_stake currency_le p i amount;; mret 0
  | Distribute p c reward => distribute_reward bound p c reward;; mret 0
  | Collect p i c => withdraw_reward p i c
  end.

(** What was distributed to and collected from a pool in a currency, and how
    much rounding may have changed the sum of what is due: [10^-18] per
    movement of stake or unit of stake at a distribution, one unit of currency
    per withdrawal of a reward, which is paid in whole units. *)
Record ledger : Type := mkLedger { distributed : Z; collected : Z; slack : Z }.

Definition account c p (a : action) s (result : Z) (L : ledger) : ledger :=
  match a with
  | Deposit p' _ _ | Withdraw p' _ _ =>
      mkLedger (distributed L) (collected L) (slack L + if decide (p' = p) then DIV else 0)
  | Distribute p' c' reward =>
      if decide ((c', p') = (c, p))
      then mkLedger (distributed L + reward) (collected L) (slack L + Z.abs (total_stake p s))
      else L
  | Collect p' i c' =>
      if decide ((c', p') = (c, p))
      then mkLedger (distributed L) (collected L + result) (slack L + DIV * DIV)
      else L
  end.

Inductive reach c p : Storage → ledger → Prop :=
  | reach_start : reach c p empty_storage (mkLedger 0 0 0)
  | reach_step a s L s' result :
      reach c p s L → perform a s = Ok (result, s') → reach c p s' (account c p a s result L).

(** The effect on the sums of a change at one participant. *)
Lemma total_accrued_change c p s s' p' i' v :
  Stake s' = <[(p', i') := v]> (Stake s) → wf s →
  (∀ i, (p, i) ≠ (p', i') → accrued c p i s' = accrued c p i s) →
  total_accrued c p s' = total_accrued c p s +
    if decide (p' = p) then accrued c p i' s' - accrued c p i' s else 0.
Proof.
  intros Hs [_ Htally] Hout. unfold total_accrued. rewrite Hs.
  rewrite (msum_change (λ k, k.1 = p) (λ k, accrued c p k.2 s) (λ k, accrued c p k.2 s')
    (Stake s) (p', i') v); [done | |].
  - intros [pk ik] Hp Hne. cbn in *. subst pk. by apply Hout.
  - cbn. intros Hn ->. unfold accrued, stake. by rewrite Hn, Htally.
Qed.


Lemma total_staked_insert p s s' p' i' v :
  Stake s' = <[(p', i') := v]> (Stake s) →
  total_staked p s' = total_staked p s + if decide (p' = p) then v - stake p' i' s else 0.
Proof.
  intros Hs. unfold total_staked, stake. rewrite Hs, msum_insert. unfold entry. cbn [fst].
  destruct (Stake s !! (p', i')); cbn; case_decide; lia.
Qed.

Definition inv s : Prop := wf s ∧ ∀ p, total_stake p s = total_staked p s.

Definition conserved c p s (L : ledger) : Prop :=
  Z.abs (total_accrued c p s + collected L * DIV * DIV - distributed L * DIV) ≤ slack L.

Lemma move_step sgn p' i' amount s s' c p L :
  sgn = 1 ∨ sgn = -1 → stake_moved sgn p' i' amount s s' → inv s → conserved c p s L →
  inv s' ∧ conserved c p s' (mkLedger (distributed L) (collected L)
                               (slack L + if decide (p' = p) then DIV else 0)).
Proof.
  intros Hsgn Hm [Hwf Hsum] Hc. split; [split; [by eapply stake_moved_wf |] |].
  - intros q. destruct Hm as (Hs & Ht & _).
    rewrite (total_staked_insert _ _ _ _ _ _ Hs), <- Hsum. unfold total_stake. rewrite Ht.
    case_decide as Hq; [subst q; rewrite lookup_insert_eq; unfold total_stake; cbn; lia |].
    rewrite lookup_insert_ne by done. lia.
  - unfold conserved in *. cbn. pose proof (stake_moved_accrued _ _ _ _ _ _ c p i' Hsgn Hwf Hm) as Ha.
    assert (∀ i, (p, i) ≠ (p', i') → accrued c p i s' = accrued c p i s) as Hout.
    { intros i Hne. pose proof (stake_moved_accrued _ _ _ _ _ _ c p i Hsgn Hwf Hm) as Hi.
      by rewrite decide_False in Hi. }
    destruct Hm as (Hs & _).
    rewrite (total_accrued_change c p s s' p' i' _ Hs Hwf Hout).
    destruct (decide (p' = p)) as [-> | Hne]; [rewrite decide_True in Ha by done |]; lia.
Qed.

Lemma distribute_step p' c' reward s s' c p L :
  distribute_reward bound p' c' reward s = Ok (tt, s') → inv s → conserved c p s L →
  inv s' ∧ conserved c p s' (account c p (Distribute p' c' reward) s 0 L).
Proof.
  intros Hd [[Hrate Htally] Hsum] Hc. destruct (decide (reward = 0)) as [-> | Hne].
  { injection Hd as <-. split; [done |]. unfold conserved in *. cbn. case_decide; cbn; lia. }
  pose proof (λ i, distribute_accrued _ _ _ _ _ c p i Hd Hne) as Hacc.
  apply distribute_reward_spec in Hd as (rate & Hr & Hrt & Hcs & _ & Hs & Ht & Hta); [| done].
  split; [split; [split |] |].
  - intros c2 p2 Hn. unfold reward_per_token, reward_currencies in *. rewrite Hcs in Hn. rewrite Hrt.
    destruct (decide (p' = p2)) as [<- | Hp].
    + rewrite lookup_insert_eq in Hn. cbn in Hn. rewrite lookup_insert_ne by set_solver.
      apply Hrate. set_solver.
    + rewrite lookup_insert_ne in Hn by done. rewrite lookup_insert_ne by congruence. by apply Hrate.
  - intros c2 p2 i2. unfold reward_tally. rewrite Hs, Hta. apply Htally.
  - intros q. unfold total_stake, total_staked in *. rewrite Ht, Hs. apply Hsum.
  - assert (total_accrued c p s' = total_accrued c p s +
      (if decide ((c, p) = (c', p')) then total_staked p s * rate else 0)) as Htot.
    { unfold total_accrued, total_staked. rewrite Hs.
      rewrite (msum_ext _ (λ k v, (if decide (k.1 = p) then accrued c p k.2 s else 0) +
        (if decide (k.1 = p) then v else 0) * (if decide ((c, p) = (c', p')) then rate else 0))).
      { rewrite msum_add, msum_scale. case_decide; lia. }
      intros [pk ik] v Hv. cbn [fst snd]. destruct (decide (pk = p)) as [-> | _]; [| case_decide; lia]. rewrite Hacc.
      case_decide as Heq; [injection Heq as <- <- | lia].
      unfold reward_per_token at 1. rewrite Hrt, lookup_insert_eq. unfold stake. rewrite Hv. cbn. lia. }
    unfold conserved in *. rewrite Htot. rewrite <- Hsum. cbn.
    destruct (decide ((c', p') = (c, p))) as [Heq | Hne2]; cbn.
    + injection Heq as -> ->. rewrite decide_True by done. lia.
    + rewrite decide_False by congruence. lia.
Qed.

Lemma collect_step p' i' c' s s' c p L reward :
  withdraw_reward p' i' c' s = Ok (reward, s') → inv s → conserved c p s L →
  inv s' ∧ conserved c p s' (account c p (Collect p' i' c') s reward L).
Proof.
  intros (product & Hp & -> & Hta & _ & Hs & Ht & Hrt & Hcs)%withdraw_reward_spec [[Hrate Htally] Hsum] Hc.
  assert (Hzero : Stake s !! (p', i') = None → product = 0).
  { intros Hn. apply fixed_mul_within in Hp. unfold stake in Hp. rewrite Hn in Hp. cbn in Hp.
    unfold DIV in Hp. lia. }
  split; [split; [split |] |].
  - intros c2 p2. unfold reward_per_token, reward_currencies. rewrite Hrt, Hcs. apply Hrate.
  - intros c2 p2 i2. unfold reward_tally. rewrite Hs, Hta. intros Hn.
    destruct (decide ((c2, (p2, i2)) = (c', (p', i')))) as [Heq | Hne].
    + injection Heq as -> -> ->. rewrite lookup_insert_eq. cbn. by apply Hzero.
    + rewrite lookup_insert_ne by congruence. by apply Htally.
  - intros q. unfold total_stake, total_staked. rewrite Ht, Hs. apply Hsum.
  - assert (∀ i, accrued c p i s' = accrued c p i s +
      if decide ((c, p, i) = (c', p', i')) then (reward_tally c p i s - product) * DIV else 0) as Hacc.
    { intros i. unfold accrued, stake, reward_per_token, reward_tally. rewrite Hs, Hrt, Hta.
      case_decide as Heq; [injection Heq as -> -> ->; rewrite lookup_insert_eq; cbn; lia |].
      rewrite lookup_insert_ne by congruence. lia. }
    assert (total_accrued c p s' = total_accrued c p s +
      if decide ((c, p) = (c', p')) then (reward_tally c' p' i' s - product) * DIV else 0) as Htot.
    { destruct (Stake s !! (p', i')) as [v |] eqn:Hv.
      - rewrite (total_accrued_change c p s s' p' i' v); [| by rewrite Hs, insert_id | done |].
        + rewrite Hacc. case_decide as Hd; [subst p' |].
          * destruct (decide (c = c')) as [<- | Hcc].
            -- rewrite !decide_True by done. lia.
            -- rewrite !decide_False by congruence. lia.
          * rewrite !decide_False by congruence. lia.
        + intros i Hne. rewrite Hacc, decide_False by congruence. lia.
      - assert (reward_tally c' p' i' s = 0) as -> by by apply Htally.
        rewrite (Hzero eq_refl). unfold total_accrued. rewrite Hs.
        rewrite (msum_ext _ (λ k _, if decide (k.1 = p) then accrued c p k.2 s else 0)).
        { case_decide; lia. }
        intros [pk ik] x Hx. cbn [fst snd]. destruct (decide (pk = p)) as [-> | _]; [| done].
        rewrite Hacc, decide_False; [lia |]. intros [= -> -> ->]. congruence. }
    unfold conserved in *. rewrite Htot. cbn.
    destruct (decide ((c', p') = (c, p))) as [Heq | Hne]; cbn.
    + injection Heq as -> ->. rewrite decide_True by done.
      pose proof (Z.quot_rem (product - reward_tally c p i' s) DIV ltac:(done)) as Hq.
      pose proof (Z.rem_bound_abs (product - reward_tally c p i' s) DIV ltac:(done)) as Hb.
      set (q := Z.quot _ _) in *. set (m := Z.rem _ _) in *.
      assert (Z.abs (m * DIV) ≤ DIV * DIV) by (rewrite Z.abs_mul; unfold DIV in *; nia).
      replace (reward_tally c p i' s - product) with (- (DIV * q + m)) by lia. nia.
    + rewrite decide_False by congruence. lia.
Qed.

Lemma reach_inv c p s L : reach c p s L → inv s ∧ conserved c p s L.
Proof.
  induction 1 as [| a s L s' result _ [Hi Hc] Hp].
  { split; [| done]. split; [split; done | done]. }
  destruct a as [p' i' amount | p' i' amount | p' c' reward | p' i' c']; cbn [perform] in Hp.
  - outcome_inv. eapply (move_step 1); [by left | | done | done].
    match goal with Hd : deposit_stake _ _ _ _ _ = Ok (?u, _) |- _ => destruct u end.
    by eapply deposit_stake_moved.
  - outcome_inv. eapply (move_step (-1)); [by right | | done | done].
    match goal with Hd : withdraw_stake _ _ _ _ _ = Ok (?u, _) |- _ => destruct u end.
    by eapply withdraw_stake_moved.
  - outcome_inv.
    match goal with Hd : distribute_reward _ _ _ _ _ = Ok (?u, _) |- _ => destruct u end.
    by apply distribute_step.
  - by eapply collect_step.
Qed.

(** ** Theorems *)

(** C34: over any sequence of deposits, withdrawals, distributions and collections of rewards,
    the total stake of a pool is the sum of the stakes in it, and what its participants are due
    in a currency together with what they collected is what was distributed, up to the rounding
    accounted for in the ledger: nothing is created or lost. *)
Theorem rewards_conserved c p s L :
  reach c p s L →
  total_stake p s = total_staked p s ∧
  Z.abs (total_accrued c p s + collected L * DIV * DIV - distributed L * DIV) ≤ slack L.
Proof. intros [[_ Ht] Hc]%reach_inv. split; [apply Ht | exact Hc]. Qed.

(** Withdrawing a reward pays exactly what [compute_reward] announced, takes it from the
    total of the currency, leaves nothing more to withdraw, and changes neither stakes nor what
    is due to anybody else or in another currency. *)
Theorem withdraw_reward_pays_once p i c s s' reward :
  withdraw_reward p i c s = Ok (reward, s') →
  compute_reward p i c s = Ok reward ∧
  compute_reward p i c s' = Ok 0 ∧
  total_rewards c s' = total_rewards c s - reward * DIV ∧
  (∀ p' i' c', (c', p', i') ≠ (c, p, i) → compute_reward p' i' c' s' = compute_reward p' i' c' s) ∧
  ∀ p' i', stake p' i' s' = stake p' i' s ∧ total_stake p' s' = total_stake p' s.
Proof.
  intros Hw. pose proof Hw as (m & Hm & -> & Hta & Htr & Hs & Ht & Hr & _)%withdraw_reward_spec.
  unfold compute_reward, stake, total_stake, total_rewards, reward_per_token, reward_tally in *.
  rewrite Hs, Hr, Ht, Htr, Hta. split_and!.
  - unfold withdraw_reward in Hw. outcome_inv. done.
  - rewrite Hm, lookup_insert_eq. cbn. unfold fixed_sub, id. by rewrite Z.sub_diag.
  - by rewrite lookup_insert_eq.
  - intros p' i' c' Hne. by rewrite lookup_insert_ne by congruence.
  - done.
Qed.

(** Depositing or withdrawing stake moves exactly the amount, in the participant's stake
    and in the total of the pool (a withdrawal only when the stake suffices), and leaves what
    is due unchanged: exactly for everybody else, and for the participant up to the rounding
    of one product. *)
Theorem stake_movement_keeps_dues sgn p i amount s s' :
  wf s →
  (sgn = 1 ∧ deposit_stake currency_le p i amount s = Ok (tt, s') ∨
   sgn = -1 ∧ withdraw_stake currency_le p i amount s = Ok (tt, s')) →
  stake p i s' = stake p i s + sgn * amount ∧
  total_stake p s' = total_stake p s + sgn * amount ∧
  (sgn = -1 → amount ≤ stake p i s) ∧
  ∀ c p' i', if decide ((p', i') = (p, i)) then Z.abs (accrued c p i s' - accrued c p i s) < DIV
             else accrued c p' i' s' = accrued c p' i' s ∧ stake p' i' s' = stake p' i' s.
Proof.
  intros Hwf Hor.
  assert (stake_moved sgn p i amount s s' ∧ (sgn = -1 → amount ≤ stake p i s)) as [Hm Hle].
  { destruct Hor as [[-> Hd%deposit_stake_moved] | [-> [? Hd]%withdraw_stake_moved]]; done. }
  assert (sgn = 1 ∨ sgn = -1) as Hsgn by tauto.
  split_and!; [| | exact Hle |].
  - by rewrite (stake_moved_stake _ _ _ _ _ _ _ _ Hm), decide_True.
  - destruct Hm as (_ & Ht & _). unfold total_stake at 1. by rewrite Ht, lookup_insert_eq.
  - intros c p' i'. pose proof (stake_moved_accrued _ _ _ _ _ _ c p' i' Hsgn Hwf Hm) as Ha.
    case_decide as Hd; [done | split; [done |]].
    by rewrite (stake_moved_stake _ _ _ _ _ _ _ _ Hm), decide_False.
Qed.

(** A distribution to a pool without stake is refused; a successful one gives every
    participant of the pool its share of the reward in proportion to its stake (off by less
    than [10^-18] per unit of stake), and nothing to anybody else. *)
Theorem distribute_reward_pro_rata p c reward s :
  reward ≠ 0 →
  (total_stake p s = 0 →
     distribute_reward bound p c reward s = Err (ModuleError ZeroTotalStake)) ∧
  ∀ s', distribute_reward bound p c reward s = Ok (tt, s') →
    total_stake p s ≠ 0 ∧
    (∀ i, Z.abs ((accrued c p i s' - accrued c p i s) * total_stake p s - stake p i s * reward * DIV)
            ≤ Z.abs (stake p i s) * Z.abs (total_stake p s)) ∧
    (∀ c' p' i, (c', p') ≠ (c, p) → accrued c' p' i s' = accrued c' p' i s) ∧
    total_rewards c s' = total_rewards c s + reward.
Proof.
  intros Hne. split.
  - intros Ht. unfold distribute_reward. by rewrite (proj2 (Z.eqb_neq reward 0) Hne), run_gets, Ht.
  - intros s' Hd. pose proof (λ c' p' i, distribute_accrued _ _ _ _ _ c' p' i Hd Hne) as Hacc.
    apply distribute_reward_spec in Hd as (rate & Hrate & Hrt & _ & Htr & _); [| done].
    split_and!.
    + lia.
    + intros i. rewrite Hacc, decide_True by done. unfold reward_per_token at 1.
      rewrite Hrt, lookup_insert_eq. cbn. unfold id. rewrite <- Z.abs_mul.
      replace (_ - _) with (stake p i s * (rate * total_stake p s - reward * DIV)) by lia.
      rewrite !Z.abs_mul. apply Z.mul_le_mono_nonneg_l; lia.
    + intros c' p' i Hd. rewrite Hacc, decide_False by done. lia.
    + unfold total_rewards at 1. by rewrite Htr, lookup_insert_eq.
Qed.
End props.
