(* ===== verification/RewardExamples.v ===== *)
(** * Reward distribution at concrete inputs

    Runs of the pallet with numbers for pools, participants and currencies and
    products rounded down: the theorems of [RewardProps] applied to them. *)

From Stdlib Require Import ZArith Lia.
From stdpp Require Import base tactics option list numbers gmap sorting.
From S2P Require Import Prelude Security FixedPoint Reward RewardProps.

Local Open Scope Z_scope.
Import Reward.

#[local] Existing Instance floor_fixed.

Abbreviation Store := (@Storage Z Z Z _ _ _ _ _ _).

(** A run of actions with the ledger of pool 0 in currency 0. *)
Fixpoint run_actions (l : list (@action Z Z Z)) (s : Store) (L : ledger)
  : outcome (DispatchError Error) (Store * ledger) :=
  match l with
  | [] => Ok (s, L)
  | a :: l =>
      '(r, s') ← perform Z.le 2 a s;
      run_actions l s' (account 0 0 a s r L)
  end.

Lemma run_actions_reach l s L s' L' :
  reach Z.le 2 0 0 s L → run_actions l s L = Ok (s', L') → reach Z.le 2 0 0 s' L'.
Proof.
  revert s L. induction l as [| a l IH]; intros s L Hr; cbn; [by intros [= <- <-] |].
  destruct (perform Z.le 2 a s) as [[r s1] | | |] eqn:Hp; try done.
  apply IH. by eapply reach_step.
Qed.

(** Two participants with stakes 2 and 1 share rewards in two currencies. *)
Definition history : list action :=
  [Deposit 0 1 (2 * DIV); Deposit 0 2 DIV; Distribute 0 0 (100 * DIV); Distribute 0 1 (7 * DIV);
   Withdraw 0 1 DIV; Collect 0 1 0].

Definition final : Store * ledger :=
  Eval vm_compute in
    match run_actions history empty_storage (mkLedger 0 0 0) with
    | Ok r => r
    | _ => (empty_storage, mkLedger 0 0 0)
    end.

Lemma final_run : run_actions history empty_storage (mkLedger 0 0 0) = Ok (final.1, final.2).
Proof. vm_refl. Qed.

Lemma final_reach : reach Z.le 2 0 0 final.1 final.2.
Proof. eapply run_actions_reach; [constructor | apply final_run]. Qed.

Lemma final_wf : wf final.1.
Proof. by destruct (reach_inv _ _ _ _ _ _ final_reach) as [[? _] _]. Qed.

Lemma rewards_conserved_witness :
  collected final.2 = 66 ∧ distributed final.2 = 100 * DIV ∧
  total_stake 0 final.1 = total_staked 0 final.1 ∧
  Z.abs (total_accrued 0 0 final.1 + collected final.2 * DIV * DIV - distributed final.2 * DIV)
    ≤ slack final.2.
Proof.
  split; [vm_refl |]. split; [vm_refl |].
  exact (rewards_conserved Z.le 2 0 0 _ _ final_reach).
Defined.

(** The second participant collects 33 of the 100. *)
Definition collected_state : Store :=
  Eval vm_compute in
    match withdraw_reward 0 2 0 final.1 with Ok (_, s) => s | _ => empty_storage end.

Lemma withdraw_reward_pays_once_witness :
  compute_reward 0 2 0 final.1 = Ok 33 ∧ compute_reward 0 2 0 collected_state = Ok 0.
Proof.
  assert (withdraw_reward 0 2 0 final.1 = Ok (33, collected_state)) as Hw by vm_refl.
  destruct (withdraw_reward_pays_once _ _ _ _ _ _ Hw) as (H1 & H2 & _). split; [exact H1 | exact H2].
Defined.

Definition deposited_state : Store :=
  Eval vm_compute in
    match deposit_stake Z.le 0 2 (5 * DIV) final.1 with Ok (_, s) => s | _ => empty_storage end.

Lemma stake_movement_keeps_dues_witness :
  stake 0 2 deposited_state = 6 * DIV ∧ accrued 0 0 1 deposited_state = accrued 0 0 1 final.1.
Proof.
  assert (deposit_stake Z.le 0 2 (5 * DIV) final.1 = Ok (tt, deposited_state)) as Hd by vm_refl.
  destruct (stake_movement_keeps_dues Z.le 1 0 2 (5 * DIV) _ _ final_wf (or_introl (conj eq_refl Hd)))
    as (Hs & _ & _ & Ha).
  split; [exact Hs | exact (proj1 (Ha 0 0 1))].
Defined.

Definition distributed_state : Store :=
  Eval vm_compute in
    match distribute_reward 2 0 0 (10 * DIV) final.1 with Ok (_, s) => s | _ => empty_storage end.

Lemma distribute_reward_pro_rata_witness :
  distribute_reward 2 1 0 (10 * DIV) final.1 = Err (ModuleError ZeroTotalStake) ∧
  Z.abs ((accrued 0 0 2 distributed_state - accrued 0 0 2 final.1) * (2 * DIV)
          - DIV * (10 * DIV) * DIV) ≤ DIV * (2 * DIV).
Proof.
  assert (10 * DIV ≠ 0) as Hne by (unfold DIV; lia).
  assert (distribute_reward 2 0 0 (10 * DIV) final.1 = Ok (tt, distributed_state)) as Hd by vm_refl.
  split.
  - apply (distribute_reward_pro_rata 2 1 0 (10 * DIV) final.1 Hne). vm_refl.
  - destruct (proj2 (distribute_reward_pro_rata 2 0 0 (10 * DIV) final.1 Hne) _ Hd) as (_ & Hi & _).
    exact (Hi 2).
Defined.
