(* ===== verification/Staking.v ===== *)
(** * Staking pools of vaults ([src/crates/staking/src/lib.rs])

    Every vault has a pool of slashable stake, its own and its nominators'.
    Slashing raises the pool's slash per unit of stake; a participant's stake is
    reduced by what it missed when it is next touched ([apply_slash]).  Rewards
    are distributed as in the reward pallet, in the wrapped and in the native
    currency.  A force refund starts a new pool, under the next nonce, with the
    vault's own stake; the old pools remain readable under their nonces. *)

From coqutil Require Import Byte.
From Stdlib Require Import ZArith Lia.
From stdpp Require Import base tactics option list numbers gmap.
From S2P Require Import Prelude Bytes Security Primitives FixedPoint.

Local Open Scope Z_scope.

Module Staking.
Inductive Error : Type := TryIntoIntError | InsufficientFunds | SlashZeroTotalStake.
Abbreviation SError := (DispatchError Error).

Inductive Event : Type :=
  | DepositStake (vault_id : VaultId) (nominator_id : AccountId) (amount : Z)
  | DistributeReward (currency_id : CurrencyId.t) (vault_id : VaultId) (amount : Z)
  | WithdrawStake (vault_id : VaultId) (nominator_id : AccountId) (amount : Z)
  | WithdrawReward (nonce : Z) (currency_id : CurrencyId.t) (vault_id : VaultId)
      (nominator_id : AccountId) (amount : Z)
  | ForceRefund (vault_id : VaultId)
  | IncreaseNonce (vault_id : VaultId) (new_nonce : Z).

(** A pool is a nonce and a vault; a participant of a pool has a nominator as well. *)
Abbreviation Pool := (Z * VaultId)%type.
Abbreviation Participant := (Z * (VaultId * AccountId))%type.

Record Storage : Type := mkStorage {
  TotalStake : gmap Pool Z;
  TotalCurrentStake : gmap Pool Z;
  TotalRewards : gmap (CurrencyId.t * Pool) Z;
  RewardPerToken : gmap (CurrencyId.t * Pool) Z;
  SlashPerToken : gmap Pool Z;
  Stake : gmap Participant Z;
  RewardTally : gmap (CurrencyId.t * Participant) Z;
  SlashTally : gmap Participant Z;
  Nonce : gmap VaultId Z;
  events : list Event;
}.
Definition empty_storage : Storage := mkStorage ∅ ∅ ∅ ∅ ∅ ∅ ∅ ∅ ∅ [].

Definition with_TotalStake f (s : Storage) : Storage :=
  mkStorage (f (TotalStake s)) (TotalCurrentStake s) (TotalRewards s) (RewardPerToken s)
    (SlashPerToken s) (Stake s) (RewardTally s) (SlashTally s) (Nonce s) (events s).
Definition with_TotalCurrentStake f (s : Storage) : Storage :=
  mkStorage (TotalStake s) (f (TotalCurrentStake s)) (TotalRewards s) (RewardPerToken s)
    (SlashPerToken s) (Stake s) (RewardTally s) (SlashTally s) (Nonce s) (events s).
Definition with_TotalRewards f (s : Storage) : Storage :=
  mkStorage (TotalStake s) (TotalCurrentStake s) (f (TotalRewards s)) (RewardPerToken s)
    (SlashPerToken s) (Stake s) (RewardTally s) (SlashTally s) (Nonce s) (events s).
Definition with_RewardPerToken f (s : Storage) : Storage :=
  mkStorage (TotalStake s) (TotalCurrentStake s) (TotalRewards s) (f (RewardPerToken s))
    (SlashPerToken s) (Stake s) (RewardTally s) (SlashTally s) (Nonce s) (events s).
Definition with_SlashPerToken f (s : Storage) : Storage :=
  mkStorage (TotalStake s) (TotalCurrentStake s) (TotalRewards s) (RewardPerToken s)
    (f (SlashPerToken s)) (Stake s) (RewardTally s) (SlashTally s) (Nonce s) (events s).
Definition with_Stake f (s : Storage) : Storage :=
  mkStorage (TotalStake s) (TotalCurrentStake s) (TotalRewards s) (RewardPerToken s)
    (SlashPerToken s) (f (Stake s)) (RewardTally s) (SlashTally s) (Nonce s) (events s).
Definition with_RewardTally f (s : Storage) : Storage :=
  mkStorage (TotalStake s) (TotalCurrentStake s) (TotalRewards s) (RewardPerToken s)
    (SlashPerToken s) (Stake s) (f (RewardTally s)) (SlashTally s) (Nonce s) (events s).
Definition with_SlashTally f (s : Storage) : Storage :=
  mkStorage (TotalStake s) (TotalCurrentStake s) (TotalRewards s) (RewardPerToken s)
    (SlashPerToken s) (Stake s) (RewardTally s) (f (SlashTally s)) (Nonce s) (events s).
Definition with_Nonce f (s : Storage) : Storage :=
  mkStorage (TotalStake s) (TotalCurrentStake s) (TotalRewards s) (RewardPerToken s)
    (SlashPerToken s) (Stake s) (RewardTally s) (SlashTally s) (f (Nonce s)) (events s).
Definition with_event e (s : Storage) : Storage :=
  mkStorage (TotalStake s) (TotalCurrentStake s) (TotalRewards s) (RewardPerToken s)
    (SlashPerToken s) (Stake s) (RewardTally s) (SlashTally s) (Nonce s) (events s ++ [e]).

Abbreviation R := (M Storage SError).

(** ** Getters: every map is a [ValueQuery] with default zero *)
Definition nonce (vault_id : VaultId) (s : Storage) : Z := default 0 (Nonce s !! vault_id).
Definition total_stake_at_index (n : Z) (vault_id : VaultId) (s : Storage) : Z :=
  default 0 (TotalStake s !! (n, vault_id)).
Definition total_current_stake_at_index (n : Z) (vault_id : VaultId) (s : Storage) : Z :=
  default 0 (TotalCurrentStake s !! (n, vault_id)).
Definition total_rewards (currency_id : CurrencyId.t) (n : Z) (vault_id : VaultId) (s : Storage) : Z :=
  default 0 (TotalRewards s !! (currency_id, (n, vault_id))).
Definition reward_per_token (currency_id : CurrencyId.t) (n : Z) (vault_id : VaultId) (s : Storage)
  : Z := default 0 (RewardPerToken s !! (currency_id, (n, vault_id))).
Definition slash_per_token_at_index (n : Z) (vault_id : VaultId) (s : Storage) : Z :=
  default 0 (SlashPerToken s !! (n, vault_id)).
Definition stake_at_index (n : Z) (vault_id : VaultId) (nominator_id : AccountId) (s : Storage) : Z :=
  default 0 (Stake s !! (n, (vault_id, nominator_id))).
Definition reward_tally (n : Z) (currency_id : CurrencyId.t) (vault_id : VaultId)
    (nominator_id : AccountId) (s : Storage) : Z :=
  default 0 (RewardTally s !! (currency_id, (n, (vault_id, nominator_id)))).
Definition slash_tally_at_index (n : Z) (vault_id : VaultId) (nominator_id : AccountId) (s : Storage)
  : Z := default 0 (SlashTally s !! (n, (vault_id, nominator_id))).

Definition stake (vault_id : VaultId) (nominator_id : AccountId) (s : Storage) : Z :=
  stake_at_index (nonce vault_id s) vault_id nominator_id s.
Definition slash_tally (vault_id : VaultId) (nominator_id : AccountId) (s : Storage) : Z :=
  slash_tally_at_index (nonce vault_id s) vault_id nominator_id s.
Definition slash_per_token (vault_id : VaultId) (s : Storage) : Z :=
  slash_per_token_at_index (nonce vault_id s) vault_id s.
Definition total_current_stake (vault_id : VaultId) (s : Storage) : outcome SError Z :=
  ok_or (truncate_to_inner (total_current_stake_at_index (nonce vault_id s) vault_id s))
    (ModuleError TryIntoIntError).

(** [checked_add_mut!] and [checked_sub_mut!]: the new value is returned. *)
Definition checked_add_mut (value : Storage → Z) (put : Z → Storage → Storage) (amount : Z) : R Z :=
  old ← gets value;
  new ← lift (ok_or (fixed_add old amount) (Arithmetic Overflow));
  modify (put new);;
  mret new.
Definition checked_sub_mut (value : Storage → Z) (put : Z → Storage → Storage) (amount : Z) : R Z :=
  old ← gets value;
  new ← lift (ok_or (fixed_sub old amount) (Arithmetic Underflow));
  modify (put new);;
  mret new.

Definition put_stake n vault_id nominator_id v := with_Stake <[(n, (vault_id, nominator_id)) := v]>.
Definition put_total_stake n vault_id v := with_TotalStake <[(n, vault_id) := v]>.
Definition put_total_current_stake n vault_id v := with_TotalCurrentStake <[(n, vault_id) := v]>.
Definition put_total_rewards currency_id n vault_id v :=
  with_TotalRewards <[(currency_id, (n, vault_id)) := v]>.
Definition put_reward_per_token currency_id n vault_id v :=
  with_RewardPerToken <[(currency_id, (n, vault_id)) := v]>.
Definition put_slash_per_token n vault_id v := with_SlashPerToken <[(n, vault_id) := v]>.
Definition put_slash_tally n vault_id nominator_id v :=
  with_SlashTally <[(n, (vault_id, nominator_id)) := v]>.
Definition put_reward_tally n currency_id vault_id nominator_id v :=
  with_RewardTally <[(currency_id, (n, (vault_id, nominator_id))) := v]>.

Section staking.
Context `{SignedFixedPoint} (GetNativeCurrencyId : CurrencyId.t).

(** The currencies of the loops over rewards. *)
Definition reward_currencies (vault_id : VaultId) : list CurrencyId.t :=
  [wrapped_currency vault_id; GetNativeCurrencyId].

Definition mul_or_overflow (a b : Z) : outcome SError Z := ok_or (fixed_mul a b) (Arithmetic Overflow).

(** ** Stake after slashing *)

Definition compute_amount_to_slash (stake slash_per_token slash_tally : Z) : outcome SError Z :=
  product ← mul_or_overflow stake slash_per_token;
  ok_or (fixed_sub product slash_tally) (Arithmetic Underflow).

Definition compute_precise_stake_at_index (n : Z) (vault_id : VaultId) (nominator_id : AccountId)
    (s : Storage) : outcome SError Z :=
  let stake := stake_at_index n vault_id nominator_id s in
  to_slash ← compute_amount_to_slash stake (slash_per_token_at_index n vault_id s)
               (slash_tally_at_index n vault_id nominator_id s);
  stake_sub_to_slash ← ok_or (fixed_sub stake to_slash) (Arithmetic Underflow);
  Ok (Z.max 0 stake_sub_to_slash).

Definition compute_stake_at_index (n : Z) (vault_id : VaultId) (nominator_id : AccountId)
    (s : Storage) : outcome SError Z :=
  precise ← compute_precise_stake_at_index n vault_id nominator_id s;
  ok_or (truncate_to_inner precise) (ModuleError TryIntoIntError).

Definition compute_stake (vault_id : VaultId) (nominator_id : AccountId) (s : Storage)
  : outcome SError Z :=
  compute_stake_at_index (nonce vault_id s) vault_id nominator_id s.

Definition apply_slash (vault_id : VaultId) (nominator_id : AccountId) : R Z :=
  n ← gets (nonce vault_id);
  stake ← gets (stake_at_index n vault_id nominator_id);
  slash_per_token ← gets (slash_per_token_at_index n vault_id);
  slash_tally ← gets (slash_tally_at_index n vault_id nominator_id);
  to_slash ← lift (compute_amount_to_slash stake slash_per_token slash_tally);
  checked_sub_mut (total_stake_at_index n vault_id) (put_total_stake n vault_id) to_slash;;
  stake ← checked_sub_mut (stake_at_index n vault_id nominator_id)
            (put_stake n vault_id nominator_id) to_slash;
  product ← lift (mul_or_overflow stake slash_per_token);
  modify (put_slash_tally n vault_id nominator_id product);;
  mret stake.

(** ** Deposits, slashes and withdrawals of stake *)

(** The [mutate] of a tally: the product of [rate] and [amount] is added or subtracted. *)
Definition tally_add (tally : Storage → Z) (put : Z → Storage → Storage) (rate : Storage → Z)
    (amount : Z) : R unit :=
  rate ← gets rate;
  product ← lift (mul_or_overflow rate amount);
  old ← gets tally;
  new ← lift (ok_or (fixed_add old product) (Arithmetic Overflow));
  modify (put new).
Definition tally_sub (tally : Storage → Z) (put : Z → Storage → Storage) (rate : Storage → Z)
    (amount : Z) : R unit :=
  rate ← gets rate;
  product ← lift (mul_or_overflow rate amount);
  old ← gets tally;
  new ← lift (ok_or (fixed_sub old product) (Arithmetic Underflow));
  modify (put new).

Definition deposit_stake (vault_id : VaultId) (nominator_id : AccountId) (amount : Z) : R unit :=
  n ← gets (nonce vault_id);
  apply_slash vault_id nominator_id;;
  checked_add_mut (stake_at_index n vault_id nominator_id) (put_stake n vault_id nominator_id) amount;;
  checked_add_mut (total_stake_at_index n vault_id) (put_total_stake n vault_id) amount;;
  checked_add_mut (total_current_stake_at_index n vault_id) (put_total_current_stake n vault_id)
    amount;;
  tally_add (slash_tally_at_index n vault_id nominator_id) (put_slash_tally n vault_id nominator_id)
    (slash_per_token_at_index n vault_id) amount;;
  for_each (λ currency_id,
    tally_add (reward_tally n currency_id vault_id nominator_id)
      (put_reward_tally n currency_id vault_id nominator_id)
      (reward_per_token currency_id n vault_id) amount) (reward_currencies vault_id);;
  modify (with_event (DepositStake vault_id nominator_id amount)).

Definition increase_rewards (n : Z) (currency_id : CurrencyId.t) (vault_id : VaultId) (reward : Z)
  : R Z :=
  total_current_stake ← gets (total_current_stake_at_index n vault_id);
  if total_current_stake =? 0 then mret 0
  else
    rate ← lift (ok_or (fixed_div reward total_current_stake) (Arithmetic Underflow));
    checked_add_mut (reward_per_token currency_id n vault_id)
      (put_reward_per_token currency_id n vault_id) rate;;
    mret reward.

Definition slash_stake (vault_id : VaultId) (amount : Z) : R unit :=
  n ← gets (nonce vault_id);
  total_stake ← gets (total_stake_at_index n vault_id);
  if amount =? 0 then mret tt
  else if total_stake =? 0 then fail (ModuleError SlashZeroTotalStake)
  else
    rate ← lift (ok_or (fixed_div amount total_stake) (Arithmetic Underflow));
    checked_add_mut (slash_per_token_at_index n vault_id) (put_slash_per_token n vault_id) rate;;
    checked_sub_mut (total_current_stake_at_index n vault_id) (put_total_current_stake n vault_id)
      amount;;
    for_each (λ currency_id,
      rate ← gets (reward_per_token currency_id n vault_id);
      product ← lift (mul_or_overflow rate amount);
      increase_rewards n currency_id vault_id product;;
      mret tt) (reward_currencies vault_id).

Definition withdraw_stake (vault_id : VaultId) (nominator_id : AccountId) (amount : Z)
    (index : option Z) : R unit :=
  current ← gets (nonce vault_id);
  let n := default current index in
  stake ← apply_slash vault_id nominator_id;
  if amount =? 0 then mret tt
  else if amount >? stake then fail (ModuleError InsufficientFunds)
  else
    checked_sub_mut (stake_at_index n vault_id nominator_id) (put_stake n vault_id nominator_id)
      amount;;
    checked_sub_mut (total_stake_at_index n vault_id) (put_total_stake n vault_id) amount;;
    checked_sub_mut (total_current_stake_at_index n vault_id) (put_total_current_stake n vault_id)
      amount;;
    total_stake ← gets (total_stake_at_index n vault_id);
    whenM (total_stake =? 0) (modify (with_TotalCurrentStake (delete (n, vault_id))));;
    tally_sub (slash_tally_at_index n vault_id nominator_id)
      (put_slash_tally n vault_id nominator_id) (slash_per_token_at_index n vault_id) amount;;
    for_each (λ currency_id,
      tally_sub (reward_tally n currency_id vault_id nominator_id)
        (put_reward_tally n currency_id vault_id nominator_id)
        (reward_per_token currency_id n vault_id) amount) (reward_currencies vault_id);;
    modify (with_event (WithdrawStake vault_id nominator_id amount)).

(** ** Rewards *)

Definition distribute_reward (currency_id : CurrencyId.t) (vault_id : VaultId) (reward : Z) : R Z :=
  n ← gets (nonce vault_id);
  reward ← increase_rewards n currency_id vault_id reward;
  if reward =? 0 then mret 0
  else
    checked_add_mut (total_rewards currency_id n vault_id) (put_total_rewards currency_id n vault_id)
      reward;;
    modify (with_event (DistributeReward currency_id vault_id reward));;
    mret reward.

Definition compute_reward_at_index (n : Z) (currency_id : CurrencyId.t) (vault_id : VaultId)
    (nominator_id : AccountId) (s : Storage) : outcome SError Z :=
  stake ← compute_precise_stake_at_index n vault_id nominator_id s;
  product ← mul_or_overflow stake (reward_per_token currency_id n vault_id s);
  due ← ok_or (fixed_sub product (reward_tally n currency_id vault_id nominator_id s))
          (Arithmetic Underflow);
  reward ← ok_or (truncate_to_inner due) (ModuleError TryIntoIntError);
  Ok (Z.max 0 reward).

Definition compute_reward (currency_id : CurrencyId.t) (vault_id : VaultId)
    (nominator_id : AccountId) (s : Storage) : outcome SError Z :=
  compute_reward_at_index (nonce vault_id s) currency_id vault_id nominator_id s.

Definition withdraw_reward_at_index (n : Z) (currency_id : CurrencyId.t) (vault_id : VaultId)
    (nominator_id : AccountId) : R Z :=
  apply_slash vault_id nominator_id;;
  reward ← query (compute_reward_at_index n currency_id vault_id nominator_id);
  reward_as_fixed ← lift (ok_or (checked_from_integer reward) (ModuleError TryIntoIntError));
  checked_sub_mut (total_rewards currency_id n vault_id) (put_total_rewards currency_id n vault_id)
    reward_as_fixed;;
  stake ← gets (stake_at_index n vault_id nominator_id);
  rate ← gets (reward_per_token currency_id n vault_id);
  product ← lift (mul_or_overflow stake rate);
  modify (put_reward_tally n currency_id vault_id nominator_id product);;
  modify (with_event (WithdrawReward n currency_id vault_id nominator_id reward_as_fixed));;
  mret reward.

Definition withdraw_reward (currency_id : CurrencyId.t) (vault_id : VaultId)
    (nominator_id : AccountId) : R Z :=
  n ← gets (nonce vault_id);
  withdraw_reward_at_index n currency_id vault_id nominator_id.

(** ** Force refund *)

Definition increment_nonce (vault_id : VaultId) : R unit :=
  old ← gets (nonce vault_id);
  new ← lift (ok_or (checked_add 32 old 1) (Arithmetic Overflow));
  modify (with_Nonce <[vault_id := new]>);;
  new_nonce ← gets (nonce vault_id);
  modify (with_event (IncreaseNonce vault_id new_nonce)).

Definition force_refund (vault_id : VaultId) : R Z :=
  n ← gets (nonce vault_id);
  total_current_stake ← gets (total_current_stake_at_index n vault_id);
  stake ← query (compute_stake_at_index n vault_id (account_id vault_id));
  stake ← lift (ok_or (checked_from_integer stake) (ModuleError TryIntoIntError));
  withdraw_stake vault_id (account_id vault_id) stake (Some n);;
  increment_nonce vault_id;;
  deposit_stake vault_id (account_id vault_id) stake;;
  modify (with_event (ForceRefund vault_id));;
  refunded ← lift (ok_or (fixed_sub total_current_stake stake) (Arithmetic Underflow));
  lift (ok_or (truncate_to_inner refunded) (ModuleError TryIntoIntError)).
End staking.
End Staking.

(** ** [impl RewardsApi] and [impl StakingApi]: the same on balances, with the
    pool given by an optional nonce and a vault *)
Module StakingApi.
Import Staking.

Section api.
Context `{SignedFixedPoint} (GetNativeCurrencyId : CurrencyId.t).
Abbreviation R := (M Storage SError).
Abbreviation PoolId := (option Z * VaultId)%type.

Definition try_into_balance (v : Z) : outcome SError Z :=
  if v <? 0 then Err (ModuleError TryIntoIntError) else Ok v.
Definition from_balance (amount : Z) : outcome SError Z :=
  ok_or (to_fixed amount) (ModuleError TryIntoIntError).
Definition truncate (v : Z) : outcome SError Z :=
  ok_or (truncate_to_inner v) (ModuleError TryIntoIntError).
(** [nonce.unwrap_or(Pallet::<T>::nonce(vault_id))] *)
Definition index_of (pool : PoolId) (s : Storage) : Z := default (nonce pool.2 s) pool.1.

Definition reward_currencies_len (pool : PoolId) : Z := 2.
Definition distribute_reward (pool : PoolId) (currency_id : CurrencyId.t) (amount : Z) : R unit :=
  reward ← lift (from_balance amount);
  reward ← Staking.distribute_reward currency_id pool.2 reward;
  reward ← lift (truncate reward);
  lift (try_into_balance reward);;
  mret tt.
Definition compute_reward (pool : PoolId) (nominator_id : AccountId) (currency_id : CurrencyId.t)
    (s : Storage) : outcome SError Z :=
  reward ← compute_reward_at_index (index_of pool s) currency_id pool.2 nominator_id s;
  try_into_balance reward.
Definition withdraw_reward (pool : PoolId) (nominator_id : AccountId) (currency_id : CurrencyId.t)
  : R Z :=
  n ← gets (index_of pool);
  reward ← withdraw_reward_at_index n currency_id pool.2 nominator_id;
  lift (try_into_balance reward).
Definition deposit_stake (pool : PoolId) (nominator_id : AccountId) (amount : Z) : R unit :=
  amount ← lift (from_balance amount);
  Staking.deposit_stake GetNativeCurrencyId pool.2 nominator_id amount.
Definition withdraw_stake (pool : PoolId) (nominator_id : AccountId) (amount : Z) : R unit :=
  amount ← lift (from_balance amount);
  Staking.withdraw_stake GetNativeCurrencyId pool.2 nominator_id amount pool.1.
Definition withdraw_all_stake (pool : PoolId) (nominator_id : AccountId) : R Z :=
  n ← gets (index_of pool);
  amount ← query (compute_precise_stake_at_index n pool.2 nominator_id);
  Staking.withdraw_stake GetNativeCurrencyId pool.2 nominator_id amount (Some n);;
  amount ← lift (truncate amount);
  lift (try_into_balance amount).
Definition get_total_stake (pool : PoolId) (s : Storage) : outcome SError Z :=
  total ← total_current_stake pool.2 s;
  try_into_balance total.
Definition get_stake (pool : PoolId) (nominator_id : AccountId) (s : Storage) : outcome SError Z :=
  stake ← compute_stake_at_index (index_of pool s) pool.2 nominator_id s;
  try_into_balance stake.

Definition slash_stake (vault_id : VaultId) (amount : Z) : R unit :=
  amount ← lift (from_balance amount);
  Staking.slash_stake GetNativeCurrencyId vault_id amount.
Definition force_refund (vault_id : VaultId) : R Z :=
  refunded ← Staking.force_refund GetNativeCurrencyId vault_id;
  lift (try_into_balance refunded).
End api.
End StakingApi.
