(* ===== verification/StakingProps.v ===== *)
(** * Properties of staking pools

    Bringing a participant's stake up to date ([apply_slash]) changes no stake
    and no reward as the getters compute them; a slash is shared in proportion
    to stake; over any run the stakes of a pool add up to its total and what is
    left of them after slashing to the current total, within an explicit bound
    on rounding; a force refund keeps the vault's stake and leaves every other
    pool alone. *)

From coqutil Require Import Byte.
From Stdlib Require Import ZArith Lia.
From stdpp Require Import base tactics option list numbers gmap.
From S2P Require Import Prelude Bytes Security Primitives FixedPoint Staking.

Local Open Scope Z_scope.
Import Staking.

Section props.
Context `{SignedFixedPoint} (Native : CurrencyId.t).
Implicit Types (s : Storage) (n : Z) (v : VaultId) (i : AccountId) (c : CurrencyId.t).

(** What a participant has left after slashing, exactly, in units of [10^-36]. *)
Definition owned n v i s : Z :=
  (stake_at_index n v i s + slash_tally_at_index n v i s) * DIV
    - stake_at_index n v i s * slash_per_token_at_index n v s.

Ltac fixed_inv := repeat match goal with
  | Ha : fixed_add _ _ = Some _ |- _ => apply fixed_add_Some in Ha as ->
  | Ha : fixed_sub _ _ = Some _ |- _ => apply fixed_sub_Some in Ha as ->
  end.

(** ** One participant's entries *)

(** Stake and slash tally of a participant change by [a] and [b], the total
    stake of the pool by [a], and nothing else that [owned] depends on. *)
Definition moved n v i (a b : Z) s s' : Prop :=
  Stake s' = <[(n, (v, i)) := stake_at_index n v i s + a]> (Stake s) ∧
  TotalStake s' = <[(n, v) := total_stake_at_index n v s + a]> (TotalStake s) ∧
  SlashTally s' = <[(n, (v, i)) := slash_tally_at_index n v i s + b]> (SlashTally s) ∧
  SlashPerToken s' = SlashPerToken s.

Lemma moved_stake n v i a b s s' m w j :
  moved n v i a b s s' →
  stake_at_index m w j s' =
    if decide ((m, (w, j)) = (n, (v, i))) then stake_at_index n v i s + a else stake_at_index m w j s.
Proof.
  intros (Hs & _). unfold stake_at_index at 1. rewrite Hs. case_decide as Hd.
  - by rewrite Hd, lookup_insert_eq.
  - by rewrite lookup_insert_ne by congruence.
Qed.

Lemma moved_tally n v i a b s s' m w j :
  moved n v i a b s s' →
  slash_tally_at_index m w j s' =
    if decide ((m, (w, j)) = (n, (v, i))) then slash_tally_at_index n v i s + b
    else slash_tally_at_index m w j s.
Proof.
  intros (_ & _ & Ht & _). unfold slash_tally_at_index at 1. rewrite Ht. case_decide as Hd.
  - by rewrite Hd, lookup_insert_eq.
  - by rewrite lookup_insert_ne by congruence.
Qed.

Lemma moved_rate n v i a b s s' m w :
  moved n v i a b s s' → slash_per_token_at_index m w s' = slash_per_token_at_index m w s.
Proof. intros (_ & _ & _ & Hr). unfold slash_per_token_at_index. by rewrite Hr. Qed.

Lemma moved_owned n v i a b s s' m w j :
  moved n v i a b s s' →
  owned m w j s' = owned m w j s +
    if decide ((m, (w, j)) = (n, (v, i)))
    then (a + b) * DIV - a * slash_per_token_at_index n v s else 0.
Proof.
  intros Hm. unfold owned. rewrite (moved_stake _ _ _ _ _ _ _ m w j Hm),
    (moved_tally _ _ _ _ _ _ _ m w j Hm), (moved_rate _ _ _ _ _ _ _ m w Hm).
  case_decide as Hd; [injection Hd as -> -> ->|]; lia.
Qed.

(** ** [apply_slash] *)

Lemma apply_slash_inv v i s st s' :
  apply_slash v i s = Ok (st, s') →
  let n := nonce v s in
  let rate := slash_per_token_at_index n v s in
  ∃ product product',
    fixed_mul (stake_at_index n v i s) rate = Some product ∧
    fixed_sub product (slash_tally_at_index n v i s) = Some (product - slash_tally_at_index n v i s) ∧
    st = stake_at_index n v i s - (product - slash_tally_at_index n v i s) ∧
    - 2 ^ 127 ≤ st < 2 ^ 127 ∧ fixed_mul st rate = Some product' ∧
    s' = put_slash_tally n v i product' (put_stake n v i st
           (put_total_stake n v (total_stake_at_index n v s
              - (product - slash_tally_at_index n v i s)) s)).
Proof.
  unfold apply_slash, compute_amount_to_slash, mul_or_overflow, checked_sub_mut. intros Ha.
  outcome_inv.
  match goal with Hs : fixed_sub _ _ = Some ?x, Hm : fixed_mul ?x _ = Some _ |- _ =>
    apply checked_i128_Some in Hs as [-> Hrange] end.
  match goal with Hs : fixed_sub ?p (slash_tally_at_index _ _ _ _) = Some ?x |- _ =>
    assert (x = p - slash_tally_at_index (nonce v s) v i s) as -> by (by apply fixed_sub_Some);
    rename Hs into Hsub; exists p end.
  fixed_inv.
  eexists. split; [eassumption |]. split; [exact Hsub |]. split; [reflexivity |].
  split; [exact Hrange |].
  split; [eassumption |]. reflexivity.
Qed.

(** The effect of [apply_slash], and that only rounding changes what is owned. *)
Lemma apply_slash_moved v i s st s' :
  apply_slash v i s = Ok (st, s') →
  let n := nonce v s in
  ∃ a b, moved n v i a b s s' ∧ st = stake_at_index n v i s' ∧
    Z.abs ((a + b) * DIV - a * slash_per_token_at_index n v s) < 2 * DIV ∧
    TotalCurrentStake s' = TotalCurrentStake s ∧ Nonce s' = Nonce s ∧
    RewardPerToken s' = RewardPerToken s ∧ RewardTally s' = RewardTally s ∧
    TotalRewards s' = TotalRewards s.
Proof.
  intros (p & p' & Hp & _ & -> & _ & Hp' & ->)%apply_slash_inv n.
  set (st := stake_at_index (nonce v s) v i s - (p - slash_tally_at_index (nonce v s) v i s)) in *.
  exists (st - stake_at_index n v i s), (p' - slash_tally_at_index n v i s). split_and!; try done.
  - unfold moved. cbn. split_and!; try (f_equal; lia). do 2 f_equal. subst st n. lia.
  - unfold stake_at_index at 1. cbn. by rewrite lookup_insert_eq.
  - apply fixed_mul_within in Hp, Hp'. subst n. fold st in Hp'. lia.
Qed.

(** Bringing a participant's stake up to date with the slashes of its pool changes neither
    the stake nor the reward that the getters compute, for anybody in any pool; the stake it
    returns is the one they computed. *)
Theorem apply_slash_transparent v i s st s' :
  apply_slash v i s = Ok (st, s') →
  compute_precise_stake_at_index (nonce v s) v i s = Ok (Z.max 0 st) ∧
  (∀ m w j, compute_precise_stake_at_index m w j s' = compute_precise_stake_at_index m w j s) ∧
  (∀ m c w j, compute_reward_at_index m c w j s' = compute_reward_at_index m c w j s) ∧
  stake v i s' = st ∧ nonce v s' = nonce v s.
Proof.
  intros (p & p' & Hp & Hsub & Hst & Hrange & Hp' & ->)%apply_slash_inv.
  set (n := nonce v s) in *.
  assert (compute_precise_stake_at_index n v i s = Ok (Z.max 0 st)) as Hold.
  { unfold compute_precise_stake_at_index, compute_amount_to_slash, mul_or_overflow.
    rewrite Hp. cbn [ok_or mbind outcome_bind]. rewrite Hsub. cbn [ok_or mbind outcome_bind].
    unfold fixed_sub. rewrite <- Hst. by rewrite checked_i128_fits. }
  set (s' := put_slash_tally _ _ _ _ _).
  assert (∀ m w j, compute_precise_stake_at_index m w j s' = compute_precise_stake_at_index m w j s)
    as Hsame.
  { intros m w j. destruct (decide ((m, (w, j)) = (n, (v, i)))) as [[= -> -> ->] | Hne].
    - rewrite Hold. unfold compute_precise_stake_at_index, compute_amount_to_slash, mul_or_overflow,
        stake_at_index, slash_per_token_at_index, slash_tally_at_index, s'. cbn.
      rewrite !lookup_insert_eq. cbn. unfold id. unfold slash_per_token_at_index, id in Hp'. rewrite Hp'.
      cbn [ok_or mbind outcome_bind]. rewrite fixed_sub_diag. cbn [ok_or mbind outcome_bind].
      by rewrite fixed_sub_0.
    - unfold compute_precise_stake_at_index, stake_at_index, slash_tally_at_index, s'. cbn.
      by rewrite !lookup_insert_ne by congruence. }
  split_and!; [done | done | | | done].
  - intros m c w j. unfold compute_reward_at_index. by rewrite Hsame.
  - unfold stake, stake_at_index, s'. cbn. by rewrite lookup_insert_eq.
Qed.

(** ** Deposits and withdrawals *)

(** What the loops over reward currencies do not change. *)
Definition stake_part s :=
  (TotalStake s, TotalCurrentStake s, SlashPerToken s, Stake s, SlashTally s, Nonce s).

Lemma tally_add_keeps n c v i (rate : Storage → Z) amount s s' :
  tally_add (reward_tally n c v i) (put_reward_tally n c v i) rate amount s = Ok (tt, s') →
  stake_part s' = stake_part s.
Proof. unfold tally_add. intros Hr. by outcome_inv. Qed.

Lemma tally_sub_keeps n c v i (rate : Storage → Z) amount s s' :
  tally_sub (reward_tally n c v i) (put_reward_tally n c v i) rate amount s = Ok (tt, s') →
  stake_part s' = stake_part s.
Proof. unfold tally_sub. intros Hr. by outcome_inv. Qed.

Lemma moved_part n v i a b s s1 s2 :
  moved n v i a b s s1 → stake_part s2 = stake_part s1 → moved n v i a b s s2.
Proof.
  unfold moved, stake_part. intros (? & ? & ? & ?) Hp. injection Hp as ? ? ? ? ? ?.
  split_and!; congruence.
Qed.

Lemma deposit_stake_inv v i amount s s' :
  deposit_stake Native v i amount s = Ok (tt, s') →
  let n := nonce v s in
  ∃ st s1 b, apply_slash v i s = Ok (st, s1) ∧
    fixed_mul (slash_per_token_at_index n v s) amount = Some b ∧
    moved n v i amount b s1 s' ∧ Nonce s' = Nonce s ∧
    TotalCurrentStake s' =
      <[(n, v) := total_current_stake_at_index n v s + amount]> (TotalCurrentStake s).
Proof.
  intros Hd. cbv zeta. unfold deposit_stake in Hd. outcome_inv.
  match goal with Ha : apply_slash v i s = Ok (?st, ?s1) |- _ =>
    exists st, s1; pose proof (apply_slash_moved _ _ _ _ _ Ha) as
      (a & b & Hm & _ & _ & Hcur & Hn & _) end.
  match goal with Hf : for_each _ _ _ = Ok (?u, ?s2) |- _ => destruct u;
    apply (for_each_keeps stake_part) in Hf; [| by intros; eapply tally_add_keeps];
    rename Hf into Hpart end.
  unfold checked_add_mut, tally_add, mul_or_overflow in *. outcome_inv. fixed_inv.
  match goal with Hb : fixed_mul _ amount = Some ?b |- _ => exists b; rename Hb into Hmul end.
  set (n := nonce v s) in *.
  split; [done |]. split; [rewrite <- (moved_rate _ _ _ _ _ _ _ n v Hm); exact Hmul |].
  split; [eapply moved_part; [| exact Hpart]; done |].
  injection Hpart as _ Hc _ _ _ Hnn. cbn. rewrite Hc, Hnn. cbn. split; [exact Hn |].
  rewrite Hcur. f_equal. unfold total_current_stake_at_index. cbn. by rewrite Hcur.
Qed.

Lemma cleanup_parts n v s s' :
  s' = (if total_stake_at_index n v s =? 0 then with_TotalCurrentStake (delete (n, v)) s else s) →
  TotalStake s' = TotalStake s ∧ SlashPerToken s' = SlashPerToken s ∧ Stake s' = Stake s ∧
  SlashTally s' = SlashTally s ∧ Nonce s' = Nonce s ∧
  TotalCurrentStake s' =
    if total_stake_at_index n v s =? 0 then delete (n, v) (TotalCurrentStake s)
    else TotalCurrentStake s.
Proof. intros ->. by destruct (_ =? 0). Qed.

Lemma withdraw_stake_inv v i amount index s s' :
  withdraw_stake Native v i amount index s = Ok (tt, s') →
  let n := default (nonce v s) index in
  ∃ st s1, apply_slash v i s = Ok (st, s1) ∧
    (amount = 0 ∧ s' = s1 ∨
     amount ≠ 0 ∧ amount ≤ st ∧
     ∃ b, fixed_mul (slash_per_token_at_index n v s) amount = Some b ∧
       moved n v i (- amount) (- b) s1 s' ∧ Nonce s' = Nonce s ∧
       TotalCurrentStake s' =
         if total_stake_at_index n v s' =? 0 then delete (n, v) (TotalCurrentStake s)
         else <[(n, v) := total_current_stake_at_index n v s - amount]> (TotalCurrentStake s)).
Proof.
  intros Hd. cbv zeta. unfold withdraw_stake in Hd. revert Hd. run. intros Hd.
  apply M_bind_Ok in Hd as (st & s1 & Ha & Hd). exists st, s1. split; [exact Ha |].
  pose proof (apply_slash_moved _ _ _ _ _ Ha) as (a & b & Hm & _ & _ & Hcur & Hn & _).
  destruct (Z.eqb_spec amount 0) as [-> | Hne]; [left; by injection Hd as -> |].
  right. split; [done |]. destruct (Z.gtb_spec amount st) as [| Hle]; [done |]. split; [exact Hle |].
  set (n := default (nonce v s) index) in *. clearbody n. outcome_inv.
  match goal with Hf : for_each _ _ _ = Ok (?u, ?s2) |- _ => destruct u;
    apply (for_each_keeps stake_part) in Hf; [| by intros; eapply tally_sub_keeps];
    rename Hf into Hpart end.
  unfold checked_sub_mut, tally_sub, mul_or_overflow in *. outcome_inv. fixed_inv.
  match goal with Hw : whenM _ _ ?s2 = Ok (?u, ?s3) |- _ =>
    apply when_modify_Ok in Hw; apply (cleanup_parts n v) in Hw as (Ht3 & Hr3 & Hs3 & Hl3 & Hn3 & Hc3) end.
  match goal with Hb : fixed_mul _ amount = Some ?b |- _ => exists b; rename Hb into Hmul end.
  injection Hpart as Ht Hc Hr Hs Hl Hnn.
  split; [| split; [| split]].
  - rewrite <- (moved_rate _ _ _ _ _ _ _ n v Hm), <- Hmul. unfold slash_per_token_at_index. by rewrite Hr3.
  - unfold moved. cbn [Stake TotalStake SlashTally SlashPerToken with_event].
    unfold slash_tally_at_index in Hl. rewrite Ht, Hr, Hs, Hl, Ht3, Hr3, Hs3, Hl3.
    rewrite !Z.add_opp_r. done.
  - cbn. by rewrite Hnn, Hn3.
  - cbn [TotalCurrentStake with_event]. rewrite Hc.
    match type of Hc3 with _ = if total_stake_at_index n v ?s2 =? 0 then _ else _ =>
      assert (total_stake_at_index n v (with_event (WithdrawStake v i amount) x12) =
              total_stake_at_index n v s2) as ->
        by (unfold total_stake_at_index; cbn [TotalStake with_event]; by rewrite Ht; cbn; rewrite Ht3) end.
    change (TotalCurrentStake (put_slash_tally n v i _ ?s3)) with (TotalCurrentStake s3).
    rewrite Hc3. destruct (_ =? 0); cbn; rewrite Hcur; [by rewrite delete_insert_eq |].
    unfold total_current_stake_at_index. cbn. by rewrite Hcur.
Qed.

(** ** Slashes and rewards *)

Lemma increase_rewards_keeps n c v reward s r s' :
  increase_rewards n c v reward s = Ok (r, s') → stake_part s' = stake_part s.
Proof.
  unfold increase_rewards. run. destruct (_ =? 0); [by intros [= _ <-] |].
  unfold checked_add_mut. intros Hr. by outcome_inv.
Qed.

Lemma slash_stake_inv v amount s s' :
  slash_stake Native v amount s = Ok (tt, s') →
  let n := nonce v s in
  amount = 0 ∧ s' = s ∨
  amount ≠ 0 ∧ total_stake_at_index n v s ≠ 0 ∧
  ∃ rate, Z.abs (rate * total_stake_at_index n v s - amount * DIV) < Z.abs (total_stake_at_index n v s) ∧
    Stake s' = Stake s ∧ TotalStake s' = TotalStake s ∧ SlashTally s' = SlashTally s ∧
    Nonce s' = Nonce s ∧
    SlashPerToken s' = <[(n, v) := slash_per_token_at_index n v s + rate]> (SlashPerToken s) ∧
    TotalCurrentStake s' =
      <[(n, v) := total_current_stake_at_index n v s - amount]> (TotalCurrentStake s).
Proof.
  intros Hd. cbv zeta. unfold slash_stake in Hd. revert Hd. run.
  destruct (Z.eqb_spec amount 0) as [-> | Hne]; [intros [= <-]; by left |].
  destruct (Z.eqb_spec (total_stake_at_index (nonce v s) v s) 0) as [| Ht]; [done |].
  intros Hd. right. split; [done |]. split; [done |]. outcome_inv.
  match goal with Hf : for_each _ _ _ = Ok _ |- _ =>
    apply (for_each_keeps stake_part) in Hf; [rename Hf into Hpart |] end.
  2: { intros c s1 s2 Hc. unfold mul_or_overflow in Hc. outcome_inv. by eapply increase_rewards_keeps. }
  unfold checked_add_mut, checked_sub_mut in *. outcome_inv. fixed_inv.
  match goal with Hr : fixed_div _ _ = Some ?r |- _ => exists r; apply fixed_div_within in Hr as [_ Hr] end.
  injection Hpart as -> -> -> -> -> ->. done.
Qed.

Lemma distribute_reward_keeps c v reward s r s' :
  distribute_reward c v reward s = Ok (r, s') → stake_part s' = stake_part s.
Proof.
  unfold distribute_reward. run. intros Hd. apply M_bind_Ok in Hd as (r1 & s1 & Hi & Hd).
  apply increase_rewards_keeps in Hi. destruct (r1 =? 0); [by injection Hd as _ <- |].
  unfold checked_add_mut in Hd. by outcome_inv.
Qed.

(** A withdrawal of rewards brings the stake up to date, at the current nonce. *)
Lemma withdraw_reward_inv n c v i s r s' :
  withdraw_reward_at_index n c v i s = Ok (r, s') →
  ∃ st s1, apply_slash v i s = Ok (st, s1) ∧ stake_part s' = stake_part s1.
Proof.
  unfold withdraw_reward_at_index. intros Hw. apply M_bind_Ok in Hw as (st & s1 & Ha & Hw).
  exists st, s1. split; [done |]. unfold checked_sub_mut, mul_or_overflow in Hw. by outcome_inv.
Qed.

(** ** The stake of a pool *)

Definition in_pool n v (k : Participant) : Prop := k.1 = n ∧ k.2.1 = v.
#[local] Instance in_pool_dec n v k : Decision (in_pool n v k).
Proof. unfold in_pool. apply _. Defined.

Definition total_staked n v s : Z := msum (λ k x, if decide (in_pool n v k) then x else 0) (Stake s).
Definition total_owned n v s : Z :=
  msum (λ k _, if decide (in_pool n v k) then owned n v k.2.2 s else 0) (Stake s).

(** The stakes of every pool add up to its total, and a participant without
    stake has no tally. *)
Definition inv s : Prop :=
  (∀ n v, total_stake_at_index n v s = total_staked n v s) ∧
  ∀ n v i, Stake s !! (n, (v, i)) = None → slash_tally_at_index n v i s = 0.

Lemma moved_inv n v i a b s s' :
  inv s → moved n v i a b s s' →
  inv s' ∧ ∀ m w, total_owned m w s' = total_owned m w s +
    if decide ((m, w) = (n, v)) then (a + b) * DIV - a * slash_per_token_at_index n v s else 0.
Proof.
  intros [Hsum Htally] Hm. pose proof Hm as (Hs & Ht & Hl & _). split; [split |].
  - intros m w. unfold total_staked. rewrite Hs, msum_insert. fold (total_staked m w s).
    rewrite <- Hsum. unfold entry, in_pool. cbn [fst snd]. unfold total_stake_at_index at 1. rewrite Ht.
    destruct (decide ((m, w) = (n, v))) as [[= -> ->] | Hne].
    + rewrite lookup_insert_eq, decide_True by done. cbn. unfold id, stake_at_index, total_stake_at_index.
      destruct (Stake s !! (n, (v, i))); cbn; [rewrite decide_True by done |]; unfold id; lia.
    + rewrite lookup_insert_ne by congruence. rewrite decide_False by (intros [-> ->]; by apply Hne).
      unfold total_stake_at_index. destruct (Stake s !! (n, (v, i))); cbn;
        [rewrite decide_False by (intros [-> ->]; by apply Hne) |]; lia.
  - intros m w j Hn. rewrite Hs in Hn. apply lookup_insert_None in Hn as [Hn Hne].
    rewrite (moved_tally _ _ _ _ _ _ _ m w j Hm), decide_False by congruence. by apply Htally.
  - intros m w. unfold total_owned. rewrite Hs.
    rewrite (msum_change (in_pool m w) (λ k, owned m w k.2.2 s) (λ k, owned m w k.2.2 s')).
    + cbn [fst snd]. f_equal. destruct (decide (in_pool m w (n, (v, i)))) as [[<- <-] | Hn].
      * cbn. rewrite decide_True by done. rewrite (moved_owned _ _ _ _ _ _ _ n v i Hm), decide_True by done. lia.
      * rewrite decide_False; [done |]. intros [= -> ->]. by apply Hn.
    + intros [m' [w' j]] [<- <-] Hne. cbn in *. rewrite (moved_owned _ _ _ _ _ _ _ m' w' j Hm),
        decide_False by congruence. lia.
    + intros Hn [<- <-]. cbn. unfold owned, stake_at_index. rewrite Hn, Htally by done. cbn. lia.
Qed.

(** ** Runs *)

(** How much rounding may have separated what is owned in pool [(n, v)] from
    its current total: three products for every time a participant of the vault
    is touched, one unit per unit of stake at a slash, and what is cleared when
    a pool is emptied. *)
Definition touched v w : Z := if decide (w = v) then 3 * DIV else 0.
Definition slashed n v w s : Z :=
  if decide ((nonce w s, w) = (n, v)) then Z.abs (total_stake_at_index n v s) else 0.
Definition cleared n v w amount index s s' : Z :=
  if decide ((default (nonce w s) index, w) = (n, v)) then
    if total_stake_at_index n v s' =? 0 then Z.abs (total_current_stake_at_index n v s - amount) * DIV
    else 0
  else 0.

Inductive reach n v : Storage → Z → Prop :=
  | reach_start : reach n v empty_storage 0
  | reach_deposit w i amount s s' slack :
      reach n v s slack → deposit_stake Native w i amount s = Ok (tt, s') →
      reach n v s' (slack + touched v w)
  | reach_withdraw w i amount index s s' slack :
      reach n v s slack → withdraw_stake Native w i amount index s = Ok (tt, s') →
      reach n v s' (slack + touched v w + cleared n v w amount index s s')
  | reach_slash w amount s s' slack :
      reach n v s slack → slash_stake Native w amount s = Ok (tt, s') →
      reach n v s' (slack + slashed n v w s)
  | reach_distribute c w reward r s s' slack :
      reach n v s slack → distribute_reward c w reward s = Ok (r, s') → reach n v s' slack
  | reach_collect m c w i r s s' slack :
      reach n v s slack → withdraw_reward_at_index m c w i s = Ok (r, s') →
      reach n v s' (slack + touched v w)
  | reach_nonce w s s' slack :
      reach n v s slack → increment_nonce w s = Ok (tt, s') → reach n v s' slack.

Definition conserved n v s (slack : Z) : Prop :=
  Z.abs (total_owned n v s - total_current_stake_at_index n v s * DIV) ≤ slack.

Lemma same_part_inv n v s s' slack :
  TotalStake s' = TotalStake s → TotalCurrentStake s' = TotalCurrentStake s →
  SlashPerToken s' = SlashPerToken s → Stake s' = Stake s → SlashTally s' = SlashTally s →
  inv s → conserved n v s slack → inv s' ∧ conserved n v s' slack.
Proof.
  intros Ht Hc Hr Hs Hl [Hsum Htally] Hcons. split; [split |].
  - intros m w. unfold total_stake_at_index, total_staked. rewrite Ht, Hs. apply Hsum.
  - intros m w j. unfold slash_tally_at_index. rewrite Hs, Hl. apply Htally.
  - unfold conserved, total_owned, owned, stake_at_index, slash_tally_at_index,
      slash_per_token_at_index, total_current_stake_at_index in *. by rewrite Hs, Hl, Hr, Hc.
Qed.

Lemma apply_slash_step n v w i s st s' slack :
  apply_slash w i s = Ok (st, s') → inv s → conserved n v s slack →
  inv s' ∧ conserved n v s' (slack + if decide (w = v) then 2 * DIV else 0).
Proof.
  intros (a & b & Hm & _ & Hround & Hcur & _)%apply_slash_moved Hinv Hcons.
  destruct (moved_inv _ _ _ _ _ _ _ Hinv Hm) as [Hinv' Hown]. split; [exact Hinv' |].
  unfold conserved, total_current_stake_at_index in *. rewrite Hown, Hcur.
  case_decide as Hd; [injection Hd as -> ->; rewrite decide_True by done; lia |].
  case_decide; unfold DIV in *; lia.
Qed.

(** A movement of stake after the slashes were applied. *)
Lemma moved_step n v m w i a b s s' slack (d : Z) :
  moved m w i a b s s' → inv s → conserved n v s slack →
  Z.abs ((a + b) * DIV - a * slash_per_token_at_index m w s - d * DIV) < DIV →
  (∀ residual, total_current_stake_at_index n v s' =
     total_current_stake_at_index n v s + (if decide ((n, v) = (m, w)) then d - residual else 0) →
   inv s' ∧ conserved n v s' (slack + (if decide (w = v) then DIV else 0)
      + if decide ((m, w) = (n, v)) then Z.abs residual * DIV else 0)).
Proof.
  intros Hm Hinv Hcons Hround residual Hcur.
  destruct (moved_inv _ _ _ _ _ _ _ Hinv Hm) as [Hinv' Hown]. split; [exact Hinv' |].
  unfold conserved in *. rewrite Hown, Hcur. unfold DIV in *.
  destruct (decide ((n, v) = (m, w))) as [[= -> ->] | Hne].
  - rewrite !decide_True by done. lia.
  - rewrite (decide_False (P := (m, w) = (n, v))) by congruence. case_decide; lia.
Qed.

Lemma apply_slash_frame v i s st s' :
  apply_slash v i s = Ok (st, s') →
  TotalCurrentStake s' = TotalCurrentStake s ∧
  ∀ m w, slash_per_token_at_index m w s' = slash_per_token_at_index m w s.
Proof.
  intros (a & b & Hm & _ & _ & Hcur & _)%apply_slash_moved. split; [done |].
  intros m w. by apply (moved_rate _ _ _ _ _ _ _ m w Hm).
Qed.

Lemma conserved_weaken n v s slack slack' : conserved n v s slack → slack ≤ slack' → conserved n v s slack'.
Proof. unfold conserved. lia. Qed.

Lemma deposit_step n v w i amount s s' slack :
  deposit_stake Native w i amount s = Ok (tt, s') → inv s → conserved n v s slack →
  inv s' ∧ conserved n v s' (slack + touched v w).
Proof.
  intros (st & s1 & b & Ha & Hb & Hm & _ & Hcur)%deposit_stake_inv Hinv Hcons.
  destruct (apply_slash_step _ _ _ _ _ _ _ _ Ha Hinv Hcons) as [Hinv1 Hcons1].
  destruct (apply_slash_frame _ _ _ _ _ Ha) as [Hcur1 Hrate].
  destruct (moved_step n v _ _ _ _ _ _ _ _ amount Hm Hinv1 Hcons1) with (residual := 0) as [Hinv' Hcons'].
  - rewrite Hrate. apply fixed_mul_within in Hb. lia.
  - unfold total_current_stake_at_index. rewrite Hcur, Hcur1. destruct (decide ((n, v) = (nonce w s, w))) as [[= -> ->] | Hne].
    + rewrite lookup_insert_eq. cbn. unfold total_current_stake_at_index, id. lia.
    + rewrite lookup_insert_ne by congruence. lia.
  - split; [exact Hinv' |]. eapply conserved_weaken; [exact Hcons' |]. unfold touched, DIV.
    destruct (decide (w = v)), (decide (_ = (n, v))); lia.
Qed.

Lemma withdraw_step n v w i amount index s s' slack :
  withdraw_stake Native w i amount index s = Ok (tt, s') → inv s → conserved n v s slack →
  inv s' ∧ conserved n v s' (slack + touched v w + cleared n v w amount index s s').
Proof.
  intros Hw Hinv Hcons. unfold cleared.
  apply withdraw_stake_inv in Hw as (st & s1 & Ha & Hw). set (m := default (nonce w s) index) in *. clearbody m.
  destruct (apply_slash_step _ _ _ _ _ _ _ _ Ha Hinv Hcons) as [Hinv1 Hcons1].
  destruct (apply_slash_frame _ _ _ _ _ Ha) as [Hcur1 Hrate].
  destruct Hw as [[-> ->] | (_ & _ & b & Hb & Hm & _ & Hcur)].
  { split; [exact Hinv1 |]. eapply conserved_weaken; [exact Hcons1 |]. unfold touched, DIV.
    repeat case_decide; try destruct (_ =? 0); lia. }
  destruct (moved_step n v _ _ _ _ _ _ _ _ (- amount) Hm Hinv1 Hcons1) with
    (residual := if total_stake_at_index m w s' =? 0 then total_current_stake_at_index m w s - amount else 0)
    as [Hinv' Hcons'].
  - rewrite Hrate. apply fixed_mul_within in Hb. lia.
  - unfold total_current_stake_at_index at 1 2. rewrite Hcur, Hcur1.
    destruct (decide ((n, v) = (m, w))) as [[= -> ->] | Hne].
    + destruct (_ =? 0); [rewrite lookup_delete_eq | rewrite lookup_insert_eq]; cbn;
        unfold total_current_stake_at_index, id; lia.
    + destruct (_ =? 0); [rewrite lookup_delete_ne by congruence | rewrite lookup_insert_ne by congruence]; lia.
  - split; [exact Hinv' |]. eapply conserved_weaken; [exact Hcons' |]. unfold touched, DIV.
    destruct (decide ((m, w) = (n, v))) as [[= -> ->] | Hne].
    + rewrite !decide_True by done. destruct (_ =? 0); lia.
    + destruct (decide (w = v)); lia.
Qed.

Lemma slash_step n v w amount s s' slack :
  slash_stake Native w amount s = Ok (tt, s') → inv s → conserved n v s slack →
  inv s' ∧ conserved n v s' (slack + slashed n v w s).
Proof.
  intros Hsl [Hsum Htally] Hcons. unfold slashed. apply slash_stake_inv in Hsl as [[-> ->] | Hsl].
  { split; [done |]. eapply conserved_weaken; [exact Hcons |]. case_decide; lia. }
  destruct Hsl as (_ & _ & rate & Hrate & Hs & Ht & Hl & _ & Hr & Hcur). split; [split |].
  - intros m x. unfold total_stake_at_index, total_staked. rewrite Ht, Hs. apply Hsum.
  - intros m x j. unfold slash_tally_at_index. rewrite Hs, Hl. apply Htally.
  - assert (total_owned n v s' = total_owned n v s +
      if decide ((nonce w s, w) = (n, v)) then - (total_staked n v s * rate) else 0) as Htot.
    { unfold total_owned, total_staked. rewrite Hs.
      rewrite (msum_ext _ (λ k x, (if decide (in_pool n v k) then owned n v k.2.2 s else 0) +
        (if decide (in_pool n v k) then x else 0) *
          (if decide ((nonce w s, w) = (n, v)) then - rate else 0))).
      { rewrite msum_add, msum_scale. case_decide; lia. }
      intros [m [x j]] y Hy. destruct (decide (in_pool n v (m, (x, j)))) as [[<- <-] | Hn]; [| case_decide; lia].
      cbn [fst snd]. unfold owned, stake_at_index, slash_tally_at_index, slash_per_token_at_index at 1.
      rewrite Hs, Hl, Hr, Hy. cbn [default from_option]. unfold id.
      destruct (decide ((nonce w s, w) = (m, x))) as [Heq | Hne].
      + rewrite Heq, lookup_insert_eq. injection Heq as -> ->. cbn. lia.
      + rewrite lookup_insert_ne by done. unfold slash_per_token_at_index, id. lia. }
    unfold conserved, total_current_stake_at_index in *. rewrite Htot, Hcur, <- Hsum.
    destruct (decide ((nonce w s, w) = (n, v))) as [Heq | Hne].
    + injection Heq as <- <-. rewrite lookup_insert_eq. cbn. unfold total_current_stake_at_index, id in *. lia.
    + rewrite lookup_insert_ne by done. lia.
Qed.

Lemma staked_inv n v s slack : reach n v s slack → inv s ∧ conserved n v s slack.
Proof.
  induction 1 as [| w i amount s s' slack _ [Hi Hc] Hd | w i amount index s s' slack _ [Hi Hc] Hw
    | w amount s s' slack _ [Hi Hc] Hs | c w reward r s s' slack _ [Hi Hc] Hd
    | m c w i r s s' slack _ [Hi Hc] Hw | w s s' slack _ [Hi Hc] Hn].
  - split; [split; done | done].
  - by eapply deposit_step.
  - by eapply withdraw_step.
  - by eapply slash_step.
  - apply distribute_reward_keeps in Hd. injection Hd as ? ? ? ? ? ?. by eapply same_part_inv.
  - apply withdraw_reward_inv in Hw as (st & s1 & Ha & Hp). injection Hp as ? ? ? ? ? ?.
    destruct (apply_slash_step _ _ _ _ _ _ _ _ Ha Hi Hc) as [Hi1 Hc1].
    destruct (same_part_inv n v s1 s' (slack + if decide (w = v) then 2 * DIV else 0)) as [Hi' Hc']; try done.
    split; [exact Hi' |]. eapply conserved_weaken; [exact Hc' |]. unfold touched, DIV. case_decide; lia.
  - unfold increment_nonce in Hn. outcome_inv. by eapply same_part_inv.
Qed.

(** ** Theorems *)

(** C38: over any run, the stakes of a pool add up to its total stake, and what its
    participants have left after slashing adds up to its current total, up to the rounding
    accounted for: slashes are neither lost nor charged twice. *)
Theorem stake_conserved n v s slack :
  reach n v s slack →
  total_stake_at_index n v s = total_staked n v s ∧
  Z.abs (total_owned n v s - total_current_stake_at_index n v s * DIV) ≤ slack ∧
  ∀ i p, compute_precise_stake_at_index n v i s = Ok p →
    0 ≤ p ∧ owned n v i s - DIV < p * DIV ∧ (0 < p → p * DIV < owned n v i s + DIV).
Proof.
  intros [[Hsum _] Hcons]%staked_inv. split; [apply Hsum |]. split; [exact Hcons |]. intros i p.
  unfold compute_precise_stake_at_index, compute_amount_to_slash, mul_or_overflow. intros Hp.
  outcome_inv. fixed_inv.
  match goal with Hm : fixed_mul _ _ = Some _ |- _ => apply fixed_mul_within in Hm end.
  unfold owned, DIV in *. lia.
Qed.

(** Slashing a pool without stake is refused; a successful slash takes the amount from the
    pool's current total, and from every participant its share in proportion to its stake (off
    by less than [10^-18] per unit of stake); participants of other pools keep what they have. *)
Theorem slash_stake_pro_rata v amount s :
  amount ≠ 0 →
  let n := nonce v s in
  let total := total_stake_at_index n v s in
  (total = 0 → slash_stake Native v amount s = Err (ModuleError SlashZeroTotalStake)) ∧
  ∀ s', slash_stake Native v amount s = Ok (tt, s') →
    total ≠ 0 ∧
    total_current_stake_at_index n v s' = total_current_stake_at_index n v s - amount ∧
    (∀ i, Z.abs ((owned n v i s - owned n v i s') * total - stake_at_index n v i s * amount * DIV)
            ≤ Z.abs (stake_at_index n v i s) * Z.abs total) ∧
    ∀ m w i, (m, w) ≠ (n, v) → owned m w i s' = owned m w i s.
Proof.
  intros Hne n total. split.
  - intros Ht. unfold slash_stake. run. rewrite (proj2 (Z.eqb_neq amount 0) Hne).
    fold n. fold total. by rewrite Ht.
  - intros s' [[? _] | (_ & Ht & rate & Hrate & Hs & _ & Hl & _ & Hr & Hcur)]%slash_stake_inv; [done |].
    fold n in Ht, Hrate, Hr, Hcur. fold total in Ht, Hrate.
    split_and!; [exact Ht | | |].
    + unfold total_current_stake_at_index at 1. by rewrite Hcur, lookup_insert_eq.
    + intros i. unfold owned, stake_at_index, slash_tally_at_index, slash_per_token_at_index.
      rewrite Hs, Hl, Hr, lookup_insert_eq. cbn [default from_option].
      unfold slash_per_token_at_index, id. rewrite <- Z.abs_mul.
      set (x := from_option _ 0 (Stake s !! _)). set (y := from_option _ 0 (SlashTally s !! _)).
      set (q := from_option _ 0 (SlashPerToken s !! _)).
      replace (_ - _) with (x * (rate * total - amount * DIV)) by lia.
      rewrite !Z.abs_mul. apply Z.mul_le_mono_nonneg_l; lia.
    + intros m w i Hd. unfold owned, stake_at_index, slash_tally_at_index, slash_per_token_at_index.
      by rewrite Hs, Hl, Hr, lookup_insert_ne by done.
Qed.

Lemma run_checked_sub {B} (value : Storage → Z) put amount (k : Z → M Storage SError B) s x :
  fixed_sub (value s) amount = Some x →
  (checked_sub_mut value put amount ≫= k) s = k x (put x s).
Proof. intros Hx. unfold checked_sub_mut. rewrite run_assoc. run. rewrite Hx. by run. Qed.

(** A participant without stake in the vault's current pool cannot withdraw from an older
    pool, whatever its stake there: the amount is compared with the stake of the current pool. *)
Theorem stale_withdrawal_refused v i amount index s :
  0 < amount → stake v i s = 0 → slash_tally v i s = 0 →
  - 2 ^ 127 ≤ total_stake_at_index (nonce v s) v s < 2 ^ 127 →
  withdraw_stake Native v i amount (Some index) s = Err (ModuleError InsufficientFunds).
Proof.
  unfold stake, slash_tally. intros Ha Hst Hta Ht. unfold withdraw_stake. run.
  assert (∃ s1, apply_slash v i s = Ok (0, s1)) as [s1 Hs].
  { unfold apply_slash, compute_amount_to_slash, mul_or_overflow. run.
    rewrite Hst, Hta, fixed_mul_0_l. cbn [ok_or mbind outcome_bind]. rewrite fixed_sub_diag.
    cbn [ok_or]. run. erewrite run_checked_sub by by apply fixed_sub_0.
    erewrite run_checked_sub by (unfold stake_at_index in *; cbn; rewrite Hst; apply fixed_sub_diag).
    rewrite fixed_mul_0_l. cbn [ok_or]. run. by eexists. }
  rewrite (run_bind _ _ _ _ _ Hs), (proj2 (Z.eqb_neq amount 0)) by lia.
  by rewrite (proj2 (Z.gtb_lt amount 0)) by lia.
Qed.

(** ** Force refund *)

Lemma moved_precise n v i a b s s' m w j :
  moved n v i a b s s' → (m, (w, j)) ≠ (n, (v, i)) →
  compute_precise_stake_at_index m w j s' = compute_precise_stake_at_index m w j s.
Proof.
  intros Hm Hne. unfold compute_precise_stake_at_index.
  rewrite (moved_stake _ _ _ _ _ _ _ m w j Hm), (moved_tally _ _ _ _ _ _ _ m w j Hm),
    (moved_rate _ _ _ _ _ _ _ m w Hm). by rewrite !decide_False by done.
Qed.

Lemma withdraw_stake_precise v i amount index s s' m w j :
  withdraw_stake Native v i amount index s = Ok (tt, s') →
  (m, (w, j)) ≠ (default (nonce v s) index, (v, i)) →
  compute_precise_stake_at_index m w j s' = compute_precise_stake_at_index m w j s.
Proof.
  intros (st & s1 & (_ & Hsame & _)%apply_slash_transparent & Hw)%withdraw_stake_inv Hne.
  rewrite <- Hsame. destruct Hw as [[_ ->] | (_ & _ & b & _ & Hm & _)]; [done |].
  by eapply moved_precise.
Qed.

Lemma deposit_stake_precise v i amount s s' m w j :
  deposit_stake Native v i amount s = Ok (tt, s') →
  (m, (w, j)) ≠ (nonce v s, (v, i)) →
  compute_precise_stake_at_index m w j s' = compute_precise_stake_at_index m w j s.
Proof.
  intros (st & s1 & b & (_ & Hsame & _)%apply_slash_transparent & _ & Hm & _)%deposit_stake_inv Hne.
  rewrite <- Hsame. by eapply moved_precise.
Qed.

(** No stake, tally or slash is recorded in the pool. *)
Definition empty_pool n v s : Prop :=
  slash_per_token_at_index n v s = 0 ∧
  ∀ i, stake_at_index n v i s = 0 ∧ slash_tally_at_index n v i s = 0.

Lemma empty_pool_precise n v i s :
  empty_pool n v s → compute_precise_stake_at_index n v i s = Ok 0.
Proof.
  intros [Hr Hi]. destruct (Hi i) as [Hs Ht].
  unfold compute_precise_stake_at_index, compute_amount_to_slash, mul_or_overflow.
  by rewrite Hr, Hs, Ht, fixed_mul_0_l.
Qed.

(** A deposit into an empty pool is owned in full. *)
Lemma deposit_into_empty v i amount s s' :
  empty_pool (nonce v s) v s → 0 ≤ amount < 2 ^ 127 →
  deposit_stake Native v i amount s = Ok (tt, s') →
  compute_precise_stake_at_index (nonce v s) v i s' = Ok amount ∧ Nonce s' = Nonce s.
Proof.
  intros [Hr Hi] Ha (st & s1 & b & Hap & Hb & Hm & Hn & _)%deposit_stake_inv. split; [| exact Hn].
  destruct (Hi i) as [Hs Ht].
  apply apply_slash_inv in Hap as (p & p' & Hp & _ & Hst & _ & Hp' & Hs1).
  rewrite Hs, fixed_mul_0_l in Hp. injection Hp as <-. rewrite Hs, Ht in Hst. rewrite Hr in *.
  subst st. rewrite fixed_mul_0_l in Hp', Hb. injection Hp' as <-. injection Hb as <-.
  unfold compute_precise_stake_at_index, compute_amount_to_slash, mul_or_overflow.
  rewrite (moved_stake _ _ _ _ _ _ _ _ _ _ Hm), (moved_tally _ _ _ _ _ _ _ _ _ _ Hm),
    (moved_rate _ _ _ _ _ _ _ _ _ Hm), !decide_True by done.
  assert (stake_at_index (nonce v s) v i s1 = 0 ∧ slash_tally_at_index (nonce v s) v i s1 = 0 ∧
    slash_per_token_at_index (nonce v s) v s1 = 0) as (-> & -> & ->).
  { subst s1. unfold stake_at_index, slash_tally_at_index, slash_per_token_at_index in *. cbn.
    rewrite !lookup_insert_eq. split_and!; [done | done | exact Hr]. }
  rewrite fixed_mul_0_r. cbn [ok_or mbind outcome_bind]. rewrite fixed_sub_diag.
  cbn [ok_or mbind outcome_bind]. rewrite fixed_sub_0 by lia. cbn. f_equal. lia.
Qed.

Lemma moved_empty_pool n v i a b s s' m w :
  moved n v i a b s s' → (m, w) ≠ (n, v) → empty_pool m w s → empty_pool m w s'.
Proof.
  intros Hm Hne [Hr Hi]. split; [by rewrite (moved_rate _ _ _ _ _ _ _ m w Hm) |].
  intros j. rewrite (moved_stake _ _ _ _ _ _ _ m w j Hm), (moved_tally _ _ _ _ _ _ _ m w j Hm).
  rewrite !decide_False by congruence. apply Hi.
Qed.

Lemma withdraw_empty_pool v i amount s s' m :
  withdraw_stake Native v i amount (Some (nonce v s)) s = Ok (tt, s') →
  m ≠ nonce v s → empty_pool m v s → empty_pool m v s' ∧ Nonce s' = Nonce s.
Proof.
  intros (st & s1 & Ha & Hw)%withdraw_stake_inv Hne He.
  apply apply_slash_moved in Ha as (a & b & Hm & _ & _ & _ & Hn & _).
  eapply moved_empty_pool in He; [| exact Hm | congruence].
  destruct Hw as [[_ ->] | (_ & _ & b' & _ & Hm' & Hn' & _)]; [done |].
  split; [| exact Hn']. eapply moved_empty_pool; [exact Hm' | cbn; congruence | exact He].
Qed.

Lemma compute_stake_Ok n v i s k :
  compute_stake_at_index n v i s = Ok k →
  ∃ p, compute_precise_stake_at_index n v i s = Ok p ∧ 0 ≤ p ∧ k = Z.quot p DIV.
Proof.
  unfold compute_stake_at_index, truncate_to_inner. intros Hc. outcome_inv.
  match goal with Hp : compute_precise_stake_at_index _ _ _ _ = Ok ?p |- _ => exists p; split; [done |];
    unfold compute_precise_stake_at_index in Hp end.
  outcome_inv. match goal with Hs : Some _ = Some _ |- _ => injection Hs as <- end. split; [lia | done].
Qed.

(** A force refund moves the vault's own stake, in whole units, to a new pool under the next
    nonce and returns the rest of the current total; nobody else has stake in the new pool, and
    every stake in the other pools, the nominators' in the old one included, stays as it was. *)
Theorem force_refund_spec v s r s' :
  let n := nonce v s in
  let vault := account_id v in
  empty_pool (n + 1) v s → force_refund Native v s = Ok (r, s') →
  nonce v s' = n + 1 ∧
  compute_stake v vault s' = compute_stake v vault s ∧
  (∃ k, compute_stake v vault s = Ok k ∧
        r = Z.quot (total_current_stake_at_index n v s - k * DIV) DIV) ∧
  (∀ i, i ≠ vault → compute_precise_stake_at_index (n + 1) v i s' = Ok 0) ∧
  ∀ m w i, (m, (w, i)) ≠ (n, (v, vault)) → (m, w) ≠ (n + 1, v) →
    compute_precise_stake_at_index m w i s' = compute_precise_stake_at_index m w i s.
Proof.
  intros n vault He Hf. unfold force_refund in Hf. revert Hf. run. fold n. fold vault. intros Hf.
  apply M_bind_Ok in Hf as (k & s0 & Hk & Hf). apply query_Ok in Hk as [Hk ->].
  apply M_bind_Ok in Hf as (x & s0 & Hx & Hf). apply lift_Ok in Hx as [Hx ->]. apply ok_or_Ok in Hx.
  apply checked_i128_Some in Hx as [-> Hrange].
  apply M_bind_Ok in Hf as ([] & s1 & Hw & Hf). apply M_bind_Ok in Hf as ([] & s2 & Hi & Hf).
  apply M_bind_Ok in Hf as ([] & s3 & Hd & Hf).
  unfold truncate_to_inner in Hf. outcome_inv. fixed_inv.
  match goal with Hs : Some _ = Some r |- _ => injection Hs as <- end.
  destruct (withdraw_empty_pool _ _ _ _ _ (n + 1) Hw) as [He1 Hn1]; [unfold n; lia | exact He |].
  unfold increment_nonce in Hi. outcome_inv.
  match goal with Hc : checked_add 32 _ 1 = Some ?y |- _ => apply checked_Some in Hc as [-> _] end.
  assert (nonce v s1 = n) as Hn by (unfold nonce; by rewrite Hn1). rewrite Hn in *.
  set (s2 := with_event _ _) in Hd.
  assert (nonce v s2 = n + 1) as Hn2 by (unfold nonce, s2; cbn; by rewrite lookup_insert_eq).
  destruct (compute_stake_Ok _ _ _ _ _ Hk) as (p & Hp & Hpos & Hquot).
  assert (0 ≤ k) as Hk0 by (rewrite Hquot; by apply Z.quot_pos).
  assert (empty_pool (nonce v s2) v s2) as He2 by (rewrite Hn2; exact He1).
  destruct (deposit_into_empty v vault (k * DIV) s2 s3 He2) as [Hnew Hn3];
    [unfold DIV in *; lia | exact Hd |]. rewrite Hn2 in Hnew.
  assert (nonce v s3 = n + 1) as Hns3 by (unfold nonce in *; by rewrite Hn3).
  split_and!.
  - exact Hns3.
  - unfold compute_stake. change (nonce v (with_event (ForceRefund v) s3)) with (nonce v s3).
    rewrite Hns3. fold n. rewrite Hk. unfold compute_stake_at_index.
    change (compute_precise_stake_at_index (n + 1) v vault (with_event _ s3))
      with (compute_precise_stake_at_index (n + 1) v vault s3).
    rewrite Hnew. cbn [mbind outcome_bind ok_or]. unfold truncate_to_inner. cbn [ok_or].
    by rewrite Z.quot_mul.
  - by exists k.
  - intros i Hne. change (compute_precise_stake_at_index (n + 1) v i s3 = Ok 0).
    rewrite (deposit_stake_precise _ _ _ _ _ (n + 1) v i Hd) by (rewrite Hn2; congruence).
    by apply (empty_pool_precise (n + 1) v i s1).
  - intros m w i Hne1 Hne2.
    change (compute_precise_stake_at_index m w i s3 = compute_precise_stake_at_index m w i s).
    rewrite (deposit_stake_precise _ _ _ _ _ m w i Hd) by (rewrite Hn2; congruence).
    by apply (withdraw_stake_precise _ _ _ _ _ _ m w i Hw).
Qed.
End props.
