(* ===== verification/StakingExamples.v ===== *)
(** * Staking pools at concrete inputs

    Witnesses of the theorems of [StakingProps], with products rounded down,
    and the withdrawal from an old pool that its check lets through. *)

From coqutil Require Import Byte.
From Stdlib Require Import ZArith Lia.
From stdpp Require Import base tactics option list numbers gmap.
From S2P Require Import Prelude Bytes Security Primitives FixedPoint Staking StakingProps.

Local Open Scope Z_scope.
Import Staking.

#[local] Existing Instance floor_fixed.

Definition NATIVE : CurrencyId.t := CurrencyId.Token TokenSymbol.INTR.
Definition VAULT : VaultId :=
  vault_id_new [u8 1] (CurrencyId.Token TokenSymbol.DOT) (CurrencyId.Token TokenSymbol.IBTC).
Definition ALICE : AccountId := [u8 2].
Definition owner : AccountId := account_id VAULT.

Definition run_to {A} (m : M Storage SError A) (s : Storage) : Storage :=
  match m s with Ok (_, s') => s' | _ => s end.

Definition value {A} (c : outcome SError (A * Storage)) : option A :=
  match c with Ok (a, _) => Some a | _ => None end.

Lemma run_to_unit (m : M Storage SError unit) (s : Storage) :
  is_ok (m s) = true → m s = Ok (tt, run_to m s).
Proof. unfold run_to. by destruct (m s) as [[[] s'] | | |]. Qed.

Lemma run_to_value {A} (m : M Storage SError A) (a : A) (s : Storage) :
  value (m s) = Some a → m s = Ok (a, run_to m s).
Proof. unfold run_to, value. destruct (m s) as [[? ?] | | |]; by intros [= ->]. Qed.

(** The vault stakes 100, Alice 50, and 30 are slashed. *)
Definition vault_staked : Storage := run_to (deposit_stake NATIVE VAULT owner (100 * DIV)) empty_storage.
Definition staked : Storage := run_to (deposit_stake NATIVE VAULT ALICE (50 * DIV)) vault_staked.
Definition slashed_state : Storage := run_to (slash_stake NATIVE VAULT (30 * DIV)) staked.

Lemma slashed_run : slash_stake NATIVE VAULT (30 * DIV) staked = Ok (tt, slashed_state).
Proof. apply run_to_unit. vm_refl. Qed.

Lemma staked_reach : ∃ slack, reach NATIVE 0 VAULT staked slack.
Proof.
  eexists. eapply (reach_deposit _ _ _ VAULT ALICE (50 * DIV) vault_staked).
  - eapply (reach_deposit _ _ _ VAULT owner (100 * DIV) empty_storage);
      [constructor | apply run_to_unit; vm_refl].
  - apply run_to_unit. vm_refl.
Qed.

Lemma stake_conserved_witness :
  total_stake_at_index 0 VAULT slashed_state = total_staked 0 VAULT slashed_state ∧
  0 ≤ 80 * DIV ∧ owned 0 VAULT owner slashed_state - DIV < 80 * DIV * DIV.
Proof.
  destruct staked_reach as [slack Hr].
  assert (reach NATIVE 0 VAULT slashed_state (slack + slashed 0 VAULT VAULT staked)) as Hr2.
  { apply (reach_slash _ _ _ VAULT (30 * DIV) staked); [exact Hr | exact slashed_run]. }
  destruct (stake_conserved NATIVE 0 VAULT _ _ Hr2) as (Ht & _ & Hp).
  assert (compute_precise_stake_at_index 0 VAULT owner slashed_state = Ok (80 * DIV)) as Hc by vm_refl.
  destruct (Hp owner _ Hc) as (H1 & H2 & _). split; [exact Ht |]. split; [exact H1 | exact H2].
Defined.

Lemma slash_stake_pro_rata_witness :
  total_current_stake_at_index 0 VAULT slashed_state = 120 * DIV ∧
  Z.abs ((owned 0 VAULT ALICE staked - owned 0 VAULT ALICE slashed_state) * (150 * DIV)
          - 50 * DIV * (30 * DIV) * DIV) ≤ 50 * DIV * (150 * DIV).
Proof.
  assert (30 * DIV ≠ 0) as Hne by (unfold DIV; lia).
  pose proof slashed_run as Hs.
  destruct (proj2 (slash_stake_pro_rata NATIVE VAULT (30 * DIV) staked Hne) _ Hs) as (_ & Hc & Hi & _).
  split; [etrans; [exact Hc | vm_refl] | exact (Hi ALICE)].
Defined.

Definition touched_state : Storage 
  := run_to (apply_slash VAULT ALICE) slashed_state.

Lemma apply_slash_transparent_witness :
  compute_precise_stake_at_index 0 VAULT ALICE slashed_state = Ok (40 * DIV) ∧
  compute_precise_stake_at_index 0 VAULT owner touched_state =
    compute_precise_stake_at_index 0 VAULT owner slashed_state.
Proof.
  assert (apply_slash VAULT ALICE slashed_state = Ok (40 * DIV, touched_state)) as Ha
    by (apply (run_to_value (apply_slash VAULT ALICE)); vm_refl).
  destruct (apply_slash_transparent _ _ _ _ _ Ha) as (H1 & H2 & _).
  split; [exact H1 | exact (H2 0 VAULT owner)].
Defined.

Definition refunded_state : Storage :=
  run_to (force_refund NATIVE VAULT) slashed_state.

Lemma slashed_nonce : nonce VAULT slashed_state = 0.
Proof. vm_refl. Qed.

Lemma slashed_empty_pool : empty_pool (nonce VAULT slashed_state + 1) VAULT slashed_state.
Proof.
  rewrite slashed_nonce. change (0 + 1) with 1.
  split; [vm_refl |]. intros i. unfold stake_at_index, slash_tally_at_index.
  assert (∀ (m : gmap Participant Z), m ∈ [Stake slashed_state; SlashTally slashed_state] →
    m !! (1, (VAULT, i)) = None) as Hm.
  { intros m Hm. destruct (m !! (1, (VAULT, i))) as [x |] eqn:Hx; [| done].
    assert (map_Forall (λ (k : Participant) _, k.1 = 0) m) as Hall.
    { repeat (apply elem_of_cons in Hm as [-> | Hm]); [..| by apply elem_of_nil in Hm];
        apply (bool_decide_eq_true _); vm_refl. }
    by specialize (Hall _ _ Hx). }
  rewrite (Hm (Stake slashed_state)) by apply list_elem_of_here.
  by rewrite (Hm (SlashTally slashed_state)) by apply list_elem_of_further, list_elem_of_here.
Qed.

Lemma force_refund_spec_witness :
  nonce VAULT refunded_state = 1 ∧
  compute_stake VAULT owner refunded_state = compute_stake VAULT owner slashed_state ∧
  compute_precise_stake_at_index 0 VAULT ALICE refunded_state =
    compute_precise_stake_at_index 0 VAULT ALICE slashed_state.
Proof.
  assert (force_refund NATIVE VAULT slashed_state = Ok (40, refunded_state)) as Hf
    by (apply (run_to_value (force_refund NATIVE VAULT)); vm_refl).
  pose proof slashed_empty_pool as He. pose proof slashed_nonce as Hn.
  revert Hf He Hn. generalize refunded_state slashed_state. intros after before Hf He Hn.
  destruct (force_refund_spec NATIVE VAULT before 40 after He Hf) as (H1 & H2 & _ & _ & H3).
  rewrite Hn in H1, H3. change (0 + 1) with 1 in *.
  split; [exact H1 |]. split; [exact H2 |].
  apply H3; intros [=]; discriminate.
Defined.

Lemma stale_withdrawal_refused_witness :
  compute_stake_at_index 0 VAULT ALICE refunded_state = Ok 40 ∧
  withdraw_stake NATIVE VAULT ALICE DIV (Some 0) refunded_state = Err (ModuleError InsufficientFunds).
Proof.
  split; [vm_refl |].
  apply (stale_withdrawal_refused NATIVE VAULT ALICE DIV 0 refunded_state);
    [done | vm_refl | vm_refl | split; vm_compute; (discriminate || reflexivity)].
Defined.

(** The check of a withdrawal from an old pool looks at the wrong pool: Alice, with 40 left
    in the old pool and 100 in the current one, withdraws 100 from the old pool, whose
    recorded stake becomes negative, and still has the 100 in the current pool. *)
Theorem stale_withdrawal_overdraws :
  let s := run_to (deposit_stake NATIVE VAULT ALICE (100 * DIV)) refunded_state in
  let s' := run_to (StakingApi.withdraw_stake NATIVE (Some 0, VAULT) ALICE 100) s in
  StakingApi.get_stake (Some 0, VAULT) ALICE s = Ok 40 ∧
  StakingApi.get_stake (None, VAULT) ALICE s = Ok 100 ∧
  is_ok (StakingApi.withdraw_stake NATIVE (Some 0, VAULT) ALICE 100 s) = true ∧
  StakingApi.get_stake (None, VAULT) ALICE s' = Ok 100 ∧
  stake_at_index 0 VAULT ALICE s' = - (50 * DIV) ∧
  total_current_stake_at_index 0 VAULT s' = - (60 * DIV).
Proof. split_and!; vm_refl. Qed.
