(* ===== verification/EscrowReward.v ===== *)
(** * Escrow on top of the reward pallet

    In the runtime, [T::EscrowRewards] is an instance of the reward pallet with
    the unit pool: after every change of a lock the account's stake there is set
    to its voting power.  Here the two models are composed, the contract of a
    vote escrow is stated as an abstract machine ([VoteEscrow]), and every run
    of the composition is shown to be a run of that machine. *)

From coqutil Require Import Byte.
From Stdlib Require Import ZArith Lia.
From stdpp Require Import base tactics option list numbers gmap sorting relations.
From S2P Require Import Prelude Bytes Security Escrow EscrowProps FixedPoint Reward RewardProps.

Local Open Scope Z_scope.

(** ** The abstract machine *)
Module VoteEscrow.
Import Escrow.

Section spec.
Context (MaxPeriod : Z).

(** The lock of every account, its voting power when the lock was last
    touched, and the time. *)
Record state : Type := mkState {
  locks : gmap AccountId LockedBalance;
  powers : gmap AccountId Z;
  now : Z;
}.

Definition lock_of (who : AccountId) (a : state) : LockedBalance :=
  default default_locked (locks a !! who).
Definition power (who : AccountId) (a : state) : Z := entry (λ _ v, v) (powers a) who.
Definition total_power (a : state) : Z := msum (λ _ v, v) (powers a).

(** A lock is worth its amount at [MaxPeriod] before its end, and nothing at its end. *)
Definition power_of (l : LockedBalance) (now : Z) : Z :=
  amount l / MaxPeriod * Z.max (end_ l - now) 0.

Inductive step : state → state → Prop :=
  | step_lock a who l :
      MaxPeriod ≤ amount l < 2 ^ BAL → amount (lock_of who a) ≤ amount l →
      end_ (lock_of who a) ≤ end_ l → end_ l ≤ now a + MaxPeriod →
      step a (mkState (<[who := l]> (locks a)) (<[who := power_of l (now a)]> (powers a)) (now a))
  | step_unlock a who :
      end_ (lock_of who a) ≤ now a →
      step a (mkState (delete who (locks a)) (delete who (powers a)) (now a))
  | step_time a n : now a ≤ n → step a (mkState (locks a) (powers a) n)
  | step_idle a : step a a.

Definition initial (n : Z) : state := mkState ∅ ∅ n.

(** No account has more power than it locked, nor less than its lock is worth now. *)
Definition sound (a : state) : Prop :=
  ∀ who, power_of (lock_of who a) (now a) ≤ power who a ≤ amount (lock_of who a) ∧
    0 ≤ amount (lock_of who a) ∧ 0 ≤ power who a.

Lemma power_of_bounds l n :
  0 < MaxPeriod → 0 ≤ amount l → end_ l ≤ n + MaxPeriod → 0 ≤ power_of l n ≤ amount l.
Proof.
  intros Hm Ha He. unfold power_of.
  pose proof (Z.div_pos (amount l) MaxPeriod). pose proof (Z.mul_div_le (amount l) MaxPeriod). nia.
Qed.

Lemma power_of_decreases l n n' :
  0 < MaxPeriod → 0 ≤ amount l → n ≤ n' → power_of l n' ≤ power_of l n.
Proof. intros. unfold power_of. apply Z.mul_le_mono_nonneg_l; [apply Z.div_pos |]; lia. Qed.

Lemma initial_sound n : sound (initial n).
Proof.
  intros who. unfold power_of, lock_of, power, entry, initial. cbn [locks powers now].
  rewrite !lookup_empty. cbn. rewrite Zdiv_0_l. lia.
Qed.

Lemma step_sound a a' : 0 < MaxPeriod → sound a → step a a' → sound a'.
Proof.
  intros Hm Hs Hstep. destruct Hstep as [a who l Hl _ _ He | a who He | a n Hn | a]; [| | | done];
    intros other; specialize (Hs other); unfold lock_of, power, entry in *;
    cbn [locks powers now] in *.
  - destruct (decide (other = who)) as [-> | Hne].
    + rewrite !lookup_insert_eq. cbn. unfold id. pose proof (power_of_bounds l (now a)). lia.
    + by rewrite !lookup_insert_ne by congruence.
  - destruct (decide (other = who)) as [-> | Hne].
    + rewrite !lookup_delete_eq. cbn. unfold power_of. cbn. rewrite Zdiv_0_l. lia.
    + by rewrite !lookup_delete_ne by congruence.
  - destruct Hs as (Hp & Ha & Hpos). split; [| done]. split; [| apply Hp].
    etrans; [by apply (power_of_decreases _ (now a)) | apply Hp].
Qed.
End spec.
End VoteEscrow.

(** ** The composition *)
Module EscrowReward.
Import Escrow.

(** [T::Currency], the native currency with its locks. *)
Class LockableCurrency : Type := {
  Currency : Type;
  currency_free : Currency → AccountId → Z;
  currency_minimum : Currency → Z;
  currency_set_lock : AccountId → Z → Currency → Currency;
  currency_remove_lock : AccountId → Currency → Currency;
}.

Section composition.
Context `{LockableCurrency} {CurrencyId : Type} `{Countable CurrencyId}.
Context (currency_le : relation CurrencyId) `{!RelDecision currency_le}.
Context `{SignedFixedPoint} (MaxRewardCurrencies pallet_index : Z).

Abbreviation RewardStorage := (@Reward.Storage unit AccountId CurrencyId _ _ _ _ _ _).

(** The errors of the reward pallet, seen from the escrow pallet. *)
Definition error_number (e : Reward.Error) : Z :=
  match e with
  | Reward.TryIntoIntError => 0
  | Reward.InsufficientFunds => 1
  | Reward.ZeroTotalStake => 2
  | Reward.MaxRewardCurrencies => 3
  end.
Definition foreign (e : DispatchError Reward.Error) : DispatchError Error :=
  match e with
  | ModuleError e => ForeignError pallet_index (error_number e)
  | ForeignError i n => ForeignError i n
  | Arithmetic a => Arithmetic a
  | BadOrigin => BadOrigin
  end.

#[local] Instance escrow_env : Env := {|
  Ext := Currency * RewardStorage;
  free_balance e := currency_free e.1;
  minimum_balance e := currency_minimum e.1;
  set_lock who amount e := (currency_set_lock who amount e.1, e.2);
  remove_lock who e := (currency_remove_lock who e.1, e.2);
  withdraw_all_stake who e :=
    '(_, r) ← map_err foreign (RewardsApi.withdraw_all_stake currency_le tt who e.2);
    Ok (e.1, r);
  deposit_stake who amount e :=
    '(_, r) ← map_err foreign (RewardsApi.deposit_stake currency_le tt who amount e.2);
    Ok (e.1, r);
|}.

Definition rewards (s : Storage) : RewardStorage := snd (ext s).
Definition with_rewards (r : RewardStorage) (s : Storage) : Storage := with_ext (fst (ext s), r) s.
Definition with_block_number (n : Z) (s : Storage) : Storage :=
  mkStorage (Reserved s) (Locked s) (Epoch s) (PointHistory s) (UserPointHistory s)
    (UserPointEpoch s) (SlopeChanges s) (Limits s) (Blocks s) n (ext s) (events s).

Context (Span MaxPeriod : Z) (Span_pos : 0 < Span) (MaxPeriod_pos : 0 < MaxPeriod).

(** The extrinsics of the pallet. *)
Inductive call : Type :=
  | CreateLock (amount unlock_height : Z)
  | IncreaseAmount (amount : Z)
  | IncreaseUnlockHeight (unlock_height : Z)
  | Withdraw
  | SetAccountLimit (who : AccountId) (start end_ : Z)
  | SetAccountBlock (who : AccountId)
  | UpdateUserStake (target_user : AccountId).

Definition dispatch (origin : Origin) (c : call) : M Storage (DispatchError Error) unit :=
  match c with
  | CreateLock amount unlock_height => create_lock Span MaxPeriod origin amount unlock_height
  | IncreaseAmount amount => increase_amount Span MaxPeriod origin amount
  | IncreaseUnlockHeight unlock_height => increase_unlock_height Span MaxPeriod origin unlock_height
  | Withdraw => withdraw Span MaxPeriod origin
  | SetAccountLimit who start end_ => set_account_limit origin who start end_
  | SetAccountBlock who => set_account_block origin who
  | UpdateUserStake target_user => update_user_stake Span MaxPeriod origin target_user
  end.

(** Arguments of the machine's widths. *)
Definition well_typed (c : call) : Prop :=
  match c with
  | CreateLock amount unlock_height => fits BAL amount ∧ fits BN unlock_height
  | IncreaseAmount amount => fits BAL amount
  | IncreaseUnlockHeight unlock_height => fits BN unlock_height
  | _ => True
  end.

(** What happens on the chain: extrinsics, new blocks, rewards distributed to
    and collected from the pool, and changes of the native currency. *)
Inductive step : Storage → Storage → Prop :=
  | step_call origin c s s' :
      well_typed c → dispatch origin c s = Ok (tt, s') → step s s'
  | step_block n s : current_height s ≤ n → fits BN n → step s (with_block_number n s)
  | step_distribute currency amount s r :
      RewardsApi.distribute_reward MaxRewardCurrencies tt currency amount (rewards s) = Ok (tt, r) →
      step s (with_rewards r s)
  | step_collect who currency reward s r :
      RewardsApi.withdraw_reward tt who currency (rewards s) = Ok (reward, r) →
      step s (with_rewards r s)
  | step_currency c s : step s (with_ext (c, rewards s) s).

Definition genesis (n : Z) (c : Currency) : Storage :=
  mkStorage ∅ ∅ 0 ∅ ∅ ∅ ∅ ∅ ∅ n (c, Reward.empty_storage) [].

(** ** Stakes in the reward pallet *)

Lemma withdraw_all_stake_moved (who : AccountId) (r r' : RewardStorage) (amount k : Z) :
  Reward.stake tt who r = k * DIV → 0 ≤ k →
  RewardsApi.withdraw_all_stake currency_le tt who r = Ok (amount, r') →
  stake_moved (-1) tt who (Reward.stake tt who r) r r'.
Proof.
  intros Hk Hpos Hw.
  unfold RewardsApi.withdraw_all_stake, RewardsApi.withdraw_stake, RewardsApi.from_balance,
    RewardsApi.get_stake, RewardsApi.try_into_balance, truncate_to_inner in Hw.
  outcome_inv. rewrite Hk in *.
  match goal with Hq : Some _ = Some _ |- _ => injection Hq as <- end.
  rewrite Z.quot_mul in * by done. rewrite (proj2 (Z.ltb_ge k 0)) in * by done. outcome_inv.
  match goal with Ht : to_fixed _ = Some _ |- _ => apply to_fixed_Some in Ht as [-> _] end.
  match goal with Hm : Reward.withdraw_stake _ _ _ _ _ = Ok (?u, _) |- _ => destruct u;
    by apply withdraw_stake_moved in Hm as [_ Hm] end.
Qed.

(** An account with a whole number of units staked can withdraw them all, as long as the
    products of its stake have room. *)
Lemma withdraw_all_stake_runs (who : AccountId) (r : RewardStorage) (k : Z) :
  Reward.stake tt who r = k * DIV → 0 ≤ k → k * DIV ≤ Reward.total_stake tt r < 2 ^ 127 →
  (∀ currency, currency ∈ Reward.reward_currencies tt r → room tt who (k * DIV) currency r) →
  ∃ r', RewardsApi.withdraw_all_stake currency_le tt who r = Ok (k, r').
Proof.
  intros Hk Hpos Htot Hroom. unfold RewardsApi.withdraw_all_stake.
  assert (query (RewardsApi.get_stake tt who) r = Ok (k, r)) as Hq.
  { unfold query, RewardsApi.get_stake, RewardsApi.try_into_balance, truncate_to_inner.
    rewrite Hk, Z.quot_mul by done. cbn [ok_or mbind outcome_bind]. by rewrite (proj2 (Z.ltb_ge k 0)). }
  erewrite run_bind by exact Hq.
  unfold RewardsApi.withdraw_stake, RewardsApi.from_balance, to_fixed, checked_from_integer.
  assert (0 ≤ k < 2 ^ 127) as Hkr by (unfold DIV in *; lia).
  rewrite (checked_i128_fits k) by lia. cbn [mbind option_bind].
  rewrite (checked_i128_fits (k * DIV)) by (unfold DIV in *; lia).
  cbn [ok_or]. run.
  destruct (withdraw_stake_runs currency_le tt who (k * DIV) r) as [r' Hr'];
    [lia | lia | unfold DIV in *; lia | exact Hroom |].
  erewrite run_bind by exact Hr'. by exists r'.
Qed.

Lemma reward_deposit_total (who : AccountId) (amount : Z) (r r' : RewardStorage) :
  RewardsApi.deposit_stake currency_le tt who amount r = Ok (tt, r') → Reward.total_stake tt r' < 2 ^ 127.
Proof. unfold RewardsApi.deposit_stake. intros Hd. outcome_inv. by eapply deposit_stake_total. Qed.

Lemma reward_deposit_moved (who : AccountId) (amount : Z) (r r' : RewardStorage) :
  RewardsApi.deposit_stake currency_le tt who amount r = Ok (tt, r') →
  stake_moved 1 tt who (amount * DIV) r r'.
Proof.
  unfold RewardsApi.deposit_stake, RewardsApi.from_balance. intros Hd. outcome_inv.
  match goal with Ht : to_fixed _ = Some _ |- _ => apply to_fixed_Some in Ht as [-> _] end.
  by apply RewardProps.deposit_stake_moved in Hd.
Qed.

(** ** Refinement *)

Definition lock_ok (n : Z) (l : LockedBalance) : Prop :=
  fits BAL (amount l) ∧ fits BN (end_ l) ∧ MaxPeriod ≤ amount l ∧ end_ l ≤ n + MaxPeriod.

Definition ok (s : Storage) : Prop :=
  escrow_bounds s ∧ map_Forall (λ _ l, lock_ok (current_height s) l) (Locked s).

Lemma ok_after s s' :
  ok s → current_height s ≤ current_height s' → fits BN (current_height s') →
  0 ≤ ts (point_at (Epoch s') s') < 2 ^ BN →
  map_Forall (λ _ l, lock_ok (current_height s) l) (Locked s') → ok s'.
Proof.
  intros _ Hle Hfit Hts Hl. split.
  - split; [exact Hfit | split; [exact Hts |]]. intros who. unfold locked_balance.
    destruct (Locked s' !! who) as [l |] eqn:E; [| done]. by destruct (Hl _ _ E) as (? & ? & _).
  - intros who l E. destruct (Hl _ _ E) as (? & ? & ? & ?). unfold lock_ok. split_and!; try done; lia.
Qed.

Record refines (s : Storage) (a : VoteEscrow.state) : Prop := {
  refines_ok : ok s;
  refines_sound : VoteEscrow.sound MaxPeriod a;
  refines_locks : VoteEscrow.locks a = Locked s;
  refines_now : VoteEscrow.now a = current_height s;
  refines_power (who : AccountId) :
    Reward.stake tt who (rewards s) = VoteEscrow.power who a * DIV;
  refines_total : Reward.total_stake tt (rewards s) = VoteEscrow.total_power a * DIV;
  refines_range : Reward.total_stake tt (rewards s) < 2 ^ 127;
}.

Lemma lock_of_refines s a who : refines s a → VoteEscrow.lock_of who a = locked_balance who s.
Proof. intros Hr. unfold VoteEscrow.lock_of, locked_balance. by rewrite (refines_locks _ _ Hr). Qed.

(** A withdrawal of all the stake of an account and a deposit of [v] leave the
    account with [v], the total changed accordingly and the others alone. *)
Lemma power_insert who v a l other :
  VoteEscrow.power other (VoteEscrow.mkState l (<[who := v]> (VoteEscrow.powers a)) (VoteEscrow.now a)) =
    if decide (other = who) then v else VoteEscrow.power other a.
Proof.
  unfold VoteEscrow.power, entry. cbn. case_decide as Hd;
    [by rewrite Hd, lookup_insert_eq | by rewrite lookup_insert_ne by congruence].
Qed.

Lemma power_delete who a l other :
  VoteEscrow.power other (VoteEscrow.mkState l (delete who (VoteEscrow.powers a)) (VoteEscrow.now a)) =
    if decide (other = who) then 0 else VoteEscrow.power other a.
Proof.
  unfold VoteEscrow.power, entry. cbn. case_decide as Hd;
    [by rewrite Hd, lookup_delete_eq | by rewrite lookup_delete_ne by congruence].
Qed.

(** Stakes and total after moving the whole stake of an account. *)
Lemma stakes_moved (sgn : Z) (who : AccountId) (v : Z) (r r' : RewardStorage) (f : AccountId → Z) (t : Z) :
  stake_moved sgn tt who (v * DIV) r r' →
  (∀ other, Reward.stake tt other r = f other * DIV) → Reward.total_stake tt r = t * DIV →
  (∀ other, Reward.stake tt other r' =
     (if decide (other = who) then f who + sgn * v else f other) * DIV) ∧
  Reward.total_stake tt r' = (t + sgn * v) * DIV.
Proof.
  intros Hm Hf Ht. split.
  - intros other. rewrite (stake_moved_stake _ _ _ _ _ _ tt other Hm). rewrite !Hf.
    destruct (decide (other = who)) as [-> | Hne]; [rewrite decide_True by done; lia |].
    by rewrite decide_False by congruence.
  - destruct Hm as (_ & Htot & _). unfold Reward.total_stake at 1. rewrite Htot, lookup_insert_eq.
    cbn. unfold id. rewrite Ht. lia.
Qed.

(** The stakes and the total are those of [f] and [t]. *)
Definition staked (f : AccountId → Z) (t : Z) (e : @Ext escrow_env) : Prop :=
  (∀ other, Reward.stake tt other (snd e) = f other * DIV) ∧
  Reward.total_stake tt (snd e) = t * DIV.

Lemma ext_withdraw_all (who : AccountId) (e e' : @Ext escrow_env) f t :
  withdraw_all_stake who e = Ok e' → staked f t e → 0 ≤ f who →
  staked (λ other, if decide (other = who) then 0 else f other) (t - f who) e'.
Proof.
  intros Hw [Hf Ht] Hpos. cbn in Hw. outcome_inv.
  match goal with Hx : _ = Ok ?x |- _ => destruct x as [amt r]; injection Hw as <- end.
  eapply withdraw_all_stake_moved in H2; [| apply Hf | done]. rewrite Hf in H2.
  destruct (stakes_moved _ _ _ _ _ _ _ H2 Hf Ht) as [Hf' Ht']. split.
  - intros other. cbn [snd]. rewrite Hf'. case_decide; lia.
  - cbn [snd]. rewrite Ht'. lia.
Qed.

Lemma ext_withdraw_total (who : AccountId) (e e' : @Ext escrow_env) f t :
  withdraw_all_stake who e = Ok e' → staked f t e → 0 ≤ f who →
  Reward.total_stake tt (snd e) < 2 ^ 127 → Reward.total_stake tt (snd e') < 2 ^ 127.
Proof.
  intros Hw Hst Hpos Hr. destruct (ext_withdraw_all _ _ _ _ _ Hw Hst Hpos) as [_ Ht].
  destruct Hst as [_ Ht0]. unfold DIV in *. lia.
Qed.

Lemma ext_deposit_total (who : AccountId) v (e e' : @Ext escrow_env) :
  deposit_stake who v e = Ok e' → Reward.total_stake tt (snd e') < 2 ^ 127.
Proof.
  intros Hd. cbn in Hd. outcome_inv.
  match goal with Hx : _ = Ok ?x |- _ => destruct x as [[] r]; injection Hd as <- end.
  by eapply reward_deposit_total.
Qed.

Lemma ext_deposit (who : AccountId) v (e e' : @Ext escrow_env) f t :
  deposit_stake who v e = Ok e' → staked f t e →
  staked (λ other, if decide (other = who) then f who + v else f other) (t + v) e'.
Proof.
  intros Hd [Hf Ht]. cbn in Hd. outcome_inv.
  match goal with Hx : _ = Ok ?x |- _ => destruct x as [[] r]; injection Hd as <- end.
  apply reward_deposit_moved in H2.
  destruct (stakes_moved _ _ _ _ _ _ _ H2 Hf Ht) as [Hf' Ht']. split.
  - intros other. cbn [snd]. rewrite Hf'. case_decide; lia.
  - cbn [snd]. rewrite Ht'. lia.
Qed.

Lemma lock_value l s :
  fits BAL (amount l) → MaxPeriod ≤ amount l → end_ l ≤ current_height s + MaxPeriod →
  point_balance_at (lock_point MaxPeriod l (current_height s)) (current_height s) =
    VoteEscrow.power_of MaxPeriod l (current_height s).
Proof.
  intros Ha Hm He. unfold lock_point, VoteEscrow.power_of.
  rewrite (Z.gtb_ltb (amount l)), (proj2 (Z.ltb_lt 0 (amount l))), andb_true_r by lia.
  rewrite Z.gtb_ltb. destruct (Z.ltb_spec (current_height s) (end_ l)) as [Hlt | Hge].
  - by rewrite point_balance_eq by (done || lia).
  - rewrite (Z.max_r (end_ l - _)) by lia. by rewrite Z.mul_0_r.
Qed.

Lemma deposit_for_refines who value unlock_height s s' a :
  refines s a → deposit_for Span MaxPeriod who value unlock_height s = Ok (tt, s') →
  let l := new_lock who value unlock_height s in
  0 ≤ value → fits BN (end_ l) →
  end_ (locked_balance who s) ≤ end_ l ≤ current_height s + MaxPeriod →
  ∃ a', VoteEscrow.step MaxPeriod a a' ∧ refines s' a'.
Proof.
  intros Hr Hd l Hv Hfit He. pose proof (refines_ok _ _ Hr) as Hok. pose proof (proj1 Hok) as Hb.
  destruct (deposit_for_inv Span MaxPeriod Span_pos who value unlock_height s s' Hb Hd)
    as (Ha & HL & Hcur & Hp & (e & Hw & Hdep) & Hother & Hts). fold l in Ha, HL, Hp, Hw.
  assert (0 ≤ amount (locked_balance who s) ≤ amount l ∧ fits BAL (amount l)) as [Hle Hbal].
  { destruct Hb as (_ & _ & Hb). destruct (Hb who) as [Hamt _]. unfold l, new_lock, saturating_add, fits in *.
    cbn [amount]. lia. }
  set (v := VoteEscrow.power_of MaxPeriod l (current_height s)).
  assert (balance_at who None s' = v) as Hbalance.
  { unfold balance_at. rewrite Hp. cbn [default from_option]. rewrite Hcur.
    apply lock_value; [done | lia | lia]. }
  set (a' := VoteEscrow.mkState (<[who := l]> (VoteEscrow.locks a))
               (<[who := v]> (VoteEscrow.powers a)) (VoteEscrow.now a)).
  assert (VoteEscrow.step MaxPeriod a a') as Hstep.
  { unfold a', v. rewrite <- (refines_now _ _ Hr). apply VoteEscrow.step_lock.
    - unfold fits in Hbal. lia.
    - rewrite (lock_of_refines s a who Hr). lia.
    - rewrite (lock_of_refines s a who Hr). lia.
    - rewrite (refines_now _ _ Hr). lia. }
  exists a'. split; [exact Hstep |].
  assert (staked (λ other, VoteEscrow.power other a) (VoteEscrow.total_power a)
    (set_lock who (amount l) (ext s))) as Hst.
  { split; [apply (refines_power _ _ Hr) | apply (refines_total _ _ Hr)]. }
  apply (ext_withdraw_all _ _ _ _ _ Hw) in Hst; [| apply (refines_sound _ _ Hr)].
  apply (ext_deposit _ _ _ _ _ _ Hdep) in Hst as [Hst Htot]. rewrite Hbalance in *.
  split; [| | | | | |].
  - apply (ok_after s); [done | lia | rewrite Hcur; apply Hok | exact Hts |]. rewrite HL. apply map_Forall_insert_2; [| apply (refines_ok _ _ Hr)].
    unfold lock_ok. split_and!; done || lia.
  - eapply VoteEscrow.step_sound; [| apply (refines_sound _ _ Hr) |]; done.
  - cbn. by rewrite HL, (refines_locks _ _ Hr).
  - cbn. by rewrite Hcur, (refines_now _ _ Hr).
  - intros other. unfold rewards. rewrite Hst. unfold a'. rewrite power_insert.
    destruct (decide (other = who)) as [-> | _]; [by rewrite decide_True by done | done].
  - unfold rewards. rewrite Htot. unfold a', VoteEscrow.total_power. cbn [VoteEscrow.powers].
    rewrite msum_insert. unfold VoteEscrow.power. lia.
  - by eapply ext_deposit_total.
Qed.

Lemma remove_lock_refines who s s' a :
  refines s a → remove_lock_of Span MaxPeriod who s = Ok (tt, s') →
  ∃ a', VoteEscrow.step MaxPeriod a a' ∧ refines s' a'.
Proof.
  intros Hr Hd. pose proof (refines_ok _ _ Hr) as Hok.
  destruct (remove_lock_of_inv Span MaxPeriod Span_pos who s s' (proj1 Hok) Hd)
    as (He & HL & _ & (e & Hw & Hext) & _ & Hcur & Hts).
  set (a' := VoteEscrow.mkState (delete who (VoteEscrow.locks a))
               (delete who (VoteEscrow.powers a)) (VoteEscrow.now a)).
  assert (VoteEscrow.step MaxPeriod a a') as Hstep.
  { apply VoteEscrow.step_unlock. by rewrite (lock_of_refines s a who Hr), (refines_now _ _ Hr). }
  exists a'. split; [exact Hstep |].
  assert (staked (λ other, VoteEscrow.power other a) (VoteEscrow.total_power a) (ext s)) as Hst.
  { split; [apply (refines_power _ _ Hr) | apply (refines_total _ _ Hr)]. }
  apply (ext_withdraw_all _ _ _ _ _ Hw) in Hst as [Hst Htot]; [| apply (refines_sound _ _ Hr)].
  split; [| | | | | |].
  - apply (ok_after s); [done | lia | rewrite Hcur; apply Hok | exact Hts |]. rewrite HL. apply map_Forall_delete. apply (refines_ok _ _ Hr).
  - eapply VoteEscrow.step_sound; [| apply (refines_sound _ _ Hr) |]; done.
  - cbn. by rewrite HL, (refines_locks _ _ Hr).
  - cbn. by rewrite Hcur, (refines_now _ _ Hr).
  - intros other. unfold rewards. rewrite Hext. cbn. rewrite Hst. unfold a'. by rewrite power_delete.
  - unfold rewards. rewrite Hext. cbn. rewrite Htot. unfold a', VoteEscrow.total_power.
    cbn [VoteEscrow.powers]. rewrite msum_delete. unfold VoteEscrow.power. lia.
  - unfold rewards. rewrite Hext. cbn.
    eapply ext_withdraw_total; [exact Hw | split; [apply (refines_power _ _ Hr) | apply (refines_total _ _ Hr)]
      | apply (refines_sound _ _ Hr) | apply (refines_range _ _ Hr)].
Qed.


(** What is staked can be withdrawn. *)
Lemma refines_withdraw_runs who s a :
  refines s a →
  (∀ currency, currency ∈ Reward.reward_currencies tt (rewards s) →
     room tt who (Reward.stake tt who (rewards s)) currency (rewards s)) →
  ∃ r, RewardsApi.withdraw_all_stake currency_le tt who (rewards s) = Ok (VoteEscrow.power who a, r).
Proof.
  intros Hr Hroom. pose proof (refines_sound _ _ Hr) as Hs.
  assert (VoteEscrow.power who a ≤ VoteEscrow.total_power a) as Hle.
  { apply msum_entry_le. intros k v Hv. destruct (Hs k) as (_ & _ & Hk).
    unfold VoteEscrow.power, entry in Hk. by rewrite Hv in Hk. }
  apply withdraw_all_stake_runs.
  - apply (refines_power _ _ Hr).
  - apply Hs.
  - split; [| apply (refines_range _ _ Hr)]. rewrite (refines_total _ _ Hr). unfold DIV. lia.
  - rewrite <- (refines_power _ _ Hr). exact Hroom.
Qed.

Lemma old_lock_bounds who s :
  ok s → fits BN (end_ (locked_balance who s)) ∧
    end_ (locked_balance who s) ≤ current_height s + MaxPeriod ∧
    (amount (locked_balance who s) = 0 → end_ (locked_balance who s) = 0).
Proof.
  intros [([Hh _] & _) Hl]. unfold locked_balance.
  destruct (Locked s !! who) as [l |] eqn:E; cbn; unfold id.
  - destruct (Hl _ _ E) as (_ & ? & ? & ?). split_and!; [done | done |]. lia.
  - split_and!; [done | lia | done].
Qed.

(** A deposit that keeps the end of the lock. *)
Lemma deposit_more_refines who value s s' a :
  refines s a → 0 ≤ value → deposit_for Span MaxPeriod who value 0 s = Ok (tt, s') →
  ∃ a', VoteEscrow.step MaxPeriod a a' ∧ refines s' a'.
Proof.
  intros Hr Hv Hd. destruct (old_lock_bounds who s (refines_ok _ _ Hr)) as (Hf & He & _).
  eapply deposit_for_refines; [exact Hr | exact Hd | exact Hv | exact Hf |].
  unfold new_lock. cbn [end_ Z.gtb Z.compare]. lia.
Qed.

(** A deposit that moves the end of the lock to a later height. *)
Lemma deposit_until_refines who value h s s' a :
  refines s a → 0 ≤ value → fits BN h → 0 < h →
  end_ (locked_balance who s) ≤ h ≤ current_height s + MaxPeriod →
  deposit_for Span MaxPeriod who value h s = Ok (tt, s') →
  ∃ a', VoteEscrow.step MaxPeriod a a' ∧ refines s' a'.
Proof.
  intros Hr Hv Hf Hpos He Hd. eapply deposit_for_refines; [exact Hr | exact Hd | exact Hv | |];
    unfold new_lock; rewrite Z.gtb_ltb, (proj2 (Z.ltb_lt 0 h)) by done; done.
Qed.

(** A change of nothing the abstract machine sees. *)
Lemma refines_idle s s' a :
  refines s a → Locked s' = Locked s → current_height s' = current_height s →
  point_at (Epoch s') s' = point_at (Epoch s) s →
  (∀ who : AccountId, Reward.stake tt who (rewards s') = Reward.stake tt who (rewards s)) →
  Reward.total_stake tt (rewards s') = Reward.total_stake tt (rewards s) →
  ∃ a', VoteEscrow.step MaxPeriod a a' ∧ refines s' a'.
Proof.
  intros [Hok Hs Hl Hn Hp Ht Hrg] HL Hcur Hpt Hst Htot. exists a. split; [constructor |]. split.
  - apply (ok_after s); [done | lia | rewrite Hcur; apply Hok | rewrite Hpt; apply Hok |].
    rewrite HL. apply Hok.
  - done.
  - by rewrite HL.
  - by rewrite Hcur.
  - intros who. by rewrite Hst.
  - by rewrite Htot.
  - by rewrite Htot.
Qed.

Lemma rounded_in_range h : fits BN h → fits BN (h / Span * Span).
Proof. intros Hh. destruct (round_height_eq Span Span_pos h Hh) as [_ Hr]. unfold fits in *. lia. Qed.

Ltac bool_inv := repeat match goal with
  | H : (_ >? _) = true |- _ => rewrite Z.gtb_ltb in H; apply Z.ltb_lt in H
  | H : (_ <=? _) = true |- _ => apply Z.leb_le in H
  | H : negb _ = true |- _ => apply negb_true_iff, Z.eqb_neq in H
  | H : (_ =? 0) = true |- _ => apply Z.eqb_eq in H
  end.

Ltac rounding Hh :=
  match goal with Hx : round_height Span _ = Ok _ |- _ =>
    rewrite (proj1 (round_height_eq Span Span_pos _ Hh)) in Hx; injection Hx as <- end.

Lemma dispatch_refines origin c s s' a :
  refines s a → well_typed c → dispatch origin c s = Ok (tt, s') →
  ∃ a', VoteEscrow.step MaxPeriod a a' ∧ refines s' a'.
Proof.
  intros Hr Hw Hd. pose proof (refines_ok _ _ Hr) as Hok.
  destruct c as [value h | value | h | | who start end_ | who | who]; cbn [dispatch well_typed] in *.
  - unfold create_lock, ensureR in Hd. outcome_inv. destruct Hw as [Hv Hh]. rounding Hh. bool_inv.
    match goal with Hz : amount (locked_balance ?w s) = 0 |- _ =>
      destruct (old_lock_bounds w s Hok) as (_ & _ & Hend); specialize (Hend Hz) end.
    destruct Hok as [([Hnow _] & _) _]. unfold saturating_add, current_height in *.
    eapply (deposit_until_refines _ value); [exact Hr | apply Hv | by apply rounded_in_range | | | exact Hd];
      unfold current_height; lia.
  - unfold increase_amount, ensureR in Hd. outcome_inv.
    eapply deposit_more_refines; [exact Hr | apply Hw | exact Hd].
  - unfold increase_unlock_height, ensureR in Hd. outcome_inv. rounding Hw. bool_inv.
    match goal with _ : end_ (locked_balance ?w s) < _ |- _ =>
      destruct (old_lock_bounds w s Hok) as ([Hend _] & _) end.
    unfold saturating_add, current_height in *.
    eapply (deposit_until_refines _ 0);
      [exact Hr | done | by apply rounded_in_range | | | exact Hd]; unfold current_height; lia.
  - unfold withdraw in Hd. outcome_inv. by eapply remove_lock_refines.
  - unfold set_account_limit in Hd. outcome_inv. by eapply refines_idle.
  - unfold set_account_block in Hd. outcome_inv. by eapply refines_idle.
  - unfold update_user_stake in Hd. outcome_inv.
    eapply deposit_more_refines; [exact Hr | | exact Hd]. done.
Qed.

Lemma step_refines s s' a :
  refines s a → step s s' → ∃ a', VoteEscrow.step MaxPeriod a a' ∧ refines s' a'.
Proof.
  intros Hr Hs. destruct Hs as [origin c s s' Hw Hd | n s Hle Hfit | currency amount s r Hd
    | who currency reward s r Hd | c s].
  - by eapply dispatch_refines.
  - destruct Hr as [Hok Hsound Hl Hn Hp Ht Hrg].
    exists (VoteEscrow.mkState (VoteEscrow.locks a) (VoteEscrow.powers a) n).
    assert (VoteEscrow.step MaxPeriod a (VoteEscrow.mkState (VoteEscrow.locks a) (VoteEscrow.powers a) n))
      as Hstep by (constructor; by rewrite Hn).
    split; [exact Hstep |]. split; [| | done | done | done | done | done].
    + by apply (ok_after s); [| | | apply Hok | apply Hok].
    + by eapply VoteEscrow.step_sound.
  - unfold RewardsApi.distribute_reward in Hd. outcome_inv.
    match goal with Hx : Reward.distribute_reward _ _ _ ?v _ = _ |- _ =>
      destruct (decide (v = 0)) as [Hz | Hz] end.
    + subst. injection Hd as <-. by apply (refines_idle s).
    + apply distribute_reward_spec in Hd as (_ & _ & _ & _ & _ & Hs & Ht & _); [| done].
      apply (refines_idle s); try done; cbn;
        [intros who; unfold Reward.stake; by rewrite Hs | unfold Reward.total_stake; by rewrite Ht].
  - unfold RewardsApi.withdraw_reward in Hd. outcome_inv.
    match goal with Hx : Reward.withdraw_reward _ _ _ _ = _ |- _ =>
      apply withdraw_reward_spec in Hx as (_ & _ & _ & _ & _ & Hs & Ht & _) end.
    apply (refines_idle s); try done; cbn;
      [intros w; unfold Reward.stake; by rewrite Hs | unfold Reward.total_stake; by rewrite Ht].
  - by apply (refines_idle s).
Qed.

Lemma genesis_refines n c : fits BN n → refines (genesis n c) (VoteEscrow.initial n).
Proof.
  intros Hn. split; [| | done | done | done | done | done].
  - split; [| apply map_Forall_empty]. split; [exact Hn |]. done.
  - apply VoteEscrow.initial_sound.
Qed.

Lemma run_refines n c s :
  fits BN n → rtc step (genesis n c) s →
  ∃ a, rtc (VoteEscrow.step MaxPeriod) (VoteEscrow.initial n) a ∧ refines s a.
Proof.
  intros Hn. revert s. apply rtc_ind_r.
  - exists (VoteEscrow.initial n). split; [done | by apply genesis_refines].
  - intros s1 s2 _ Hs (a & Ha & Hr). destruct (step_refines _ _ _ Hr Hs) as (a' & Hs' & Hr').
    exists a'. split; [by eapply rtc_r | done].
Qed.
End composition.
End EscrowReward.
