(* ===== verification/EscrowRange.v ===== *)
(** * The points of vote escrow stay in range

    The checkpoints compute with saturating and wrapping operations.  Every
    point they store, global or of an account, at any epoch, is a pair of
    [u128]s dated no later than now, and so is every scheduled change of slope. *)

From coqutil Require Import Byte.
From Stdlib Require Import ZArith Lia.
From stdpp Require Import base tactics option list numbers gmap sorting relations.
From S2P Require Import Prelude Bytes Security Escrow EscrowProps FixedPoint Reward EscrowReward.

Local Open Scope Z_scope.
Import Escrow.

(** A point of [u128]s that is not in the future. *)
Definition point_ok (now : Z) (p : Point) : Prop :=
  fits BAL (bias p) ∧ fits BAL (slope p) ∧ 0 ≤ ts p ≤ now.

Lemma saturating_sub_fits w a b : fits w a → 0 ≤ b → fits w (saturating_sub a b).
Proof. unfold fits, saturating_sub. lia. Qed.
Lemma saturating_add_fits w a b : 0 ≤ w → 0 ≤ a → 0 ≤ b → fits w (saturating_add w a b).
Proof. intros Hw Ha Hb. pose proof (Z.pow_pos_nonneg 2 w ltac:(lia) Hw). unfold fits, saturating_add. lia. Qed.
Lemma saturating_mul_fits w a b : 0 ≤ w → 0 ≤ a → 0 ≤ b → fits w (saturating_mul w a b).
Proof. intros Hw Ha Hb. pose proof (Z.pow_pos_nonneg 2 w ltac:(lia) Hw). unfold fits, saturating_mul. nia. Qed.
Lemma saturating_sub_nonneg a b : 0 ≤ saturating_sub a b.
Proof. unfold saturating_sub. lia. Qed.
Lemma wrap_nonneg w a : 0 ≤ w → 0 ≤ wrap w a.
Proof. intros Hw. pose proof (Z.pow_pos_nonneg 2 w ltac:(lia) Hw). unfold wrap. apply Z.mod_pos_bound. lia. Qed.
Lemma fits_nonneg w a : fits w a → 0 ≤ a.
Proof. by intros []. Qed.

Create HintDb range discriminated.
#[export] Hint Resolve saturating_sub_fits saturating_add_fits saturating_mul_fits saturating_sub_nonneg
  wrap_nonneg fits_nonneg : range.
#[export] Hint Extern 1 (0 ≤ BAL) => discriminate : range.

Lemma default_point_ok now : 0 ≤ now → point_ok now default_point.
Proof. intros Hn. split_and!; done. Qed.
Lemma point_ok_later now now' p : now ≤ now' → point_ok now p → point_ok now' p.
Proof. intros Hle (Hb & Hs & Ht). split_and!; [done | done | lia..]. Qed.

Section range.
Context `{Env} (Span MaxPeriod : Z) (Span_pos : 0 < Span) (MaxPeriod_pos : 0 < MaxPeriod).

Record in_range (s : Storage) : Prop := {
  range_now : fits BN (current_height s);
  range_locks : map_Forall (λ _ l, fits BAL (amount l)) (Locked s);
  range_points : map_Forall (λ _, point_ok (current_height s)) (PointHistory s);
  range_user_points : map_Forall (λ _, point_ok (current_height s)) (UserPointHistory s);
  range_slopes : map_Forall (λ _, fits BAL) (SlopeChanges s);
}.

Lemma slope_change_fits s h : in_range s → fits BAL (slope_change h s).
Proof.
  intros Hs. unfold slope_change. destruct (SlopeChanges s !! h) eqn:E; [by eapply (range_slopes s Hs) | done].
Qed.
Lemma point_at_ok s e : in_range s → point_ok (current_height s) (point_at e s).
Proof.
  intros Hs. unfold point_at. destruct (PointHistory s !! e) eqn:E; [by eapply (range_points s Hs) |].
  apply default_point_ok, (range_now s Hs).
Qed.
Lemma locked_fits s who : in_range s → fits BAL (amount (locked_balance who s)).
Proof.
  intros Hs. unfold locked_balance. destruct (Locked s !! who) eqn:E; [by eapply (range_locks s Hs) | done].
Qed.

Lemma lock_point_ok l now : 0 ≤ now → fits BAL (amount l) → point_ok now (lock_point MaxPeriod l now).
Proof.
  intros Hn Ha. unfold lock_point. destruct (_ && _); [| by apply default_point_ok].
  unfold point_new, checked_div. rewrite (proj2 (Z.eqb_neq MaxPeriod 0)) by lia. cbn [default from_option].
  unfold id. assert (fits BAL (amount l / MaxPeriod)) as Hq.
  { destruct Ha. split; [apply Z.div_pos; lia |]. apply Z.div_lt_upper_bound; nia. }
  split_and!; cbn [bias slope ts]; [eauto with range | done | lia..].
Qed.

(** Each write keeps the ranges. *)
Lemma range_history s e p :
  in_range s → point_ok (current_height s) p → in_range (with_PointHistory (<[e := p]>) s).
Proof. intros [] Hp. split; try done. by apply map_Forall_insert_2. Qed.
Lemma range_slope s h d : in_range s → fits BAL d → in_range (with_SlopeChanges (<[h := d]>) s).
Proof. intros [] Hp. split; try done. by apply map_Forall_insert_2. Qed.
Lemma range_user_history s k p :
  in_range s → point_ok (current_height s) p → in_range (with_UserPointHistory (<[k := p]>) s).
Proof. intros [] Hp. split; try done. by apply map_Forall_insert_2. Qed.
Lemma range_lock s who l : in_range s → fits BAL (amount l) → in_range (with_Locked (<[who := l]>) s).
Proof. intros [] Hl. split; try done. by apply map_Forall_insert_2. Qed.
Lemma range_unlock s who : in_range s → in_range (with_Locked (delete who) s).
Proof. intros []. split; try done. by apply map_Forall_delete. Qed.
Lemma range_clear s who : in_range s → in_range (with_UserPointHistory (clear_history who) s).
Proof.
  intros []. split; try done. intros k p Hp. apply map_lookup_filter_Some in Hp as [Hp _].
  by apply range_user_points0 in Hp.
Qed.
Lemma range_epoch s e : in_range s → in_range (with_Epoch e s).
Proof. by intros []. Qed.
Lemma range_user_epoch s f : in_range s → in_range (with_UserPointEpoch f s).
Proof. by intros []. Qed.
Lemma range_call s s' f u : in_range s → call f s = Ok (u, s') → in_range s'.
Proof. intros [] Hc. unfold call in Hc. apply bind_Ok in Hc as (e & _ & [= _ <-]). by split. Qed.

Lemma checkpoint_loop_range fuel now t last epoch p e p' s s' :
  in_range s → now = current_height s → 0 ≤ t → point_ok now p →
  checkpoint_loop Span fuel now t last epoch p s = Ok ((e, p'), s') →
  in_range s' ∧ current_height s' = now ∧ point_ok now p'.
Proof.
  revert t last epoch p s. induction fuel as [| fuel IH]; intros t last epoch p s Hs Hn Ht Hp Hr; [done |].
  cbn [checkpoint_loop] in Hr. destruct (negb _); [by injection Hr as <- <- <- |]. revert Hr. run.
  pose proof (range_now s Hs) as [Hn0 _]. unfold current_height in *. rewrite <- Hn in Hn0.
  assert (0 ≤ saturating_add BN t Span) as Hadd by (unfold saturating_add; change (2 ^ BN - 1) with 4294967295; lia).
  set (next := if saturating_add BN t Span >? now then now else saturating_add BN t Span).
  assert (0 ≤ next ≤ now) as Hnext.
  { unfold next. destruct (Z.gtb_spec (saturating_add BN t Span) now); lia. }
  set (d := if saturating_add BN t Span >? now then 0 else slope_change (saturating_add BN t Span) s).
  assert (0 ≤ d) as Hd by (unfold d; destruct (_ >? _); [done | by apply slope_change_fits]).
  replace (if saturating_add BN t Span >? now then (now, 0)
    else (saturating_add BN t Span, slope_change (saturating_add BN t Span) s)) with (next, d)
    by (unfold next, d; by destruct (_ >? _)).
  destruct Hp as (Hb & Hsl & _). set (q := mkPoint _ _ next).
  assert (point_ok now q) as Hq.
  { split_and!; [apply saturating_sub_fits; [done |]; by apply wrap_nonneg
      | apply saturating_add_fits; [done | eauto with range..] | cbn; lia..]. }
  destruct (_ =? _); [intros [= <- <- <-]; done |]. run.
  apply IH; [| done | lia | done]. apply range_history; [done |]. unfold current_height. by rewrite <- Hn.
Qed.

Lemma checkpoint_range who old_locked new_locked s u s' :
  in_range s → fits BAL (amount old_locked) → fits BAL (amount new_locked) →
  checkpoint Span MaxPeriod who old_locked new_locked s = Ok (u, s') → in_range s'.
Proof.
  intros Hs Ho Hw. unfold checkpoint. run. pose proof (range_now s Hs) as Hnow.
  pose proof (point_at_ok s (Epoch s) Hs) as Hp.
  destruct (round_height_eq Span Span_pos (ts (point_at (Epoch s) s))) as [-> Hr];
    [destruct Hnow; destruct Hp as (_ & _ & ?); lia |]. run.
  intros Hc. apply M_bind_Ok in Hc as ([e p] & s1 & Hl & Hc).
  apply checkpoint_loop_range in Hl as (Hs1 & Hcur & Hp1); [| done | done | apply Hr | done].
  set (uo := lock_point MaxPeriod old_locked (current_height s)) in *.
  set (un := lock_point MaxPeriod new_locked (current_height s)) in *.
  assert (point_ok (current_height s) uo ∧ point_ok (current_height s) un) as [Huo Hun]
    by (split; apply lock_point_ok; done || apply Hnow).
  revert Hc. cbv beta iota. run. set (od := saturating_add BAL (slope_change (end_ old_locked) s) (slope uo)).
  set (nd := if negb (end_ new_locked =? 0) then _ else 0). set (np := mkPoint _ _ (ts p)).
  destruct Hp1 as (Hb & Hsl & Ht), Huo as (Hbo & Hso & _). pose proof Hun as (Hbn & Hsn & _).
  assert (fits BAL od) as Hod.
  { apply saturating_add_fits; [done | by apply slope_change_fits | apply Hso]. }
  assert (fits BAL nd) as Hnd.
  { unfold nd. repeat case_match; try by apply slope_change_fits. done. }
  assert (point_ok (current_height s) np) as Hnp.
  { split_and!; cbn [bias slope ts np]; [apply saturating_add_fits; eauto with range.. | lia | lia]. }
  assert (in_range (with_PointHistory (<[e := np]>) (with_Epoch e s1))) as Hs2.
  { apply range_history; [by apply range_epoch |]. unfold current_height in *. cbn [block_number with_Epoch].
    by rewrite Hcur. }
  intros [= _ <-]. apply range_user_history; [apply range_user_epoch |].
  - destruct (end_ old_locked >? _), ((end_ new_locked >? _) && _); cbn iota;
      repeat (apply range_slope; [| repeat case_match; eauto with range]); exact Hs2.
  - destruct (end_ old_locked >? _), ((end_ new_locked >? _) && _); unfold current_height in *;
      cbn [block_number with_UserPointEpoch with_SlopeChanges with_PointHistory with_Epoch];
      by rewrite Hcur.
Qed.

(** ** The extrinsics *)

Lemma range_events s e : in_range s → in_range (with_event e s).
Proof. by intros []. Qed.
Lemma range_ext s e : in_range s → in_range (with_ext e s).
Proof. by intros []. Qed.

Lemma deposit_for_range who value h s u s' :
  in_range s → 0 ≤ value → deposit_for Span MaxPeriod who value h s = Ok (u, s') → in_range s'.
Proof.
  intros Hs Hv Hd. unfold deposit_for, ensureR in Hd. outcome_inv. pose proof (locked_fits s who Hs) as Ho.
  assert (fits BAL (saturating_add BAL (amount (locked_balance who s)) value)) as Hn
    by (apply saturating_add_fits; [done | apply Ho | done]).
  repeat match goal with
  | H : checkpoint _ _ _ _ _ _ = Ok _ |- _ =>
      apply checkpoint_range in H; [| apply range_lock; [by apply range_ext | exact Hn] | done | exact Hn]
  | H : call _ _ = Ok _ |- _ => apply range_call in H; [| done]
  end.
  by apply range_events.
Qed.

Lemma remove_lock_range who s u s' :
  in_range s → remove_lock_of Span MaxPeriod who s = Ok (u, s') → in_range s'.
Proof.
  intros Hs Hd. unfold remove_lock_of, ensureR in Hd. outcome_inv. pose proof (locked_fits s who Hs) as Ho.
  repeat match goal with
  | H : call _ _ = Ok _ |- _ => apply range_call in H; [| by apply range_unlock]
  | H : checkpoint _ _ _ _ _ _ = Ok _ |- _ => apply checkpoint_range in H; [| done | done | done]
  end.
  by apply range_events, range_clear, range_ext.
Qed.
End range.

(** ** Every reachable state of the composition *)
Section composition.
Import EscrowReward.
Context `{LockableCurrency} {CurrencyId : Type} `{Countable CurrencyId}.
Context (currency_le : relation CurrencyId) `{!RelDecision currency_le}.
Context `{SignedFixedPoint} (MaxRewardCurrencies pallet_index Span MaxPeriod : Z).
Context (Span_pos : 0 < Span) (MaxPeriod_pos : 0 < MaxPeriod).
#[local] Existing Instance escrow_env.

Lemma dispatch_range origin c s s' :
  in_range s → well_typed c →
  dispatch currency_le pallet_index Span MaxPeriod origin c s = Ok (tt, s') → in_range s'.
Proof.
  intros Hs Hw Hd. destruct c; cbn [dispatch well_typed] in *.
  - unfold create_lock, ensureR in Hd. outcome_inv. apply deposit_for_range in Hd; try done. apply Hw.
  - unfold increase_amount, ensureR in Hd. outcome_inv. apply deposit_for_range in Hd; try done. apply Hw.
  - unfold increase_unlock_height, ensureR in Hd. outcome_inv. by apply deposit_for_range in Hd.
  - unfold withdraw in Hd. outcome_inv. by apply remove_lock_range in Hd.
  - unfold set_account_limit in Hd. outcome_inv. by destruct Hs.
  - unfold set_account_block in Hd. outcome_inv. by destruct Hs.
  - unfold update_user_stake in Hd. outcome_inv. by apply deposit_for_range in Hd.
Qed.

Lemma reachable_in_range n c s :
  fits BN n →
  rtc (step currency_le MaxRewardCurrencies pallet_index Span MaxPeriod)
    (genesis currency_le pallet_index n c) s → in_range s.
Proof.
  intros Hn. revert s. apply rtc_ind_r.
  - split; [done | apply map_Forall_empty..].
  - intros s s' _ Hs Hr. destruct Hs as [origin call s s' Hw Hd | m s Hle Hfit | | |].
    + by eapply dispatch_range.
    + destruct Hr. split; [done | done | | | done]; eapply map_Forall_impl; try done;
        intros; by eapply point_ok_later.
    + by apply range_ext.
    + by apply range_ext.
    + by apply range_ext.
Qed.
End composition.
