(* ===== verification/EscrowRewardProps.v ===== *)
(** * What the composition of escrow and reward guarantees

    The refinement of the abstract vote escrow, the invariants that follow, and
    that locked funds are released after the end of the lock; with a concrete run. *)

From coqutil Require Import Byte.
From Stdlib Require Import ZArith Lia.
From stdpp Require Import base tactics option list numbers gmap sorting relations.
From S2P Require Import Prelude Bytes Security Escrow EscrowProps FixedPoint Reward RewardProps EscrowReward EscrowRange.

Local Open Scope Z_scope.
Import Escrow EscrowReward.

Section theorems.
Context `{LockableCurrency} {CurrencyId : Type} `{Countable CurrencyId}.
Context (currency_le : relation CurrencyId) `{!RelDecision currency_le}.
Context `{SignedFixedPoint} (MaxRewardCurrencies pallet_index Span MaxPeriod : Z).
Context (Span_pos : 0 < Span) (MaxPeriod_pos : 0 < MaxPeriod).

#[local] Existing Instance escrow_env.
Abbreviation reachable n c :=
  (rtc (step currency_le MaxRewardCurrencies pallet_index Span MaxPeriod)
    (genesis currency_le pallet_index n c)).
Implicit Types who : AccountId.

(** C35: escrow with the reward pallet implements a vote escrow: any sequence of extrinsics,
    new blocks, reward distributions and collections is matched by a run of the abstract
    machine with the same locks, in which the reward stake of every account is the voting
    power its lock had when it was last touched, and the total stake the sum of these. *)
Theorem escrow_refines_vote_escrow n c s :
  fits BN n → reachable n c s →
  ∃ a, rtc (VoteEscrow.step MaxPeriod) (VoteEscrow.initial n) a ∧
    VoteEscrow.locks a = Locked s ∧ VoteEscrow.now a = current_height s ∧
    (∀ who, Reward.stake tt who (rewards _ _ s) = VoteEscrow.power who a * DIV) ∧
    Reward.total_stake tt (rewards _ _ s) = VoteEscrow.total_power a * DIV.
Proof.
  intros Hn (a & Ha & [_ _ Hl Ht Hp Htot])%run_refines; [| done..]. by exists a.
Qed.

(** In every reachable state an account's reward stake is at most what it has
    locked, at least what its lock is worth now, and never negative. *)
Theorem reward_stake_bounded n c s who :
  fits BN n → reachable n c s →
  0 ≤ Reward.stake tt who (rewards _ _ s) ≤ amount (locked_balance who s) * DIV ∧
  VoteEscrow.power_of MaxPeriod (locked_balance who s) (current_height s) * DIV
    ≤ Reward.stake tt who (rewards _ _ s).
Proof.
  intros Hn (a & _ & Hr)%run_refines; [| done..].
  pose proof (refines_sound _ _ _ _ _ Hr who) as (Hb & _ & Hpos).
  rewrite (lock_of_refines _ _ _ _ _ who Hr), (refines_now _ _ _ _ _ Hr) in Hb.
  rewrite (refines_power _ _ _ _ _ Hr). unfold DIV. lia.
Qed.

(** C36: every reachable state is well formed: the block number is in range; every point that
    is stored, global or of an account, at whatever epoch, has a bias and a slope that are
    balances and is dated no later than now; every scheduled change of slope is a balance;
    and every lock is a balance of at least [MaxPeriod] that ends at most [MaxPeriod] after now. *)
Theorem reachable_well_formed n c s :
  fits BN n → reachable n c s →
  fits BN (current_height s) ∧
  (∀ epoch p, PointHistory s !! epoch = Some p →
     fits BAL (bias p) ∧ fits BAL (slope p) ∧ 0 ≤ ts p ≤ current_height s) ∧
  (∀ who epoch p, UserPointHistory s !! (who, epoch) = Some p →
     fits BAL (bias p) ∧ fits BAL (slope p) ∧ 0 ≤ ts p ≤ current_height s) ∧
  (∀ height change, SlopeChanges s !! height = Some change → fits BAL change) ∧
  ∀ who l, Locked s !! who = Some l →
    fits BAL (amount l) ∧ fits BN (end_ l) ∧ MaxPeriod ≤ amount l ∧
    end_ l ≤ current_height s + MaxPeriod.
Proof.
  intros Hn Hs.
  destruct (reachable_in_range _ _ _ _ _ Span_pos MaxPeriod_pos n c s Hn Hs) as [Hnow _ Hp Hu Hsl].
  destruct (run_refines _ _ _ _ _ Span_pos MaxPeriod_pos n c s Hn Hs) as (a & _ & Hr).
  destruct (refines_ok _ _ _ _ _ Hr) as [_ Hl].
  split_and!; [exact Hnow | exact Hp | intros who e; apply Hu | exact Hsl | exact Hl].
Qed.

(** C37: locked funds are never stuck: at any height from the end of its lock on, the account
    can withdraw, which succeeds, and removes the lock and its whole reward stake.  Only the
    fixed-point numbers of the reward pallet need room: for every reward currency, the
    product of the rate and the stake of the account, and its tally, are below half of their range. *)
Theorem locked_funds_released n c s who m :
  fits BN n → reachable n c s →
  current_height s ≤ m → end_ (locked_balance who s) ≤ m → fits BN m →
  let r := rewards _ _ s in
  (∀ currency, currency ∈ Reward.reward_currencies tt r →
     Z.abs (Reward.reward_per_token currency tt r * Reward.stake tt who r) < 2 ^ 126 * DIV ∧
     Z.abs (Reward.reward_tally currency tt who r) < 2 ^ 126) →
  ∃ s', withdraw Span MaxPeriod (Signed who) (with_block_number _ _ m s) = Ok (tt, s') ∧
    Locked s' !! who = None ∧ Reward.stake tt who (rewards _ _ s') = 0 ∧
    balance_at who None s' = 0.
Proof.
  intros Hn Hrun Hle Hend Hm r Hroom.
  destruct (run_refines _ _ _ _ _ Span_pos MaxPeriod_pos n c s Hn Hrun) as (a & _ & Hr).
  pose proof (refines_ok _ _ _ _ _ Hr) as Hok.
  destruct (refines_withdraw_runs _ _ _ who s a Hr Hroom) as [r' Hw].
  set (s1 := with_block_number _ _ m s).
  assert (escrow_bounds s1) as Hb by (split; [exact Hm | apply Hok]).
  destruct (remove_lock_of_runs Span MaxPeriod Span_pos who s1 (fst (ext s), r')) as (s' & Hs');
    [done | done | |].
  { cbn. unfold rewards in Hw. by rewrite Hw. }
  destruct (remove_lock_of_inv Span MaxPeriod Span_pos who s1 s' Hb Hs')
    as (_ & HL & Hbal & (e & He & Hext) & _).
  exists s'. split; [exact Hs' |]. split; [rewrite HL; apply lookup_delete_eq |]. split; [| done].
  eapply (ext_withdraw_all _ _ _ _ _ (λ other, VoteEscrow.power other a)) in He as [Hst _].
  - specialize (Hst who). rewrite decide_True in Hst by done. unfold rewards. by rewrite Hext.
  - split; [apply (refines_power _ _ _ _ _ Hr) | apply (refines_total _ _ _ _ _ Hr)].
  - apply (refines_sound _ _ _ _ _ Hr).
Qed.

End theorems.

(** ** A run with numbers *)

Record Balances : Type := mkBalances { free : gmap AccountId Z; frozen : gmap AccountId Z }.

#[local] Instance balances_currency : LockableCurrency := {|
  Currency := Balances;
  currency_free b who := default 0 (free b !! who);
  currency_minimum _ := 0;
  currency_set_lock who v b := mkBalances (free b) (<[who := v]> (frozen b));
  currency_remove_lock who b := mkBalances (free b) (delete who (frozen b));
|}.
#[local] Existing Instance floor_fixed.
#[local] Existing Instance escrow_env.

Definition CAROL : AccountId := [u8 3].
Definition balances : Currency := mkBalances {[CAROL := 5000]} ∅.

Abbreviation run_reachable :=
  (rtc (step Z.le 2 0 10 100) (genesis Z.le 0 7 balances)).

(** Carol locks 1000 at height 7 until height 100; at height 57 a reward is
    distributed and she updates her stake. *)
Abbreviation start_state := (@genesis balances_currency Z _ _ Z.le _ floor_fixed 0 7 balances).
Definition after (m : M Storage (DispatchError Error) unit) (s : @Storage (escrow_env Z.le 0))
  : @Storage (escrow_env Z.le 0) :=
  match m s with Ok (_, s') => s' | _ => s end.
Lemma after_ok m s : is_ok (m s) = true → m s = Ok (tt, after m s).
Proof. unfold after. by destruct (m s) as [[[] s'] | | |]. Qed.

Definition locked_state : @Storage (escrow_env Z.le 0) :=
  after (create_lock 10 100 (Signed CAROL) 1000 107) start_state.
Definition later_state : @Storage (escrow_env Z.le 0) :=
  with_block_number Z.le 0 57 locked_state.
Definition rewards_after := snd (default (tt, rewards Z.le 0 later_state)
  (match RewardsApi.distribute_reward 2 tt 0 8600 (rewards Z.le 0 later_state) with
   | Ok r => Some r | _ => None end)).
Lemma rewards_after_ok :
  is_ok (RewardsApi.distribute_reward 2 tt 0 8600 (rewards Z.le 0 later_state)) = true →
  RewardsApi.distribute_reward 2 tt 0 8600 (rewards Z.le 0 later_state) = Ok (tt, rewards_after).
Proof.
  unfold rewards_after.
  by destruct (RewardsApi.distribute_reward 2 tt 0 8600 (rewards Z.le 0 later_state)) as [[[] r] | | |].
Qed.
Definition rewarded_state : @Storage (escrow_env Z.le 0) :=
  with_rewards Z.le 0 rewards_after later_state.
Definition updated_state : @Storage (escrow_env Z.le 0) :=
  after (update_user_stake 10 100 (Signed CAROL) CAROL) rewarded_state.

Abbreviation step10 := (step Z.le 2 0 10 100).

Lemma lock_step : step10 start_state locked_state.
Proof.
  apply (step_call _ _ _ _ _ (Signed CAROL) (CreateLock 1000 107)).
  - split; split; vm_compute; (discriminate || reflexivity).
  - apply after_ok. vm_refl.
Qed.

Lemma later_step : step10 locked_state later_state.
Proof.
  apply (step_block _ _ _ _ _ 57);
    [vm_compute; discriminate | split; vm_compute; (discriminate || reflexivity)].
Qed.

Lemma reward_step : step10 later_state rewarded_state.
Proof. 
  apply (step_distribute _ _ _ _ _ 0 8600 later_state rewards_after). apply rewards_after_ok. vm_refl.
Qed.

Lemma update_step : step10 rewarded_state updated_state.
Proof.
  apply (step_call _ _ _ _ _ (Signed CAROL) (UpdateUserStake CAROL)); [done |].
  apply after_ok. vm_refl.
Qed.

Lemma updated_reachable : run_reachable updated_state.
Proof.
  eapply rtc_l; [exact lock_step |]. eapply rtc_l; [exact later_step |].
  eapply rtc_l; [exact reward_step |]. apply rtc_once. exact update_step.
Qed.

Lemma seven_fits : fits BN 7.
Proof. split; vm_compute; (discriminate || reflexivity). Qed.
Lemma hundred_fits : fits BN 100.
Proof. split; vm_compute; (discriminate || reflexivity). Qed.

Lemma escrow_refines_vote_escrow_witness :
  ∃ a, rtc (VoteEscrow.step 100) (VoteEscrow.initial 7) a ∧ VoteEscrow.total_power a * DIV = 430 * DIV.
Proof.
  destruct (escrow_refines_vote_escrow Z.le 2 0 10 100 eq_refl eq_refl 7 balances updated_state
    seven_fits updated_reachable) as (a & Ha & _ & _ & _ & Ht).
  exists a. split; [exact Ha | rewrite <- Ht; vm_refl].
Defined.

Lemma reward_stake_bounded_witness :
  0 ≤ 430 * DIV ≤ 1000 * DIV ∧
  VoteEscrow.power_of 100 (locked_balance CAROL updated_state) (current_height updated_state) * DIV
    ≤ 430 * DIV.
Proof.
  exact (reward_stake_bounded Z.le 2 0 10 100 eq_refl eq_refl 7 balances updated_state CAROL
    seven_fits updated_reachable).
Defined.

Lemma reachable_well_formed_witness :
  Locked updated_state !! CAROL = Some (mkLocked 1000 100) ∧
  fits BN 57 ∧ (fits BAL 430 ∧ fits BAL 10 ∧ 0 ≤ 57 ≤ 57) ∧ 100 ≤ 1000 ∧ 100 ≤ 57 + 100.
Proof.
  assert (Locked updated_state !! CAROL = Some (mkLocked 1000 100)) as Hl by vm_refl.
  assert (UserPointHistory updated_state !! (CAROL, 2) = Some (mkPoint 430 10 57)) as Hp by vm_refl.
  split; [exact Hl |].
  destruct (reachable_well_formed Z.le 2 0 10 100 eq_refl eq_refl 7 balances updated_state
    seven_fits updated_reachable) as (H1 & _ & H3 & _ & H5).
  split; [exact H1 |]. split; [exact (H3 CAROL 2 _ Hp) |].
  exact (proj2 (proj2 (H5 CAROL _ Hl))).
Defined.

Lemma locked_funds_released_witness :
  Reward.reward_currencies tt (rewards Z.le 0 updated_state) = {[0]} ∧
  ∃ s', withdraw 10 100 (Signed CAROL) (with_block_number Z.le 0 100 updated_state) = Ok (tt, s') ∧
    Locked s' !! CAROL = None.
Proof.
  assert (Reward.reward_currencies tt (rewards Z.le 0 updated_state) = {[0]}) as Hc by vm_refl.
  split; [exact Hc |].
  destruct (locked_funds_released Z.le 2 0 10 100 eq_refl eq_refl 7 balances updated_state CAROL 100
    seven_fits updated_reachable) as (s' & Hw & Hl & _);
    [by vm_compute | by vm_compute | exact hundred_fits | |].
  - intros currency Hin. rewrite Hc in Hin. apply elem_of_singleton in Hin as ->. split; by vm_compute.
  - exists s'. split; [exact Hw | exact Hl].
Defined.
