(* ===== verification/Tokens.v ===== *)
(** * Errors of the bridge pallets, and the token ledger

    The [Error] enum of every pallet behind issue, redeem and replace, and
    their sum: pallets call each other and pass each other's [DispatchError]s on.

    [orml_tokens] keeps a free and a reserved balance of every account in every
    currency.  The pallets move tokens only through its [MultiCurrency] and
    [MultiReservableCurrency] interface: a class, with the documented effect of
    each operation on the balances and on the total issuance (the runtime sets
    every existential deposit to zero, so no dust is removed), and the ledger
    as a finite map as an implementation. *)

From coqutil Require Import Byte.
From Stdlib Require Import ZArith Lia.
From stdpp Require Import base tactics option list numbers gmap.
From S2P Require Import Prelude Bytes Security Relay Primitives Reward Staking.

Module CurrencyError.
Inductive t : Type := TryIntoIntError | InvalidCurrency.
End CurrencyError.

Module FeeError.
Inductive t : Type := TryIntoIntError | AboveMaxExpectedValue.
End FeeError.

Module OracleError.
Inductive t : Type := InvalidOracleSource | MissingExchangeRate | TryIntoIntError.
End OracleError.

Module VaultRegistryError.
Inductive t : Type :=
  | InsufficientCollateral | ExceedingVaultLimit | InsufficientTokensCommitted | VaultBanned
  | InsufficientVaultCollateralAmount | VaultAlreadyRegistered | VaultNotFound
  | VaultNotBelowLiquidationThreshold | InvalidPublicKey | CurrencyCeilingExceeded
  | VaultLiquidated | VaultNotRecoverable | NoBitcoinPublicKey | PublicKeyAlreadyRegistered
  | NoTokensIssued | NoVaultWithSufficientCollateral | NoVaultWithSufficientTokens
  | NoVaultUnderThePremiumRedeemThreshold | InvalidCurrency | ThresholdNotSet | CeilingNotSet
  | ThresholdNotAboveGlobalThreshold | TryIntoIntError | VaultNotAcceptingIssueRequests
  | MinimumCollateralNotSet.
End VaultRegistryError.

Module NominationError.
Inductive t : Type :=
  | VaultAlreadyOptedInToNomination | VaultNotOptedInToNomination | VaultNotFound
  | CannotWithdrawCollateral | VaultNominationDisabled | NominationExceedsLimit
  | CollateralizationTooLow.
End NominationError.

Module IssueError.
Inductive t : Type :=
  | IssueIdNotFound | CommitPeriodExpired | TimeNotExpired | IssueCompleted | IssueCancelled
  | VaultNotAcceptingNewIssues | WaitingForRelayerInitialization | InvalidExecutor
  | AmountBelowDustAmount.
End IssueError.

Module RedeemError.
Inductive t : Type :=
  | AmountExceedsUserBalance | UnauthorizedRedeemer | UnauthorizedVault | TimeNotExpired
  | RedeemCancelled | RedeemCompleted | RedeemIdNotFound | TryIntoIntError
  | AmountBelowDustAmount.
End RedeemError.

Module ReplaceError.
Inductive t : Type :=
  | ReplaceAmountZero | AmountBelowDustAmount | NoPendingRequest | UnauthorizedVault
  | ReplaceSelfNotAllowed | VaultHasEnabledNomination | ReplacePeriodNotExpired
  | ReplaceCompleted | ReplaceCancelled | ReplaceIdNotFound | InvalidWrappedCurrency.
End ReplaceError.

Module LoansError.
Inductive t : Type :=
  | InsufficientLiquidity | InsufficientDeposit | TooMuchRepay | InsufficientCollateral
  | LiquidatorIsBorrower | DepositsAreNotCollateral | InsufficientShortfall | InsufficientReserves
  | InvalidRateModelParam | MarketNotActivated | InvalidLendTokenId | MarketDoesNotExist
  | MarketAlreadyActivated | MarketAlreadyExists | NewMarketMustHavePendingState
  | SupplyCapacityExceeded | BorrowCapacityExceeded | InsufficientCash | InvalidFactor
  | InvalidSupplyCap | InvalidExchangeRate | InvalidAmount | DepositAllCollateralFailed
  | WithdrawAllCollateralFailed | TokensAlreadyLocked | LockedTokensCannotBeRedeemed.
End LoansError.

(** Errors of [orml_tokens]: the one the source names, and any other. *)
Module TokensError.
Inductive t : Type := BalanceTooLow | Other (error : Z).
End TokensError.

Inductive PalletError : Type :=
  | CurrencyE (e : CurrencyError.t)
  | FeeE (e : FeeError.t)
  | OracleE (e : OracleError.t)
  | VaultRegistryE (e : VaultRegistryError.t)
  | NominationE (e : NominationError.t)
  | IssueE (e : IssueError.t)
  | RedeemE (e : RedeemError.t)
  | ReplaceE (e : ReplaceError.t)
  | LoansE (e : LoansError.t)
  | TokensE (e : TokensError.t)
  | RewardE (e : Reward.Error)
  | StakingE (e : Staking.Error)
  | RelayE (e : RelayError).

Abbreviation BError := (DispatchError PalletError).

(** The [DispatchError] of one pallet as a [DispatchError] of the runtime. *)
Definition from_pallet {E} (f : E → PalletError) (e : DispatchError E) : BError :=
  match e with
  | ModuleError e => ModuleError (f e)
  | ForeignError index error => ForeignError index error
  | Arithmetic e => Arithmetic e
  | BadOrigin => BadOrigin
  end.

Local Open Scope Z_scope.

Abbreviation TError := (DispatchError TokensError.t).

(** The amount [v] at the balance of [x] in [c], zero at any other. *)
Definition at_balance (c d : CurrencyId.t) (x y : AccountId) (v : Z) : Z :=
  if decide (c = d ∧ x = y) then v else 0.
Definition at_currency (c d : CurrencyId.t) (v : Z) : Z := if decide (c = d) then v else 0.

(** How a ledger operation changes the balances and the issuance of [c]. *)
Record moved {L} (free reserved : CurrencyId.t → AccountId → L → Z) (issuance : CurrencyId.t → L → Z)
    (dfree dreserved : CurrencyId.t → AccountId → Z) (dissuance : CurrencyId.t → Z) (l l' : L) : Prop := {
  moved_free d y : free d y l' = free d y l + dfree d y;
  moved_reserved d y : reserved d y l' = reserved d y l + dreserved d y;
  moved_issuance d : issuance d l' = issuance d l + dissuance d;
}.

Class MultiCurrency : Type := {
  ledger : Type;
  free_balance : CurrencyId.t → AccountId → ledger → Z;
  reserved_balance : CurrencyId.t → AccountId → ledger → Z;
  total_issuance : CurrencyId.t → ledger → Z;
  ml_transfer : CurrencyId.t → AccountId → AccountId → Z → M ledger TError unit;
  ml_reserve : CurrencyId.t → AccountId → Z → M ledger TError unit;
  ml_deposit : CurrencyId.t → AccountId → Z → M ledger TError unit;
  (** what could not be unreserved or slashed, and the ledger *)
  ml_unreserve : CurrencyId.t → AccountId → Z → ledger → Z * ledger;
  ml_slash_reserved : CurrencyId.t → AccountId → Z → ledger → Z * ledger;
  reserved_nonneg c x l : 0 ≤ reserved_balance c x l;
  transfer_moves c x y v l l' :
    ml_transfer c x y v l = Ok (tt, l') →
    moved free_balance reserved_balance total_issuance
      (λ d z, at_balance c d y z v - at_balance c d x z v) (λ _ _, 0) (λ _, 0) l l';
  reserve_moves c x v l l' :
    ml_reserve c x v l = Ok (tt, l') →
    moved free_balance reserved_balance total_issuance
      (λ d z, - at_balance c d x z v) (λ d z, at_balance c d x z v) (λ _, 0) l l';
  deposit_moves c x v l l' :
    ml_deposit c x v l = Ok (tt, l') →
    moved free_balance reserved_balance total_issuance
      (λ d z, at_balance c d x z v) (λ _ _, 0) (λ d, at_currency c d v) l l';
  unreserve_moves c x v l r l' :
    ml_unreserve c x v l = (r, l') →
    r = v - Z.min v (reserved_balance c x l) ∧
    moved free_balance reserved_balance total_issuance
      (λ d z, at_balance c d x z (v - r)) (λ d z, - at_balance c d x z (v - r)) (λ _, 0) l l';
  slash_reserved_moves c x v l r l' :
    ml_slash_reserved c x v l = (r, l') →
    r = v - Z.min v (reserved_balance c x l) ∧
    moved free_balance reserved_balance total_issuance
      (λ _ _, 0) (λ d z, - at_balance c d x z (v - r)) (λ d, - at_currency c d (v - r)) l l';
}.

(** ** A ledger of finite maps *)
Module MapLedger.
Record t : Type := mkLedger {
  free : gmap (CurrencyId.t * AccountId) Z;
  reserved : gmap (CurrencyId.t * AccountId) N;
  issuance : gmap CurrencyId.t Z;
}.
Definition free_of (c : CurrencyId.t) (x : AccountId) (l : t) : Z := default 0 (free l !! (c, x)).
Definition reserved_of (c : CurrencyId.t) (x : AccountId) (l : t) : Z :=
  Z.of_N (default 0%N (reserved l !! (c, x))).
Definition issuance_of (c : CurrencyId.t) (l : t) : Z := default 0 (issuance l !! c).

Definition add_free (c : CurrencyId.t) (x : AccountId) (v : Z) (l : t) : t :=
  mkLedger (<[(c, x) := free_of c x l + v]> (free l)) (reserved l) (issuance l).
Definition add_reserved (c : CurrencyId.t) (x : AccountId) (v : Z) (l : t) : t :=
  mkLedger (free l) (<[(c, x) := Z.to_N (reserved_of c x l + v)]> (reserved l)) (issuance l).
Definition add_issuance (c : CurrencyId.t) (v : Z) (l : t) : t :=
  mkLedger (free l) (reserved l) (<[c := issuance_of c l + v]> (issuance l)).

Definition withdraw_free (c : CurrencyId.t) (x : AccountId) (v : Z) : M t TError unit :=
  b ← gets (free_of c x);
  ensureM (v <=? b) (ModuleError TokensError.BalanceTooLow);;
  modify (add_free c x (- v)).
Definition transfer (c : CurrencyId.t) (x y : AccountId) (v : Z) : M t TError unit :=
  withdraw_free c x v;; modify (add_free c y v).
(** Amounts are unsigned. *)
Definition reserve (c : CurrencyId.t) (x : AccountId) (v : Z) : M t TError unit :=
  ensureM (0 <=? v) (ModuleError TokensError.BalanceTooLow);;
  withdraw_free c x v;; modify (add_reserved c x v).
Definition deposit (c : CurrencyId.t) (x : AccountId) (v : Z) : M t TError unit :=
  modify (add_free c x v);; modify (add_issuance c v).
Definition unreserve (c : CurrencyId.t) (x : AccountId) (v : Z) (l : t) : Z * t :=
  let actual := Z.min v (reserved_of c x l) in
  (v - actual, add_reserved c x (- actual) (add_free c x actual l)).
Definition slash_reserved (c : CurrencyId.t) (x : AccountId) (v : Z) (l : t) : Z * t :=
  let actual := Z.min v (reserved_of c x l) in
  (v - actual, add_reserved c x (- actual) (add_issuance c (- actual) l)).

Lemma add_free_moved c x v l :
  moved free_of reserved_of issuance_of (λ d z, at_balance c d x z v) (λ _ _, 0) (λ _, 0) l (add_free c x v l).
Proof.
  split; intros; [| by rewrite Z.add_0_r | by rewrite Z.add_0_r]. unfold add_free, at_balance. cbn.
  unfold free_of at 1. cbn. case_decide as Hd.
  - destruct Hd as [-> ->]. rewrite lookup_insert_eq. cbn. done.
  - rewrite lookup_insert_ne by (by intros [= -> ->]; apply Hd). fold (free_of d y l). lia.
Qed.

Lemma add_reserved_moved c x v l :
  0 ≤ reserved_of c x l + v →
  moved free_of reserved_of issuance_of (λ _ _, 0) (λ d z, at_balance c d x z v) (λ _, 0) l
    (add_reserved c x v l).
Proof.
  intros Hv. split; intros; [by rewrite Z.add_0_r | | by rewrite Z.add_0_r]. unfold add_reserved, at_balance. cbn.
  unfold reserved_of at 1. cbn. case_decide as Hd.
  - destruct Hd as [-> ->]. rewrite lookup_insert_eq. cbn. by rewrite Z2N.id.
  - rewrite lookup_insert_ne by (by intros [= -> ->]; apply Hd). fold (reserved_of d y l). lia.
Qed.

Lemma add_issuance_moved c v l :
  moved free_of reserved_of issuance_of (λ _ _, 0) (λ _ _, 0) (λ d, at_currency c d v) l (add_issuance c v l).
Proof.
  split; intros; [by rewrite Z.add_0_r | by rewrite Z.add_0_r |]. unfold add_issuance, at_currency. cbn.
  unfold issuance_of at 1. cbn. case_decide as Hd.
  - subst. by rewrite lookup_insert_eq.
  - rewrite lookup_insert_ne by done. fold (issuance_of d l). lia.
Qed.

Lemma moved_trans (f r : CurrencyId.t → AccountId → t → Z) (i : CurrencyId.t → t → Z) df dr di df' dr' di' l l1 l2 :
  moved f r i df dr di l l1 → moved f r i df' dr' di' l1 l2 →
  moved f r i (λ d z, df d z + df' d z) (λ d z, dr d z + dr' d z) (λ d, di d + di' d) l l2.
Proof.
  intros [Hf Hr Hi] [Hf' Hr' Hi'].
  split; intros; [rewrite Hf', Hf | rewrite Hr', Hr | rewrite Hi', Hi]; lia.
Qed.

Lemma moved_ext (f r : CurrencyId.t → AccountId → t → Z) (i : CurrencyId.t → t → Z) df dr di df' dr' di' l l1 :
  moved f r i df dr di l l1 → (∀ d z, df d z = df' d z) → (∀ d z, dr d z = dr' d z) →
  (∀ d, di d = di' d) → moved f r i df' dr' di' l l1.
Proof.
  intros [Hf Hr Hi] Hdf Hdr Hdi.
  split; intros; [rewrite <- Hdf | rewrite <- Hdr | rewrite <- Hdi]; auto.
Qed.

Lemma at_balance_neg c d x y v : at_balance c d x y (- v) = - at_balance c d x y v.
Proof. unfold at_balance. by case_decide. Qed.
Lemma at_currency_neg c d v : at_currency c d (- v) = - at_currency c d v.
Proof. unfold at_currency. by case_decide. Qed.

Lemma withdraw_free_moved c x v l l' :
  withdraw_free c x v l = Ok (tt, l') →
  moved free_of reserved_of issuance_of (λ d z, - at_balance c d x z v) (λ _ _, 0) (λ _, 0) l l'.
Proof.
  intros Hw. unfold withdraw_free in Hw. outcome_inv.
  eapply moved_ext; [apply add_free_moved | | done | done]. intros. apply at_balance_neg.
Qed.

#[program] Definition map_ledger : MultiCurrency := {|
  ledger := t;
  free_balance := free_of;
  reserved_balance := reserved_of;
  total_issuance := issuance_of;
  ml_transfer := transfer;
  ml_reserve := reserve;
  ml_deposit := deposit;
  ml_unreserve := unreserve;
  ml_slash_reserved := slash_reserved;
|}.
Next Obligation. intros. unfold reserved_of. lia. Qed.
Next Obligation.
  intros c x y v l l' Ht. unfold transfer in Ht. apply M_bind_Ok in Ht as ([] & l1 & Hw & Hm).
  apply modify_Ok in Hm as ->. apply withdraw_free_moved in Hw.
  eapply moved_ext; [apply (moved_trans _ _ _ _ _ _ _ _ _ _ _ _ Hw (add_free_moved c y v l1)) | ..];
    intros; cbn; lia.
Qed.
Next Obligation.
  intros c x v l l' Ht. unfold reserve in Ht. apply M_bind_Ok in Ht as ([] & l0 & Hv & Ht).
  apply ensureM_Ok in Hv as [Hv%Z.leb_le ->]. apply M_bind_Ok in Ht as ([] & l1 & Hw & Hm).
  apply modify_Ok in Hm as ->. apply withdraw_free_moved in Hw.
  assert (0 ≤ reserved_of c x l1 + v) as Hr by (unfold reserved_of; lia).
  eapply moved_ext; [apply (moved_trans _ _ _ _ _ _ _ _ _ _ _ _ Hw (add_reserved_moved c x v l1 Hr)) | ..];
    intros; cbn; lia.
Qed.
Next Obligation.
  intros c x v l l' Ht. unfold deposit in Ht. apply M_bind_Ok in Ht as ([] & l1 & Hw & Hm).
  apply modify_Ok in Hw as ->. apply modify_Ok in Hm as ->.
  eapply moved_ext;
    [apply (moved_trans _ _ _ _ _ _ _ _ _ _ _ _ (add_free_moved c x v l) (add_issuance_moved c v _)) | ..];
    intros; cbn; lia.
Qed.
Next Obligation.
  intros c x v l r l' [= <- <-]. split; [done |]. set (a := Z.min v (reserved_of c x l)).
  assert (v - (v - a) = a) as -> by lia.
  assert (0 ≤ reserved_of c x (add_free c x a l) + - a) as Hr.
  { change (reserved_of c x (add_free c x a l)) with (reserved_of c x l). unfold a. lia. }
  eapply moved_ext;
    [apply (moved_trans _ _ _ _ _ _ _ _ _ _ _ _ (add_free_moved c x a l) (add_reserved_moved c x (- a) _ Hr)) | ..];
    intros; cbn; rewrite ?at_balance_neg; lia.
Qed.
Next Obligation.
  intros c x v l r l' [= <- <-]. split; [done |]. set (a := Z.min v (reserved_of c x l)).
  assert (v - (v - a) = a) as -> by lia.
  assert (0 ≤ reserved_of c x (add_issuance c (- a) l) + - a) as Hr.
  { change (reserved_of c x (add_issuance c (- a) l)) with (reserved_of c x l). unfold a. lia. }
  eapply moved_ext;
    [apply (moved_trans _ _ _ _ _ _ _ _ _ _ _ _ (add_issuance_moved c (- a) l)
              (add_reserved_moved c x (- a) _ Hr)) | ..];
    intros; cbn; rewrite ?at_balance_neg, ?at_currency_neg; lia.
Qed.
End MapLedger.
