(* ===== verification/Amount.v ===== *)
(** * Amounts ([crates/currency/src/amount.rs])

    An [Amount] is a balance with the currency it is in; two amounts are added,
    compared or subtracted only in the same currency.  Products and quotients
    with a fixed-point number go through [multiply_by_rational_with_rounding].
    The actions move the amount in the token ledger. *)

From coqutil Require Import Byte.
From Stdlib Require Import ZArith Lia.
From stdpp Require Import base tactics option list numbers gmap.
From S2P Require Import Prelude Bytes Security Primitives FixedPoint Tokens.

Local Open Scope Z_scope.

Module Amount.
Record t : Type := new { amount : Z; currency : CurrencyId.t }.

#[global] Instance t_eq_dec : EqDecision t.
Proof. solve_decision. Defined.

Definition err {A} (e : CurrencyError.t) : outcome BError A := Err (ModuleError (CurrencyE e)).
Definition or_err {A} (o : option A) (e : CurrencyError.t) : outcome BError A :=
  ok_or o (ModuleError (CurrencyE e)).
Definition ensure_same (self other : t) : outcome BError unit :=
  ensure (bool_decide (currency self = currency other)) (ModuleError (CurrencyE CurrencyError.InvalidCurrency)).

(** ** Conversions *)

Definition from_signed_fixed_point (v : Z) (currency_id : CurrencyId.t) : outcome BError t :=
  inner ← or_err (truncate_to_inner v) CurrencyError.TryIntoIntError;
  if inner <? 0 then err CurrencyError.TryIntoIntError else Ok (new inner currency_id).
Definition to_signed_fixed_point (self : t) : outcome BError Z :=
  signed_inner ← or_err (checked_i128 (amount self)) CurrencyError.TryIntoIntError;
  or_err (checked_from_integer signed_inner) CurrencyError.TryIntoIntError.
Definition from_unsigned_fixed_point (v : Z) (currency_id : CurrencyId.t) : outcome BError t :=
  inner ← or_err (truncate_to_inner v) CurrencyError.TryIntoIntError;
  Ok (new inner currency_id).
Definition to_unsigned_fixed_point (self : t) : outcome BError Z :=
  or_err (checked BALANCE (amount self * DIV)) CurrencyError.TryIntoIntError.

(** ** Arithmetic *)

Definition zero (currency_id : CurrencyId.t) : t := new 0 currency_id.
Definition set_currency (self : t) (currency_id : CurrencyId.t) : t := new (amount self) currency_id.
Definition is_zero (self : t) : bool := amount self =? 0.
Definition map (self : t) (f : Z → Z) : t := new (f (amount self)) (currency self).

Definition checked_fn (self other : t) (f : Z → Z → option Z) (e : ArithmeticError) : outcome BError t :=
  if negb (bool_decide (currency self = currency other)) then err CurrencyError.InvalidCurrency
  else
    amount ← ok_or (f (amount self) (amount other)) (Arithmetic e);
    Ok (new amount (currency self)).
Definition checked_add (self other : t) : outcome BError t :=
  checked_fn self other (Prelude.checked_add BALANCE) Overflow.
(** Also changes [self]. *)
Definition checked_accrue (self other : t) : outcome BError t :=
  checked_fn self other (Prelude.checked_add BALANCE) Overflow.
Definition checked_sub (self other : t) : outcome BError t :=
  checked_fn self other Prelude.checked_sub Underflow.
Definition saturating_sub (self other : t) : outcome BError t :=
  ensure_same self other;;
  match checked_sub self other with
  | Err _ => Ok (new 0 (currency self))
  | c => c
  end.

Definition lt (self other : t) : outcome BError bool :=
  ensure_same self other;; Ok (amount self <? amount other).
Definition le (self other : t) : outcome BError bool :=
  ensure_same self other;; Ok (amount self <=? amount other).
Definition eq (self other : t) : outcome BError bool :=
  ensure_same self other;; Ok (amount self =? amount other).
Definition ne (self other : t) : outcome BError bool :=
  b ← eq self other; Ok (negb b).
Definition ge (self other : t) : outcome BError bool :=
  ensure_same self other;; Ok (amount self >=? amount other).
Definition gt (self other : t) : outcome BError bool :=
  ensure_same self other;; Ok (amount self >? amount other).
Definition min (self other : t) : outcome BError t :=
  ensure_same self other;;
  b ← le self other; Ok (if (b : bool) then self else other).
Definition max (self other : t) : outcome BError t :=
  ensure_same self other;;
  b ← ge self other; Ok (if (b : bool) then self else other).

Section scaling.
Context `{Rational128}.

Definition checked_rounded_mul (self : t) (scalar : Z) (rounding : Rounding) : outcome BError t :=
  amount ← ok_or (multiply_by_rational (amount self) scalar DIV rounding) (Arithmetic Overflow);
  Ok (new amount (currency self)).
Definition checked_mul (self : t) (scalar : Z) : outcome BError t := checked_rounded_mul self scalar Down.
Definition checked_div (self : t) (scalar : Z) : outcome BError t :=
  amount ← ok_or (multiply_by_rational (amount self) DIV scalar Down) (Arithmetic Overflow);
  Ok (new amount (currency self)).
Definition ratio (self other : t) : outcome BError Z :=
  ensure_same self other;;
  or_err (checked_from_rational (amount self) (amount other)) CurrencyError.TryIntoIntError.
End scaling.

(** ** Actions *)
Section actions.
Context `{MultiCurrency}.

Definition run_tokens (m : M ledger TError unit) : M ledger BError unit :=
  λ l, map_err (from_pallet TokensE) (m l).
Definition transfer (self : t) (source destination : AccountId) : M ledger BError unit :=
  run_tokens (ml_transfer (currency self) source destination (amount self)).
Definition lock_on (self : t) (account_id : AccountId) : M ledger BError unit :=
  run_tokens (ml_reserve (currency self) account_id (amount self)).
Definition unlock_on (self : t) (account_id : AccountId) : M ledger BError unit := λ l,
  let (left, l') := ml_unreserve (currency self) account_id (amount self) l in
  if left =? 0 then Ok (tt, l') else Err (ModuleError (TokensE TokensError.BalanceTooLow)).
Definition burn_from (self : t) (account_id : AccountId) : M ledger BError unit := λ l,
  let (left, l') := ml_slash_reserved (currency self) account_id (amount self) l in
  if left =? 0 then Ok (tt, l') else Err (ModuleError (TokensE TokensError.BalanceTooLow)).
Definition mint_to (self : t) (account_id : AccountId) : M ledger BError unit :=
  run_tokens (ml_deposit (currency self) account_id (amount self)).

(** [get_free_balance] and [get_reserved_balance] of [lib.rs]. *)
Definition get_free_balance (currency_id : CurrencyId.t) (account : AccountId) (l : ledger) : t :=
  new (free_balance currency_id account l) currency_id.
Definition get_reserved_balance (currency_id : CurrencyId.t) (account : AccountId) (l : ledger) : t :=
  new (reserved_balance currency_id account l) currency_id.
End actions.

(** ** Lemmas *)

(** An amount that fits in a balance. *)
Definition wf (a : t) : Prop := fits BALANCE (amount a).

Lemma ensure_same_Ok a b u : ensure_same a b = Ok u ↔ currency a = currency b.
Proof. unfold ensure_same. rewrite ensure_Ok, bool_decide_eq_true. done. Qed.

Lemma checked_fn_Ok a b f e c :
  checked_fn a b f e = Ok c ↔
  currency a = currency b ∧ currency c = currency a ∧ f (amount a) (amount b) = Some (amount c).
Proof.
  unfold checked_fn. case_bool_decide as Hc; cbn [negb].
  - rewrite bind_Ok. split.
    + intros (v & Hv%ok_or_Ok & [= <-]). done.
    + intros (_ & Hcur & Hv). exists (amount c). rewrite Hv. split; [done |].
      rewrite <- Hcur. by destruct c.
  - split; [done | by intros [? _]].
Qed.

Lemma checked_add_Ok a b c :
  checked_add a b = Ok c ↔
  currency a = currency b ∧ currency c = currency a ∧ amount c = amount a + amount b ∧ wf c.
Proof.
  unfold checked_add, wf. rewrite checked_fn_Ok. unfold Prelude.checked_add. rewrite checked_Some.
  split; intros (H1 & H2 & H3 & H4); rewrite H3 in *; done.
Qed.

Lemma checked_sub_Ok a b c :
  checked_sub a b = Ok c ↔
  currency a = currency b ∧ currency c = currency a ∧ amount c = amount a - amount b ∧
  amount b ≤ amount a.
Proof.
  unfold checked_sub. rewrite checked_fn_Ok, checked_sub_Some.
  split; intros (H1 & H2 & H3 & H4); done.
Qed.

Lemma saturating_sub_Ok a b c :
  saturating_sub a b = Ok c ↔
  currency a = currency b ∧ currency c = currency a ∧ amount c = Z.max (amount a - amount b) 0.
Proof.
  unfold saturating_sub. rewrite bind_Ok. setoid_rewrite ensure_same_Ok. split.
  - intros (_ & Hc & Hs). destruct (checked_sub a b) as [d | e | |] eqn:Hd; [| | done..].
    + injection Hs as ->. apply checked_sub_Ok in Hd as (_ & ? & ? & ?). split_and!; [done.. | lia].
    + injection Hs as <-. split_and!; [done.. |]. cbn.
      destruct (decide (amount b ≤ amount a)) as [Hle | Hgt]; [| lia].
      assert (checked_sub a b = Ok (new (amount a - amount b) (currency a))) as Hd'.
      { by apply checked_sub_Ok. }
      by rewrite Hd' in Hd.
  - intros (Hc & Hcur & Hv). exists tt. split; [done |].
    destruct (decide (amount b ≤ amount a)) as [Hle | Hgt].
    + assert (checked_sub a b = Ok c) as ->; [| done].
      apply checked_sub_Ok. split_and!; [done.. | lia | done].
    + unfold checked_sub, checked_fn. rewrite bool_decide_eq_true_2 by done. cbn [negb].
      unfold Prelude.checked_sub. rewrite (proj2 (Z.leb_gt _ _)) by lia. cbn.
      destruct c as [v cu]. cbn in *. subst. f_equal. f_equal. lia.
Qed.

Lemma compared_Ok a b (v r : bool) :
  (ensure_same a b;; Ok v) = Ok r ↔ currency a = currency b ∧ r = v.
Proof.
  rewrite bind_Ok. setoid_rewrite ensure_same_Ok.
  split; [by intros (_ & ? & [= <-]) | by intros [? ->]; exists tt].
Qed.
Lemma le_Ok a b r : le a b = Ok r ↔ currency a = currency b ∧ r = (amount a <=? amount b).
Proof. apply compared_Ok. Qed.
Lemma lt_Ok a b r : lt a b = Ok r ↔ currency a = currency b ∧ r = (amount a <? amount b).
Proof. apply compared_Ok. Qed.
Lemma ge_Ok a b r : ge a b = Ok r ↔ currency a = currency b ∧ r = (amount a >=? amount b).
Proof. apply compared_Ok. Qed.
Lemma gt_Ok a b r : gt a b = Ok r ↔ currency a = currency b ∧ r = (amount a >? amount b).
Proof. apply compared_Ok. Qed.
Lemma eq_Ok a b r : eq a b = Ok r ↔ currency a = currency b ∧ r = (amount a =? amount b).
Proof. apply compared_Ok. Qed.

Lemma min_Ok a b c :
  min a b = Ok c ↔ currency a = currency b ∧ c = new (Z.min (amount a) (amount b)) (currency a).
Proof.
  unfold min. rewrite bind_Ok. setoid_rewrite ensure_same_Ok. setoid_rewrite bind_Ok.
  setoid_rewrite le_Ok. destruct a as [x u], b as [y v]. cbn. split.
  - intros (_ & -> & r & [_ ->] & [= <-]). split; [done |].
    destruct (Z.leb_spec x y); f_equal; lia.
  - intros [-> ->]. exists tt. split; [done |]. exists (x <=? y). split; [done |].
    destruct (Z.leb_spec x y); do 2 f_equal; lia.
Qed.

Lemma DIV_fits : fits 128 DIV.
Proof. by split; vm_compute. Qed.

Section scaling_lemmas.
Context `{Rational128}.

Lemma checked_rounded_mul_Ok a s r c :
  wf a → fits 128 s →
  checked_rounded_mul a s r = Ok c ↔
  currency c = currency a ∧ amount c = rounded_div r (amount a * s) DIV ∧ wf c.
Proof.
  intros Ha Hs. unfold checked_rounded_mul. rewrite bind_Ok. setoid_rewrite ok_or_Ok.
  rewrite multiply_by_rational_spec by (exact Ha || exact Hs || exact DIV_fits).
  change (DIV =? 0) with false. setoid_rewrite checked_Some. split.
  - intros (v & [-> Hf] & [= <-]). done.
  - intros (Hc & Hv & Hw). exists (amount c). split; [split; [done | rewrite <- Hv; exact Hw] |]. rewrite <- Hc. by destruct c.
Qed.

Lemma checked_div_Ok a s c :
  wf a → fits 128 s →
  checked_div a s = Ok c ↔
  s ≠ 0 ∧ currency c = currency a ∧ amount c = amount a * DIV / s ∧ wf c.
Proof.
  intros Ha Hs. unfold checked_div. rewrite bind_Ok. setoid_rewrite ok_or_Ok.
  rewrite multiply_by_rational_spec by (exact Ha || exact Hs || exact DIV_fits).
  destruct (Z.eqb_spec s 0) as [-> | Hne].
  - split; [by intros (? & ? & ?) | by intros [? _]].
  - setoid_rewrite checked_Some. cbn [rounded_div]. split.
    + intros (v & [-> Hf] & [= <-]). done.
    + intros (_ & Hc & Hv & Hw). exists (amount c). split; [split; [done | rewrite <- Hv; exact Hw] |].
      rewrite <- Hc. by destruct c.
Qed.
End scaling_lemmas.

(** The effect of the actions on the ledger. *)
Section action_lemmas.
Context `{MultiCurrency}.
Abbreviation moved := (moved free_balance reserved_balance total_issuance).

Lemma run_tokens_Ok (m : M ledger TError unit) l u l' :
  run_tokens m l = Ok (u, l') ↔ m l = Ok (tt, l').
Proof. destruct u. apply map_err_Ok. Qed.

Lemma transfer_Ok a x y l u l' :
  transfer a x y l = Ok (u, l') →
  moved (λ d z, at_balance (currency a) d y z (amount a) - at_balance (currency a) d x z (amount a))
    (λ _ _, 0) (λ _, 0) l l'.
Proof. intros Ht%run_tokens_Ok. by eapply transfer_moves. Qed.

Lemma lock_on_Ok a x l u l' :
  lock_on a x l = Ok (u, l') →
  moved (λ d z, - at_balance (currency a) d x z (amount a))
    (λ d z, at_balance (currency a) d x z (amount a)) (λ _, 0) l l'.
Proof. intros Ht%run_tokens_Ok. by eapply reserve_moves. Qed.

Lemma mint_to_Ok a x l u l' :
  mint_to a x l = Ok (u, l') →
  moved (λ d z, at_balance (currency a) d x z (amount a)) (λ _ _, 0)
    (λ d, at_currency (currency a) d (amount a)) l l'.
Proof. intros Ht%run_tokens_Ok. by eapply deposit_moves. Qed.

Lemma unlock_on_Ok a x l u l' :
  unlock_on a x l = Ok (u, l') →
  moved (λ d z, at_balance (currency a) d x z (amount a))
    (λ d z, - at_balance (currency a) d x z (amount a)) (λ _, 0) l l'.
Proof.
  intros Hu. unfold unlock_on in Hu.
  destruct (ml_unreserve (currency a) x (amount a) l) as [r l1] eqn:Hr.
  apply unreserve_moves in Hr as [_ Hm].
  destruct (Z.eqb_spec r 0) as [-> |]; [| done]. injection Hu as <- <-. by rewrite Z.sub_0_r in Hm.
Qed.

Lemma burn_from_Ok a x l u l' :
  burn_from a x l = Ok (u, l') →
  moved (λ _ _, 0) (λ d z, - at_balance (currency a) d x z (amount a))
    (λ d, - at_currency (currency a) d (amount a)) l l'.
Proof.
  intros Hu. unfold burn_from in Hu.
  destruct (ml_slash_reserved (currency a) x (amount a) l) as [r l1] eqn:Hr.
  apply slash_reserved_moves in Hr as [_ Hm].
  destruct (Z.eqb_spec r 0) as [-> |]; [| done]. injection Hu as <- <-. by rewrite Z.sub_0_r in Hm.
Qed.
End action_lemmas.
End Amount.
