(* ===== verification/BridgeStores.v ===== *)
(** * Storage of the bridge pallets

    The data of the oracle, fee, vault-registry, nomination, issue, redeem and
    replace pallets: their records, events, storage items with their default
    values, and writing one item.  The operations are in a file per pallet;
    what they share is that each may write the storage of another. *)

From coqutil Require Import Byte.
From Stdlib Require Import ZArith Lia.
From stdpp Require Import base tactics option list numbers gmap.
From S2P Require Import Prelude Bytes BtcTypes BtcBuild Security Primitives.

Local Open Scope Z_scope.

(** ** [crates/oracle/src/lib.rs] *)
Module OracleStore.
Record TimestampedValue : Type := mkTimestamped { value : Z; timestamp : Z }.

Inductive Event : Type :=
  | FeedValues (oracle_id : AccountId) (values : list (OracleKey * Z))
  | AggregateUpdated (values : list (OracleKey * option Z))
  | OracleAdded (oracle_id : AccountId) (name : list byte)
  | OracleRemoved (oracle_id : AccountId).

Record Storage : Type := mkStorage {
  Aggregate : gmap OracleKey Z;
  RawValues : gmap (OracleKey * AccountId) TimestampedValue;
  RawValuesUpdated : gmap OracleKey bool;
  ValidUntil : gmap OracleKey Z;
  MaxDelay : Z;
  AuthorizedOracles : gmap AccountId (list byte);
  events : list Event;
}.
Definition empty_storage : Storage := mkStorage ∅ ∅ ∅ ∅ 0 ∅ [].

Definition with_Aggregate f (s : Storage) : Storage :=
  mkStorage (f (Aggregate s)) (RawValues s) (RawValuesUpdated s) (ValidUntil s) (MaxDelay s)
    (AuthorizedOracles s) (events s).
Definition with_RawValues f (s : Storage) : Storage :=
  mkStorage (Aggregate s) (f (RawValues s)) (RawValuesUpdated s) (ValidUntil s) (MaxDelay s)
    (AuthorizedOracles s) (events s).
Definition with_RawValuesUpdated f (s : Storage) : Storage :=
  mkStorage (Aggregate s) (RawValues s) (f (RawValuesUpdated s)) (ValidUntil s) (MaxDelay s)
    (AuthorizedOracles s) (events s).
Definition with_ValidUntil f (s : Storage) : Storage :=
  mkStorage (Aggregate s) (RawValues s) (RawValuesUpdated s) (f (ValidUntil s)) (MaxDelay s)
    (AuthorizedOracles s) (events s).
Definition with_MaxDelay f (s : Storage) : Storage :=
  mkStorage (Aggregate s) (RawValues s) (RawValuesUpdated s) (ValidUntil s) (f (MaxDelay s))
    (AuthorizedOracles s) (events s).
Definition with_AuthorizedOracles f (s : Storage) : Storage :=
  mkStorage (Aggregate s) (RawValues s) (RawValuesUpdated s) (ValidUntil s) (MaxDelay s)
    (f (AuthorizedOracles s)) (events s).
Definition with_event e (s : Storage) : Storage :=
  mkStorage (Aggregate s) (RawValues s) (RawValuesUpdated s) (ValidUntil s) (MaxDelay s)
    (AuthorizedOracles s) (events s ++ [e]).
End OracleStore.

(** ** [crates/fee/src/lib.rs]: the rates are fixed-point numbers *)
Module FeeStore.

Record Storage : Type := mkStorage {
  IssueFee : Z;
  IssueGriefingCollateral : Z;
  RedeemFee : Z;
  PremiumRedeemFee : Z;
  PunishmentFee : Z;
  ReplaceGriefingCollateral : Z;
  Commission : gmap VaultId Z;
}.
Definition empty_storage : Storage := mkStorage 0 0 0 0 0 0 ∅.

Definition with_IssueFee f (s : Storage) : Storage :=
  mkStorage (f (IssueFee s)) (IssueGriefingCollateral s) (RedeemFee s) (PremiumRedeemFee s)
    (PunishmentFee s) (ReplaceGriefingCollateral s) (Commission s).
Definition with_IssueGriefingCollateral f (s : Storage) : Storage :=
  mkStorage (IssueFee s) (f (IssueGriefingCollateral s)) (RedeemFee s) (PremiumRedeemFee s)
    (PunishmentFee s) (ReplaceGriefingCollateral s) (Commission s).
Definition with_RedeemFee f (s : Storage) : Storage :=
  mkStorage (IssueFee s) (IssueGriefingCollateral s) (f (RedeemFee s)) (PremiumRedeemFee s)
    (PunishmentFee s) (ReplaceGriefingCollateral s) (Commission s).
Definition with_PremiumRedeemFee f (s : Storage) : Storage :=
  mkStorage (IssueFee s) (IssueGriefingCollateral s) (RedeemFee s) (f (PremiumRedeemFee s))
    (PunishmentFee s) (ReplaceGriefingCollateral s) (Commission s).
Definition with_PunishmentFee f (s : Storage) : Storage :=
  mkStorage (IssueFee s) (IssueGriefingCollateral s) (RedeemFee s) (PremiumRedeemFee s)
    (f (PunishmentFee s)) (ReplaceGriefingCollateral s) (Commission s).
Definition with_ReplaceGriefingCollateral f (s : Storage) : Storage :=
  mkStorage (IssueFee s) (IssueGriefingCollateral s) (RedeemFee s) (PremiumRedeemFee s)
    (PunishmentFee s) (f (ReplaceGriefingCollateral s)) (Commission s).
Definition with_Commission f (s : Storage) : Storage :=
  mkStorage (IssueFee s) (IssueGriefingCollateral s) (RedeemFee s) (PremiumRedeemFee s)
    (PunishmentFee s) (ReplaceGriefingCollateral s) (f (Commission s)).
End FeeStore.

(** ** [crates/vault-registry/src/types.rs] and the storage of [lib.rs] *)
Module RegistryStore.
Inductive VaultStatus : Type := Active (accept_new_issues : bool) | Liquidated.
#[global] Instance VaultStatus_eq_dec : EqDecision VaultStatus.
Proof. solve_decision. Defined.

Record Vault : Type := mkVault {
  id : VaultId;
  status : VaultStatus;
  banned_until : option Z;
  vault_secure_collateral_threshold : option Z;
  to_be_issued_tokens : Z;
  issued_tokens : Z;
  to_be_redeemed_tokens : Z;
  to_be_replaced_tokens : Z;
  replace_collateral : Z;
  active_replace_collateral : Z;
  liquidated_collateral : Z;
}.

(** [Vault::new], [is_liquidated] and [accepts_new_issues]. *)
Definition vault_new (id : VaultId) : Vault := mkVault id (Active true) None None 0 0 0 0 0 0 0.
Definition is_liquidated (v : Vault) : bool := match status v with Liquidated => true | _ => false end.
Definition accepts_new_issues (v : Vault) : bool :=
  match status v with Active true => true | _ => false end.

Definition set_status f (v : Vault) : Vault :=
  mkVault (id v) (f (status v)) (banned_until v) (vault_secure_collateral_threshold v)
    (to_be_issued_tokens v) (issued_tokens v) (to_be_redeemed_tokens v) (to_be_replaced_tokens v)
    (replace_collateral v) (active_replace_collateral v) (liquidated_collateral v).
Definition set_banned_until f (v : Vault) : Vault :=
  mkVault (id v) (status v) (f (banned_until v)) (vault_secure_collateral_threshold v)
    (to_be_issued_tokens v) (issued_tokens v) (to_be_redeemed_tokens v) (to_be_replaced_tokens v)
    (replace_collateral v) (active_replace_collateral v) (liquidated_collateral v).
Definition set_secure_collateral_threshold f (v : Vault) : Vault :=
  mkVault (id v) (status v) (banned_until v) (f (vault_secure_collateral_threshold v))
    (to_be_issued_tokens v) (issued_tokens v) (to_be_redeemed_tokens v) (to_be_replaced_tokens v)
    (replace_collateral v) (active_replace_collateral v) (liquidated_collateral v).
Definition set_to_be_issued_tokens f (v : Vault) : Vault :=
  mkVault (id v) (status v) (banned_until v) (vault_secure_collateral_threshold v)
    (f (to_be_issued_tokens v)) (issued_tokens v) (to_be_redeemed_tokens v)
    (to_be_replaced_tokens v) (replace_collateral v) (active_replace_collateral v)
    (liquidated_collateral v).
Definition set_issued_tokens f (v : Vault) : Vault :=
  mkVault (id v) (status v) (banned_until v) (vault_secure_collateral_threshold v)
    (to_be_issued_tokens v) (f (issued_tokens v)) (to_be_redeemed_tokens v)
    (to_be_replaced_tokens v) (replace_collateral v) (active_replace_collateral v)
    (liquidated_collateral v).
Definition set_to_be_redeemed_tokens f (v : Vault) : Vault :=
  mkVault (id v) (status v) (banned_until v) (vault_secure_collateral_threshold v)
    (to_be_issued_tokens v) (issued_tokens v) (f (to_be_redeemed_tokens v))
    (to_be_replaced_tokens v) (replace_collateral v) (active_replace_collateral v)
    (liquidated_collateral v).
Definition set_to_be_replaced_tokens f (v : Vault) : Vault :=
  mkVault (id v) (status v) (banned_until v) (vault_secure_collateral_threshold v)
    (to_be_issued_tokens v) (issued_tokens v) (to_be_redeemed_tokens v)
    (f (to_be_replaced_tokens v)) (replace_collateral v) (active_replace_collateral v)
    (liquidated_collateral v).
Definition set_replace_collateral f (v : Vault) : Vault :=
  mkVault (id v) (status v) (banned_until v) (vault_secure_collateral_threshold v)
    (to_be_issued_tokens v) (issued_tokens v) (to_be_redeemed_tokens v) (to_be_replaced_tokens v)
    (f (replace_collateral v)) (active_replace_collateral v) (liquidated_collateral v).
Definition set_active_replace_collateral f (v : Vault) : Vault :=
  mkVault (id v) (status v) (banned_until v) (vault_secure_collateral_threshold v)
    (to_be_issued_tokens v) (issued_tokens v) (to_be_redeemed_tokens v) (to_be_replaced_tokens v)
    (replace_collateral v) (f (active_replace_collateral v)) (liquidated_collateral v).
Definition set_liquidated_collateral f (v : Vault) : Vault :=
  mkVault (id v) (status v) (banned_until v) (vault_secure_collateral_threshold v)
    (to_be_issued_tokens v) (issued_tokens v) (to_be_redeemed_tokens v) (to_be_replaced_tokens v)
    (replace_collateral v) (active_replace_collateral v) (f (liquidated_collateral v)).

(** The liquidation vault of a currency pair: [SystemVault]. *)
Record SystemVault : Type := mkSystemVault {
  sys_to_be_issued_tokens : Z;
  sys_issued_tokens : Z;
  sys_to_be_redeemed_tokens : Z;
  sys_collateral : Z;
  sys_currency_pair : VaultCurrencyPair;
}.
Definition system_vault_new (pair : VaultCurrencyPair) : SystemVault := mkSystemVault 0 0 0 0 pair.
Definition set_sys_to_be_issued_tokens f (v : SystemVault) : SystemVault :=
  mkSystemVault (f (sys_to_be_issued_tokens v)) (sys_issued_tokens v)
    (sys_to_be_redeemed_tokens v) (sys_collateral v) (sys_currency_pair v).
Definition set_sys_issued_tokens f (v : SystemVault) : SystemVault :=
  mkSystemVault (sys_to_be_issued_tokens v) (f (sys_issued_tokens v))
    (sys_to_be_redeemed_tokens v) (sys_collateral v) (sys_currency_pair v).
Definition set_sys_to_be_redeemed_tokens f (v : SystemVault) : SystemVault :=
  mkSystemVault (sys_to_be_issued_tokens v) (sys_issued_tokens v)
    (f (sys_to_be_redeemed_tokens v)) (sys_collateral v) (sys_currency_pair v).
Definition set_sys_collateral f (v : SystemVault) : SystemVault :=
  mkSystemVault (sys_to_be_issued_tokens v) (sys_issued_tokens v) (sys_to_be_redeemed_tokens v)
    (f (sys_collateral v)) (sys_currency_pair v).

Inductive Event : Type :=
  | RegisterVault (vault_id : VaultId) (collateral : Z)
  | IncreaseLockedCollateral (currency_pair : VaultCurrencyPair) (delta total : Z)
  | DecreaseLockedCollateral (currency_pair : VaultCurrencyPair) (delta total : Z)
  | UpdatePublicKey (account_id : AccountId) (public_key : PublicKey)
  | RegisterAddress (vault_id : VaultId) (address : Address)
  | IncreaseToBeIssuedTokens (vault_id : VaultId) (increase : Z)
  | DecreaseToBeIssuedTokens (vault_id : VaultId) (decrease : Z)
  | IssueTokens (vault_id : VaultId) (increase : Z)
  | IncreaseToBeRedeemedTokens (vault_id : VaultId) (increase : Z)
  | DecreaseToBeRedeemedTokens (vault_id : VaultId) (decrease : Z)
  | IncreaseToBeReplacedTokens (vault_id : VaultId) (increase : Z)
  | DecreaseToBeReplacedTokens (vault_id : VaultId) (decrease : Z)
  | DecreaseTokens (vault_id : VaultId) (user_id : AccountId) (decrease : Z)
  | RedeemTokens (vault_id : VaultId) (redeemed_amount : Z)
  | RedeemTokensPremium (vault_id : VaultId) (redeemed_amount collateral : Z) (user_id : AccountId)
  | RedeemTokensLiquidatedVault (vault_id : VaultId) (tokens collateral : Z)
  | RedeemTokensLiquidation (redeemer_id : AccountId) (burned_tokens transferred_collateral : Z)
  | ReplaceTokens (old_vault_id new_vault_id : VaultId) (amount additional_collateral : Z)
  | LiquidateVault (vault_id : VaultId) (issued_tokens to_be_issued_tokens to_be_redeemed_tokens
      to_be_replaced_tokens backing_collateral : Z) (status : VaultStatus) (replace_collateral : Z)
  | BanVault (vault_id : VaultId) (banned_until : Z)
  | SetAcceptNewIssues (vault_id : VaultId) (accept_new_issues : bool)
  | SetSecureCollateralThreshold (currency_pair : VaultCurrencyPair) (threshold : Z)
  | SetPremiumRedeemThreshold (currency_pair : VaultCurrencyPair) (threshold : Z)
  | SetLiquidationCollateralThreshold (currency_pair : VaultCurrencyPair) (threshold : Z)
  | SetCustomSecureThreshold (vault_id : VaultId) (custom_threshold : option Z).

Record Storage : Type := mkStorage {
  MinimumCollateralVault : gmap CurrencyId.t Z;
  PunishmentDelay : Z;
  SystemCollateralCeiling : gmap VaultCurrencyPair Z;
  SecureCollateralThreshold : gmap VaultCurrencyPair Z;
  PremiumRedeemThreshold : gmap VaultCurrencyPair Z;
  LiquidationCollateralThreshold : gmap VaultCurrencyPair Z;
  LiquidationVault : gmap VaultCurrencyPair SystemVault;
  Vaults : gmap VaultId Vault;
  VaultBitcoinPublicKey : gmap AccountId PublicKey;
  TotalUserVaultCollateral : gmap VaultCurrencyPair Z;
  events : list Event;
}.
Definition empty_storage : Storage := mkStorage ∅ 0 ∅ ∅ ∅ ∅ ∅ ∅ ∅ ∅ [].

Definition with_MinimumCollateralVault f (s : Storage) : Storage :=
  mkStorage (f (MinimumCollateralVault s)) (PunishmentDelay s) (SystemCollateralCeiling s)
    (SecureCollateralThreshold s) (PremiumRedeemThreshold s) (LiquidationCollateralThreshold s)
    (LiquidationVault s) (Vaults s) (VaultBitcoinPublicKey s) (TotalUserVaultCollateral s)
    (events s).
Definition with_PunishmentDelay f (s : Storage) : Storage :=
  mkStorage (MinimumCollateralVault s) (f (PunishmentDelay s)) (SystemCollateralCeiling s)
    (SecureCollateralThreshold s) (PremiumRedeemThreshold s) (LiquidationCollateralThreshold s)
    (LiquidationVault s) (Vaults s) (VaultBitcoinPublicKey s) (TotalUserVaultCollateral s)
    (events s).
Definition with_SystemCollateralCeiling f (s : Storage) : Storage :=
  mkStorage (MinimumCollateralVault s) (PunishmentDelay s) (f (SystemCollateralCeiling s))
    (SecureCollateralThreshold s) (PremiumRedeemThreshold s) (LiquidationCollateralThreshold s)
    (LiquidationVault s) (Vaults s) (VaultBitcoinPublicKey s) (TotalUserVaultCollateral s)
    (events s).
Definition with_SecureCollateralThreshold f (s : Storage) : Storage :=
  mkStorage (MinimumCollateralVault s) (PunishmentDelay s) (SystemCollateralCeiling s)
    (f (SecureCollateralThreshold s)) (PremiumRedeemThreshold s)
    (LiquidationCollateralThreshold s) (LiquidationVault s) (Vaults s) (VaultBitcoinPublicKey s)
    (TotalUserVaultCollateral s) (events s).
Definition with_PremiumRedeemThreshold f (s : Storage) : Storage :=
  mkStorage (MinimumCollateralVault s) (PunishmentDelay s) (SystemCollateralCeiling s)
    (SecureCollateralThreshold s) (f (PremiumRedeemThreshold s))
    (LiquidationCollateralThreshold s) (LiquidationVault s) (Vaults s) (VaultBitcoinPublicKey s)
    (TotalUserVaultCollateral s) (events s).
Definition with_LiquidationCollateralThreshold f (s : Storage) : Storage :=
  mkStorage (MinimumCollateralVault s) (PunishmentDelay s) (SystemCollateralCeiling s)
    (SecureCollateralThreshold s) (PremiumRedeemThreshold s)
    (f (LiquidationCollateralThreshold s)) (LiquidationVault s) (Vaults s)
    (VaultBitcoinPublicKey s) (TotalUserVaultCollateral s) (events s).
Definition with_LiquidationVault f (s : Storage) : Storage :=
  mkStorage (MinimumCollateralVault s) (PunishmentDelay s) (SystemCollateralCeiling s)
    (SecureCollateralThreshold s) (PremiumRedeemThreshold s) (LiquidationCollateralThreshold s)
    (f (LiquidationVault s)) (Vaults s) (VaultBitcoinPublicKey s) (TotalUserVaultCollateral s)
    (events s).
Definition with_Vaults f (s : Storage) : Storage :=
  mkStorage (MinimumCollateralVault s) (PunishmentDelay s) (SystemCollateralCeiling s)
    (SecureCollateralThreshold s) (PremiumRedeemThreshold s) (LiquidationCollateralThreshold s)
    (LiquidationVault s) (f (Vaults s)) (VaultBitcoinPublicKey s) (TotalUserVaultCollateral s)
    (events s).
Definition with_VaultBitcoinPublicKey f (s : Storage) : Storage :=
  mkStorage (MinimumCollateralVault s) (PunishmentDelay s) (SystemCollateralCeiling s)
    (SecureCollateralThreshold s) (PremiumRedeemThreshold s) (LiquidationCollateralThreshold s)
    (LiquidationVault s) (Vaults s) (f (VaultBitcoinPublicKey s)) (TotalUserVaultCollateral s)
    (events s).
Definition with_TotalUserVaultCollateral f (s : Storage) : Storage :=
  mkStorage (MinimumCollateralVault s) (PunishmentDelay s) (SystemCollateralCeiling s)
    (SecureCollateralThreshold s) (PremiumRedeemThreshold s) (LiquidationCollateralThreshold s)
    (LiquidationVault s) (Vaults s) (VaultBitcoinPublicKey s) (f (TotalUserVaultCollateral s))
    (events s).
Definition with_event e (s : Storage) : Storage :=
  mkStorage (MinimumCollateralVault s) (PunishmentDelay s) (SystemCollateralCeiling s)
    (SecureCollateralThreshold s) (PremiumRedeemThreshold s) (LiquidationCollateralThreshold s)
    (LiquidationVault s) (Vaults s) (VaultBitcoinPublicKey s) (TotalUserVaultCollateral s)
    (events s ++ [e]).
End RegistryStore.

(** ** [crates/nomination/src/lib.rs] *)
Module NominationStore.
Inductive Event : Type :=
  | NominationOptIn (vault_id : VaultId)
  | NominationOptOut (vault_id : VaultId)
  | DepositCollateral (vault_id : VaultId) (nominator_id : AccountId) (amount : Z)
  | WithdrawCollateral (vault_id : VaultId) (nominator_id : AccountId) (amount : Z).

Record Storage : Type := mkStorage {
  NominationEnabled : bool;
  Vaults : gmap VaultId bool;
  NominationLimit : gmap VaultId Z;
  events : list Event;
}.
Definition empty_storage : Storage := mkStorage false ∅ ∅ [].

Definition with_NominationEnabled f (s : Storage) : Storage :=
  mkStorage (f (NominationEnabled s)) (Vaults s) (NominationLimit s) (events s).
Definition with_Vaults f (s : Storage) : Storage :=
  mkStorage (NominationEnabled s) (f (Vaults s)) (NominationLimit s) (events s).
Definition with_NominationLimit f (s : Storage) : Storage :=
  mkStorage (NominationEnabled s) (Vaults s) (f (NominationLimit s)) (events s).
Definition with_event e (s : Storage) : Storage :=
  mkStorage (NominationEnabled s) (Vaults s) (NominationLimit s) (events s ++ [e]).

(** [is_opted_in] *)
Definition is_opted_in (vault_id : VaultId) (s : Storage) : bool := bool_decide (is_Some (Vaults s !! vault_id)).
End NominationStore.

(** ** [crates/issue/src/lib.rs]: requests by their id, an [H256] *)
Module IssueStore.
Inductive Event : Type :=
  | RequestIssue (issue_id : list byte) (requester : AccountId) (amount fee griefing_collateral : Z)
      (griefing_currency : CurrencyId.t) (vault_id : VaultId) (vault_address : Address)
      (vault_public_key : PublicKey)
  | IssueAmountChange (issue_id : list byte) (amount fee confiscated_griefing_collateral : Z)
  | ExecuteIssue (issue_id : list byte) (requester : AccountId) (vault_id : VaultId) (amount fee : Z)
  | CancelIssue (issue_id : list byte) (requester : AccountId) (griefing_collateral : Z)
  | IssuePeriodChange (period : Z).

Record Storage : Type := mkStorage {
  IssueRequests : gmap (list byte) IssueRequest;
  IssuePeriod : Z;
  IssueBtcDustValue : Z;
  events : list Event;
}.
Definition empty_storage : Storage := mkStorage ∅ 0 0 [].

Definition with_IssueRequests f (s : Storage) : Storage :=
  mkStorage (f (IssueRequests s)) (IssuePeriod s) (IssueBtcDustValue s) (events s).
Definition with_IssuePeriod f (s : Storage) : Storage :=
  mkStorage (IssueRequests s) (f (IssuePeriod s)) (IssueBtcDustValue s) (events s).
Definition with_IssueBtcDustValue f (s : Storage) : Storage :=
  mkStorage (IssueRequests s) (IssuePeriod s) (f (IssueBtcDustValue s)) (events s).
Definition with_event e (s : Storage) : Storage :=
  mkStorage (IssueRequests s) (IssuePeriod s) (IssueBtcDustValue s) (events s ++ [e]).
End IssueStore.

(** ** [crates/redeem/src/lib.rs] *)
Module RedeemStore.
Inductive Event : Type :=
  | RequestRedeem (redeem_id : list byte) (redeemer : AccountId) (vault_id : VaultId)
      (amount fee premium : Z) (btc_address : Address) (transfer_fee : Z)
  | LiquidationRedeem (redeemer : AccountId) (amount : Z)
  | ExecuteRedeem (redeem_id : list byte) (redeemer : AccountId) (vault_id : VaultId)
      (amount fee transfer_fee : Z)
  | CancelRedeem (redeem_id : list byte) (redeemer : AccountId) (vault_id : VaultId)
      (slashed_amount : Z) (status : RedeemRequestStatus)
  | MintTokensForReimbursedRedeem (redeem_id : list byte) (vault_id : VaultId) (amount : Z)
  | RedeemPeriodChange (period : Z)
  | SelfRedeem (vault_id : VaultId) (amount fee : Z).

Record Storage : Type := mkStorage {
  RedeemPeriod : Z;
  RedeemRequests : gmap (list byte) RedeemRequest;
  RedeemBtcDustValue : Z;
  RedeemTransactionSize : Z;
  events : list Event;
}.
Definition empty_storage : Storage := mkStorage 0 ∅ 0 0 [].

Definition with_RedeemPeriod f (s : Storage) : Storage :=
  mkStorage (f (RedeemPeriod s)) (RedeemRequests s) (RedeemBtcDustValue s)
    (RedeemTransactionSize s) (events s).
Definition with_RedeemRequests f (s : Storage) : Storage :=
  mkStorage (RedeemPeriod s) (f (RedeemRequests s)) (RedeemBtcDustValue s)
    (RedeemTransactionSize s) (events s).
Definition with_RedeemBtcDustValue f (s : Storage) : Storage :=
  mkStorage (RedeemPeriod s) (RedeemRequests s) (f (RedeemBtcDustValue s))
    (RedeemTransactionSize s) (events s).
Definition with_RedeemTransactionSize f (s : Storage) : Storage :=
  mkStorage (RedeemPeriod s) (RedeemRequests s) (RedeemBtcDustValue s)
    (f (RedeemTransactionSize s)) (events s).
Definition with_event e (s : Storage) : Storage :=
  mkStorage (RedeemPeriod s) (RedeemRequests s) (RedeemBtcDustValue s) (RedeemTransactionSize s)
    (events s ++ [e]).
End RedeemStore.

(** ** [crates/replace/src/lib.rs] *)
Module ReplaceStore.
Inductive Event : Type :=
  | RequestReplace (old_vault_id : VaultId) (amount griefing_collateral : Z)
  | WithdrawReplace (old_vault_id : VaultId) (withdrawn_tokens withdrawn_griefing_collateral : Z)
  | AcceptReplace (replace_id : list byte) (old_vault_id new_vault_id : VaultId)
      (amount collateral : Z) (btc_address : Address)
  | ExecuteReplace (replace_id : list byte) (old_vault_id new_vault_id : VaultId)
  | CancelReplace (replace_id : list byte) (new_vault_id old_vault_id : VaultId)
      (griefing_collateral : Z)
  | ReplacePeriodChange (period : Z).

Record Storage : Type := mkStorage {
  ReplaceRequests : gmap (list byte) ReplaceRequest;
  ReplacePeriod : Z;
  ReplaceBtcDustValue : Z;
  events : list Event;
}.
Definition empty_storage : Storage := mkStorage ∅ 0 0 [].

Definition with_ReplaceRequests f (s : Storage) : Storage :=
  mkStorage (f (ReplaceRequests s)) (ReplacePeriod s) (ReplaceBtcDustValue s) (events s).
Definition with_ReplacePeriod f (s : Storage) : Storage :=
  mkStorage (ReplaceRequests s) (f (ReplacePeriod s)) (ReplaceBtcDustValue s) (events s).
Definition with_ReplaceBtcDustValue f (s : Storage) : Storage :=
  mkStorage (ReplaceRequests s) (ReplacePeriod s) (f (ReplaceBtcDustValue s)) (events s).
Definition with_event e (s : Storage) : Storage :=
  mkStorage (ReplaceRequests s) (ReplacePeriod s) (ReplaceBtcDustValue s) (events s ++ [e]).
End ReplaceStore.
