(* ===== verification/LoansStore.v ===== *)
(** * Storage of the loans pallet ([crates/loans/src/types.rs, lib.rs])

    Markets, borrow snapshots, interest rate models and the storage items of the
    lending market.  A [Ratio] is a [Permill], counted in millionths; a [Rate] is
    a [FixedU128], counted in units of [10^-18]; times are in seconds.  Double
    maps are maps from pairs; an absent entry reads as the default value. *)

From coqutil Require Import Byte.
From Stdlib Require Import ZArith.
From stdpp Require Import base list numbers gmap.
From S2P Require Import Prelude Bytes Security Primitives.

Local Open Scope Z_scope.

(** [rate_model.rs] *)
Module RateModel.
Record JumpModel : Type := mkJumpModel {
  base_rate : Z;
  jump_rate : Z;
  full_rate : Z;
  jump_utilization : Z;
}.
Record CurveModel : Type := mkCurveModel { curve_base_rate : Z }.
Inductive InterestRateModel : Type := Jump (j : JumpModel) | Curve (c : CurveModel).
End RateModel.

Module LoansStore.
Inductive MarketState : Type := Active | Pending | Supervision.
#[global] Instance MarketState_eq_dec : EqDecision MarketState.
Proof. solve_decision. Defined.

Record Market : Type := mkMarket {
  collateral_factor : Z;
  liquidation_threshold : Z;
  reserve_factor : Z;
  close_factor : Z;
  liquidate_incentive : Z;
  liquidate_incentive_reserved_factor : Z;
  rate_model : RateModel.InterestRateModel;
  state : MarketState;
  supply_cap : Z;
  borrow_cap : Z;
  lend_token_id : CurrencyId.t;
}.
Record BorrowSnapshot : Type := mkSnapshot { principal : Z; borrow_index : Z }.
Definition no_borrow : BorrowSnapshot := mkSnapshot 0 0.
Record RewardMarketState : Type := mkRewardState { index : Z; block : Z }.
Definition no_reward : RewardMarketState := mkRewardState 0 0.

Definition with_state s (m : Market) : Market :=
  mkMarket (collateral_factor m) (liquidation_threshold m) (reserve_factor m) (close_factor m)
    (liquidate_incentive m) (liquidate_incentive_reserved_factor m) (rate_model m) s (supply_cap m)
    (borrow_cap m) (lend_token_id m).
Definition with_rate_model i (m : Market) : Market :=
  mkMarket (collateral_factor m) (liquidation_threshold m) (reserve_factor m) (close_factor m)
    (liquidate_incentive m) (liquidate_incentive_reserved_factor m) i (state m) (supply_cap m)
    (borrow_cap m) (lend_token_id m).

Inductive Event : Type :=
  | DepositCollateral (account_id : AccountId) (currency_id : CurrencyId.t) (amount : Z)
  | WithdrawCollateral (account_id : AccountId) (currency_id : CurrencyId.t) (amount : Z)
  | Deposited (account_id : AccountId) (currency_id : CurrencyId.t) (amount : Z)
  | Redeemed (account_id : AccountId) (currency_id : CurrencyId.t) (amount : Z)
  | Borrowed (account_id : AccountId) (currency_id : CurrencyId.t) (amount : Z)
  | RepaidBorrow (account_id : AccountId) (currency_id : CurrencyId.t) (amount : Z)
  | LiquidatedBorrow (liquidator borrower : AccountId) (liquidation_currency_id collateral_currency_id : CurrencyId.t)
      (repay_amount collateral_underlying_amount : Z)
  | ReservesReduced (receiver : AccountId) (currency_id : CurrencyId.t) (amount new_reserve_amount : Z)
  | ReservesAdded (payer : AccountId) (currency_id : CurrencyId.t) (amount new_reserve_amount : Z)
  | NewMarket (underlying_currency_id : CurrencyId.t) (market : Market)
  | ActivatedMarket (underlying_currency_id : CurrencyId.t)
  | UpdatedMarket (underlying_currency_id : CurrencyId.t) (market : Market)
  | RewardAdded (payer : AccountId) (amount : Z)
  | RewardWithdrawn (receiver : AccountId) (amount : Z)
  | MarketRewardSpeedUpdated (underlying_currency_id : CurrencyId.t)
      (supply_reward_per_block borrow_reward_per_block : Z)
  | DistributedSupplierReward (underlying_currency_id : CurrencyId.t) (supplier : AccountId)
      (reward_delta supply_reward_index : Z)
  | DistributedBorrowerReward (underlying_currency_id : CurrencyId.t) (borrower : AccountId)
      (reward_delta borrow_reward_index : Z)
  | RewardPaid (receiver : AccountId) (amount : Z)
  | IncentiveReservesReduced (receiver : AccountId) (currency_id : CurrencyId.t) (amount : Z)
  | InterestAccrued (underlying_currency_id : CurrencyId.t)
      (total_borrows total_reserves borrow_index utilization_ratio borrow_rate supply_rate exchange_rate : Z).

Record Storage : Type := mkStorage {
  LastAccruedInterestTime : gmap CurrencyId.t Z;
  TotalBorrows : gmap CurrencyId.t Z;
  TotalReserves : gmap CurrencyId.t Z;
  AccountBorrows : gmap (CurrencyId.t * AccountId) BorrowSnapshot;
  AccountDeposits : gmap (CurrencyId.t * AccountId) Z;
  BorrowIndex : gmap CurrencyId.t Z;
  ExchangeRate : gmap CurrencyId.t Z;
  BorrowRate : gmap CurrencyId.t Z;
  SupplyRate : gmap CurrencyId.t Z;
  UtilizationRatio : gmap CurrencyId.t Z;
  Markets : gmap CurrencyId.t Market;
  UnderlyingAssetId : gmap CurrencyId.t CurrencyId.t;
  RewardSupplySpeed : gmap CurrencyId.t Z;
  RewardBorrowSpeed : gmap CurrencyId.t Z;
  RewardSupplyState : gmap CurrencyId.t RewardMarketState;
  RewardBorrowState : gmap CurrencyId.t RewardMarketState;
  RewardSupplierIndex : gmap (CurrencyId.t * AccountId) Z;
  RewardBorrowerIndex : gmap (CurrencyId.t * AccountId) Z;
  RewardAccrued : gmap AccountId Z;
  MaxExchangeRate : Z;
  MinExchangeRate : Z;
  events : list Event;
}.
Definition empty_storage : Storage :=
  mkStorage ∅ ∅ ∅ ∅ ∅ ∅ ∅ ∅ ∅ ∅ ∅ ∅ ∅ ∅ ∅ ∅ ∅ ∅ ∅ 0 0 [].
Definition with_LastAccruedInterestTime f (s : Storage) : Storage :=
  mkStorage (f (LastAccruedInterestTime s)) (TotalBorrows s) (TotalReserves s) (AccountBorrows s)
    (AccountDeposits s) (BorrowIndex s) (ExchangeRate s) (BorrowRate s) (SupplyRate s)
    (UtilizationRatio s) (Markets s) (UnderlyingAssetId s) (RewardSupplySpeed s)
    (RewardBorrowSpeed s) (RewardSupplyState s) (RewardBorrowState s) (RewardSupplierIndex s)
    (RewardBorrowerIndex s) (RewardAccrued s) (MaxExchangeRate s) (MinExchangeRate s) (events s).
Definition with_TotalBorrows f (s : Storage) : Storage :=
  mkStorage (LastAccruedInterestTime s) (f (TotalBorrows s)) (TotalReserves s) (AccountBorrows s)
    (AccountDeposits s) (BorrowIndex s) (ExchangeRate s) (BorrowRate s) (SupplyRate s)
    (UtilizationRatio s) (Markets s) (UnderlyingAssetId s) (RewardSupplySpeed s)
    (RewardBorrowSpeed s) (RewardSupplyState s) (RewardBorrowState s) (RewardSupplierIndex s)
    (RewardBorrowerIndex s) (RewardAccrued s) (MaxExchangeRate s) (MinExchangeRate s) (events s).
Definition with_TotalReserves f (s : Storage) : Storage :=
  mkStorage (LastAccruedInterestTime s) (TotalBorrows s) (f (TotalReserves s)) (AccountBorrows s)
    (AccountDeposits s) (BorrowIndex s) (ExchangeRate s) (BorrowRate s) (SupplyRate s)
    (UtilizationRatio s) (Markets s) (UnderlyingAssetId s) (RewardSupplySpeed s)
    (RewardBorrowSpeed s) (RewardSupplyState s) (RewardBorrowState s) (RewardSupplierIndex s)
    (RewardBorrowerIndex s) (RewardAccrued s) (MaxExchangeRate s) (MinExchangeRate s) (events s).
Definition with_AccountBorrows f (s : Storage) : Storage :=
  mkStorage (LastAccruedInterestTime s) (TotalBorrows s) (TotalReserves s) (f (AccountBorrows s))
    (AccountDeposits s) (BorrowIndex s) (ExchangeRate s) (BorrowRate s) (SupplyRate s)
    (UtilizationRatio s) (Markets s) (UnderlyingAssetId s) (RewardSupplySpeed s)
    (RewardBorrowSpeed s) (RewardSupplyState s) (RewardBorrowState s) (RewardSupplierIndex s)
    (RewardBorrowerIndex s) (RewardAccrued s) (MaxExchangeRate s) (MinExchangeRate s) (events s).
Definition with_AccountDeposits f (s : Storage) : Storage :=
  mkStorage (LastAccruedInterestTime s) (TotalBorrows s) (TotalReserves s) (AccountBorrows s)
    (f (AccountDeposits s)) (BorrowIndex s) (ExchangeRate s) (BorrowRate s) (SupplyRate s)
    (UtilizationRatio s) (Markets s) (UnderlyingAssetId s) (RewardSupplySpeed s)
    (RewardBorrowSpeed s) (RewardSupplyState s) (RewardBorrowState s) (RewardSupplierIndex s)
    (RewardBorrowerIndex s) (RewardAccrued s) (MaxExchangeRate s) (MinExchangeRate s) (events s).
Definition with_BorrowIndex f (s : Storage) : Storage :=
  mkStorage (LastAccruedInterestTime s) (TotalBorrows s) (TotalReserves s) (AccountBorrows s)
    (AccountDeposits s) (f (BorrowIndex s)) (ExchangeRate s) (BorrowRate s) (SupplyRate s)
    (UtilizationRatio s) (Markets s) (UnderlyingAssetId s) (RewardSupplySpeed s)
    (RewardBorrowSpeed s) (RewardSupplyState s) (RewardBorrowState s) (RewardSupplierIndex s)
    (RewardBorrowerIndex s) (RewardAccrued s) (MaxExchangeRate s) (MinExchangeRate s) (events s).
Definition with_ExchangeRate f (s : Storage) : Storage :=
  mkStorage (LastAccruedInterestTime s) (TotalBorrows s) (TotalReserves s) (AccountBorrows s)
    (AccountDeposits s) (BorrowIndex s) (f (ExchangeRate s)) (BorrowRate s) (SupplyRate s)
    (UtilizationRatio s) (Markets s) (UnderlyingAssetId s) (RewardSupplySpeed s)
    (RewardBorrowSpeed s) (RewardSupplyState s) (RewardBorrowState s) (RewardSupplierIndex s)
    (RewardBorrowerIndex s) (RewardAccrued s) (MaxExchangeRate s) (MinExchangeRate s) (events s).
Definition with_BorrowRate f (s : Storage) : Storage :=
  mkStorage (LastAccruedInterestTime s) (TotalBorrows s) (TotalReserves s) (AccountBorrows s)
    (AccountDeposits s) (BorrowIndex s) (ExchangeRate s) (f (BorrowRate s)) (SupplyRate s)
    (UtilizationRatio s) (Markets s) (UnderlyingAssetId s) (RewardSupplySpeed s)
    (RewardBorrowSpeed s) (RewardSupplyState s) (RewardBorrowState s) (RewardSupplierIndex s)
    (RewardBorrowerIndex s) (RewardAccrued s) (MaxExchangeRate s) (MinExchangeRate s) (events s).
Definition with_SupplyRate f (s : Storage) : Storage :=
  mkStorage (LastAccruedInterestTime s) (TotalBorrows s) (TotalReserves s) (AccountBorrows s)
    (AccountDeposits s) (BorrowIndex s) (ExchangeRate s) (BorrowRate s) (f (SupplyRate s))
    (UtilizationRatio s) (Markets s) (UnderlyingAssetId s) (RewardSupplySpeed s)
    (RewardBorrowSpeed s) (RewardSupplyState s) (RewardBorrowState s) (RewardSupplierIndex s)
    (RewardBorrowerIndex s) (RewardAccrued s) (MaxExchangeRate s) (MinExchangeRate s) (events s).
Definition with_UtilizationRatio f (s : Storage) : Storage :=
  mkStorage (LastAccruedInterestTime s) (TotalBorrows s) (TotalReserves s) (AccountBorrows s)
    (AccountDeposits s) (BorrowIndex s) (ExchangeRate s) (BorrowRate s) (SupplyRate s)
    (f (UtilizationRatio s)) (Markets s) (UnderlyingAssetId s) (RewardSupplySpeed s)
    (RewardBorrowSpeed s) (RewardSupplyState s) (RewardBorrowState s) (RewardSupplierIndex s)
    (RewardBorrowerIndex s) (RewardAccrued s) (MaxExchangeRate s) (MinExchangeRate s) (events s).
Definition with_Markets f (s : Storage) : Storage :=
  mkStorage (LastAccruedInterestTime s) (TotalBorrows s) (TotalReserves s) (AccountBorrows s)
    (AccountDeposits s) (BorrowIndex s) (ExchangeRate s) (BorrowRate s) (SupplyRate s)
    (UtilizationRatio s) (f (Markets s)) (UnderlyingAssetId s) (RewardSupplySpeed s)
    (RewardBorrowSpeed s) (RewardSupplyState s) (RewardBorrowState s) (RewardSupplierIndex s)
    (RewardBorrowerIndex s) (RewardAccrued s) (MaxExchangeRate s) (MinExchangeRate s) (events s).
Definition with_UnderlyingAssetId f (s : Storage) : Storage :=
  mkStorage (LastAccruedInterestTime s) (TotalBorrows s) (TotalReserves s) (AccountBorrows s)
    (AccountDeposits s) (BorrowIndex s) (ExchangeRate s) (BorrowRate s) (SupplyRate s)
    (UtilizationRatio s) (Markets s) (f (UnderlyingAssetId s)) (RewardSupplySpeed s)
    (RewardBorrowSpeed s) (RewardSupplyState s) (RewardBorrowState s) (RewardSupplierIndex s)
    (RewardBorrowerIndex s) (RewardAccrued s) (MaxExchangeRate s) (MinExchangeRate s) (events s).
Definition with_RewardSupplySpeed f (s : Storage) : Storage :=
  mkStorage (LastAccruedInterestTime s) (TotalBorrows s) (TotalReserves s) (AccountBorrows s)
    (AccountDeposits s) (BorrowIndex s) (ExchangeRate s) (BorrowRate s) (SupplyRate s)
    (UtilizationRatio s) (Markets s) (UnderlyingAssetId s) (f (RewardSupplySpeed s))
    (RewardBorrowSpeed s) (RewardSupplyState s) (RewardBorrowState s) (RewardSupplierIndex s)
    (RewardBorrowerIndex s) (RewardAccrued s) (MaxExchangeRate s) (MinExchangeRate s) (events s).
Definition with_RewardBorrowSpeed f (s : Storage) : Storage :=
  mkStorage (LastAccruedInterestTime s) (TotalBorrows s) (TotalReserves s) (AccountBorrows s)
    (AccountDeposits s) (BorrowIndex s) (ExchangeRate s) (BorrowRate s) (SupplyRate s)
    (UtilizationRatio s) (Markets s) (UnderlyingAssetId s) (RewardSupplySpeed s)
    (f (RewardBorrowSpeed s)) (RewardSupplyState s) (RewardBorrowState s) (RewardSupplierIndex s)
    (RewardBorrowerIndex s) (RewardAccrued s) (MaxExchangeRate s) (MinExchangeRate s) (events s).
Definition with_RewardSupplyState f (s : Storage) : Storage :=
  mkStorage (LastAccruedInterestTime s) (TotalBorrows s) (TotalReserves s) (AccountBorrows s)
    (AccountDeposits s) (BorrowIndex s) (ExchangeRate s) (BorrowRate s) (SupplyRate s)
    (UtilizationRatio s) (Markets s) (UnderlyingAssetId s) (RewardSupplySpeed s)
    (RewardBorrowSpeed s) (f (RewardSupplyState s)) (RewardBorrowState s) (RewardSupplierIndex s)
    (RewardBorrowerIndex s) (RewardAccrued s) (MaxExchangeRate s) (MinExchangeRate s) (events s).
Definition with_RewardBorrowState f (s : Storage) : Storage :=
  mkStorage (LastAccruedInterestTime s) (TotalBorrows s) (TotalReserves s) (AccountBorrows s)
    (AccountDeposits s) (BorrowIndex s) (ExchangeRate s) (BorrowRate s) (SupplyRate s)
    (UtilizationRatio s) (Markets s) (UnderlyingAssetId s) (RewardSupplySpeed s)
    (RewardBorrowSpeed s) (RewardSupplyState s) (f (RewardBorrowState s)) (RewardSupplierIndex s)
    (RewardBorrowerIndex s) (RewardAccrued s) (MaxExchangeRate s) (MinExchangeRate s) (events s).
Definition with_RewardSupplierIndex f (s : Storage) : Storage :=
  mkStorage (LastAccruedInterestTime s) (TotalBorrows s) (TotalReserves s) (AccountBorrows s)
    (AccountDeposits s) (BorrowIndex s) (ExchangeRate s) (BorrowRate s) (SupplyRate s)
    (UtilizationRatio s) (Markets s) (UnderlyingAssetId s) (RewardSupplySpeed s)
    (RewardBorrowSpeed s) (RewardSupplyState s) (RewardBorrowState s) (f (RewardSupplierIndex s))
    (RewardBorrowerIndex s) (RewardAccrued s) (MaxExchangeRate s) (MinExchangeRate s) (events s).
Definition with_RewardBorrowerIndex f (s : Storage) : Storage :=
  mkStorage (LastAccruedInterestTime s) (TotalBorrows s) (TotalReserves s) (AccountBorrows s)
    (AccountDeposits s) (BorrowIndex s) (ExchangeRate s) (BorrowRate s) (SupplyRate s)
    (UtilizationRatio s) (Markets s) (UnderlyingAssetId s) (RewardSupplySpeed s)
    (RewardBorrowSpeed s) (RewardSupplyState s) (RewardBorrowState s) (RewardSupplierIndex s)
    (f (RewardBorrowerIndex s)) (RewardAccrued s) (MaxExchangeRate s) (MinExchangeRate s) (events s).
Definition with_RewardAccrued f (s : Storage) : Storage :=
  mkStorage (LastAccruedInterestTime s) (TotalBorrows s) (TotalReserves s) (AccountBorrows s)
    (AccountDeposits s) (BorrowIndex s) (ExchangeRate s) (BorrowRate s) (SupplyRate s)
    (UtilizationRatio s) (Markets s) (UnderlyingAssetId s) (RewardSupplySpeed s)
    (RewardBorrowSpeed s) (RewardSupplyState s) (RewardBorrowState s) (RewardSupplierIndex s)
    (RewardBorrowerIndex s) (f (RewardAccrued s)) (MaxExchangeRate s) (MinExchangeRate s) (events s).
Definition with_MaxExchangeRate f (s : Storage) : Storage :=
  mkStorage (LastAccruedInterestTime s) (TotalBorrows s) (TotalReserves s) (AccountBorrows s)
    (AccountDeposits s) (BorrowIndex s) (ExchangeRate s) (BorrowRate s) (SupplyRate s)
    (UtilizationRatio s) (Markets s) (UnderlyingAssetId s) (RewardSupplySpeed s)
    (RewardBorrowSpeed s) (RewardSupplyState s) (RewardBorrowState s) (RewardSupplierIndex s)
    (RewardBorrowerIndex s) (RewardAccrued s) (f (MaxExchangeRate s)) (MinExchangeRate s) (events s).
Definition with_MinExchangeRate f (s : Storage) : Storage :=
  mkStorage (LastAccruedInterestTime s) (TotalBorrows s) (TotalReserves s) (AccountBorrows s)
    (AccountDeposits s) (BorrowIndex s) (ExchangeRate s) (BorrowRate s) (SupplyRate s)
    (UtilizationRatio s) (Markets s) (UnderlyingAssetId s) (RewardSupplySpeed s)
    (RewardBorrowSpeed s) (RewardSupplyState s) (RewardBorrowState s) (RewardSupplierIndex s)
    (RewardBorrowerIndex s) (RewardAccrued s) (MaxExchangeRate s) (f (MinExchangeRate s)) (events s).
Definition with_event e (s : Storage) : Storage :=
  mkStorage (LastAccruedInterestTime s) (TotalBorrows s) (TotalReserves s) (AccountBorrows s)
    (AccountDeposits s) (BorrowIndex s) (ExchangeRate s) (BorrowRate s) (SupplyRate s)
    (UtilizationRatio s) (Markets s) (UnderlyingAssetId s) (RewardSupplySpeed s)
    (RewardBorrowSpeed s) (RewardSupplyState s) (RewardBorrowState s) (RewardSupplierIndex s)
    (RewardBorrowerIndex s) (RewardAccrued s) (MaxExchangeRate s) (MinExchangeRate s)
    (events s ++ [e]).
End LoansStore.
