(* ===== verification/Bridge.v ===== *)
(** * The runtime of the bridge

    The pallets of the bridge call each other and write each other's storage;
    their operations are computations over one state, [Runtime], with one
    component per pallet.  The block time and the parent hash are set by the
    chain; the three instances of the reward pallets are those of the runtime
    ([VaultCapacity], [VaultRewards], [VaultStaking]).  What is not under
    [src/] — the token ledger, fixed-point products, hashes, curve arithmetic —
    comes from a class, and so do the constants of the runtime.

    [keeps] says that a computation leaves part of the state alone; the tactic
    of that name proves it from the structure of the computation. *)

From coqutil Require Import Byte.
From Stdlib Require Import ZArith Lia.
From stdpp Require Import base tactics option list numbers gmap.
From S2P Require Import Prelude Bytes BtcTypes BtcFormat BtcBuild Security Relay Primitives FixedPoint Reward Staking Tokens Amount BridgeStores LoansStore.

Local Open Scope Z_scope.

(** The order in which a storage map is visited: some order of its entries. *)
Class StorageIter (K : Type) `{Countable K} : Type := {
  storage_iter {A} : gmap K A → list (K * A);
  storage_iter_perm {A} (m : gmap K A) : storage_iter m ≡ₚ map_to_list m;
}.

Class bridge_env : Type := {
  env_signed :: SignedFixedPoint;
  env_rational :: Rational128;
  env_tokens :: MultiCurrency;
  env_sha :: Sha256;
  env_curve :: Curve;
  env_vault_iter :: StorageIter VaultId;
  env_oracle_iter :: StorageIter OracleKey;
  (** [CurrencyId: Ord], the iteration order of the reward currencies *)
  currency_le : relation CurrencyId.t;
  env_currency_le_dec :: RelDecision currency_le;
  (** [FixedU128::checked_mul_int] with a [u32] operand and result *)
  checked_mul_int_u32 : Z → Z → option Z;
  checked_mul_int_within a n c :
    checked_mul_int_u32 a n = Some c → fits 32 c ∧ Z.abs (c * DIV - a * n) < DIV;
  (** constants of the runtime *)
  GetNativeCurrencyId : CurrencyId.t;
  GetWrappedCurrencyId : CurrencyId.t;
  GetGriefingCollateralCurrencyId : CurrencyId.t;
  MaxExpectedValue : Z;
  MaxCapacityCurrencies : Z;
  MaxVaultCurrencies : Z;
  ParachainBlocksPerBitcoinBlock : Z;
  fee_pool_account_id : AccountId;
  liquidation_vault_account_id : AccountId;
  treasury_account_id : AccountId;
  sweep_account_id : AccountId;
}.

Section runtime.
Context `{bridge_env}.

(** [T::CapacityRewards]: one pool, a participant per collateral currency. *)
Definition CapacityPool : Type :=
  Reward.Storage (PoolId := unit) (StakeId := CurrencyId.t) (CurrencyId := CurrencyId.t).
(** [T::VaultRewards]: a pool per collateral currency, a participant per vault. *)
Definition RewardPool : Type :=
  Reward.Storage (PoolId := CurrencyId.t) (StakeId := VaultId) (CurrencyId := CurrencyId.t).

Record Runtime : Type := mkRuntime {
  rt_tokens : ledger;
  rt_relay : Relay.Storage;
  rt_oracle : OracleStore.Storage;
  rt_fee : FeeStore.Storage;
  rt_capacity : CapacityPool;
  rt_rewards : RewardPool;
  rt_staking : Staking.Storage;
  rt_registry : RegistryStore.Storage;
  rt_nomination : NominationStore.Storage;
  rt_issue : IssueStore.Storage;
  rt_redeem : RedeemStore.Storage;
  rt_replace : ReplaceStore.Storage;
  rt_loans : LoansStore.Storage;
  rt_now : Z;
  rt_parent_hash : list byte;
  (** the block number of the chain itself ([frame_system]) *)
  rt_block : Z;
}.

Definition with_tokens f (r : Runtime) : Runtime :=
  mkRuntime (f (rt_tokens r)) (rt_relay r) (rt_oracle r) (rt_fee r) (rt_capacity r)
    (rt_rewards r) (rt_staking r) (rt_registry r) (rt_nomination r) (rt_issue r) (rt_redeem r)
    (rt_replace r) (rt_loans r) (rt_now r) (rt_parent_hash r) (rt_block r).
Definition with_relay f (r : Runtime) : Runtime :=
  mkRuntime (rt_tokens r) (f (rt_relay r)) (rt_oracle r) (rt_fee r) (rt_capacity r)
    (rt_rewards r) (rt_staking r) (rt_registry r) (rt_nomination r) (rt_issue r) (rt_redeem r)
    (rt_replace r) (rt_loans r) (rt_now r) (rt_parent_hash r) (rt_block r).
Definition with_oracle f (r : Runtime) : Runtime :=
  mkRuntime (rt_tokens r) (rt_relay r) (f (rt_oracle r)) (rt_fee r) (rt_capacity r)
    (rt_rewards r) (rt_staking r) (rt_registry r) (rt_nomination r) (rt_issue r) (rt_redeem r)
    (rt_replace r) (rt_loans r) (rt_now r) (rt_parent_hash r) (rt_block r).
Definition with_fee f (r : Runtime) : Runtime :=
  mkRuntime (rt_tokens r) (rt_relay r) (rt_oracle r) (f (rt_fee r)) (rt_capacity r)
    (rt_rewards r) (rt_staking r) (rt_registry r) (rt_nomination r) (rt_issue r) (rt_redeem r)
    (rt_replace r) (rt_loans r) (rt_now r) (rt_parent_hash r) (rt_block r).
Definition with_capacity f (r : Runtime) : Runtime :=
  mkRuntime (rt_tokens r) (rt_relay r) (rt_oracle r) (rt_fee r) (f (rt_capacity r))
    (rt_rewards r) (rt_staking r) (rt_registry r) (rt_nomination r) (rt_issue r) (rt_redeem r)
    (rt_replace r) (rt_loans r) (rt_now r) (rt_parent_hash r) (rt_block r).
Definition with_rewards f (r : Runtime) : Runtime :=
  mkRuntime (rt_tokens r) (rt_relay r) (rt_oracle r) (rt_fee r) (rt_capacity r)
    (f (rt_rewards r)) (rt_staking r) (rt_registry r) (rt_nomination r) (rt_issue r)
    (rt_redeem r) (rt_replace r) (rt_loans r) (rt_now r) (rt_parent_hash r) (rt_block r).
Definition with_staking f (r : Runtime) : Runtime :=
  mkRuntime (rt_tokens r) (rt_relay r) (rt_oracle r) (rt_fee r) (rt_capacity r) (rt_rewards r)
    (f (rt_staking r)) (rt_registry r) (rt_nomination r) (rt_issue r) (rt_redeem r)
    (rt_replace r) (rt_loans r) (rt_now r) (rt_parent_hash r) (rt_block r).
Definition with_registry f (r : Runtime) : Runtime :=
  mkRuntime (rt_tokens r) (rt_relay r) (rt_oracle r) (rt_fee r) (rt_capacity r) (rt_rewards r)
    (rt_staking r) (f (rt_registry r)) (rt_nomination r) (rt_issue r) (rt_redeem r)
    (rt_replace r) (rt_loans r) (rt_now r) (rt_parent_hash r) (rt_block r).
Definition with_nomination f (r : Runtime) : Runtime :=
  mkRuntime (rt_tokens r) (rt_relay r) (rt_oracle r) (rt_fee r) (rt_capacity r) (rt_rewards r)
    (rt_staking r) (rt_registry r) (f (rt_nomination r)) (rt_issue r) (rt_redeem r)
    (rt_replace r) (rt_loans r) (rt_now r) (rt_parent_hash r) (rt_block r).
Definition with_issue f (r : Runtime) : Runtime :=
  mkRuntime (rt_tokens r) (rt_relay r) (rt_oracle r) (rt_fee r) (rt_capacity r) (rt_rewards r)
    (rt_staking r) (rt_registry r) (rt_nomination r) (f (rt_issue r)) (rt_redeem r)
    (rt_replace r) (rt_loans r) (rt_now r) (rt_parent_hash r) (rt_block r).
Definition with_redeem f (r : Runtime) : Runtime :=
  mkRuntime (rt_tokens r) (rt_relay r) (rt_oracle r) (rt_fee r) (rt_capacity r) (rt_rewards r)
    (rt_staking r) (rt_registry r) (rt_nomination r) (rt_issue r) (f (rt_redeem r))
    (rt_replace r) (rt_loans r) (rt_now r) (rt_parent_hash r) (rt_block r).
Definition with_replace f (r : Runtime) : Runtime :=
  mkRuntime (rt_tokens r) (rt_relay r) (rt_oracle r) (rt_fee r) (rt_capacity r) (rt_rewards r)
    (rt_staking r) (rt_registry r) (rt_nomination r) (rt_issue r) (rt_redeem r)
    (f (rt_replace r)) (rt_loans r) (rt_now r) (rt_parent_hash r) (rt_block r).
Definition with_loans f (r : Runtime) : Runtime :=
  mkRuntime (rt_tokens r) (rt_relay r) (rt_oracle r) (rt_fee r) (rt_capacity r) (rt_rewards r)
    (rt_staking r) (rt_registry r) (rt_nomination r) (rt_issue r) (rt_redeem r) (rt_replace r)
    (f (rt_loans r)) (rt_now r) (rt_parent_hash r) (rt_block r).
Definition with_now f (r : Runtime) : Runtime :=
  mkRuntime (rt_tokens r) (rt_relay r) (rt_oracle r) (rt_fee r) (rt_capacity r) (rt_rewards r)
    (rt_staking r) (rt_registry r) (rt_nomination r) (rt_issue r) (rt_redeem r) (rt_replace r)
    (rt_loans r) (f (rt_now r)) (rt_parent_hash r) (rt_block r).
Definition with_parent_hash f (r : Runtime) : Runtime :=
  mkRuntime (rt_tokens r) (rt_relay r) (rt_oracle r) (rt_fee r) (rt_capacity r) (rt_rewards r)
    (rt_staking r) (rt_registry r) (rt_nomination r) (rt_issue r) (rt_redeem r) (rt_replace r)
    (rt_loans r) (rt_now r) (f (rt_parent_hash r)) (rt_block r).
Definition with_block f (r : Runtime) : Runtime :=
  mkRuntime (rt_tokens r) (rt_relay r) (rt_oracle r) (rt_fee r) (rt_capacity r) (rt_rewards r)
    (rt_staking r) (rt_registry r) (rt_nomination r) (rt_issue r) (rt_redeem r) (rt_replace r)
    (rt_loans r) (rt_now r) (rt_parent_hash r) (f (rt_block r)).

Abbreviation B := (M Runtime BError).

(** ** Running the operation of one pallet *)

Definition zoom {S E A} (get : Runtime → S) (put : (S → S) → Runtime → Runtime) (f : E → PalletError)
    (m : M S (DispatchError E) A) : B A := λ r,
  match m (get r) with
  | Ok (a, s) => Ok (a, put (λ _, s) r)
  | Err e => Err (from_pallet f e)
  | Panic => Panic
  | NoFuel => NoFuel
  end.

Definition on_capacity {A} (m : M CapacityPool Reward.RError A) : B A :=
  zoom rt_capacity with_capacity RewardE m.
Definition on_rewards {A} (m : M RewardPool Reward.RError A) : B A :=
  zoom rt_rewards with_rewards RewardE m.
Definition on_staking {A} (m : M Staking.Storage Staking.SError A) : B A :=
  zoom rt_staking with_staking StakingE m.
Definition on_relay {A} (m : M Relay.Storage Relay.RError A) : B A :=
  zoom rt_relay with_relay RelayE m.
(** The token actions of [Amount] already return the runtime's error. *)
Definition on_tokens {A} (m : M ledger BError A) : B A := λ r,
  match m (rt_tokens r) with
  | Ok (a, l) => Ok (a, with_tokens (λ _, l) r)
  | Err e => Err e
  | Panic => Panic
  | NoFuel => NoFuel
  end.

Definition security_of (r : Runtime) : Security.Storage := Relay.security (rt_relay r).
Definition active_block_number (r : Runtime) : Z := Security.active_block_number (security_of r).
(** [ext::security::get_secure_id] *)
Definition get_secure_id (id : AccountId) : B (list byte) := λ r,
  match Security.get_secure_id (E := RelayError) (rt_parent_hash r) id (security_of r) with
  | Ok (h, s) => Ok (h, with_relay (Relay.with_security (λ _, s)) r)
  | Err e => Err (from_pallet RelayE e)
  | Panic => Panic
  | NoFuel => NoFuel
  end.

(** [if let Err(_) = m {..}] and [let _ = m]: on an error the state before [m].
    Only for computations that fail before their first write. *)
Definition attempt (m : B unit) : B bool := λ r,
  match m r with
  | Ok (_, r') => Ok (true, r')
  | Err _ => Ok (false, r)
  | Panic => Panic
  | NoFuel => NoFuel
  end.

(** ** Frames *)

Definition keeps {A X} (π : Runtime → X) (m : B A) : Prop :=
  ∀ r a r', m r = Ok (a, r') → π r' = π r.

Context {X : Type} (π : Runtime → X).

Lemma keeps_ret {A} (a : A) : keeps π (mret a).
Proof. by intros r a' r' [= <- <-]. Qed.
Lemma keeps_bind {A C} (m : B A) (k : A → B C) :
  keeps π m → (∀ a, keeps π (k a)) → keeps π (m ≫= k).
Proof.
  intros Hm Hk r a r' Hr. apply M_bind_Ok in Hr as (x & r1 & Hx & Hr).
  by rewrite (Hk _ _ _ _ Hr), (Hm _ _ _ Hx).
Qed.
Lemma keeps_gets {A} (f : Runtime → A) : keeps π (gets f).
Proof. intros r a r' Hr. by apply gets_Ok in Hr as [_ ->]. Qed.
Lemma keeps_query {A} (f : Runtime → outcome BError A) : keeps π (query f).
Proof. intros r a r' Hr. by apply query_Ok in Hr as [_ ->]. Qed.
Lemma keeps_lift {A} (c : outcome BError A) : keeps π (lift c).
Proof. intros r a r' Hr. by apply lift_Ok in Hr as [_ ->]. Qed.
Lemma keeps_ensure b e : keeps π (ensureM b e).
Proof. intros r a r' Hr. by apply ensureM_Ok in Hr as [_ ->]. Qed.
Lemma keeps_fail {A} e : keeps (A := A) π (fail e).
Proof. intros r a r' Hr. discriminate Hr. Qed.
Lemma keeps_modify f : (∀ r, π (f r) = π r) → keeps π (modify f).
Proof. intros Hf r a r' Hr. apply modify_Ok in Hr as ->. apply Hf. Qed.
Lemma keeps_when b (m : B unit) : keeps π m → keeps π (whenM b m).
Proof. destruct b; [done |]. intros _. apply keeps_ret. Qed.
Lemma keeps_zoom {S E A} get put (f : E → PalletError) (m : M S (DispatchError E) A) :
  (∀ s r, π (put (λ _, s) r) = π r) → keeps π (zoom get put f m).
Proof.
  intros Hp r a r' Hr. unfold zoom in Hr. destruct (m (get r)) as [[x s] | | |]; [| done..].
  injection Hr as <- <-. apply Hp.
Qed.
Lemma keeps_on_tokens {A} (m : M ledger BError A) :
  (∀ l r, π (with_tokens (λ _, l) r) = π r) → keeps π (on_tokens m).
Proof.
  intros Hp r a r' Hr. unfold on_tokens in Hr. destruct (m (rt_tokens r)) as [[x l] | | |]; [| done..].
  injection Hr as <- <-. apply Hp.
Qed.
Lemma keeps_attempt m : keeps π m → keeps π (attempt m).
Proof.
  intros Hm r a r' Hr. unfold attempt in Hr. destruct (m r) as [[x r1] | | |] eqn:Hx; try done.
  - injection Hr as _ <-. by apply (Hm _ _ _ Hx).
  - by injection Hr as _ <-.
Qed.
Lemma keeps_for_each {A} (f : A → B unit) l : (∀ x, keeps π (f x)) → keeps π (for_each f l).
Proof. intros Hf r [] r'. apply for_each_keeps. intros x s s'. apply Hf. Qed.
Lemma keeps_secure_id id :
  (∀ f r, π (with_relay (Relay.with_security f) r) = π r) → keeps π (get_secure_id id).
Proof. intros Hp r a r' Hr. unfold get_secure_id in Hr. repeat case_match; by simplify_eq. Qed.
End runtime.

(** A computation of the runtime. *)
Abbreviation B := (M Runtime BError).

(** Reads of a computation that ended well. *)
Section reads.
Context `{bridge_env}.

Lemma zoom_Ok {S E A} get put (f : E → PalletError) (m : M S (DispatchError E) A) r a r' :
  zoom get put f m r = Ok (a, r') ↔ ∃ s, m (get r) = Ok (a, s) ∧ r' = put (λ _, s) r.
Proof.
  unfold zoom. destruct (m (get r)) as [[x s] | | |];
    (split; [intros Hz; try discriminate Hz; injection Hz as <- <-; eauto | intros (s' & Hs & Hr); try done]).
  by injection Hs as <- <-; subst.
Qed.
Lemma on_tokens_Ok {A} (m : M ledger BError A) r a r' :
  on_tokens m r = Ok (a, r') ↔ ∃ l, m (rt_tokens r) = Ok (a, l) ∧ r' = with_tokens (λ _, l) r.
Proof.
  unfold on_tokens. destruct (m (rt_tokens r)) as [[x s] | | |];
    (split; [intros Hz; try discriminate Hz; injection Hz as <- <-; eauto | intros (s' & Hs & Hr); try done]).
  by injection Hs as <- <-; subst.
Qed.
Lemma attempt_Ok m r b r' :
  attempt m r = Ok (b, r') ↔ (b = true ∧ m r = Ok (tt, r')) ∨ (b = false ∧ r' = r ∧ ∃ e, m r = Err e).
Proof.
  unfold attempt. destruct (m r) as [[[] s] | e | |]; (split; [intros Hz; try discriminate Hz |]).
  - injection Hz as <- <-. by left.
  - intros [[-> [= ->]] | (_ & _ & e & [=])]; done.
  - injection Hz as <- <-. right. eauto.
  - intros [[_ [=]] | (-> & -> & _)]; done.
  - by intros [[_ [=]] | (_ & _ & e & [=])].
  - by intros [[_ [=]] | (_ & _ & e & [=])].
Qed.
End reads.

Create HintDb keeps.
(** One step into the structure of the computation. *)
Ltac keeps_step :=
  match goal with
  | |- keeps _ _ => solve [auto 1 with keeps nocore]
  | |- keeps _ (_ ≫= _) => apply keeps_bind; [| intro]
  | |- keeps _ (mret _) => apply keeps_ret
  | |- keeps _ (gets _) => apply keeps_gets
  | |- keeps _ (query _) => apply keeps_query
  | |- keeps _ (lift _) => apply keeps_lift
  | |- keeps _ (ensureM _ _) => apply keeps_ensure
  | |- keeps _ (fail _) => apply keeps_fail
  | |- keeps _ (modify _) => apply keeps_modify; intros; reflexivity
  | |- keeps _ (whenM _ _) => apply keeps_when
  | |- keeps _ (on_capacity _) => apply keeps_zoom; intros; reflexivity
  | |- keeps _ (on_rewards _) => apply keeps_zoom; intros; reflexivity
  | |- keeps _ (on_staking _) => apply keeps_zoom; intros; reflexivity
  | |- keeps _ (on_relay _) => apply keeps_zoom; intros; reflexivity
  | |- keeps _ (on_tokens _) => apply keeps_on_tokens; intros; reflexivity
  | |- keeps _ (attempt _) => apply keeps_attempt
  | |- keeps _ (for_each _ _) => apply keeps_for_each; intro
  | |- keeps _ (get_secure_id _) => apply keeps_secure_id; intros; reflexivity
  | |- keeps _ (match ?x with _ => _ end) => destruct x
  | |- keeps _ (let _ := _ in _) => cbv zeta
  end.
Ltac keeps := intros; repeat keeps_step.
