(* ===== verification/Oracle.v ===== *)
(** * Prices and conversion between currencies

    The oracle pallet ([crates/oracle/src/lib.rs]): authorized oracles feed
    values, and at the start of a block the median of the values that are not
    older than the maximum delay becomes the price.  Then the conversion of an
    amount into another currency ([CurrencyConvert] of
    [crates/currency/src/lib.rs]), which goes through the lending market for
    lend tokens: that market is the interface [LoansApi]. *)

From coqutil Require Import Byte.
From Stdlib Require Import ZArith Lia.
From stdpp Require Import base tactics option list numbers gmap sorting.
From S2P Require Import Prelude Bytes Security Primitives FixedPoint Tokens Amount BridgeStores Bridge.

Local Open Scope Z_scope.

(** Width of a [Moment]. *)
Definition MOMENT : Z := 64.

Module Oracle.
Import OracleStore.

Definition err {A} (e : OracleError.t) : outcome BError A := Err (ModuleError (OracleE e)).

Section oracle.
Context `{bridge_env}.

Definition update (f : Storage → Storage) : B unit := modify (with_oracle f).
Definition deposit_event (e : Event) : B unit := update (with_event e).

(** ** Getters *)

Definition get_price (key : OracleKey) (r : Runtime) : outcome BError Z :=
  ok_or (Aggregate (rt_oracle r) !! key) (ModuleError (OracleE OracleError.MissingExchangeRate)).
Definition get_max_delay (r : Runtime) : Z := MaxDelay (rt_oracle r).
Definition get_current_time (r : Runtime) : Z := rt_now r.
Definition is_authorized (oracle : AccountId) (r : Runtime) : bool :=
  bool_decide (is_Some (AuthorizedOracles (rt_oracle r) !! oracle)).
Definition is_outdated (key : OracleKey) (current_time : Z) (r : Runtime) : bool :=
  match ValidUntil (rt_oracle r) !! key with
  | Some t => current_time >? t
  | None => false
  end.

(** ** Conversion with the collateral currency *)

Definition wrapped_to_collateral (amount : Z) (currency_id : CurrencyId.t) (r : Runtime)
  : outcome BError Z :=
  let amount := Amount.new amount currency_id in
  rate ← get_price (ExchangeRate currency_id) r;
  x ← Amount.checked_mul amount rate;
  Ok (Amount.amount x).
Definition collateral_to_wrapped (amount : Z) (currency_id : CurrencyId.t) (r : Runtime)
  : outcome BError Z :=
  rate ← get_price (ExchangeRate currency_id) r;
  if amount =? 0 then Ok 0
  else
    let amount := Amount.new amount currency_id in
    x ← Amount.checked_div amount rate;
    Ok (Amount.amount x).

(** [OracleApi::convert] *)
Definition convert (amount : Amount.t) (currency_id : CurrencyId.t) (r : Runtime)
  : outcome BError Amount.t :=
  let from_currency := Amount.currency amount in
  converted ←
    (if bool_decide (from_currency = currency_id) then Ok (Amount.amount amount)
     else if bool_decide (from_currency = GetWrappedCurrencyId) then
       wrapped_to_collateral (Amount.amount amount) currency_id r
     else if bool_decide (currency_id = GetWrappedCurrencyId) then
       collateral_to_wrapped (Amount.amount amount) from_currency r
     else
       base ← collateral_to_wrapped (Amount.amount amount) from_currency r;
       wrapped_to_collateral base currency_id r);
  Ok (Amount.new converted currency_id).

(** ** Aggregation *)

(** [From<Balance>] of [FixedU128], for two. *)
Definition fixed_two : Z := 2 * DIV.

Definition median (raw_values : list Z) : option Z :=
  let len := length raw_values in
  let mid_index := (len / 2)%nat in
  let sorted := merge_sort Z.le raw_values in
  match len with
  | O => None
  | _ =>
      if (len mod 2 =? 0)%nat then
        value_1 ← sorted !! (mid_index - 1)%nat;
        value_2 ← sorted !! mid_index;
        sum ← checked_add 128 value_1 value_2;
        ufixed_div sum fixed_two
      else sorted !! mid_index
  end.

(** [RawValues::iter_prefix(key)], in some order. *)
Definition raw_values_of (key : OracleKey) (r : Runtime) : list TimestampedValue :=
  omap (λ kv, if bool_decide (kv.1.1 = key) then Some kv.2 else None) (map_to_list (RawValues (rt_oracle r))).

Definition min_of (l : list Z) : option Z :=
  match l with
  | [] => None
  | x :: l => Some (foldr Z.min x l)
  end.

Definition valid_until (raw_values : list TimestampedValue) (max_delay : Z) : Z :=
  default 0 ((λ t, wrap MOMENT (t + max_delay)) <$> min_of (timestamp <$> raw_values)).

Definition feed_one (oracle : AccountId) (kv : OracleKey * Z) : B unit :=
  now ← gets get_current_time;
  update (with_RawValues <[(kv.1, oracle) := mkTimestamped kv.2 now]>);;
  update (with_RawValuesUpdated <[kv.1 := true]>).
Definition _feed_values (oracle : AccountId) (values : list (OracleKey * Z)) : B unit :=
  for_each (feed_one oracle) values;;
  deposit_event (FeedValues oracle values).

Definition insert_oracle (oracle : AccountId) (name : list byte) : B unit :=
  update (with_AuthorizedOracles <[oracle := name]>).

Section hook.
(** [T::OnExchangeRateChange] *)
Context (on_exchange_rate_change : CurrencyId.t → B unit).

Definition notify (key : OracleKey) : B unit :=
  match key with
  | ExchangeRate currency_id => on_exchange_rate_change currency_id
  | FeeEstimation => mret tt
  end.

Definition update_aggregate (key : OracleKey) : B (option Z) :=
  update (with_RawValuesUpdated <[key := false]>);;
  raw_values ← gets (raw_values_of key);
  now ← gets get_current_time;
  max_delay ← gets get_max_delay;
  let min_timestamp := saturating_sub now max_delay in
  let raw_values := filter (λ v, min_timestamp ≤ timestamp v) raw_values in
  match raw_values with
  | [] =>
      update (with_Aggregate (delete key));;
      update (with_ValidUntil (delete key));;
      notify key;;
      mret None
  | _ =>
      match median (value <$> raw_values) with
      | None => mret None
      | Some value =>
          update (with_Aggregate <[key := value]>);;
          update (with_ValidUntil <[key := valid_until raw_values max_delay]>);;
          notify key;;
          mret (Some value)
      end
  end.

Fixpoint begin_block_loop (current_time : Z) (l : list (OracleKey * bool)) : B (list (OracleKey * option Z)) :=
  match l with
  | [] => mret []
  | (key, is_updated) :: l =>
      outdated ← gets (is_outdated key current_time);
      if (is_updated || outdated : bool) then
        new_value ← update_aggregate key;
        updated_items ← begin_block_loop current_time l;
        mret ((key, new_value) :: updated_items)
      else begin_block_loop current_time l
  end.

Definition begin_block : B Z :=
  raw_values_updated ← gets (λ r, storage_iter (RawValuesUpdated (rt_oracle r)));
  current_time ← gets get_current_time;
  updated_items ← begin_block_loop current_time raw_values_updated;
  whenM (negb (bool_decide (updated_items = []))) (deposit_event (AggregateUpdated updated_items));;
  mret (Z.min (Z.of_nat (length raw_values_updated)) (umax 32)).

Definition _set_exchange_rate (currency_id : CurrencyId.t) (exchange_rate : Z) : B unit :=
  update (with_Aggregate <[ExchangeRate currency_id := exchange_rate]>);;
  on_exchange_rate_change currency_id.
End hook.

(** ** Extrinsics *)

Definition feed_values (origin : Origin) (values : list (OracleKey * Z)) : B unit :=
  signer ← lift (ensure_signed origin);
  authorized ← gets (is_authorized signer);
  ensureM authorized (ModuleError (OracleE OracleError.InvalidOracleSource));;
  _feed_values signer values.
Definition insert_authorized_oracle (origin : Origin) (account_id : AccountId) (name : list byte) : B unit :=
  lift (ensure_root origin);;
  insert_oracle account_id name;;
  deposit_event (OracleAdded account_id name).
Definition remove_authorized_oracle (origin : Origin) (account_id : AccountId) : B unit :=
  lift (ensure_root origin);;
  update (with_AuthorizedOracles (delete account_id));;
  deposit_event (OracleRemoved account_id).
End oracle.
End Oracle.

(** ** [CurrencyConvert] *)

(** What a conversion of lend tokens may change: interest accrues on the
    market, and the capacity of the currency is updated with its price. *)
Section frame.
Context `{bridge_env}.

Definition beyond_loans (r : Runtime) :=
  (rt_tokens r, rt_relay r, rt_oracle r, rt_fee r, rt_rewards r, rt_staking r, rt_registry r,
   (rt_nomination r, rt_issue r, rt_redeem r, rt_replace r)).
End frame.

(** The part of [LoansApi] ([crates/traits/src/loans.rs]) used here, and
    [OnExchangeRateChange] of the loans pallet. *)
Class LoansApi `{bridge_env} : Type := {
  recompute_underlying_amount : Amount.t → B Amount.t;
  recompute_collateral_amount : Amount.t → B Amount.t;
  underlying_id : CurrencyId.t → Runtime → outcome BError CurrencyId.t;
  loans_on_exchange_rate_change : CurrencyId.t → B unit;
  loans_on_exchange_rate_change_frame c : keeps beyond_loans (loans_on_exchange_rate_change c);
  recompute_underlying_frame a : keeps beyond_loans (recompute_underlying_amount a);
  recompute_collateral_frame a : keeps beyond_loans (recompute_collateral_amount a);
}.

Module CurrencyConvert.
Section convert.
Context `{LoansApi}.

(** [CurrencyConvert::convert], also [Amount::convert_to]. *)
Definition convert_to (amount : Amount.t) (to : CurrencyId.t) : B Amount.t :=
  let from_lend := CurrencyId.is_lend_token (Amount.currency amount) in
  let to_lend := CurrencyId.is_lend_token to in
  if from_lend && to_lend then
    to_underlying_id ← query (underlying_id to);
    from_underlying_amount ← recompute_underlying_amount amount;
    to_underlying_amount ← query (Oracle.convert from_underlying_amount to_underlying_id);
    recompute_collateral_amount to_underlying_amount
  else if from_lend then
    underlying ← recompute_underlying_amount amount;
    query (Oracle.convert underlying to)
  else if to_lend then
    underlying_id ← query (underlying_id to);
    underlying_amount ← query (Oracle.convert amount underlying_id);
    recompute_collateral_amount underlying_amount
  else query (Oracle.convert amount to).

Lemma convert_to_frame amount to : keeps beyond_loans (convert_to amount to).
Proof.
  unfold convert_to. repeat case_match;
    repeat first [apply recompute_underlying_frame | apply recompute_collateral_frame | keeps_step].
Qed.
End convert.
End CurrencyConvert.
