(* ===== verification/Fee.v ===== *)
(** * The fee pallet ([crates/fee/src/lib.rs])

    Fees and griefing collateral as rates of an amount; rewards enter the
    capacity pool, are pulled by a vault through the pool of its collateral
    currency, less its commission, into the staking pool of its nominators. *)

From coqutil Require Import Byte.
From Stdlib Require Import ZArith Lia.
From stdpp Require Import base tactics option list numbers gmap.
From S2P Require Import Prelude Bytes Security Primitives FixedPoint Reward Staking Tokens Amount BridgeStores Bridge.

Local Open Scope Z_scope.

Module Fee.
Import FeeStore.

Section fee.
Context `{bridge_env}.

Definition update (f : Storage → Storage) : B unit := modify (with_fee f).

(** ** Rates *)

Definition get_commission_rate (vault_id : VaultId) (r : Runtime) : Z :=
  default 0 (Commission (rt_fee r) !! vault_id).
Definition get_max_expected_value : Z := MaxExpectedValue.

Definition get_issue_fee (amount : Amount.t) (r : Runtime) : outcome BError Amount.t :=
  Amount.checked_rounded_mul amount (IssueFee (rt_fee r)) NearestPrefUp.
Definition get_issue_griefing_collateral (amount : Amount.t) (r : Runtime) : outcome BError Amount.t :=
  Amount.checked_rounded_mul amount (IssueGriefingCollateral (rt_fee r)) NearestPrefUp.
Definition get_redeem_fee (amount : Amount.t) (r : Runtime) : outcome BError Amount.t :=
  Amount.checked_rounded_mul amount (RedeemFee (rt_fee r)) NearestPrefUp.
Definition get_premium_redeem_fee (amount : Amount.t) (r : Runtime) : outcome BError Amount.t :=
  Amount.checked_rounded_mul amount (PremiumRedeemFee (rt_fee r)) Down.
Definition premium_redeem_reward_rate (r : Runtime) : Z := PremiumRedeemFee (rt_fee r).
Definition get_redeem_fee_value (r : Runtime) : Z := RedeemFee (rt_fee r).
Definition get_punishment_fee (amount : Amount.t) (r : Runtime) : outcome BError Amount.t :=
  Amount.checked_rounded_mul amount (PunishmentFee (rt_fee r)) NearestPrefUp.
Definition get_replace_griefing_collateral (amount : Amount.t) (r : Runtime) : outcome BError Amount.t :=
  Amount.checked_rounded_mul amount (ReplaceGriefingCollateral (rt_fee r)) NearestPrefUp.

(** ** Rewards *)

(** [T::CapacityRewards::distribute_reward]: an error is not passed on. *)
Definition distribute (reward : Amount.t) : B Amount.t := λ r,
  let (distributed, pool) :=
    RewardsApi.try_distribute_reward MaxCapacityCurrencies tt (Amount.currency reward)
      (Amount.amount reward) (rt_capacity r) in
  Ok (if distributed then Amount.zero (Amount.currency reward) else reward, with_capacity (λ _, pool) r).

(** [SweepFunds::on_sweep] *)
Definition on_sweep (who : AccountId) (amount : Amount.t) : B unit :=
  on_tokens (Amount.transfer amount who sweep_account_id).

Definition distribute_rewards (amount : Amount.t) : B unit :=
  remaining ← distribute amount;
  whenM (negb (Amount.is_zero remaining)) (on_sweep fee_pool_account_id remaining).

Definition distribute_vault_rewards (vault_id : VaultId) (currency_id : CurrencyId.t) : B unit :=
  let collateral_id := collateral_currency vault_id in
  reward ← on_capacity (RewardsApi.withdraw_reward tt collateral_id currency_id);
  on_rewards (RewardsApi.distribute_reward MaxVaultCurrencies collateral_id currency_id reward);;
  reward ← on_rewards (RewardsApi.withdraw_reward collateral_id vault_id currency_id);
  let full_amount := Amount.new reward currency_id in
  commission_rate ← gets (get_commission_rate vault_id);
  commission ← lift (Amount.checked_mul full_amount commission_rate);
  on_tokens (Amount.transfer commission fee_pool_account_id (account_id vault_id));;
  remainder ← lift (Amount.checked_sub full_amount commission);
  on_staking (StakingApi.distribute_reward (None, vault_id) currency_id (Amount.amount remainder)).

(** [[vault_id.wrapped_currency(), T::GetNativeCurrencyId::get()]] *)
Definition reward_currencies (vault_id : VaultId) : list CurrencyId.t :=
  [wrapped_currency vault_id; GetNativeCurrencyId].

Definition distribute_all_vault_rewards (vault_id : VaultId) : B unit :=
  for_each (distribute_vault_rewards vault_id) (reward_currencies vault_id).

Definition withdraw_vault_rewards (vault_id : VaultId) (nominator_id : AccountId) (index : option Z)
    (currency_id : CurrencyId.t) : B Z :=
  distribute_vault_rewards vault_id currency_id;;
  rewards ← on_staking (StakingApi.withdraw_reward (index, vault_id) nominator_id currency_id);
  let amount := Amount.new rewards currency_id in
  on_tokens (Amount.transfer amount fee_pool_account_id nominator_id);;
  mret rewards.

(** The changes of storage are rolled back. *)
Definition compute_vault_rewards (vault_id : VaultId) (nominator_id : AccountId)
    (currency_id : CurrencyId.t) (r : Runtime) : outcome BError Amount.t :=
  let balance_before := Amount.get_free_balance currency_id nominator_id (rt_tokens r) in
  x ← withdraw_vault_rewards vault_id nominator_id None currency_id r;
  let balance_after := Amount.get_free_balance currency_id nominator_id (rt_tokens x.2) in
  Amount.saturating_sub balance_after balance_before.

(** ** Extrinsics *)

Definition above_max : BError := ModuleError (FeeE FeeError.AboveMaxExpectedValue).
Definition within_expected (fee : Z) : B unit := ensureM (fee <=? get_max_expected_value) above_max.

Definition withdraw_rewards (origin : Origin) (vault_id : VaultId) (index : option Z) : B unit :=
  nominator_id ← lift (ensure_signed origin);
  for_each (λ currency_id, withdraw_vault_rewards vault_id nominator_id index currency_id;; mret tt)
    (reward_currencies vault_id).
Definition set_issue_fee (origin : Origin) (fee : Z) : B unit :=
  lift (ensure_root origin);; within_expected fee;; update (with_IssueFee (λ _, fee)).
Definition set_issue_griefing_collateral (origin : Origin) (griefing_collateral : Z) : B unit :=
  lift (ensure_root origin);; within_expected griefing_collateral;;
  update (with_IssueGriefingCollateral (λ _, griefing_collateral)).
Definition set_redeem_fee (origin : Origin) (fee : Z) : B unit :=
  lift (ensure_root origin);; within_expected fee;; update (with_RedeemFee (λ _, fee)).
Definition set_premium_redeem_fee (origin : Origin) (fee : Z) : B unit :=
  lift (ensure_root origin);; within_expected fee;; update (with_PremiumRedeemFee (λ _, fee)).
Definition set_punishment_fee (origin : Origin) (fee : Z) : B unit :=
  lift (ensure_root origin);; within_expected fee;; update (with_PunishmentFee (λ _, fee)).
Definition set_replace_griefing_collateral (origin : Origin) (griefing_collateral : Z) : B unit :=
  lift (ensure_root origin);; within_expected griefing_collateral;;
  update (with_ReplaceGriefingCollateral (λ _, griefing_collateral)).
Definition set_commission (origin : Origin) (currencies : VaultCurrencyPair) (commission : Z) : B unit :=
  account_id ← lift (ensure_signed origin);
  let vault_id := from_pair account_id currencies in
  opted_in ← gets (λ r, NominationStore.is_opted_in vault_id (rt_nomination r));
  ensureM opted_in (ModuleError (NominationE NominationError.VaultNotOptedInToNomination));;
  ensureM (commission <=? DIV) above_max;;
  update (with_Commission <[vault_id := commission]>).
End fee.
End Fee.
