(* ===== verification/Registry.v ===== *)
(** * Vaults: tokens, thresholds and collateral pools

    The base of the vault registry ([crates/vault-registry/src]): reading and
    writing a vault, the token counters of a vault and of the liquidation vault
    of its currency pair ([types.rs]), the total locked collateral, collateral
    thresholds ([lib.rs]), and the pools a vault's collateral is recorded in
    ([pool_manager.rs]).  A [RichVault] is a copy of a vault in memory; its
    methods change the copy and write it back, and return the copy here. *)

From coqutil Require Import Byte.
From Stdlib Require Import ZArith Lia.
From stdpp Require Import base tactics option list numbers gmap.
From S2P Require Import Prelude Bytes BtcTypes BtcBuild Security Primitives FixedPoint Reward Staking Tokens Amount BridgeStores Bridge Oracle Fee.

Local Open Scope Z_scope.

(** ** Reading and writing *)
Module Vaults.
Import RegistryStore.

Definition vault_error (e : VaultRegistryError.t) : BError := ModuleError (VaultRegistryE e).

Section vaults.
Context `{bridge_env}.

Definition update_storage (f : Storage → Storage) : B unit := modify (with_registry f).
Definition deposit_event (e : Event) : B unit := update_storage (with_event e).

Definition get_vault_from_id (vault_id : VaultId) (r : Runtime) : outcome BError Vault :=
  ok_or (RegistryStore.Vaults (rt_registry r) !! vault_id) (vault_error VaultRegistryError.VaultNotFound).
Definition get_active_vault_from_id (vault_id : VaultId) (r : Runtime) : outcome BError Vault :=
  vault ← get_vault_from_id vault_id r;
  match status vault with
  | Active _ => Ok vault
  | Liquidated => Err (vault_error VaultRegistryError.VaultLiquidated)
  end.
Definition get_rich_vault_from_id (vault_id : VaultId) (r : Runtime) : outcome BError Vault :=
  get_vault_from_id vault_id r.
Definition get_active_rich_vault_from_id (vault_id : VaultId) (r : Runtime) : outcome BError Vault :=
  get_active_vault_from_id vault_id r.
Definition vault_exists (vault_id : VaultId) (r : Runtime) : bool :=
  bool_decide (is_Some (RegistryStore.Vaults (rt_registry r) !! vault_id)).
Definition insert_vault (vault_id : VaultId) (vault : Vault) : B unit :=
  update_storage (with_Vaults <[vault_id := vault]>).

Definition get_liquidation_vault (currency_pair : VaultCurrencyPair) (r : Runtime) : SystemVault :=
  default (system_vault_new currency_pair) (LiquidationVault (rt_registry r) !! currency_pair).
Definition get_rich_liquidation_vault (currency_pair : VaultCurrencyPair) (r : Runtime) : SystemVault :=
  get_liquidation_vault currency_pair r.

Definition secure_collateral_threshold (pair : VaultCurrencyPair) (r : Runtime) : option Z :=
  SecureCollateralThreshold (rt_registry r) !! pair.
Definition premium_redeem_threshold (pair : VaultCurrencyPair) (r : Runtime) : option Z :=
  PremiumRedeemThreshold (rt_registry r) !! pair.
Definition liquidation_collateral_threshold (pair : VaultCurrencyPair) (r : Runtime) : option Z :=
  LiquidationCollateralThreshold (rt_registry r) !! pair.
Definition punishment_delay (r : Runtime) : Z := PunishmentDelay (rt_registry r).
Definition get_bitcoin_public_key (account_id : AccountId) (r : Runtime) : outcome BError PublicKey :=
  ok_or (VaultBitcoinPublicKey (rt_registry r) !! account_id) (vault_error VaultRegistryError.NoBitcoinPublicKey).
Definition get_minimum_collateral_vault (currency_id : CurrencyId.t) (r : Runtime) : Amount.t :=
  Amount.new (default 0 (MinimumCollateralVault (rt_registry r) !! currency_id)) currency_id.
Definition is_vault_liquidated (vault_id : VaultId) (r : Runtime) : outcome BError bool :=
  vault ← get_vault_from_id vault_id r; Ok (is_liquidated vault).
End vaults.
End Vaults.

(** ** The liquidation vault: [RichSystemVault] *)
Module RichSystemVault.
Import RegistryStore Vaults.

Definition wrapped_currency (self : SystemVault) : CurrencyId.t := wrapped (sys_currency_pair self).
Definition issued_tokens (self : SystemVault) : Amount.t :=
  Amount.new (sys_issued_tokens self) (wrapped_currency self).
Definition to_be_issued_tokens (self : SystemVault) : Amount.t :=
  Amount.new (sys_to_be_issued_tokens self) (wrapped_currency self).
Definition to_be_redeemed_tokens (self : SystemVault) : Amount.t :=
  Amount.new (sys_to_be_redeemed_tokens self) (wrapped_currency self).
Definition collateral (self : SystemVault) : Amount.t :=
  Amount.new (sys_collateral self) (Primitives.collateral (sys_currency_pair self)).
Definition redeemable_tokens (self : SystemVault) : outcome BError Amount.t :=
  Amount.checked_sub (issued_tokens self) (to_be_redeemed_tokens self).
Definition to_be_backed_tokens (self : SystemVault) : outcome BError Amount.t :=
  sum ← Amount.checked_add (issued_tokens self) (to_be_issued_tokens self);
  Amount.checked_sub sum (to_be_redeemed_tokens self).

Section system_vault.
Context `{bridge_env}.

Definition update (f : SystemVault → SystemVault) (self : SystemVault) : B SystemVault :=
  let data := f self in
  update_storage (with_LiquidationVault <[sys_currency_pair data := data]>);; mret data.

Definition increase_issued (self : SystemVault) (tokens : Amount.t) : B SystemVault :=
  new_value ← lift (Amount.checked_add (issued_tokens self) tokens);
  update (set_sys_issued_tokens (λ _, Amount.amount new_value)) self.
Definition increase_to_be_issued (self : SystemVault) (tokens : Amount.t) : B SystemVault :=
  new_value ← lift (Amount.checked_add (to_be_issued_tokens self) tokens);
  update (set_sys_to_be_issued_tokens (λ _, Amount.amount new_value)) self.
Definition increase_to_be_redeemed (self : SystemVault) (tokens : Amount.t) : B SystemVault :=
  new_value ← lift (Amount.checked_add (to_be_redeemed_tokens self) tokens);
  update (set_sys_to_be_redeemed_tokens (λ _, Amount.amount new_value)) self.
Definition decrease_issued (self : SystemVault) (tokens : Amount.t) : B SystemVault :=
  new_value ← lift (Amount.checked_sub (issued_tokens self) tokens);
  update (set_sys_issued_tokens (λ _, Amount.amount new_value)) self.
Definition decrease_to_be_issued (self : SystemVault) (tokens : Amount.t) : B SystemVault :=
  new_value ← lift (Amount.checked_sub (to_be_issued_tokens self) tokens);
  update (set_sys_to_be_issued_tokens (λ _, Amount.amount new_value)) self.
Definition decrease_to_be_redeemed (self : SystemVault) (tokens : Amount.t) : B SystemVault :=
  new_value ← lift (Amount.checked_sub (to_be_redeemed_tokens self) tokens);
  update (set_sys_to_be_redeemed_tokens (λ _, Amount.amount new_value)) self.
Definition increase_collateral (self : SystemVault) (amount : Amount.t) : B SystemVault :=
  new_value ← lift (Amount.checked_add (collateral self) amount);
  update (set_sys_collateral (λ _, Amount.amount new_value)) self.
Definition decrease_collateral (self : SystemVault) (amount : Amount.t) : B SystemVault :=
  new_value ← lift (Amount.checked_sub (collateral self) amount);
  update (set_sys_collateral (λ _, Amount.amount new_value)) self.
Definition burn_issued (self : SystemVault) (tokens : Amount.t) : B SystemVault :=
  decrease_issued self tokens.
End system_vault.
End RichSystemVault.

(** ** The counters of a vault: [RichVault] *)
Module RichVault.
Import RegistryStore Vaults.

Definition wrapped_currency (self : Vault) : CurrencyId.t := Primitives.wrapped_currency (id self).
Definition issued_tokens (self : Vault) : Amount.t :=
  Amount.new (RegistryStore.issued_tokens self) (wrapped_currency self).
Definition to_be_issued_tokens (self : Vault) : Amount.t :=
  Amount.new (RegistryStore.to_be_issued_tokens self) (wrapped_currency self).
Definition to_be_redeemed_tokens (self : Vault) : Amount.t :=
  Amount.new (RegistryStore.to_be_redeemed_tokens self) (wrapped_currency self).
Definition to_be_replaced_tokens (self : Vault) : Amount.t :=
  Amount.new (RegistryStore.to_be_replaced_tokens self) (wrapped_currency self).
Definition liquidated_collateral (self : Vault) : Amount.t :=
  Amount.new (RegistryStore.liquidated_collateral self) (collateral_currency (id self)).
Definition freely_redeemable_tokens (self : Vault) : outcome BError Amount.t :=
  Amount.checked_sub (issued_tokens self) (to_be_redeemed_tokens self).
Definition backed_tokens (self : Vault) : outcome BError Amount.t :=
  amount ← ok_or (checked_add BALANCE (RegistryStore.issued_tokens self)
                    (RegistryStore.to_be_issued_tokens self)) (Arithmetic Overflow);
  Ok (Amount.new amount (wrapped_currency self)).
Definition to_be_backed_tokens (self : Vault) : outcome BError Amount.t :=
  sum ← ok_or (checked_add BALANCE (RegistryStore.issued_tokens self)
                 (RegistryStore.to_be_issued_tokens self)) (Arithmetic Overflow);
  amount ← ok_or (checked_sub sum (RegistryStore.to_be_redeemed_tokens self)) (Arithmetic Underflow);
  Ok (Amount.new amount (wrapped_currency self)).

Section rich_vault.
Context `{bridge_env}.

(** The closure changes the copy, which is then written. *)
Definition update (f : Vault → outcome BError Vault) (self : Vault) : B Vault :=
  data ← lift (f self);
  update_storage (with_Vaults <[id data := data]>);; mret data.
Definition set (f : Vault → Vault) (self : Vault) : B Vault := update (λ v, Ok (f v)) self.

Definition increase_issued (self : Vault) (tokens : Amount.t) : B Vault :=
  if is_liquidated self then
    liquidation_vault ← gets (get_rich_liquidation_vault (currencies (id self)));
    RichSystemVault.increase_issued liquidation_vault tokens;; mret self
  else
    new_value ← lift (Amount.checked_add (issued_tokens self) tokens);
    set (set_issued_tokens (λ _, Amount.amount new_value)) self.
Definition increase_to_be_issued (self : Vault) (tokens : Amount.t) : B Vault :=
  ensureM (negb (is_liquidated self)) (vault_error VaultRegistryError.VaultNotFound);;
  new_value ← lift (Amount.checked_add (to_be_issued_tokens self) tokens);
  set (set_to_be_issued_tokens (λ _, Amount.amount new_value)) self.
Definition increase_to_be_redeemed (self : Vault) (tokens : Amount.t) : B Vault :=
  ensureM (negb (is_liquidated self)) (vault_error VaultRegistryError.VaultNotFound);;
  new_value ← lift (Amount.checked_add (to_be_redeemed_tokens self) tokens);
  set (set_to_be_redeemed_tokens (λ _, Amount.amount new_value)) self.
Definition decrease_issued (self : Vault) (tokens : Amount.t) : B Vault :=
  if is_liquidated self then
    liquidation_vault ← gets (get_rich_liquidation_vault (currencies (id self)));
    RichSystemVault.decrease_issued liquidation_vault tokens;; mret self
  else
    new_value ← lift (Amount.checked_sub (issued_tokens self) tokens);
    set (set_issued_tokens (λ _, Amount.amount new_value)) self.
Definition decrease_to_be_issued (self : Vault) (tokens : Amount.t) : B Vault :=
  if is_liquidated self then
    liquidation_vault ← gets (get_rich_liquidation_vault (currencies (id self)));
    RichSystemVault.decrease_to_be_issued liquidation_vault tokens;; mret self
  else
    new_value ← lift (Amount.checked_sub (to_be_issued_tokens self) tokens);
    set (set_to_be_issued_tokens (λ _, Amount.amount new_value)) self.
(** In addition to the change to this vault, also change the liquidation vault. *)
Definition decrease_to_be_redeemed (self : Vault) (tokens : Amount.t) : B Vault :=
  (if is_liquidated self then
     liquidation_vault ← gets (get_rich_liquidation_vault (currencies (id self)));
     RichSystemVault.decrease_to_be_redeemed liquidation_vault tokens;; mret tt
   else mret tt);;
  new_value ← lift (Amount.checked_sub (to_be_redeemed_tokens self) tokens);
  set (set_to_be_redeemed_tokens (λ _, Amount.amount new_value)) self.

Definition request_issue_tokens (self : Vault) (tokens : Amount.t) : B Vault :=
  increase_to_be_issued self tokens.
Definition cancel_issue_tokens (self : Vault) (tokens : Amount.t) : B Vault :=
  decrease_to_be_issued self tokens.
Definition execute_issue_tokens (self : Vault) (tokens : Amount.t) : B Vault :=
  self ← decrease_to_be_issued self tokens; increase_issued self tokens.
Definition request_redeem_tokens (self : Vault) (tokens : Amount.t) : B Vault :=
  increase_to_be_redeemed self tokens.
Definition cancel_redeem_tokens (self : Vault) (tokens : Amount.t) : B Vault :=
  decrease_to_be_redeemed self tokens.
Definition execute_redeem_tokens (self : Vault) (tokens : Amount.t) : B Vault :=
  self ← decrease_to_be_redeemed self tokens; decrease_issued self tokens.

Definition set_to_be_replaced_amount (self : Vault) (tokens : Amount.t) : B Vault :=
  set (set_to_be_replaced_tokens (λ _, Amount.amount tokens)) self.

Definition checked_set (put : (Z → Z) → Vault → Vault) (new_value : Vault → option Z)
    (e : ArithmeticError) (self : Vault) : B Vault :=
  update (λ v, x ← ok_or (new_value v) (Arithmetic e); Ok (put (λ _, x) v)) self.
Definition increase_available_replace_collateral (self : Vault) (amount : Amount.t) : B Vault :=
  checked_set set_replace_collateral
    (λ v, checked_add BALANCE (replace_collateral v) (Amount.amount amount)) Overflow self.
Definition decrease_available_replace_collateral (self : Vault) (amount : Amount.t) : B Vault :=
  checked_set set_replace_collateral
    (λ v, checked_sub (replace_collateral v) (Amount.amount amount)) Underflow self.
Definition increase_active_replace_collateral (self : Vault) (amount : Amount.t) : B Vault :=
  checked_set set_active_replace_collateral
    (λ v, checked_add BALANCE (active_replace_collateral v) (Amount.amount amount)) Overflow self.
Definition decrease_active_replace_collateral (self : Vault) (amount : Amount.t) : B Vault :=
  checked_set set_active_replace_collateral
    (λ v, checked_sub (active_replace_collateral v) (Amount.amount amount)) Underflow self.
Definition increase_liquidated_collateral (self : Vault) (amount : Amount.t) : B Vault :=
  checked_set set_liquidated_collateral
    (λ v, checked_add BALANCE (RegistryStore.liquidated_collateral v) (Amount.amount amount)) Overflow self.
Definition decrease_liquidated_collateral (self : Vault) (amount : Amount.t) : B Vault :=
  checked_set set_liquidated_collateral
    (λ v, checked_sub (RegistryStore.liquidated_collateral v) (Amount.amount amount)) Underflow self.
Definition set_custom_secure_threshold (self : Vault) (threshold : option Z) : B Vault :=
  set (set_secure_collateral_threshold (λ _, threshold)) self.
Definition set_accept_new_issues (self : Vault) (accept_new_issues : bool) : B Vault :=
  set (set_status (λ _, Active accept_new_issues)) self.

Definition is_banned (self : Vault) (r : Runtime) : bool :=
  match banned_until self with
  | None => false
  | Some until => active_block_number r <=? until
  end.
Definition ensure_not_banned (self : Vault) (r : Runtime) : outcome BError unit :=
  if is_banned self r then Err (vault_error VaultRegistryError.VaultBanned) else Ok tt.
Definition ban_until (self : Vault) (height : Z) : B Vault :=
  set (set_banned_until (λ _, Some height)) self.

Definition get_secure_threshold (self : Vault) (r : Runtime) : outcome BError Z :=
  global_threshold ← ok_or (secure_collateral_threshold (currencies (id self)) r)
    (vault_error VaultRegistryError.ThresholdNotSet);
  Ok (Z.max (default 0 (vault_secure_collateral_threshold self)) global_threshold).
Definition redeemable_tokens (self : Vault) (r : Runtime) : outcome BError Amount.t :=
  if is_banned self r then Ok (Amount.new 0 (wrapped_currency self))
  else Amount.checked_sub (issued_tokens self) (to_be_redeemed_tokens self).

Definition new_deposit_public_key (self : Vault) (secure_id : list byte) (r : Runtime)
  : outcome BError PublicKey :=
  vault_public_key ← get_bitcoin_public_key (account_id (id self)) r;
  match BtcBuild.new_deposit_public_key vault_public_key secure_id with
  | inr key => Ok key
  | inl _ => Err (vault_error VaultRegistryError.InvalidPublicKey)
  end.
Definition new_deposit_address (self : Vault) (secure_id : list byte) (r : Runtime)
  : outcome BError Address :=
  public_key ← new_deposit_public_key self secure_id r;
  Ok (P2WPKHv0 (to_hash public_key)).
End rich_vault.
End RichVault.
