(* ===== verification/Collateral.v ===== *)
(** * Collateral of vaults: thresholds, pools and nomination

    The collateral of a vault is the stake of its staking pool; its share is
    the stake of the vault itself.  [Collateral]: amounts and thresholds of
    [crates/vault-registry/src/lib.rs]; [PoolManager]: the pools that follow a
    change of the stake ([pool_manager.rs]); [Nomination]: deposits and
    withdrawals ([crates/nomination/src/lib.rs]), which the registry calls back
    for the deposits of the vault itself. *)

From coqutil Require Import Byte.
From Stdlib Require Import ZArith Lia.
From stdpp Require Import base tactics option list numbers gmap.
From S2P Require Import Prelude Bytes Security Primitives FixedPoint Reward Staking Tokens Amount BridgeStores Bridge Oracle Fee Registry.

Local Open Scope Z_scope.

Module Collateral.
Import RegistryStore Vaults CurrencyConvert.

Section collateral.
Context `{LoansApi}.

(** ** Amounts *)

(** [ext::staking::total_current_stake] and [compute_stake], with the error of the staking pallet. *)
Definition total_current_stake (vault_id : VaultId) (r : Runtime) : outcome BError Amount.t :=
  amount ← map_err (from_pallet StakingE) (StakingApi.get_total_stake (None, vault_id) (rt_staking r));
  Ok (Amount.new amount (collateral_currency vault_id)).
Definition get_backing_collateral (vault_id : VaultId) (r : Runtime) : outcome BError Amount.t :=
  total_current_stake vault_id r.
Definition compute_collateral (vault_id : VaultId) (r : Runtime) : outcome BError Amount.t :=
  amount ← map_err (from_pallet StakingE)
    (StakingApi.get_stake (None, vault_id) (account_id vault_id) (rt_staking r));
  Ok (Amount.new amount (collateral_currency vault_id)).
(** [RichVault::get_vault_collateral] and [get_total_collateral]. *)
Definition get_vault_collateral (self : Vault) (r : Runtime) : outcome BError Amount.t :=
  compute_collateral (id self) r.
Definition get_total_collateral (self : Vault) (r : Runtime) : outcome BError Amount.t :=
  get_backing_collateral (id self) r.
Definition get_liquidated_collateral (vault_id : VaultId) (r : Runtime) : outcome BError Amount.t :=
  vault ← get_vault_from_id vault_id r;
  Ok (Amount.new (liquidated_collateral vault) (collateral_currency vault_id)).

Definition get_total_user_vault_collateral (pair : VaultCurrencyPair) (r : Runtime) : Amount.t :=
  Amount.new (default 0 (TotalUserVaultCollateral (rt_registry r) !! pair)) (Primitives.collateral pair).
Definition get_collateral_ceiling (pair : VaultCurrencyPair) (r : Runtime) : outcome BError Amount.t :=
  ceiling_amount ← ok_or (SystemCollateralCeiling (rt_registry r) !! pair)
    (vault_error VaultRegistryError.CeilingNotSet);
  Ok (Amount.new ceiling_amount (Primitives.collateral pair)).

Definition try_increase_total_backing_collateral (currency_pair : VaultCurrencyPair) (amount : Amount.t)
  : B unit :=
  total ← gets (get_total_user_vault_collateral currency_pair);
  new ← lift (Amount.checked_add total amount);
  limit ← query (get_collateral_ceiling currency_pair);
  below ← lift (Amount.le new limit);
  ensureM below (vault_error VaultRegistryError.CurrencyCeilingExceeded);;
  update_storage (with_TotalUserVaultCollateral <[currency_pair := Amount.amount new]>);;
  deposit_event (IncreaseLockedCollateral currency_pair (Amount.amount amount) (Amount.amount new)).
Definition decrease_total_backing_collateral (currency_pair : VaultCurrencyPair) (amount : Amount.t)
  : B unit :=
  total ← gets (get_total_user_vault_collateral currency_pair);
  new ← lift (Amount.checked_sub total amount);
  update_storage (with_TotalUserVaultCollateral <[currency_pair := Amount.amount new]>);;
  deposit_event (DecreaseLockedCollateral currency_pair (Amount.amount amount) (Amount.amount new)).

(** [(collateral * numerator) / denominator] in 256 bits. *)
Definition calculate_collateral (collateral numerator denominator : Amount.t) : outcome BError Amount.t :=
  if Amount.is_zero numerator && Amount.is_zero denominator then Ok collateral
  else
    let currency := Amount.currency collateral in
    product ← ok_or (checked_mul 256 (Amount.amount collateral) (Amount.amount numerator))
      (Arithmetic Overflow);
    quotient ← ok_or (if Amount.amount denominator =? 0 then None
                      else Some (product / Amount.amount denominator)) (Arithmetic Underflow);
    amount ← ok_or (checked BALANCE quotient) (vault_error VaultRegistryError.TryIntoIntError);
    Ok (Amount.new amount currency).

(** ** Thresholds *)

Definition get_global_secure_threshold (pair : VaultCurrencyPair) (r : Runtime) : outcome BError Z :=
  ok_or (secure_collateral_threshold pair r) (vault_error VaultRegistryError.ThresholdNotSet).
Definition get_vault_secure_threshold (vault_id : VaultId) (r : Runtime) : outcome BError Z :=
  vault ← get_rich_vault_from_id vault_id r; RichVault.get_secure_threshold vault r.

Definition calculate_max_wrapped_from_collateral_for_threshold (collateral : Amount.t)
    (wrapped_currency : CurrencyId.t) (threshold : Z) : B Amount.t :=
  wrapped ← convert_to collateral wrapped_currency;
  lift (Amount.checked_div wrapped threshold).
Definition is_collateral_below_threshold (collateral btc_amount : Amount.t) (threshold : Z) : B bool :=
  max_tokens ← calculate_max_wrapped_from_collateral_for_threshold collateral
    (Amount.currency btc_amount) threshold;
  lift (Amount.lt max_tokens btc_amount).
Definition is_collateral_below_vault_secure_threshold (collateral wrapped_amount : Amount.t)
    (vault : Vault) : B bool :=
  threshold ← query (RichVault.get_secure_threshold vault);
  is_collateral_below_threshold collateral wrapped_amount threshold.
Definition is_vault_below_certain_threshold (vault_id : VaultId) (threshold : Z) : B bool :=
  vault ← query (get_rich_vault_from_id vault_id);
  collateral ← query (get_backing_collateral vault_id);
  is_collateral_below_threshold collateral (RichVault.issued_tokens vault) threshold.
Definition is_vault_below_secure_threshold (vault_id : VaultId) : B bool :=
  vault ← query (get_rich_vault_from_id vault_id);
  threshold ← query (RichVault.get_secure_threshold vault);
  is_vault_below_certain_threshold vault_id threshold.
Definition is_vault_below_liquidation_threshold (vault : Vault) (liquidation_threshold : Z) : B bool :=
  collateral ← query (get_backing_collateral (id vault));
  is_collateral_below_threshold collateral (RichVault.issued_tokens vault) liquidation_threshold.
Definition will_be_below_premium_threshold (vault_id : VaultId) : B bool :=
  vault ← query (get_rich_vault_from_id vault_id);
  threshold ← query (λ r, ok_or (premium_redeem_threshold (currencies vault_id) r)
                            (vault_error VaultRegistryError.ThresholdNotSet));
  collateral ← query (get_backing_collateral vault_id);
  tokens ← lift (RichVault.to_be_backed_tokens vault);
  is_collateral_below_threshold collateral tokens threshold.

Definition get_required_collateral_for_wrapped_with_threshold (wrapped : Amount.t) (threshold : Z)
    (currency_id : CurrencyId.t) : B Amount.t :=
  scaled ← lift (Amount.checked_rounded_mul wrapped threshold Up);
  convert_to scaled currency_id.
Definition get_required_collateral_for_wrapped (amount_wrapped : Amount.t) (currency_id : CurrencyId.t)
  : B Amount.t :=
  let currency_pair := mkPair currency_id (Amount.currency amount_wrapped) in
  threshold ← query (get_global_secure_threshold currency_pair);
  get_required_collateral_for_wrapped_with_threshold amount_wrapped threshold currency_id.
Definition get_required_collateral_for_vault (vault_id : VaultId) : B Amount.t :=
  vault ← query (get_active_rich_vault_from_id vault_id);
  issued_tokens ← lift (RichVault.backed_tokens vault);
  threshold ← query (RichVault.get_secure_threshold vault);
  get_required_collateral_for_wrapped_with_threshold issued_tokens threshold
    (collateral_currency vault_id).

(** [RichVault::get_used_collateral], [get_free_collateral] and [issuable_tokens]. *)
Definition get_used_collateral (self : Vault) (threshold : Z) : B Amount.t :=
  issued_tokens ← lift (RichVault.backed_tokens self);
  issued_tokens_in_collateral ← convert_to issued_tokens (collateral_currency (id self));
  used_collateral ← lift (Amount.checked_mul issued_tokens_in_collateral threshold);
  total_collateral ← query (get_total_collateral self);
  lift (Amount.min total_collateral used_collateral).
Definition get_free_collateral (self : Vault) : B Amount.t :=
  threshold ← query (RichVault.get_secure_threshold self);
  used_collateral ← get_used_collateral self threshold;
  total_collateral ← query (get_total_collateral self);
  lift (Amount.checked_sub total_collateral used_collateral).
Definition issuable_tokens (self : Vault) : B Amount.t :=
  banned ← gets (RichVault.is_banned self);
  if (banned : bool) then mret (Amount.new 0 (RichVault.wrapped_currency self))
  else
    free_collateral ← get_free_collateral self;
    secure_threshold ← query (RichVault.get_secure_threshold self);
    calculate_max_wrapped_from_collateral_for_threshold free_collateral
      (RichVault.wrapped_currency self) secure_threshold.

Definition compute_capacity (vault_id : VaultId) : B Amount.t :=
  vault ← query (get_rich_vault_from_id vault_id);
  amount ← query (get_vault_collateral vault);
  threshold ← query (RichVault.get_secure_threshold vault);
  calculate_max_wrapped_from_collateral_for_threshold amount (wrapped_currency vault_id) threshold.

Definition vault_to_be_backed_tokens (vault_id : VaultId) (r : Runtime) : outcome BError Amount.t :=
  vault ← get_active_rich_vault_from_id vault_id r; RichVault.to_be_backed_tokens vault.

(** The collateral missing to the secure threshold, times [fee / (secure - fee)]. *)
Definition get_vault_max_premium_redeem (vault_id : VaultId) : B Amount.t :=
  to_be_backed_tokens ← query (vault_to_be_backed_tokens vault_id);
  global_secure_threshold ← query (get_global_secure_threshold (currencies vault_id));
  premium_redeem_rate ← gets Fee.premium_redeem_reward_rate;
  required_collateral ← get_required_collateral_for_wrapped to_be_backed_tokens
    (collateral_currency vault_id);
  current_collateral ← query (get_backing_collateral vault_id);
  missing_collateral ← lift (Amount.saturating_sub required_collateral current_collateral);
  excess ← lift (ok_or (checked_sub global_secure_threshold premium_redeem_rate) (Arithmetic Underflow));
  factor ← lift (ok_or (ufixed_div premium_redeem_rate excess) (Arithmetic DivisionByZero));
  lift (Amount.checked_mul missing_collateral factor).

(** Whether the vault would be above the secure threshold after withdrawing [amount]. *)
Definition is_allowed_to_withdraw_collateral (vault_id : VaultId) (amount : option Amount.t) : B bool :=
  vault ← query (get_rich_vault_from_id vault_id);
  new_collateral ←
    match amount with
    | Some amount =>
        backing ← query (get_backing_collateral vault_id);
        match Amount.checked_sub backing amount with
        | Err (Arithmetic Underflow) => mret None
        | c => x ← lift c; mret (Some x)
        end
    | None => mret (Some (Amount.zero (collateral_currency vault_id)))
    end;
  match new_collateral with
  | None => mret false
  | Some new_collateral =>
      minimum ← gets (get_minimum_collateral_vault (collateral_currency vault_id));
      (if Amount.is_zero new_collateral then mret tt
       else
         enough ← lift (Amount.ge new_collateral minimum);
         ensureM enough (vault_error VaultRegistryError.InsufficientVaultCollateralAmount));;
      backed ← lift (RichVault.backed_tokens vault);
      is_below_threshold ← is_collateral_below_vault_secure_threshold new_collateral backed vault;
      mret (negb is_below_threshold)
  end.
End collateral.
End Collateral.

(** ** The pools behind the collateral of a vault *)
Module PoolManager.
Import RegistryStore Vaults CurrencyConvert Collateral.

Section pool_manager.
Context `{LoansApi}.

(** [ext::reward::total_current_stake] *)
Definition total_reward_stake (currency_id : CurrencyId.t) (r : Runtime) : outcome BError Amount.t :=
  amount ← map_err (from_pallet RewardE) (RewardsApi.get_total_stake currency_id (rt_rewards r));
  Ok (Amount.new amount currency_id).

Definition update_capacity_stake (currency_id : CurrencyId.t) : B unit :=
  total_reward_stake ← query (total_reward_stake currency_id);
  new_capacity_stake ← convert_to total_reward_stake GetWrappedCurrencyId;
  on_capacity (RewardsApi.set_stake currency_le tt currency_id (Amount.amount new_capacity_stake)).

Definition update_reward_stake (vault_id : VaultId) : B unit :=
  vault ← query (get_vault_from_id vault_id);
  new_reward_stake ←
    (if negb (accepts_new_issues vault) then mret (Amount.zero (collateral_currency vault_id))
     else
       total_collateral ← query (total_current_stake vault_id);
       secure_threshold ← query (get_vault_secure_threshold vault_id);
       lift (Amount.checked_div total_collateral secure_threshold));
  on_rewards (RewardsApi.set_stake currency_le (collateral_currency vault_id) vault_id
                (Amount.amount new_reward_stake));;
  update_capacity_stake (collateral_currency vault_id).

Definition deposit_collateral (vault_id : VaultId) (nominator_id : AccountId) (amount : Amount.t) : B unit :=
  Fee.distribute_all_vault_rewards vault_id;;
  on_staking (StakingApi.deposit_stake GetNativeCurrencyId (None, vault_id) nominator_id (Amount.amount amount));;
  update_reward_stake vault_id.

(** [ext::staking::withdraw_stake] *)
Definition withdraw_stake (vault_id : VaultId) (nominator_id : AccountId)
    (maybe_amount : option Amount.t) (nonce : option Z) : B Amount.t :=
  match maybe_amount with
  | Some amount =>
      on_staking (StakingApi.withdraw_stake GetNativeCurrencyId (nonce, vault_id) nominator_id
                    (Amount.amount amount));;
      mret amount
  | None =>
      balance ← on_staking (StakingApi.withdraw_all_stake GetNativeCurrencyId (nonce, vault_id) nominator_id);
      mret (Amount.new balance (collateral_currency vault_id))
  end.
Definition withdraw_collateral (vault_id : VaultId) (nominator_id : AccountId)
    (maybe_amount : option Amount.t) (nonce : option Z) : B Amount.t :=
  Fee.distribute_all_vault_rewards vault_id;;
  amount ← withdraw_stake vault_id nominator_id maybe_amount nonce;
  update_reward_stake vault_id;;
  mret amount.

Definition slash_collateral (vault_id : VaultId) (amount : Amount.t) : B unit :=
  Fee.distribute_all_vault_rewards vault_id;;
  on_staking (StakingApi.slash_stake GetNativeCurrencyId vault_id (Amount.amount amount));;
  update_reward_stake vault_id.

Definition kick_nominators (vault_id : VaultId) : B Amount.t :=
  Fee.distribute_all_vault_rewards vault_id;;
  refunded ← on_staking (StakingApi.force_refund GetNativeCurrencyId vault_id);
  update_reward_stake vault_id;;
  mret (Amount.new refunded (collateral_currency vault_id)).

Definition on_vault_settings_change (vault_id : VaultId) : B unit :=
  Fee.distribute_all_vault_rewards vault_id;;
  update_reward_stake vault_id.

(** The error is not passed on; what [set_stake] wrote before it stays.  A conversion that
    fails is taken to change nothing. *)
Definition on_exchange_rate_change (currency_id : CurrencyId.t) : B unit := λ r,
  match (total_reward_stake ← query (total_reward_stake currency_id);
         convert_to total_reward_stake GetWrappedCurrencyId) r with
  | Ok (stake, r') =>
      Ok (tt, with_capacity (λ pool,
            RewardsApi.set_stake_unchecked currency_le tt currency_id (Amount.amount stake) pool) r')
  | Err _ => Ok (tt, r)
  | Panic => Panic
  | NoFuel => NoFuel
  end.
End pool_manager.
End PoolManager.
