(* ===== verification/Nomination.v ===== *)
(** * The nomination pallet ([crates/nomination/src/lib.rs])

    Collateral enters and leaves the staking pool of a vault here, for the
    vault itself and for its nominators; the tokens are reserved on the vault's
    account and the total locked collateral of the currency pair follows. *)

From coqutil Require Import Byte.
From Stdlib Require Import ZArith Lia.
From stdpp Require Import base tactics option list numbers gmap.
From S2P Require Import Prelude Bytes Security Primitives FixedPoint Reward Staking Tokens Amount BridgeStores Bridge Oracle Fee Registry Collateral.

Local Open Scope Z_scope.

Module Nomination.
Import NominationStore Collateral.

Definition nomination_error (e : NominationError.t) : BError := ModuleError (NominationE e).

Section nomination.
Context `{LoansApi}.

Definition update (f : Storage → Storage) : B unit := modify (with_nomination f).
Definition deposit_event (e : Event) : B unit := update (with_event e).

Definition is_nomination_enabled (r : Runtime) : bool := NominationEnabled (rt_nomination r).
Definition is_opted_in (vault_id : VaultId) (r : Runtime) : bool :=
  NominationStore.is_opted_in vault_id (rt_nomination r).
Definition get_nomination_limit (vault_id : VaultId) (r : Runtime) : Amount.t :=
  Amount.new (default 0 (NominationLimit (rt_nomination r) !! vault_id)) (collateral_currency vault_id).
Definition get_total_nominated_collateral (vault_id : VaultId) (r : Runtime) : outcome BError Amount.t :=
  vault_backing_collateral ← get_backing_collateral vault_id r;
  vault_actual_collateral ← compute_collateral vault_id r;
  Amount.checked_sub vault_backing_collateral vault_actual_collateral.
Definition get_nominator_collateral (vault_id : VaultId) (nominator_id : AccountId) (r : Runtime)
  : outcome BError Amount.t :=
  amount ← map_err (from_pallet StakingE)
    (StakingApi.get_stake (None, vault_id) nominator_id (rt_staking r));
  Ok (Amount.new amount (collateral_currency vault_id)).

(** The two checks on a nominator that is not the vault. *)
Definition ensure_nominatable (vault_id : VaultId) : B unit :=
  enabled ← gets is_nomination_enabled;
  ensureM enabled (nomination_error NominationError.VaultNominationDisabled);;
  opted_in ← gets (is_opted_in vault_id);
  ensureM opted_in (nomination_error NominationError.VaultNotOptedInToNomination).

Definition _withdraw_collateral (vault_id : VaultId) (nominator_id : AccountId)
    (maybe_amount : option Z) (index : Z) : B unit :=
  nonce ← gets (λ r, Staking.nonce vault_id (rt_staking r));
  let index := Z.min index nonce in
  let maybe_amount := (λ x, Amount.new x (collateral_currency vault_id)) <$> maybe_amount in
  (if index =? nonce then
     allowed ← is_allowed_to_withdraw_collateral vault_id maybe_amount;
     ensureM allowed (nomination_error NominationError.CannotWithdrawCollateral);;
     (if bool_decide (account_id vault_id = nominator_id) then mret tt else ensure_nominatable vault_id)
   else mret tt);;
  amount ← PoolManager.withdraw_collateral vault_id nominator_id maybe_amount (Some index);
  on_tokens (Amount.unlock_on amount (account_id vault_id));;
  on_tokens (Amount.transfer amount (account_id vault_id) nominator_id);;
  decrease_total_backing_collateral (currencies vault_id) amount;;
  deposit_event (WithdrawCollateral vault_id nominator_id (Amount.amount amount)).

Definition _deposit_collateral (vault_id : VaultId) (nominator_id : AccountId) (amount : Z) : B unit :=
  let amount := Amount.new amount (collateral_currency vault_id) in
  (if bool_decide (account_id vault_id = nominator_id) then mret tt
   else
     total_nominated_collateral ← query (get_total_nominated_collateral vault_id);
     new_nominated_collateral ← lift (Amount.checked_add total_nominated_collateral amount);
     max_nominatable_collateral ← gets (get_nomination_limit vault_id);
     ensure_nominatable vault_id;;
     below ← lift (Amount.le new_nominated_collateral max_nominatable_collateral);
     ensureM below (nomination_error NominationError.NominationExceedsLimit);;
     on_tokens (Amount.transfer amount nominator_id (account_id vault_id)));;
  PoolManager.deposit_collateral vault_id nominator_id amount;;
  on_tokens (Amount.lock_on amount (account_id vault_id));;
  try_increase_total_backing_collateral (currencies vault_id) amount;;
  deposit_event (DepositCollateral vault_id nominator_id (Amount.amount amount)).

(** [NominationApi::deposit_vault_collateral], called back by the vault registry. *)
Definition deposit_vault_collateral (vault_id : VaultId) (amount : Amount.t) : B unit :=
  _deposit_collateral vault_id (account_id vault_id) (Amount.amount amount).

Definition ensure_opted_in_to_nomination (vault_id : VaultId) (r : Runtime) : outcome BError unit :=
  ensure (is_opted_in vault_id r) (nomination_error NominationError.VaultNotOptedInToNomination).

Definition _opt_in_to_nomination (vault_id : VaultId) : B unit :=
  enabled ← gets is_nomination_enabled;
  ensureM enabled (nomination_error NominationError.VaultNominationDisabled);;
  exists_ ← gets (Vaults.vault_exists vault_id);
  ensureM exists_ (nomination_error NominationError.VaultNotFound);;
  opted_in ← gets (is_opted_in vault_id);
  ensureM (negb opted_in) (nomination_error NominationError.VaultAlreadyOptedInToNomination);;
  update (with_Vaults <[vault_id := true]>);;
  deposit_event (NominationOptIn vault_id).

Definition _opt_out_of_nomination (vault_id : VaultId) : B unit :=
  opted_in ← gets (is_opted_in vault_id);
  ensureM opted_in (nomination_error NominationError.VaultNotOptedInToNomination);;
  total_nominated_collateral ← query (get_total_nominated_collateral vault_id);
  allowed ← is_allowed_to_withdraw_collateral vault_id (Some total_nominated_collateral);
  ensureM allowed (nomination_error NominationError.CollateralizationTooLow);;
  refunded_collateral ← PoolManager.kick_nominators vault_id;
  decrease_total_backing_collateral (currencies vault_id) refunded_collateral;;
  update (with_Vaults (delete vault_id));;
  deposit_event (NominationOptOut vault_id).

(** ** Extrinsics *)

Definition signed_vault_id (origin : Origin) (currency_pair : VaultCurrencyPair) : B VaultId :=
  account_id ← lift (ensure_signed origin);
  mret (vault_id_new account_id (Primitives.collateral currency_pair) (wrapped currency_pair)).

Definition set_nomination_enabled (origin : Origin) (enabled : bool) : B unit :=
  lift (ensure_root origin);; update (with_NominationEnabled (λ _, enabled)).
Definition opt_in_to_nomination (origin : Origin) (currency_pair : VaultCurrencyPair) : B unit :=
  vault_id ← signed_vault_id origin currency_pair; _opt_in_to_nomination vault_id.
Definition opt_out_of_nomination (origin : Origin) (currency_pair : VaultCurrencyPair) : B unit :=
  vault_id ← signed_vault_id origin currency_pair; _opt_out_of_nomination vault_id.
Definition deposit_collateral (origin : Origin) (vault_id : VaultId) (amount : Z) : B unit :=
  nominator_id ← lift (ensure_signed origin);
  _deposit_collateral vault_id nominator_id amount.
Definition withdraw_collateral (origin : Origin) (vault_id : VaultId) (amount index : option Z) : B unit :=
  nominator_id ← lift (ensure_signed origin);
  _withdraw_collateral vault_id nominator_id amount (default 0 index).
Definition set_nomination_limit (origin : Origin) (currency_pair : VaultCurrencyPair) (limit : Z) : B unit :=
  vault_id ← signed_vault_id origin currency_pair;
  update (with_NominationLimit <[vault_id := limit]>).
End nomination.
End Nomination.
