(* ===== verification/VaultRegistry.v ===== *)
(** * The vault registry ([crates/vault-registry/src/lib.rs])

    Moving collateral between the places it can be held in
    ([CurrencySource], [transfer_funds]), and the changes of a vault's token
    counters that issue, redeem and replace ask for; banning and liquidating a
    vault ([RichVault::liquidate] of [types.rs]); the extrinsics. *)

From coqutil Require Import Byte.
From Stdlib Require Import ZArith Lia.
From stdpp Require Import base tactics option list numbers gmap.
From S2P Require Import Prelude Bytes BtcTypes BtcBuild Security Primitives FixedPoint Reward Staking Tokens Amount BridgeStores Bridge Oracle Fee Registry Collateral Nomination.

Local Open Scope Z_scope.

Module CurrencySource.
Inductive t : Type :=
  | Collateral (vault_id : VaultId)
  | AvailableReplaceCollateral (vault_id : VaultId)
  | ActiveReplaceCollateral (vault_id : VaultId)
  | UserGriefing (account_id : AccountId)
  | FreeBalance (account_id : AccountId)
  | LiquidatedCollateral (vault_id : VaultId)
  | LiquidationVault (currency_pair : VaultCurrencyPair).
End CurrencySource.

Module VaultRegistry.
Import RegistryStore Vaults CurrencyConvert Collateral.Collateral.

Section vault_registry.
Context `{LoansApi}.

(** ** Collateral *)

(** [CurrencySource::account_id] *)
Definition source_account_id (from : CurrencySource.t) : AccountId :=
  match from with
  | CurrencySource.Collateral vault_id | CurrencySource.AvailableReplaceCollateral vault_id
  | CurrencySource.ActiveReplaceCollateral vault_id | CurrencySource.LiquidatedCollateral vault_id => account_id vault_id
  | CurrencySource.UserGriefing x | CurrencySource.FreeBalance x => x
  | CurrencySource.LiquidationVault _ => liquidation_vault_account_id
  end.

Definition current_balance (from : CurrencySource.t) (currency_id : CurrencyId.t) (r : Runtime)
  : outcome BError Amount.t :=
  match from with
  | CurrencySource.Collateral vault_id => get_backing_collateral vault_id r
  | CurrencySource.AvailableReplaceCollateral vault_id =>
      vault ← get_vault_from_id vault_id r;
      Ok (Amount.new (replace_collateral vault) GetGriefingCollateralCurrencyId)
  | CurrencySource.ActiveReplaceCollateral vault_id =>
      vault ← get_vault_from_id vault_id r;
      Ok (Amount.new (active_replace_collateral vault) GetGriefingCollateralCurrencyId)
  | CurrencySource.UserGriefing x => Ok (Amount.get_reserved_balance currency_id x (rt_tokens r))
  | CurrencySource.FreeBalance x => Ok (Amount.get_free_balance currency_id x (rt_tokens r))
  | CurrencySource.LiquidatedCollateral vault_id =>
      vault ← get_vault_from_id vault_id r;
      Ok (Amount.new (liquidated_collateral vault) (collateral_currency vault_id))
  | CurrencySource.LiquidationVault currency_pair =>
      let liquidation_vault := get_liquidation_vault currency_pair r in
      Ok (Amount.new (sys_collateral liquidation_vault) (collateral currency_pair))
  end.

Definition try_deposit_collateral (vault_id : VaultId) (amount : Amount.t) : B unit :=
  Nomination.deposit_vault_collateral vault_id amount.

Definition force_withdraw_collateral (vault_id : VaultId) (amount : Amount.t) : B unit :=
  on_tokens (Amount.unlock_on amount (account_id vault_id));;
  decrease_total_backing_collateral (currencies vault_id) amount;;
  PoolManager.withdraw_collateral vault_id (account_id vault_id) (Some amount) None;;
  mret tt.

Definition slash_backing_collateral (vault_id : VaultId) (amount : Amount.t) : B unit :=
  on_tokens (Amount.unlock_on amount (account_id vault_id));;
  decrease_total_backing_collateral (currencies vault_id) amount;;
  PoolManager.slash_collateral vault_id amount.

Definition ensure_currency (vault_id : VaultId) (amount : Amount.t) : B unit :=
  ensureM (bool_decide (collateral_currency vault_id = Amount.currency amount))
    (vault_error VaultRegistryError.InvalidCurrency).

(** The first match of [transfer_funds]: free the amount on the sender. *)
Definition take_funds (from : CurrencySource.t) (amount : Amount.t) : B unit :=
  match from with
  | CurrencySource.Collateral vault_id =>
      ensure_currency vault_id amount;;
      slash_backing_collateral vault_id amount
  | CurrencySource.AvailableReplaceCollateral vault_id =>
      vault ← query (get_active_rich_vault_from_id vault_id);
      RichVault.decrease_available_replace_collateral vault amount;;
      on_tokens (Amount.unlock_on amount (source_account_id from))
  | CurrencySource.ActiveReplaceCollateral vault_id =>
      vault ← query (get_rich_vault_from_id vault_id);
      RichVault.decrease_active_replace_collateral vault amount;;
      on_tokens (Amount.unlock_on amount (source_account_id from))
  | CurrencySource.UserGriefing _ => on_tokens (Amount.unlock_on amount (source_account_id from))
  | CurrencySource.LiquidatedCollateral vault_id =>
      decrease_total_backing_collateral (currencies vault_id) amount;;
      on_tokens (Amount.unlock_on amount (source_account_id from))
  | CurrencySource.LiquidationVault currency_pair =>
      liquidation_vault ← gets (get_rich_liquidation_vault currency_pair);
      RichSystemVault.decrease_collateral liquidation_vault amount;;
      decrease_total_backing_collateral currency_pair amount;;
      on_tokens (Amount.unlock_on amount (source_account_id from))
  | CurrencySource.FreeBalance _ => mret tt
  end.

(** The second match: from the free balance of the receiver to where it is held. *)
Definition hold_funds (to : CurrencySource.t) (amount : Amount.t) : B unit :=
  match to with
  | CurrencySource.Collateral vault_id =>
      ensure_currency vault_id amount;;
      try_deposit_collateral vault_id amount
  | CurrencySource.AvailableReplaceCollateral vault_id =>
      vault ← query (get_active_rich_vault_from_id vault_id);
      RichVault.increase_available_replace_collateral vault amount;;
      on_tokens (Amount.lock_on amount (source_account_id to))
  | CurrencySource.ActiveReplaceCollateral vault_id =>
      vault ← query (get_rich_vault_from_id vault_id);
      RichVault.increase_active_replace_collateral vault amount;;
      on_tokens (Amount.lock_on amount (source_account_id to))
  | CurrencySource.UserGriefing _ => on_tokens (Amount.lock_on amount (source_account_id to))
  | CurrencySource.LiquidatedCollateral vault_id =>
      try_increase_total_backing_collateral (currencies vault_id) amount;;
      on_tokens (Amount.lock_on amount (source_account_id to))
  | CurrencySource.LiquidationVault currency_pair =>
      try_increase_total_backing_collateral currency_pair amount;;
      liquidation_vault ← gets (get_rich_liquidation_vault currency_pair);
      RichSystemVault.increase_collateral liquidation_vault amount;;
      on_tokens (Amount.lock_on amount (source_account_id to))
  | CurrencySource.FreeBalance _ => mret tt
  end.

Definition transfer_funds (from to : CurrencySource.t) (amount : Amount.t) : B unit :=
  take_funds from amount;;
  on_tokens (Amount.transfer amount (source_account_id from) (source_account_id to));;
  hold_funds to amount.

Definition transfer_funds_saturated (from to : CurrencySource.t) (amount : Amount.t) : B Amount.t :=
  available_amount ← query (current_balance from (Amount.currency amount));
  below ← lift (Amount.lt available_amount amount);
  let amount := if (below : bool) then available_amount else amount in
  transfer_funds from to amount;;
  mret amount.

(** ** Issue *)

Definition try_increase_to_be_issued_tokens (vault_id : VaultId) (tokens : Amount.t) : B unit :=
  vault ← query (get_active_rich_vault_from_id vault_id);
  issuable_tokens ← issuable_tokens vault;
  enough ← lift (Amount.ge issuable_tokens tokens);
  ensureM enough (vault_error VaultRegistryError.ExceedingVaultLimit);;
  RichVault.request_issue_tokens vault tokens;;
  deposit_event (IncreaseToBeIssuedTokens (id vault) (Amount.amount tokens)).

Definition register_deposit_address (vault_id : VaultId) (issue_id : list byte) : B Address :=
  vault ← query (get_active_rich_vault_from_id vault_id);
  btc_address ← query (RichVault.new_deposit_address vault issue_id);
  deposit_event (RegisterAddress (id vault) btc_address);;
  mret btc_address.

Definition decrease_to_be_issued_tokens (vault_id : VaultId) (tokens : Amount.t) : B unit :=
  vault ← query (get_rich_vault_from_id vault_id);
  RichVault.cancel_issue_tokens vault tokens;;
  deposit_event (DecreaseToBeIssuedTokens vault_id (Amount.amount tokens)).

Definition issue_tokens (vault_id : VaultId) (tokens : Amount.t) : B unit :=
  vault ← query (get_rich_vault_from_id vault_id);
  RichVault.execute_issue_tokens vault tokens;;
  deposit_event (IssueTokens (id vault) (Amount.amount tokens)).

Definition get_issuable_tokens_from_vault (vault_id : VaultId) : B Amount.t :=
  vault ← query (get_active_rich_vault_from_id vault_id);
  if bool_decide (status vault ≠ Active true) then mret (Amount.new 0 (collateral_currency vault_id))
  else issuable_tokens vault.
Definition get_to_be_issued_tokens_from_vault (vault_id : VaultId) (r : Runtime) : outcome BError Amount.t :=
  vault ← get_active_rich_vault_from_id vault_id r; Ok (RichVault.to_be_issued_tokens vault).
Definition ensure_accepting_new_issues (vault_id : VaultId) (r : Runtime) : outcome BError unit :=
  vault ← get_active_rich_vault_from_id vault_id r;
  ensure (accepts_new_issues vault) (vault_error VaultRegistryError.VaultNotAcceptingIssueRequests).
Definition ensure_not_banned (vault_id : VaultId) (r : Runtime) : outcome BError unit :=
  vault ← get_active_rich_vault_from_id vault_id r; RichVault.ensure_not_banned vault r.

(** ** Replace *)

Definition requestable_to_be_replaced_tokens (vault_id : VaultId) (r : Runtime) : outcome BError Amount.t :=
  vault ← get_active_rich_vault_from_id vault_id r;
  x ← Amount.checked_sub (RichVault.issued_tokens vault) (RichVault.to_be_replaced_tokens vault);
  Amount.checked_sub x (RichVault.to_be_redeemed_tokens vault).

Definition try_increase_to_be_replaced_tokens (vault_id : VaultId) (tokens : Amount.t) : B Amount.t :=
  vault ← query (get_active_rich_vault_from_id vault_id);
  new_to_be_replaced ← lift (Amount.checked_add (RichVault.to_be_replaced_tokens vault) tokens);
  total_decreasing_tokens ← lift (Amount.checked_add new_to_be_replaced (RichVault.to_be_redeemed_tokens vault));
  below ← lift (Amount.le total_decreasing_tokens (RichVault.issued_tokens vault));
  ensureM below (vault_error VaultRegistryError.InsufficientTokensCommitted);;
  RichVault.set_to_be_replaced_amount vault new_to_be_replaced;;
  deposit_event (IncreaseToBeReplacedTokens (id vault) (Amount.amount tokens));;
  mret new_to_be_replaced.

Definition decrease_to_be_replaced_tokens (vault_id : VaultId) (tokens : Amount.t)
  : B (Amount.t * Amount.t) :=
  vault ← query (get_rich_vault_from_id vault_id);
  let initial_to_be_replaced :=
    Amount.new (to_be_replaced_tokens vault) (wrapped_currency vault_id) in
  let initial_griefing_collateral :=
    Amount.new (replace_collateral vault) GetGriefingCollateralCurrencyId in
  used_tokens ← lift (Amount.min tokens initial_to_be_replaced);
  used_collateral ←
    lift (calculate_collateral initial_griefing_collateral used_tokens initial_to_be_replaced);
  used_collateral ← lift (Amount.min used_collateral initial_griefing_collateral);
  new_to_be_replaced ← lift (Amount.checked_sub initial_to_be_replaced used_tokens);
  RichVault.set_to_be_replaced_amount vault new_to_be_replaced;;
  deposit_event (DecreaseToBeReplacedTokens (id vault) (Amount.amount tokens));;
  mret (used_tokens, used_collateral).

Definition withdraw_replace_request (vault_id : VaultId) (amount : Amount.t) : B (Amount.t * Amount.t) :=
  withdrawn ← decrease_to_be_replaced_tokens vault_id amount;
  let (withdrawn_tokens, to_withdraw_collateral) := withdrawn : Amount.t * Amount.t in
  transfer_funds (CurrencySource.AvailableReplaceCollateral vault_id)
    (CurrencySource.FreeBalance (account_id vault_id)) to_withdraw_collateral;;
  mret (withdrawn_tokens, to_withdraw_collateral).

Definition replace_tokens (old_vault_id new_vault_id : VaultId) (tokens collateral : Amount.t) : B unit :=
  old_vault ← query (get_rich_vault_from_id old_vault_id);
  new_vault ← query (get_rich_vault_from_id new_vault_id);
  old_vault ←
    (if is_liquidated old_vault then
       to_be_released ← lift (calculate_collateral (RichVault.liquidated_collateral old_vault) tokens
                                (RichVault.to_be_redeemed_tokens old_vault));
       old_vault ← RichVault.decrease_liquidated_collateral old_vault to_be_released;
       PoolManager.deposit_collateral old_vault_id (account_id old_vault_id) to_be_released;;
       mret old_vault
     else mret old_vault);
  RichVault.execute_redeem_tokens old_vault tokens;;
  RichVault.execute_issue_tokens new_vault tokens;;
  deposit_event (ReplaceTokens old_vault_id new_vault_id (Amount.amount tokens) (Amount.amount collateral)).

Definition cancel_replace_tokens (old_vault_id new_vault_id : VaultId) (tokens : Amount.t) : B unit :=
  old_vault ← query (get_rich_vault_from_id old_vault_id);
  new_vault ← query (get_rich_vault_from_id new_vault_id);
  old_vault ←
    (if is_liquidated old_vault then
       to_be_transferred ← lift (calculate_collateral (RichVault.liquidated_collateral old_vault) tokens
                                   (RichVault.to_be_redeemed_tokens old_vault));
       old_vault ← RichVault.decrease_liquidated_collateral old_vault to_be_transferred;
       transfer_funds (CurrencySource.LiquidatedCollateral old_vault_id)
         (CurrencySource.LiquidationVault (currencies old_vault_id)) to_be_transferred;;
       mret old_vault
     else mret old_vault);
  RichVault.cancel_redeem_tokens old_vault tokens;;
  RichVault.cancel_issue_tokens new_vault tokens;;
  mret tt.

(** ** Redeem *)

Definition get_free_redeemable_tokens (vault_id : VaultId) (r : Runtime) : outcome BError Amount.t :=
  vault ← get_rich_vault_from_id vault_id r; RichVault.freely_redeemable_tokens vault.

Definition try_increase_to_be_redeemed_tokens (vault_id : VaultId) (tokens : Amount.t) : B unit :=
  vault ← query (get_active_rich_vault_from_id vault_id);
  redeemable ← lift (Amount.checked_sub (RichVault.issued_tokens vault) (RichVault.to_be_redeemed_tokens vault));
  enough ← lift (Amount.ge redeemable tokens);
  ensureM enough (vault_error VaultRegistryError.InsufficientTokensCommitted);;
  RichVault.request_redeem_tokens vault tokens;;
  deposit_event (IncreaseToBeRedeemedTokens (id vault) (Amount.amount tokens)).

Definition decrease_to_be_redeemed_tokens (vault_id : VaultId) (tokens : Amount.t) : B unit :=
  vault ← query (get_rich_vault_from_id vault_id);
  RichVault.cancel_redeem_tokens vault tokens;;
  deposit_event (DecreaseToBeRedeemedTokens (id vault) (Amount.amount tokens)).

Definition decrease_tokens (vault_id : VaultId) (user_id : AccountId) (tokens : Amount.t) : B unit :=
  vault ← query (get_rich_vault_from_id vault_id);
  RichVault.execute_redeem_tokens vault tokens;;
  deposit_event (DecreaseTokens (id vault) user_id (Amount.amount tokens)).

Definition decrease_liquidated_collateral (vault_id : VaultId) (amount : Amount.t) : B unit :=
  vault ← query (get_rich_vault_from_id vault_id);
  RichVault.decrease_liquidated_collateral vault amount;;
  mret tt.

Definition redeem_tokens (vault_id : VaultId) (tokens premium : Amount.t) (redeemer_id : AccountId) : B unit :=
  vault ← query (get_rich_vault_from_id vault_id);
  let to_be_redeemed_tokens := RichVault.to_be_redeemed_tokens vault in
  vault ← RichVault.execute_redeem_tokens vault tokens;
  if negb (is_liquidated vault) then
    if Amount.is_zero premium then
      deposit_event (RedeemTokens (id vault) (Amount.amount tokens))
    else
      transfer_funds (CurrencySource.Collateral vault_id) (CurrencySource.FreeBalance redeemer_id) premium;;
      deposit_event (RedeemTokensPremium vault_id (Amount.amount tokens) (Amount.amount premium) redeemer_id)
  else
    to_be_released ← lift (calculate_collateral (RichVault.liquidated_collateral vault) tokens
                             to_be_redeemed_tokens);
    decrease_total_backing_collateral (currencies vault_id) to_be_released;;
    RichVault.decrease_liquidated_collateral vault to_be_released;;
    on_tokens (Amount.unlock_on to_be_released (account_id vault_id));;
    deposit_event (RedeemTokensLiquidatedVault vault_id (Amount.amount tokens) (Amount.amount to_be_released)).

Definition redeem_tokens_liquidation (currency_id : CurrencyId.t) (redeemer_id : AccountId)
    (amount_wrapped : Amount.t) : B unit :=
  let currency_pair := mkPair currency_id (Amount.currency amount_wrapped) in
  liquidation_vault ← gets (get_rich_liquidation_vault currency_pair);
  redeemable ← lift (RichSystemVault.redeemable_tokens liquidation_vault);
  enough ← lift (Amount.ge redeemable amount_wrapped);
  ensureM enough (vault_error VaultRegistryError.InsufficientTokensCommitted);;
  let source_liquidation_vault := CurrencySource.LiquidationVault currency_pair in
  balance ← query (current_balance source_liquidation_vault currency_id);
  to_be_backed ← lift (RichSystemVault.to_be_backed_tokens liquidation_vault);
  to_transfer ← lift (calculate_collateral balance amount_wrapped to_be_backed);
  transfer_funds source_liquidation_vault (CurrencySource.FreeBalance redeemer_id) to_transfer;;
  liquidation_vault ← gets (get_rich_liquidation_vault currency_pair);
  RichSystemVault.burn_issued liquidation_vault amount_wrapped;;
  deposit_event (RedeemTokensLiquidation redeemer_id (Amount.amount amount_wrapped) (Amount.amount to_transfer)).

(** ** Ban and liquidation *)

Definition ban_vault (vault_id : VaultId) : B unit :=
  height ← gets active_block_number;
  vault ← query (get_active_rich_vault_from_id vault_id);
  delay ← gets punishment_delay;
  let banned_until := wrap BN (height + delay) in
  vault ← RichVault.ban_until vault banned_until;
  deposit_event (BanVault (id vault) banned_until).

(** [RichVault::slash_for_to_be_redeemed] *)
Definition slash_for_to_be_redeemed (self : Vault) (amount : Amount.t) : B Vault :=
  let vault_id := id self in
  own ← query (get_vault_collateral self);
  collateral ← lift (Amount.min own amount);
  self ← RichVault.increase_liquidated_collateral self collateral;
  PoolManager.withdraw_collateral vault_id (account_id vault_id) (Some collateral) None;;
  mret self.

(** [RichVault::slash_to_liquidation_vault]: first the vault, the rest from its nominators. *)
Definition slash_to_liquidation_vault (self : Vault) (amount : Amount.t) : B unit :=
  let vault_id := id self in
  collateral ← query (get_vault_collateral self);
  let '(to_withdraw, to_slash) :=
    match Amount.checked_sub amount collateral with
    | Ok leftover => (collateral, Some leftover)
    | _ => (amount, None)
    end in
  PoolManager.withdraw_collateral vault_id (account_id vault_id) (Some to_withdraw) None;;
  match to_slash with
  | Some to_slash => PoolManager.slash_collateral vault_id to_slash
  | None => mret tt
  end;;
  transfer_funds (CurrencySource.LiquidatedCollateral vault_id)
    (CurrencySource.LiquidationVault (currencies vault_id)) amount.

(** [ext::reward::set_stake] *)
Definition set_reward_stake (vault_id : VaultId) (amount : Amount.t) : B unit :=
  on_rewards (RewardsApi.set_stake currency_le (collateral_currency vault_id) vault_id (Amount.amount amount)).

(** The tokens of the vault are added to the liquidation vault. *)
Definition move_to_liquidation_vault (self : Vault) : B unit :=
  liquidation_vault ← gets (get_rich_liquidation_vault (currencies (id self)));
  liquidation_vault ← RichSystemVault.increase_issued liquidation_vault (RichVault.issued_tokens self);
  liquidation_vault ← RichSystemVault.increase_to_be_issued liquidation_vault (RichVault.to_be_issued_tokens self);
  RichSystemVault.increase_to_be_redeemed liquidation_vault (RichVault.to_be_redeemed_tokens self);;
  mret tt.

(** [RichVault::liquidate] *)
Definition liquidate (self : Vault) : B Amount.t :=
  let vault_id := id self in
  threshold ← query (λ r, ok_or (liquidation_collateral_threshold (currencies vault_id) r)
                            (vault_error VaultRegistryError.ThresholdNotSet));
  liquidated_collateral ← get_used_collateral self threshold;
  withdraw_replace_request vault_id (RichVault.to_be_replaced_tokens self);;
  self ← query (get_rich_vault_from_id vault_id);
  collateral_tokens ← lift (RichVault.backed_tokens self);
  kept_tokens ← lift (Amount.checked_sub collateral_tokens (RichVault.to_be_redeemed_tokens self));
  liquidated_collateral_excluding_to_be_redeemed ←
    lift (calculate_collateral liquidated_collateral kept_tokens collateral_tokens);
  collateral_for_to_be_redeemed ←
    lift (Amount.saturating_sub liquidated_collateral liquidated_collateral_excluding_to_be_redeemed);
  self ← slash_for_to_be_redeemed self collateral_for_to_be_redeemed;
  slash_to_liquidation_vault self liquidated_collateral_excluding_to_be_redeemed;;
  move_to_liquidation_vault self;;
  set_reward_stake vault_id (Amount.zero (wrapped_currency vault_id));;
  RichVault.set (λ v, set_status (λ _, Liquidated)
                        (set_issued_tokens (λ _, 0) (set_to_be_issued_tokens (λ _, 0) v))) self;;
  mret liquidated_collateral_excluding_to_be_redeemed.

Definition liquidate_vault (vault_id : VaultId) : B Amount.t :=
  vault ← query (get_active_rich_vault_from_id vault_id);
  backing_collateral ← query (get_total_collateral vault);
  to_slash ← liquidate vault;
  deposit_event (LiquidateVault vault_id (issued_tokens vault) (to_be_issued_tokens vault)
                   (to_be_redeemed_tokens vault) (to_be_replaced_tokens vault)
                   (Amount.amount backing_collateral) Liquidated (replace_collateral vault));;
  mret to_slash.

(** ** Registration and settings *)

Definition _register_vault (vault_id : VaultId) (collateral : Z) : B unit :=
  s ← gets rt_registry;
  let pair := currencies vault_id in
  ensureM (bool_decide (is_Some (SecureCollateralThreshold s !! pair))) (vault_error VaultRegistryError.ThresholdNotSet);;
  ensureM (bool_decide (is_Some (PremiumRedeemThreshold s !! pair))) (vault_error VaultRegistryError.ThresholdNotSet);;
  ensureM (bool_decide (is_Some (LiquidationCollateralThreshold s !! pair))) (vault_error VaultRegistryError.ThresholdNotSet);;
  ensureM (bool_decide (is_Some (MinimumCollateralVault s !! collateral_currency vault_id)))
    (vault_error VaultRegistryError.MinimumCollateralNotSet);;
  ensureM (bool_decide (is_Some (SystemCollateralCeiling s !! pair))) (vault_error VaultRegistryError.CeilingNotSet);;
  query (get_bitcoin_public_key (account_id vault_id));;
  let collateral_currency := collateral_currency vault_id in
  let amount := Amount.new collateral collateral_currency in
  minimum ← gets (get_minimum_collateral_vault collateral_currency);
  enough ← lift (Amount.ge amount minimum);
  ensureM enough (vault_error VaultRegistryError.InsufficientVaultCollateralAmount);;
  exists_ ← gets (vault_exists vault_id);
  ensureM (negb exists_) (vault_error VaultRegistryError.VaultAlreadyRegistered);;
  insert_vault vault_id (vault_new vault_id);;
  try_deposit_collateral vault_id amount;;
  deposit_event (RegisterVault vault_id collateral).

Definition try_set_vault_custom_secure_threshold (vault_id : VaultId) (new_threshold : option Z) : B unit :=
  match new_threshold with
  | Some some_new_threshold =>
      global_threshold ← query (get_global_secure_threshold (currencies vault_id));
      ensureM (some_new_threshold >? global_threshold)
        (vault_error VaultRegistryError.ThresholdNotAboveGlobalThreshold)
  | None => mret tt
  end;;
  vault ← query (get_rich_vault_from_id vault_id);
  RichVault.set_custom_secure_threshold vault new_threshold;;
  mret tt.

Definition _set_minimum_collateral_vault (collateral_currency : CurrencyId.t) (min_collateral : Z) : B unit :=
  update_storage (with_MinimumCollateralVault <[collateral_currency := min_collateral]>).
Definition _set_system_collateral_ceiling (currency_pair : VaultCurrencyPair) (ceiling : Z) : B unit :=
  update_storage (with_SystemCollateralCeiling <[currency_pair := ceiling]>).
Definition _set_secure_collateral_threshold (currency_pair : VaultCurrencyPair) (threshold : Z) : B unit :=
  update_storage (with_SecureCollateralThreshold <[currency_pair := threshold]>).
Definition _set_premium_redeem_threshold (currency_pair : VaultCurrencyPair) (threshold : Z) : B unit :=
  update_storage (with_PremiumRedeemThreshold <[currency_pair := threshold]>).
Definition _set_liquidation_collateral_threshold (currency_pair : VaultCurrencyPair) (threshold : Z) : B unit :=
  update_storage (with_LiquidationCollateralThreshold <[currency_pair := threshold]>).

(** ** Queries of the RPC *)

Definition get_vaults_by_account_id (account : AccountId) (r : Runtime) : list VaultId :=
  fst <$> filter (λ kv, account_id kv.1 = account) (storage_iter (RegistryStore.Vaults (rt_registry r))).
Definition get_collateralization_from_vault_and_collateral (vault_id : VaultId) (collateral : Amount.t)
    (only_issued : bool) : B Z :=
  vault ← query (get_active_rich_vault_from_id vault_id);
  issued_tokens ← lift (if only_issued then Ok (RichVault.issued_tokens vault)
                        else RichVault.backed_tokens vault);
  ensureM (negb (Amount.is_zero issued_tokens)) (vault_error VaultRegistryError.NoTokensIssued);;
  collateral_in_wrapped ← convert_to collateral (wrapped_currency vault_id);
  lift (Amount.ratio collateral_in_wrapped issued_tokens).
Definition get_collateralization_from_vault (vault_id : VaultId) (only_issued : bool) : B Z :=
  vault ← query (get_active_rich_vault_from_id vault_id);
  collateral ← query (get_total_collateral vault);
  get_collateralization_from_vault_and_collateral vault_id collateral only_issued.
Definition calculate_inclusion_fee (wrapped_currency : CurrencyId.t) (redeem_tx_size : Z) (r : Runtime)
  : outcome BError Amount.t :=
  satoshi_per_bytes ← Oracle.get_price FeeEstimation r;
  fee ← ok_or (checked_mul_int_u32 satoshi_per_bytes redeem_tx_size) (Arithmetic Overflow);
  Ok (Amount.new fee wrapped_currency).

(** ** Extrinsics *)

Definition register_vault (origin : Origin) (currency_pair : VaultCurrencyPair) (collateral : Z) : B unit :=
  vault_id ← Nomination.signed_vault_id origin currency_pair;
  _register_vault vault_id collateral.

Definition register_public_key (origin : Origin) (public_key : PublicKey) : B unit :=
  account_id ← lift (ensure_signed origin);
  key ← gets (λ r, VaultBitcoinPublicKey (rt_registry r) !! account_id);
  ensureM (negb (bool_decide (is_Some key))) (vault_error VaultRegistryError.PublicKeyAlreadyRegistered);;
  update_storage (with_VaultBitcoinPublicKey <[account_id := public_key]>);;
  deposit_event (UpdatePublicKey account_id public_key).

Definition accept_new_issues (origin : Origin) (currency_pair : VaultCurrencyPair)
    (accept_new_issues : bool) : B unit :=
  vault_id ← Nomination.signed_vault_id origin currency_pair;
  vault ← query (get_active_rich_vault_from_id vault_id);
  RichVault.set_accept_new_issues vault accept_new_issues;;
  PoolManager.on_vault_settings_change vault_id;;
  deposit_event (SetAcceptNewIssues vault_id accept_new_issues).

Definition set_custom_secure_threshold (origin : Origin) (currency_pair : VaultCurrencyPair)
    (custom_threshold : option Z) : B unit :=
  vault_id ← Nomination.signed_vault_id origin currency_pair;
  try_set_vault_custom_secure_threshold vault_id custom_threshold;;
  PoolManager.on_vault_settings_change vault_id;;
  deposit_event (SetCustomSecureThreshold vault_id custom_threshold).

Definition report_undercollateralized_vault (origin : Origin) (vault_id : VaultId) : B unit :=
  vault ← query (get_vault_from_id vault_id);
  threshold ← query (λ r, ok_or (liquidation_collateral_threshold (currencies vault_id) r)
                            (vault_error VaultRegistryError.ThresholdNotSet));
  below ← is_vault_below_liquidation_threshold vault threshold;
  if (below : bool) then liquidate_vault vault_id;; mret tt
  else fail (vault_error VaultRegistryError.VaultNotBelowLiquidationThreshold).

Definition set_minimum_collateral (origin : Origin) (currency_id : CurrencyId.t) (minimum : Z) : B unit :=
  lift (ensure_root origin);;
  update_storage (with_MinimumCollateralVault <[currency_id := minimum]>).
Definition set_system_collateral_ceiling (origin : Origin) (currency_pair : VaultCurrencyPair)
    (ceiling : Z) : B unit :=
  lift (ensure_root origin);; _set_system_collateral_ceiling currency_pair ceiling.
Definition set_secure_collateral_threshold (origin : Origin) (currency_pair : VaultCurrencyPair)
    (threshold : Z) : B unit :=
  lift (ensure_root origin);;
  _set_secure_collateral_threshold currency_pair threshold;;
  deposit_event (SetSecureCollateralThreshold currency_pair threshold).
Definition set_premium_redeem_threshold (origin : Origin) (currency_pair : VaultCurrencyPair)
    (threshold : Z) : B unit :=
  lift (ensure_root origin);;
  _set_premium_redeem_threshold currency_pair threshold;;
  deposit_event (SetPremiumRedeemThreshold currency_pair threshold).
Definition set_liquidation_collateral_threshold (origin : Origin) (currency_pair : VaultCurrencyPair)
    (threshold : Z) : B unit :=
  lift (ensure_root origin);;
  _set_liquidation_collateral_threshold currency_pair threshold;;
  deposit_event (SetLiquidationCollateralThreshold currency_pair threshold).

Definition recover_vault_id (origin : Origin) (currency_pair : VaultCurrencyPair) : B unit :=
  vault_id ← Nomination.signed_vault_id origin currency_pair;
  liquidated ← query (is_vault_liquidated vault_id);
  ensureM liquidated (vault_error VaultRegistryError.VaultNotRecoverable);;
  vault ← query (get_rich_vault_from_id vault_id);
  ensureM (Amount.is_zero (RichVault.to_be_redeemed_tokens vault))
    (vault_error VaultRegistryError.VaultNotRecoverable);;
  RichVault.set_accept_new_issues vault true;;
  mret tt.
End vault_registry.
End VaultRegistry.
