(* ===== verification/Issue.v ===== *)
(** * The issue pallet ([crates/issue/src/lib.rs])

    A user reserves tokens of a vault against griefing collateral, pays the
    vault in bitcoin, and the proof of the payment mints the tokens; a request
    that is not executed in time can be cancelled. *)

From coqutil Require Import Byte.
From Stdlib Require Import ZArith Lia.
From stdpp Require Import base tactics option list numbers gmap.
From S2P Require Import Prelude Bytes BtcTypes BtcMerkle BtcBuild Security Relay RelayVerify Primitives FixedPoint Tokens Amount BridgeStores Bridge Oracle Fee Registry Collateral Nomination VaultRegistry.

Local Open Scope Z_scope.

(** What issue, redeem and replace ask the relay. *)
Module RelayCalls.
Section relay_calls.
Context `{bridge_env}.

Definition ask {A} (f : Relay.Storage → outcome RError A) (r : Runtime) : outcome BError A :=
  map_err (from_pallet RelayE) (f (rt_relay r)).
(** [TryFrom<i64>] of a balance. *)
Definition balance_try_from (v : Z) : option Z := if v <? 0 then None else Some v.
Definition get_and_verify_issue_payment (unchecked : FullTransactionProof) (recipient : Address)
    (r : Runtime) : outcome BError Z :=
  ask (RelayVerify.get_and_verify_issue_payment balance_try_from unchecked recipient) r.
(** [TryInto<i64>] of a balance. *)
Definition balance_try_into (v : Z) : option Z := if v <? 2 ^ 63 then Some v else None.
Definition verify_and_validate_op_return_transaction (unchecked : FullTransactionProof)
    (recipient : Address) (expected_btc : Z) (op_return_id : list byte) (r : Runtime) : outcome BError unit :=
  ask (RelayVerify.verify_and_validate_op_return_transaction unchecked recipient
         (balance_try_into expected_btc) op_return_id) r.
Definition get_best_block_height (r : Runtime) : Z := Relay.get_best_block_height (rt_relay r).
Definition is_fully_initialized (r : Runtime) : outcome BError bool := ask RelayVerify.is_fully_initialized r.
Definition has_request_expired (opentime btc_open_height period : Z) (r : Runtime) : outcome BError bool :=
  ask (RelayVerify.has_request_expired ParachainBlocksPerBitcoinBlock opentime btc_open_height period) r.
End relay_calls.
End RelayCalls.

Module Issue.
Import IssueStore CurrencyConvert VaultRegistry.VaultRegistry.

Definition issue_error (e : IssueError.t) : BError := ModuleError (IssueE e).

(** ** Requests *)

Definition amount_of (issue : IssueRequest) : Amount.t :=
  Amount.new (issue_amount issue) (wrapped_currency (issue_vault issue)).
Definition fee_of (issue : IssueRequest) : Amount.t :=
  Amount.new (issue_fee issue) (wrapped_currency (issue_vault issue)).
Definition griefing_collateral_of (issue : IssueRequest) : Amount.t :=
  Amount.new (issue_griefing_collateral issue) (issue_griefing_currency issue).

(** [DefaultIssueRequest { fee, amount, ..request }] and [{ status, ..request }]. *)
Definition with_amounts (amount fee : Z) (q : IssueRequest) : IssueRequest :=
  mkIssueRequest (issue_vault q) (issue_opentime q) (issue_period q) (issue_griefing_collateral q)
    (issue_griefing_currency q) amount fee (issue_requester q) (issue_btc_address q)
    (issue_btc_public_key q) (issue_btc_height q) (issue_status q).
Definition with_status (status : IssueRequestStatus) (q : IssueRequest) : IssueRequest :=
  mkIssueRequest (issue_vault q) (issue_opentime q) (issue_period q) (issue_griefing_collateral q)
    (issue_griefing_currency q) (issue_amount q) (issue_fee q) (issue_requester q)
    (issue_btc_address q) (issue_btc_public_key q) (issue_btc_height q) status.

Section issue.
Context `{LoansApi}.

Definition update (f : Storage → Storage) : B unit := modify (with_issue f).
Definition deposit_event (e : Event) : B unit := update (with_event e).

Definition issue_period (r : Runtime) : Z := IssuePeriod (rt_issue r).
Definition issue_btc_dust_value (currency_id : CurrencyId.t) (r : Runtime) : Amount.t :=
  Amount.new (IssueBtcDustValue (rt_issue r)) currency_id.
Definition find_request (issue_id : list byte) (r : Runtime) : outcome BError IssueRequest :=
  ok_or (IssueRequests (rt_issue r) !! issue_id) (issue_error IssueError.IssueIdNotFound).
Definition get_issue_request_from_id (issue_id : list byte) (r : Runtime) : outcome BError IssueRequest :=
  request ← find_request issue_id r;
  match issue_status request with
  | IssueCompleted => Err (issue_error IssueError.IssueCompleted)
  | _ => Ok request
  end.
Definition get_pending_issue (issue_id : list byte) (r : Runtime) : outcome BError IssueRequest :=
  request ← find_request issue_id r;
  match issue_status request with
  | IssueCompleted => Err (issue_error IssueError.IssueCompleted)
  | IssueCancelled => Err (issue_error IssueError.IssueCancelled)
  | IssuePending => Ok request
  end.
Definition insert_issue_request (key : list byte) (value : IssueRequest) : B unit :=
  update (with_IssueRequests <[key := value]>).
(** [mutate_exists]: nothing when there is no request. *)
Definition set_issue_status (issue_id : list byte) (status : IssueRequestStatus) : B unit :=
  update (with_IssueRequests (alter (with_status status) issue_id)).

(** Changes [issue], which is returned. *)
Definition set_issue_amount (issue_id : list byte) (issue : IssueRequest)
    (transferred_btc confiscated_griefing_collateral : Amount.t) : B IssueRequest :=
  fee ← query (Fee.get_issue_fee transferred_btc);
  let issue := with_amounts (issue_amount issue) (Amount.amount fee) issue in
  amount ← lift (Amount.checked_sub transferred_btc (fee_of issue));
  let issue := with_amounts (Amount.amount amount) (issue_fee issue) issue in
  update (with_IssueRequests (alter (with_amounts (issue_amount issue) (issue_fee issue)) issue_id));;
  deposit_event (IssueAmountChange issue_id (issue_amount issue) (issue_fee issue)
                   (Amount.amount confiscated_griefing_collateral));;
  mret issue.

(** ** Requesting *)

Definition _request_issue (requester : AccountId) (amount_requested : Z) (vault_id : VaultId)
    (griefing_currency : CurrencyId.t) : B (list byte) :=
  let amount_requested := Amount.new amount_requested (wrapped_currency vault_id) in
  initialized ← query RelayCalls.is_fully_initialized;
  ensureM initialized (issue_error IssueError.WaitingForRelayerInitialization);;
  vault ← query (Vaults.get_active_vault_from_id vault_id);
  ensureM (bool_decide (RegistryStore.status vault = RegistryStore.Active true))
    (issue_error IssueError.VaultNotAcceptingNewIssues);;
  query (ensure_not_banned vault_id);;
  amount_collateral ← convert_to amount_requested griefing_currency;
  griefing_collateral ← query (Fee.get_issue_griefing_collateral amount_collateral);
  on_tokens (Amount.lock_on griefing_collateral requester);;
  dust_value ← gets (issue_btc_dust_value (wrapped_currency vault_id));
  enough ← lift (Amount.ge amount_requested dust_value);
  ensureM enough (issue_error IssueError.AmountBelowDustAmount);;
  try_increase_to_be_issued_tokens vault_id amount_requested;;
  fee ← query (Fee.get_issue_fee amount_requested);
  amount_user ← lift (Amount.checked_sub amount_requested fee);
  issue_id ← get_secure_id requester;
  btc_address ← register_deposit_address vault_id issue_id;
  btc_public_key ← query (Vaults.get_bitcoin_public_key (account_id vault_id));
  opentime ← gets active_block_number;
  period ← gets issue_period;
  btc_height ← gets RelayCalls.get_best_block_height;
  insert_issue_request issue_id
    (mkIssueRequest vault_id opentime period (Amount.amount griefing_collateral)
       (Amount.currency griefing_collateral) (Amount.amount amount_user) (Amount.amount fee)
       requester btc_address btc_public_key btc_height IssuePending);;
  deposit_event (RequestIssue issue_id requester (Amount.amount amount_user) (Amount.amount fee)
                   (Amount.amount griefing_collateral) (Amount.currency griefing_collateral)
                   vault_id btc_address btc_public_key);;
  mret issue_id.

(** ** Executing *)

Definition treasury (amount : Amount.t) (requester : AccountId) : B unit :=
  transfer_funds (CurrencySource.UserGriefing requester)
    (CurrencySource.FreeBalance treasury_account_id) amount.

Definition decrease_issue_amount (issue_id : list byte) (issue : IssueRequest)
    (amount_transferred expected_total_amount : Amount.t) : B (IssueRequest * Amount.t) :=
  deficit ← lift (Amount.checked_sub expected_total_amount amount_transferred);
  decrease_to_be_issued_tokens (issue_vault issue) deficit;;
  to_release_collateral ← lift (Collateral.Collateral.calculate_collateral (griefing_collateral_of issue)
                                  amount_transferred expected_total_amount);
  slashed_collateral ← lift (Amount.checked_sub (griefing_collateral_of issue) to_release_collateral);
  treasury slashed_collateral (issue_requester issue);;
  issue ← set_issue_amount issue_id issue amount_transferred slashed_collateral;
  mret (issue, to_release_collateral).

Definition try_increase_issue_amount (issue_id : list byte) (issue : IssueRequest)
    (amount_transferred expected_total_amount : Amount.t) : B IssueRequest :=
  surplus_btc ← lift (Amount.checked_sub amount_transferred expected_total_amount);
  max_allowed ← get_issuable_tokens_from_vault (issue_vault issue);
  issue_amount ← lift (Amount.min surplus_btc max_allowed);
  increased ← attempt (try_increase_to_be_issued_tokens (issue_vault issue) issue_amount);
  if (increased : bool) then
    total ← lift (Amount.checked_add expected_total_amount issue_amount);
    set_issue_amount issue_id issue total (Amount.zero (issue_griefing_currency issue))
  else mret issue.

(** The arm of a cancelled request: the tokens are reserved anew. *)
Definition execute_cancelled (executor : AccountId) (issue_id : list byte) (issue : IssueRequest)
    (amount_transferred expected_total_amount : Amount.t) : B IssueRequest :=
  query (ensure_accepting_new_issues (issue_vault issue));;
  try_increase_to_be_issued_tokens (issue_vault issue) amount_transferred;;
  underpaid ← lift (Amount.lt amount_transferred expected_total_amount);
  ensureM (negb underpaid || bool_decide (issue_requester issue = executor))
    (issue_error IssueError.InvalidExecutor);;
  different ← lift (Amount.ne amount_transferred expected_total_amount);
  if (different : bool) then
    set_issue_amount issue_id issue amount_transferred (Amount.zero (issue_griefing_currency issue))
  else mret issue.

(** The arm of a pending request: griefing collateral is released, for what was paid. *)
Definition execute_pending (executor : AccountId) (issue_id : list byte) (issue : IssueRequest)
    (amount_transferred expected_total_amount : Amount.t) : B IssueRequest :=
  underpaid ← lift (Amount.lt amount_transferred expected_total_amount);
  released ←
    (if (underpaid : bool) then
       ensureM (bool_decide (issue_requester issue = executor)) (issue_error IssueError.InvalidExecutor);;
       decrease_issue_amount issue_id issue amount_transferred expected_total_amount
     else
       overpaid ← lift (Amount.gt amount_transferred expected_total_amount);
       liquidated ← (if (overpaid : bool) then query (Vaults.is_vault_liquidated (issue_vault issue))
                     else mret true);
       issue ← (if negb liquidated then
                  try_increase_issue_amount issue_id issue amount_transferred expected_total_amount
                else mret issue);
       mret (issue, griefing_collateral_of issue));
  let '(issue, to_release_griefing_collateral) := released : IssueRequest * Amount.t in
  on_tokens (Amount.unlock_on to_release_griefing_collateral (issue_requester issue));;
  mret issue.

Definition _execute_issue (executor : AccountId) (issue_id : list byte)
    (unchecked_transaction : FullTransactionProof) : B unit :=
  issue ← query (get_issue_request_from_id issue_id);
  let requester := issue_requester issue in
  amount_transferred ←
    query (RelayCalls.get_and_verify_issue_payment unchecked_transaction (issue_btc_address issue));
  let amount_transferred := Amount.new amount_transferred (wrapped_currency (issue_vault issue)) in
  expected_total_amount ← lift (Amount.checked_add (amount_of issue) (fee_of issue));
  issue ←
    match issue_status issue with
    | IssueCompleted => fail (issue_error IssueError.IssueCompleted)
    | IssueCancelled => execute_cancelled executor issue_id issue amount_transferred expected_total_amount
    | IssuePending => execute_pending executor issue_id issue amount_transferred expected_total_amount
    end;
  let issue_amount := amount_of issue in
  let issue_fee := fee_of issue in
  total ← lift (Amount.checked_add issue_amount issue_fee);
  issue_tokens (issue_vault issue) total;;
  on_tokens (Amount.mint_to issue_amount requester);;
  on_tokens (Amount.mint_to issue_fee fee_pool_account_id);;
  Fee.distribute_rewards issue_fee;;
  set_issue_status issue_id IssueCompleted;;
  deposit_event (ExecuteIssue issue_id requester (issue_vault issue) (Amount.amount total)
                   (Primitives.issue_fee issue)).

(** ** Cancelling *)

(** The collateral to slash: all of it once the request has expired; before, the
    requester is refunded for the blocks that have not passed. *)
Definition slashed_on_cancel (requester : AccountId) (issue : IssueRequest) : B Amount.t :=
  period ← gets issue_period;
  let issue_period := Z.max period (Primitives.issue_period issue) in
  expired ← query (RelayCalls.has_request_expired (issue_opentime issue) (issue_btc_height issue) issue_period);
  if (expired : bool) then mret (griefing_collateral_of issue)
  else if bool_decide (issue_requester issue = requester) then
    now ← gets active_block_number;
    let blocks_elapsed := saturating_sub now (issue_opentime issue) in
    let griefing_collateral := griefing_collateral_of issue in
    share ← lift (Collateral.Collateral.calculate_collateral griefing_collateral
      (Amount.new blocks_elapsed (Amount.currency griefing_collateral))
      (Amount.new issue_period (Amount.currency griefing_collateral)));
    slashed_collateral ← lift (Amount.min share griefing_collateral);
    released_collateral ← lift (Amount.saturating_sub griefing_collateral slashed_collateral);
    on_tokens (Amount.unlock_on released_collateral requester);;
    mret slashed_collateral
  else fail (issue_error IssueError.TimeNotExpired).

Definition _cancel_issue (requester : AccountId) (issue_id : list byte) : B unit :=
  issue ← query (get_pending_issue issue_id);
  to_be_slashed_collateral ← slashed_on_cancel requester issue;
  liquidated ← query (Vaults.is_vault_liquidated (issue_vault issue));
  (if (liquidated : bool) then
     on_tokens (Amount.unlock_on to_be_slashed_collateral (issue_requester issue))
   else treasury to_be_slashed_collateral (issue_requester issue));;
  full_amount ← lift (Amount.checked_add (amount_of issue) (fee_of issue));
  decrease_to_be_issued_tokens (issue_vault issue) full_amount;;
  set_issue_status issue_id IssueCancelled;;
  deposit_event (CancelIssue issue_id requester (Amount.amount to_be_slashed_collateral)).

(** ** Queries of the RPC *)

Definition get_issue_requests_for_account `{!StorageIter (list byte)} (account : AccountId) (r : Runtime)
  : list (list byte) :=
  fst <$> filter (λ kv, issue_requester kv.2 = account) (storage_iter (IssueRequests (rt_issue r))).
Definition get_issue_requests_for_vault `{!StorageIter (list byte)} (vault : AccountId) (r : Runtime)
  : list (list byte) :=
  fst <$> filter (λ kv, account_id (issue_vault kv.2) = vault) (storage_iter (IssueRequests (rt_issue r))).

(** ** Extrinsics *)

Definition request_issue (origin : Origin) (amount : Z) (vault_id : VaultId)
    (griefing_currency : CurrencyId.t) : B unit :=
  requester ← lift (ensure_signed origin);
  _request_issue requester amount vault_id griefing_currency;;
  mret tt.
Definition execute_issue (origin : Origin) (issue_id : list byte)
    (unchecked_transaction : FullTransactionProof) : B unit :=
  executor ← lift (ensure_signed origin);
  _execute_issue executor issue_id unchecked_transaction.
Definition cancel_issue (origin : Origin) (issue_id : list byte) : B unit :=
  requester ← lift (ensure_signed origin);
  _cancel_issue requester issue_id.
Definition set_issue_period (origin : Origin) (period : Z) : B unit :=
  lift (ensure_root origin);;
  update (with_IssuePeriod (λ _, period));;
  deposit_event (IssuePeriodChange period).
End issue.
End Issue.
