(* ===== verification/Redeem.v ===== *)
(** * The redeem pallet ([crates/redeem/src/lib.rs])

    A user locks tokens and asks a vault for bitcoin; the proof of the payment
    burns the tokens.  When the vault does not pay in time the request can be
    cancelled, for collateral instead of bitcoin or to try another vault.  A
    vault can also redeem its own tokens, and anyone those of the liquidation
    vault. *)

From coqutil Require Import Byte.
From Stdlib Require Import ZArith Lia.
From stdpp Require Import base tactics option list numbers gmap.
From S2P Require Import Prelude Bytes BtcTypes BtcMerkle BtcBuild Security Relay RelayVerify Primitives FixedPoint Tokens Amount BridgeStores Bridge Oracle Fee Registry Collateral Nomination VaultRegistry Issue.

Local Open Scope Z_scope.

Module Redeem.
Import RedeemStore CurrencyConvert Collateral.Collateral VaultRegistry.VaultRegistry.

Definition redeem_error (e : RedeemError.t) : BError := ModuleError (RedeemE e).

(** ** Requests ([types.rs]) *)

Definition amount_btc (redeem : RedeemRequest) : Amount.t :=
  Amount.new (redeem_amount_btc redeem) (wrapped_currency (redeem_vault redeem)).
Definition fee (redeem : RedeemRequest) : Amount.t :=
  Amount.new (redeem_fee redeem) (wrapped_currency (redeem_vault redeem)).
Definition premium (redeem : RedeemRequest) : Amount.t :=
  Amount.new (redeem_premium redeem) (collateral_currency (redeem_vault redeem)).
Definition transfer_fee_btc (redeem : RedeemRequest) : Amount.t :=
  Amount.new (redeem_transfer_fee_btc redeem) (wrapped_currency (redeem_vault redeem)).

(** [DefaultRedeemRequest { status, ..request }]. *)
Definition with_status (status : RedeemRequestStatus) (q : RedeemRequest) : RedeemRequest :=
  mkRedeemRequest (redeem_vault q) (redeem_opentime q) (redeem_period q) (redeem_fee q)
    (redeem_transfer_fee_btc q) (redeem_amount_btc q) (redeem_premium q) (redeem_redeemer q)
    (redeem_btc_address q) (redeem_btc_height q) status.

Section redeem.
Context `{LoansApi}.

Definition update (f : Storage → Storage) : B unit := modify (with_redeem f).
Definition deposit_event (e : Event) : B unit := update (with_event e).
(** [m.map_err(|_| e)?] *)
Definition or_error {A} (m : B A) (e : BError) : B A := λ r, map_err (λ _, e) (m r).

Definition redeem_period (r : Runtime) : Z := RedeemPeriod (rt_redeem r).
Definition get_current_inclusion_fee (wrapped_currency : CurrencyId.t) (r : Runtime) : outcome BError Amount.t :=
  calculate_inclusion_fee wrapped_currency (RedeemTransactionSize (rt_redeem r)) r.
Definition get_dust_value (currency_id : CurrencyId.t) (r : Runtime) : Amount.t :=
  Amount.new (RedeemBtcDustValue (rt_redeem r)) currency_id.
Definition find_request (redeem_id : list byte) (r : Runtime) : outcome BError RedeemRequest :=
  ok_or (RedeemRequests (rt_redeem r) !! redeem_id) (redeem_error RedeemError.RedeemIdNotFound).
Definition get_open_redeem_request_from_id (redeem_id : list byte) (r : Runtime)
  : outcome BError RedeemRequest :=
  request ← find_request redeem_id r;
  match redeem_status request with
  | RedeemPending => Ok request
  | RedeemCompleted => Err (redeem_error RedeemError.RedeemCompleted)
  | Reimbursed _ | Retried => Err (redeem_error RedeemError.RedeemCancelled)
  end.
Definition get_open_or_completed_redeem_request_from_id (redeem_id : list byte) (r : Runtime)
  : outcome BError RedeemRequest :=
  request ← find_request redeem_id r;
  match redeem_status request with
  | RedeemPending | RedeemCompleted => Ok request
  | Reimbursed _ | Retried => Err (redeem_error RedeemError.RedeemCancelled)
  end.
Definition insert_redeem_request (key : list byte) (value : RedeemRequest) : B unit :=
  update (with_RedeemRequests <[key := value]>).
Definition set_redeem_status (id : list byte) (status : RedeemRequestStatus) : B RedeemRequestStatus :=
  update (with_RedeemRequests (alter (with_status status) id));; mret status.

(** A redeem relieves the vault of tokens it wanted replaced. *)
Definition release_replace_collateral (vault_id : VaultId) (burned_tokens : Amount.t) : B unit :=
  released ← decrease_to_be_replaced_tokens vault_id burned_tokens;
  let '(_, griefing_collateral) := released : Amount.t * Amount.t in
  if Amount.is_zero griefing_collateral then mret tt
  else transfer_funds (CurrencySource.AvailableReplaceCollateral vault_id)
         (CurrencySource.FreeBalance (account_id vault_id)) griefing_collateral.

(** ** Requesting *)

(** The premium paid in collateral, at most what restores the secure threshold. *)
Definition premium_for (vault_id : VaultId) (user_to_be_received_btc : Amount.t) : B Amount.t :=
  redeem_amount_wrapped_in_collateral ←
    convert_to user_to_be_received_btc (collateral_currency vault_id);
  premium_redeem_rate ← gets Fee.premium_redeem_reward_rate;
  premium_for_redeem_amount ←
    lift (Amount.checked_rounded_mul redeem_amount_wrapped_in_collateral premium_redeem_rate Down);
  max_premium ← get_vault_max_premium_redeem vault_id;
  lift (Amount.min max_premium premium_for_redeem_amount).

Definition _request_redeem (redeemer : AccountId) (amount_wrapped : Z) (btc_address : Address)
    (vault_id : VaultId) : B (list byte) :=
  let amount_wrapped := Amount.new amount_wrapped (wrapped_currency vault_id) in
  redeemer_balance ← gets (λ r, Amount.get_free_balance (wrapped_currency vault_id) redeemer (rt_tokens r));
  enough ← lift (Amount.le amount_wrapped redeemer_balance);
  ensureM enough (redeem_error RedeemError.AmountExceedsUserBalance);;
  ensureM (negb (address_is_zero btc_address)) (ModuleError (RelayE InvalidBtcHash));;
  fee_wrapped ← (if bool_decide (redeemer = account_id vault_id)
                 then mret (Amount.zero (wrapped_currency vault_id))
                 else query (Fee.get_redeem_fee amount_wrapped));
  inclusion_fee ← query (get_current_inclusion_fee (wrapped_currency vault_id));
  vault_to_be_burned_tokens ← lift (Amount.checked_sub amount_wrapped fee_wrapped);
  user_to_be_received_btc ←
    lift (map_err (λ _, redeem_error RedeemError.AmountBelowDustAmount)
            (Amount.checked_sub vault_to_be_burned_tokens inclusion_fee));
  query (ensure_not_banned vault_id);;
  dust_value ← gets (get_dust_value (wrapped_currency vault_id));
  above ← lift (Amount.ge user_to_be_received_btc dust_value);
  ensureM above (redeem_error RedeemError.AmountBelowDustAmount);;
  premium_collateral ← premium_for vault_id user_to_be_received_btc;
  try_increase_to_be_redeemed_tokens vault_id vault_to_be_burned_tokens;;
  on_tokens (Amount.lock_on amount_wrapped redeemer);;
  redeem_id ← get_secure_id redeemer;
  release_replace_collateral vault_id vault_to_be_burned_tokens;;
  opentime ← gets active_block_number;
  period ← gets redeem_period;
  btc_height ← gets RelayCalls.get_best_block_height;
  insert_redeem_request redeem_id
    (mkRedeemRequest vault_id opentime period (Amount.amount fee_wrapped)
       (Amount.amount inclusion_fee) (Amount.amount user_to_be_received_btc)
       (Amount.amount premium_collateral) redeemer btc_address btc_height RedeemPending);;
  deposit_event (RequestRedeem redeem_id redeemer vault_id (Amount.amount user_to_be_received_btc)
                   (Amount.amount fee_wrapped) (Amount.amount premium_collateral) btc_address
                   (Amount.amount inclusion_fee));;
  mret redeem_id.

(** ** Redeeming from the liquidation vault *)

Definition _liquidation_redeem (redeemer : AccountId) (currencies : VaultCurrencyPair)
    (amount_wrapped : Z) : B unit :=
  let amount_wrapped := Amount.new amount_wrapped (wrapped currencies) in
  redeemer_balance ← gets (λ r, Amount.get_free_balance (wrapped currencies) redeemer (rt_tokens r));
  enough ← lift (Amount.le amount_wrapped redeemer_balance);
  ensureM enough (redeem_error RedeemError.AmountExceedsUserBalance);;
  on_tokens (Amount.lock_on amount_wrapped redeemer);;
  on_tokens (Amount.burn_from amount_wrapped redeemer);;
  redeem_tokens_liquidation (collateral currencies) redeemer amount_wrapped;;
  deposit_event (LiquidationRedeem redeemer (Amount.amount amount_wrapped)).

(** ** Executing *)

(** The fee of the request goes to the fee pool. *)
Definition collect_fee (redeem : RedeemRequest) : B unit :=
  on_tokens (Amount.unlock_on (fee redeem) (redeem_redeemer redeem));;
  on_tokens (Amount.transfer (fee redeem) (redeem_redeemer redeem) fee_pool_account_id);;
  Fee.distribute_rewards (fee redeem).

Definition _execute_redeem (redeem_id : list byte) (unchecked_transaction : FullTransactionProof) : B unit :=
  redeem ← query (get_open_redeem_request_from_id redeem_id);
  query (RelayCalls.verify_and_validate_op_return_transaction unchecked_transaction
           (redeem_btc_address redeem) (redeem_amount_btc redeem) redeem_id);;
  burn_amount ← lift (Amount.checked_add (amount_btc redeem) (transfer_fee_btc redeem));
  on_tokens (Amount.burn_from burn_amount (redeem_redeemer redeem));;
  collect_fee redeem;;
  redeem_tokens (redeem_vault redeem) burn_amount (premium redeem) (redeem_redeemer redeem);;
  set_redeem_status redeem_id RedeemCompleted;;
  deposit_event (ExecuteRedeem redeem_id (redeem_redeemer redeem) (redeem_vault redeem)
                   (redeem_amount_btc redeem) (redeem_fee redeem) (redeem_transfer_fee_btc redeem)).

(** ** Cancelling *)

(** A liquidated vault pays out of the collateral kept for its pending redeems. *)
Definition confiscate_liquidated (redeemer : AccountId) (vault_id : VaultId)
    (vault_to_be_burned_tokens vault_to_be_redeemed_tokens : Amount.t) (reimburse : bool) : B Amount.t :=
  liquidated_collateral ← query (get_liquidated_collateral vault_id);
  confiscated_collateral ← lift (calculate_collateral liquidated_collateral
                                   vault_to_be_burned_tokens vault_to_be_redeemed_tokens);
  let slashing_destination :=
    if reimburse then CurrencySource.FreeBalance redeemer
    else CurrencySource.LiquidationVault (currencies vault_id) in
  decrease_liquidated_collateral vault_id confiscated_collateral;;
  transfer_funds (CurrencySource.LiquidatedCollateral vault_id) slashing_destination
    confiscated_collateral;;
  mret confiscated_collateral.

(** The punishment fee, and the value of the tokens when the user is reimbursed. *)
Definition slash_vault (redeemer : AccountId) (vault_id : VaultId)
    (amount_wrapped_in_collateral : Amount.t) (reimburse : bool) : B Amount.t :=
  punishment_fee_in_collateral ← query (Fee.get_punishment_fee amount_wrapped_in_collateral);
  amount_to_slash ←
    (if reimburse then lift (Amount.checked_add amount_wrapped_in_collateral punishment_fee_in_collateral)
     else mret punishment_fee_in_collateral);
  transfer_funds_saturated (CurrencySource.Collateral vault_id) (CurrencySource.FreeBalance redeemer)
    amount_to_slash;;
  attempt (ban_vault vault_id);;
  mret amount_to_slash.

Definition settle_reimbursed (redeemer : AccountId) (redeem_id : list byte) (redeem : RedeemRequest)
    (liquidated : bool) (vault_to_be_burned_tokens : Amount.t) : B RedeemRequestStatus :=
  collect_fee redeem;;
  if liquidated then
    on_tokens (Amount.burn_from vault_to_be_burned_tokens redeemer);;
    decrease_tokens (redeem_vault redeem) (redeem_redeemer redeem) vault_to_be_burned_tokens;;
    set_redeem_status redeem_id (Reimbursed true)
  else
    below ← is_vault_below_secure_threshold (redeem_vault redeem);
    if (below : bool) then
      on_tokens (Amount.burn_from vault_to_be_burned_tokens redeemer);;
      decrease_tokens (redeem_vault redeem) (redeem_redeemer redeem) vault_to_be_burned_tokens;;
      set_redeem_status redeem_id (Reimbursed false)
    else
      on_tokens (Amount.unlock_on vault_to_be_burned_tokens (redeem_redeemer redeem));;
      on_tokens (Amount.transfer vault_to_be_burned_tokens (redeem_redeemer redeem)
                   (account_id (redeem_vault redeem)));;
      decrease_to_be_redeemed_tokens (redeem_vault redeem) vault_to_be_burned_tokens;;
      set_redeem_status redeem_id (Reimbursed true).

Definition settle_retried (redeemer : AccountId) (redeem_id : list byte) (redeem : RedeemRequest)
    (vault_to_be_burned_tokens : Amount.t) : B RedeemRequestStatus :=
  with_fee ← lift (Amount.checked_add (amount_btc redeem) (fee redeem));
  total_wrapped ← lift (Amount.checked_add with_fee (transfer_fee_btc redeem));
  on_tokens (Amount.unlock_on total_wrapped redeemer);;
  decrease_to_be_redeemed_tokens (redeem_vault redeem) vault_to_be_burned_tokens;;
  set_redeem_status redeem_id Retried.

Definition _cancel_redeem (redeemer : AccountId) (redeem_id : list byte) (reimburse : bool) : B unit :=
  redeem ← query (get_open_redeem_request_from_id redeem_id);
  ensureM (bool_decide (redeemer = redeem_redeemer redeem))
    (redeem_error RedeemError.UnauthorizedRedeemer);;
  period ← gets redeem_period;
  expired ← query (RelayCalls.has_request_expired (redeem_opentime redeem) (redeem_btc_height redeem)
                     (Z.max period (Primitives.redeem_period redeem)));
  ensureM expired (redeem_error RedeemError.TimeNotExpired);;
  vault ← query (Vaults.get_vault_from_id (redeem_vault redeem));
  let vault_id := redeem_vault redeem in
  let vault_to_be_redeemed_tokens :=
    Amount.new (RegistryStore.to_be_redeemed_tokens vault) (wrapped_currency vault_id) in
  vault_to_be_burned_tokens ← lift (Amount.checked_add (amount_btc redeem) (transfer_fee_btc redeem));
  amount_wrapped_in_collateral ← convert_to vault_to_be_burned_tokens (collateral_currency vault_id);
  let liquidated := RegistryStore.is_liquidated vault in
  slashed_amount ←
    (if liquidated then
       confiscate_liquidated redeemer vault_id vault_to_be_burned_tokens vault_to_be_redeemed_tokens reimburse
     else slash_vault redeemer vault_id amount_wrapped_in_collateral reimburse);
  new_status ←
    (if reimburse then settle_reimbursed redeemer redeem_id redeem liquidated vault_to_be_burned_tokens
     else settle_retried redeemer redeem_id redeem vault_to_be_burned_tokens);
  deposit_event (CancelRedeem redeem_id redeemer vault_id (Amount.amount slashed_amount) new_status).

(** The vault mints the tokens of a request it reimbursed, once it can back them. *)
Definition _mint_tokens_for_reimbursed_redeem (vault_id : VaultId) (redeem_id : list byte) : B unit :=
  redeem ← query (find_request redeem_id);
  ensureM (match redeem_status redeem with Reimbursed false => true | _ => false end)
    (redeem_error RedeemError.RedeemCancelled);;
  ensureM (bool_decide (redeem_vault redeem = vault_id)) (redeem_error RedeemError.UnauthorizedVault);;
  reimbursed_amount ← lift (Amount.checked_add (amount_btc redeem) (transfer_fee_btc redeem));
  try_increase_to_be_issued_tokens vault_id reimbursed_amount;;
  issue_tokens vault_id reimbursed_amount;;
  on_tokens (Amount.mint_to reimbursed_amount (account_id vault_id));;
  set_redeem_status redeem_id (Reimbursed true);;
  deposit_event (MintTokensForReimbursedRedeem redeem_id (redeem_vault redeem)
                   (Amount.amount reimbursed_amount)).

(** ** Redeeming the tokens of one's own vault *)

Definition calculate_token_amounts (vault_id : VaultId) (requested_redeem_amount : Amount.t)
  : B (Amount.t * Amount.t) :=
  redeemable_tokens ← query (get_free_redeemable_tokens vault_id);
  all_ ← lift (Amount.eq redeemable_tokens requested_redeem_amount);
  fees ← (if (all_ : bool) then mret (Amount.zero (wrapped_currency vault_id))
          else query (Fee.get_redeem_fee requested_redeem_amount));
  consumed_issued_tokens ← lift (Amount.checked_sub requested_redeem_amount fees);
  mret (fees, consumed_issued_tokens).
Definition take_user_tokens (account_id : AccountId) (consumed_issued_tokens fees : Amount.t) : B unit :=
  or_error (on_tokens (Amount.lock_on consumed_issued_tokens account_id))
    (redeem_error RedeemError.AmountExceedsUserBalance);;
  on_tokens (Amount.burn_from consumed_issued_tokens account_id);;
  or_error (on_tokens (Amount.transfer fees account_id fee_pool_account_id))
    (redeem_error RedeemError.AmountExceedsUserBalance);;
  Fee.distribute_rewards fees.
Definition update_vault_tokens (vault_id : VaultId) (consumed_issued_tokens : Amount.t) : B unit :=
  try_increase_to_be_redeemed_tokens vault_id consumed_issued_tokens;;
  redeem_tokens vault_id consumed_issued_tokens (Amount.zero (collateral_currency vault_id))
    (account_id vault_id);;
  release_replace_collateral vault_id consumed_issued_tokens.
(** [self_redeem::execute] *)
Definition self_redeem_execute (vault_id : VaultId) (amount_wrapped : Amount.t) : B unit :=
  query (ensure_not_banned vault_id);;
  ensureM (negb (Amount.is_zero amount_wrapped)) (redeem_error RedeemError.AmountBelowDustAmount);;
  amounts ← calculate_token_amounts vault_id amount_wrapped;
  let '(fees, consumed_issued_tokens) := amounts : Amount.t * Amount.t in
  take_user_tokens (account_id vault_id) consumed_issued_tokens fees;;
  update_vault_tokens vault_id consumed_issued_tokens;;
  deposit_event (SelfRedeem vault_id (Amount.amount consumed_issued_tokens) (Amount.amount fees)).

(** ** Queries of the RPC *)

Definition get_redeem_requests_for_account `{!StorageIter (list byte)} (account : AccountId) (r : Runtime)
  : list (list byte) :=
  fst <$> filter (λ kv, redeem_redeemer kv.2 = account) (storage_iter (RedeemRequests (rt_redeem r))).
Definition get_redeem_requests_for_vault `{!StorageIter (list byte)} (vault : AccountId) (r : Runtime)
  : list (list byte) :=
  fst <$> filter (λ kv, account_id (redeem_vault kv.2) = vault) (storage_iter (RedeemRequests (rt_redeem r))).

(** ** Extrinsics *)

Definition request_redeem (origin : Origin) (amount_wrapped : Z) (btc_address : Address)
    (vault_id : VaultId) : B unit :=
  redeemer ← lift (ensure_signed origin);
  _request_redeem redeemer amount_wrapped btc_address vault_id;;
  mret tt.
Definition liquidation_redeem (origin : Origin) (currencies : VaultCurrencyPair) (amount_wrapped : Z) : B unit :=
  redeemer ← lift (ensure_signed origin);
  _liquidation_redeem redeemer currencies amount_wrapped.
Definition execute_redeem (origin : Origin) (redeem_id : list byte)
    (unchecked_transaction : FullTransactionProof) : B unit :=
  lift (ensure_signed origin);;
  _execute_redeem redeem_id unchecked_transaction.
Definition cancel_redeem (origin : Origin) (redeem_id : list byte) (reimburse : bool) : B unit :=
  redeemer ← lift (ensure_signed origin);
  _cancel_redeem redeemer redeem_id reimburse.
Definition set_redeem_period (origin : Origin) (period : Z) : B unit :=
  lift (ensure_root origin);;
  update (with_RedeemPeriod (λ _, period));;
  deposit_event (RedeemPeriodChange period).
Definition mint_tokens_for_reimbursed_redeem (origin : Origin) (currency_pair : VaultCurrencyPair)
    (redeem_id : list byte) : B unit :=
  vault_id ← Nomination.signed_vault_id origin currency_pair;
  _mint_tokens_for_reimbursed_redeem vault_id redeem_id.
Definition self_redeem (origin : Origin) (currency_pair : VaultCurrencyPair) (amount_wrapped : Z) : B unit :=
  vault_id ← Nomination.signed_vault_id origin currency_pair;
  self_redeem_execute vault_id (Amount.new amount_wrapped (wrapped_currency vault_id)).
End redeem.
End Redeem.
