(* ===== verification/Replace.v ===== *)
(** * The replace pallet ([crates/replace/src/lib.rs])

    A vault asks to be replaced for some of its tokens, against griefing
    collateral; another vault accepts, receives the bitcoin of the first and
    takes over its tokens. *)

From coqutil Require Import Byte.
From Stdlib Require Import ZArith Lia.
From stdpp Require Import base tactics option list numbers gmap.
From S2P Require Import Prelude Bytes BtcTypes BtcMerkle BtcBuild Security Relay RelayVerify Primitives FixedPoint Tokens Amount BridgeStores Bridge Oracle Fee Registry Collateral Nomination VaultRegistry Issue.

Local Open Scope Z_scope.

Module Replace.
Import ReplaceStore CurrencyConvert Collateral.Collateral VaultRegistry.VaultRegistry.

Definition replace_error (e : ReplaceError.t) : BError := ModuleError (ReplaceE e).

(** [DefaultReplaceRequest { status, ..request }]. *)
Definition with_status (status : ReplaceRequestStatus) (q : ReplaceRequest) : ReplaceRequest :=
  mkReplaceRequest (replace_old_vault q) (replace_new_vault q) (replace_amount q)
    (replace_griefing_collateral q) (replace_collateral q) (replace_accept_time q)
    (replace_period q) (replace_btc_address q) (replace_btc_height q) status.

Section replace.
Context `{LoansApi}.

(** ** Requests ([types.rs]) *)

Definition amount (replace : ReplaceRequest) : Amount.t :=
  Amount.new (replace_amount replace) (wrapped_currency (replace_old_vault replace)).
Definition griefing_collateral (replace : ReplaceRequest) : Amount.t :=
  Amount.new (replace_griefing_collateral replace) GetGriefingCollateralCurrencyId.
Definition collateral (replace : ReplaceRequest) : Amount.t :=
  Amount.new (replace_collateral replace) (collateral_currency (replace_new_vault replace)).

Definition update (f : Storage → Storage) : B unit := modify (with_replace f).
Definition deposit_event (e : Event) : B unit := update (with_event e).
Definition replace_period (r : Runtime) : Z := ReplacePeriod (rt_replace r).
Definition dust_value (currency_id : CurrencyId.t) (r : Runtime) : Amount.t :=
  Amount.new (ReplaceBtcDustValue (rt_replace r)) currency_id.

Definition find_request (replace_id : list byte) (r : Runtime) : outcome BError ReplaceRequest :=
  ok_or (ReplaceRequests (rt_replace r) !! replace_id) (replace_error ReplaceError.ReplaceIdNotFound).
Definition get_open_replace_request (replace_id : list byte) (r : Runtime) : outcome BError ReplaceRequest :=
  request ← find_request replace_id r;
  match replace_status request with
  | ReplacePending => Ok request
  | ReplaceCompleted => Err (replace_error ReplaceError.ReplaceCompleted)
  | ReplaceCancelled => Err (replace_error ReplaceError.ReplaceCancelled)
  end.
Definition get_open_or_completed_replace_request (id : list byte) (r : Runtime) : outcome BError ReplaceRequest :=
  request ← find_request id r;
  match replace_status request with
  | ReplacePending | ReplaceCompleted => Ok request
  | ReplaceCancelled => Err (replace_error ReplaceError.ReplaceCancelled)
  end.
Definition get_open_or_cancelled_replace_request (id : list byte) (r : Runtime) : outcome BError ReplaceRequest :=
  request ← find_request id r;
  match replace_status request with
  | ReplacePending | ReplaceCancelled => Ok request
  | ReplaceCompleted => Err (replace_error ReplaceError.ReplaceCompleted)
  end.
Definition insert_replace_request (key : list byte) (value : ReplaceRequest) : B unit :=
  update (with_ReplaceRequests <[key := value]>).
Definition set_replace_status (key : list byte) (status : ReplaceRequestStatus) : B unit :=
  update (with_ReplaceRequests (alter (with_status status) key)).

(** ** Requesting and withdrawing *)

Definition _request_replace (vault_id : VaultId) (amount_btc : Z) : B unit :=
  query (ensure_not_banned vault_id);;
  let amount_btc := Amount.new amount_btc (wrapped_currency vault_id) in
  nominatable ← gets (λ r, NominationStore.is_opted_in vault_id (rt_nomination r));
  ensureM (negb nominatable) (replace_error ReplaceError.VaultHasEnabledNomination);;
  requestable_tokens ← query (requestable_to_be_replaced_tokens vault_id);
  to_be_replaced_increase ← lift (Amount.min amount_btc requestable_tokens);
  ensureM (negb (Amount.is_zero to_be_replaced_increase)) (replace_error ReplaceError.ReplaceAmountZero);;
  total_to_be_replaced ← try_increase_to_be_replaced_tokens vault_id to_be_replaced_increase;
  dust_value ← gets (dust_value (wrapped_currency vault_id));
  above ← lift (Amount.ge total_to_be_replaced dust_value);
  ensureM above (replace_error ReplaceError.AmountBelowDustAmount);;
  in_griefing ← convert_to to_be_replaced_increase GetGriefingCollateralCurrencyId;
  griefing_collateral ← query (Fee.get_replace_griefing_collateral in_griefing);
  transfer_funds (CurrencySource.FreeBalance (account_id vault_id))
    (CurrencySource.AvailableReplaceCollateral vault_id) griefing_collateral;;
  deposit_event (RequestReplace vault_id (Amount.amount to_be_replaced_increase)
                   (Amount.amount griefing_collateral)).

Definition _withdraw_replace_request (vault_id : VaultId) (amount : Z) : B unit :=
  let amount := Amount.new amount (wrapped_currency vault_id) in
  withdrawn ← withdraw_replace_request vault_id amount;
  let '(withdrawn_tokens, to_withdraw_collateral) := withdrawn : Amount.t * Amount.t in
  if Amount.is_zero withdrawn_tokens then fail (replace_error ReplaceError.NoPendingRequest)
  else deposit_event (WithdrawReplace vault_id (Amount.amount withdrawn_tokens)
                        (Amount.amount to_withdraw_collateral)).

(** ** Accepting *)

Definition accept_replace_tokens (old_vault_id new_vault_id : VaultId) (redeemable_tokens : Amount.t) : B unit :=
  try_increase_to_be_redeemed_tokens old_vault_id redeemable_tokens;;
  try_increase_to_be_issued_tokens new_vault_id redeemable_tokens.

Definition _accept_replace (old_vault_id new_vault_id : VaultId) (amount_btc collateral : Z)
    (btc_address : Address) : B unit :=
  let amount_btc := Amount.new amount_btc (wrapped_currency old_vault_id) in
  let collateral := Amount.new collateral (collateral_currency new_vault_id) in
  ensureM (negb (bool_decide (old_vault_id = new_vault_id)))
    (replace_error ReplaceError.ReplaceSelfNotAllowed);;
  ensureM (bool_decide (wrapped_currency old_vault_id = wrapped_currency new_vault_id))
    (replace_error ReplaceError.InvalidWrappedCurrency);;
  query (ensure_not_banned new_vault_id);;
  decreased ← decrease_to_be_replaced_tokens old_vault_id amount_btc;
  let '(redeemable_tokens, griefing_collateral) := decreased : Amount.t * Amount.t in
  dust_value ← gets (dust_value (wrapped_currency old_vault_id));
  above ← lift (Amount.ge redeemable_tokens dust_value);
  ensureM above (replace_error ReplaceError.AmountBelowDustAmount);;
  actual_new_vault_collateral ← lift (calculate_collateral collateral redeemable_tokens amount_btc);
  try_deposit_collateral new_vault_id actual_new_vault_collateral;;
  accept_replace_tokens old_vault_id new_vault_id redeemable_tokens;;
  transfer_funds (CurrencySource.AvailableReplaceCollateral old_vault_id)
    (CurrencySource.ActiveReplaceCollateral old_vault_id) griefing_collateral;;
  replace_id ← get_secure_id (account_id old_vault_id);
  accept_time ← gets active_block_number;
  period ← gets replace_period;
  btc_height ← gets RelayCalls.get_best_block_height;
  let replace :=
    mkReplaceRequest old_vault_id new_vault_id (Amount.amount redeemable_tokens)
      (Amount.amount griefing_collateral) (Amount.amount actual_new_vault_collateral)
      accept_time period btc_address btc_height ReplacePending in
  insert_replace_request replace_id replace;;
  deposit_event (AcceptReplace replace_id (replace_old_vault replace) (replace_new_vault replace)
                   (replace_amount replace) (replace_collateral replace) (replace_btc_address replace)).

(** ** Executing *)

(** The collateral that was locked on accept, for the event; a cancelled request is accepted anew. *)
Definition execute_by_status (replace : ReplaceRequest) : B Amount.t :=
  match replace_status replace with
  | ReplacePending =>
      transfer_funds (CurrencySource.ActiveReplaceCollateral (replace_old_vault replace))
        (CurrencySource.FreeBalance (account_id (replace_old_vault replace)))
        (griefing_collateral replace);;
      mret (collateral replace)
  | ReplaceCancelled =>
      accept_replace_tokens (replace_old_vault replace) (replace_new_vault replace) (amount replace);;
      mret (Amount.zero (Amount.currency (collateral replace)))
  | ReplaceCompleted => fail (replace_error ReplaceError.ReplaceCompleted)
  end.

Definition _execute_replace (replace_id : list byte) (unchecked_transaction : FullTransactionProof) : B unit :=
  replace ← query (get_open_or_cancelled_replace_request replace_id);
  query (RelayCalls.verify_and_validate_op_return_transaction unchecked_transaction
           (replace_btc_address replace) (replace_amount replace) replace_id);;
  collateral ← execute_by_status replace;
  replace_tokens (replace_old_vault replace) (replace_new_vault replace) (amount replace) collateral;;
  deposit_event (ExecuteReplace replace_id (replace_old_vault replace) (replace_new_vault replace));;
  set_replace_status replace_id ReplaceCompleted.

(** ** Cancelling *)

(** The collateral locked for the replace is released when that keeps the new vault secure. *)
Definition release_collateral (new_vault_id : VaultId) (collateral : Amount.t) : B unit :=
  liquidated ← query (Vaults.is_vault_liquidated new_vault_id);
  if (liquidated : bool) then mret tt
  else
    allowed ← is_allowed_to_withdraw_collateral new_vault_id (Some collateral);
    if (allowed : bool) then force_withdraw_collateral new_vault_id collateral else mret tt.

Definition _cancel_replace (replace_id : list byte) : B unit :=
  replace ← query (get_open_replace_request replace_id);
  period ← gets replace_period;
  expired ← query (RelayCalls.has_request_expired (replace_accept_time replace) (replace_btc_height replace)
                     (Z.max period (Primitives.replace_period replace)));
  ensureM expired (replace_error ReplaceError.ReplacePeriodNotExpired);;
  let new_vault_id := replace_new_vault replace in
  cancel_replace_tokens (replace_old_vault replace) new_vault_id (amount replace);;
  transfer_funds (CurrencySource.ActiveReplaceCollateral (replace_old_vault replace))
    (CurrencySource.FreeBalance (account_id new_vault_id)) (griefing_collateral replace);;
  release_collateral new_vault_id (collateral replace);;
  set_replace_status replace_id ReplaceCancelled;;
  deposit_event (CancelReplace replace_id new_vault_id (replace_old_vault replace)
                   (replace_griefing_collateral replace)).

(** ** Queries of the RPC *)

Definition get_replace_requests_for_old_vault `{!StorageIter (list byte)} (vault_id : AccountId) (r : Runtime)
  : list (list byte) :=
  fst <$> filter (λ kv, account_id (replace_old_vault kv.2) = vault_id)
            (storage_iter (ReplaceRequests (rt_replace r))).
Definition get_replace_requests_for_new_vault `{!StorageIter (list byte)} (vault_id : AccountId) (r : Runtime)
  : list (list byte) :=
  fst <$> filter (λ kv, account_id (replace_new_vault kv.2) = vault_id)
            (storage_iter (ReplaceRequests (rt_replace r))).

(** ** Extrinsics *)

Definition request_replace (origin : Origin) (currency_pair : VaultCurrencyPair) (amount : Z) : B unit :=
  old_vault ← Nomination.signed_vault_id origin currency_pair;
  _request_replace old_vault amount.
Definition withdraw_replace (origin : Origin) (currency_pair : VaultCurrencyPair) (amount : Z) : B unit :=
  old_vault ← Nomination.signed_vault_id origin currency_pair;
  _withdraw_replace_request old_vault amount.
Definition accept_replace (origin : Origin) (currency_pair : VaultCurrencyPair) (old_vault : VaultId)
    (amount_btc collateral : Z) (btc_address : Address) : B unit :=
  new_vault ← Nomination.signed_vault_id origin currency_pair;
  _accept_replace old_vault new_vault amount_btc collateral btc_address.
Definition execute_replace (origin : Origin) (replace_id : list byte)
    (unchecked_transaction : FullTransactionProof) : B unit :=
  lift (ensure_signed origin);;
  _execute_replace replace_id unchecked_transaction.
Definition cancel_replace (origin : Origin) (replace_id : list byte) : B unit :=
  lift (ensure_signed origin);;
  _cancel_replace replace_id.
Definition set_replace_period (origin : Origin) (period : Z) : B unit :=
  lift (ensure_root origin);;
  update (with_ReplacePeriod (λ _, period));;
  deposit_event (ReplacePeriodChange period).
End replace.
End Replace.
