(* ===== verification/TokenWeight.v ===== *)
(** * What the registry's operations do to the tokens it counts

    The registry counts, for every vault and for the liquidation vault of every
    currency pair, the tokens issued, to be issued and to be redeemed; the other
    pallets keep the pending requests, and the ledger the supply.  A [weights]
    gives a price to each of these; [weight] is the price of the counters,
    [total] that of all of them.  Each operation of the registry changes the
    weight by a fixed amount whether the vault is liquidated or not.  That the
    supply is issued by vaults, and that the counters are those of the pending
    requests, are instances of one law on [total].

    [keyed] says that vaults are stored under their own id; [current] that a
    copy of a vault is the stored one; [tracks] how both evolve. *)

From coqutil Require Import Byte.
From Stdlib Require Import ZArith Lia.
From stdpp Require Import base tactics option list numbers gmap.
From S2P Require Import Prelude Bytes BtcTypes BtcBuild Security Primitives FixedPoint Reward Staking Tokens Amount BridgeStores Bridge Oracle Fee Registry Collateral Nomination VaultRegistry.

Local Open Scope Z_scope.

(** The currency pair of a vault. *)
Definition pair_of (v : RegistryStore.Vault) : VaultCurrencyPair := currencies (RegistryStore.id v).

Record weights : Type := mkWeights {
  w_issued : VaultCurrencyPair → Z;
  w_to_be_issued : VaultCurrencyPair → Z;
  w_to_be_redeemed : VaultId → Z;
  (** the tokens a pending request is counted with, against these *)
  w_requests : Z;
  (** the supply of one currency *)
  w_supply : Z;
  w_currency : CurrencyId.t;
}.

Section tokens.
Context `{LoansApi} (w : weights).
Import RegistryStore Vaults.

Definition vault_weight (v : Vault) : Z :=
  w_issued w (pair_of v) * issued_tokens v + w_to_be_issued w (pair_of v) * to_be_issued_tokens v +
  w_to_be_redeemed w (id v) * to_be_redeemed_tokens v.
Definition system_weight (s : SystemVault) : Z :=
  w_issued w (sys_currency_pair s) * sys_issued_tokens s +
  w_to_be_issued w (sys_currency_pair s) * sys_to_be_issued_tokens s.
Definition weight (r : Runtime) : Z :=
  msum (λ _ v, vault_weight v) (RegistryStore.Vaults (rt_registry r)) +
  msum (λ _ s, system_weight s) (LiquidationVault (rt_registry r)).

Definition issue_weight (q : IssueRequest) : Z :=
  match issue_status q with
  | IssuePending => w_to_be_issued w (currencies (issue_vault q)) * (issue_amount q + issue_fee q)
  | _ => 0
  end.
Definition redeem_weight (q : RedeemRequest) : Z :=
  match redeem_status q with
  | RedeemPending => w_to_be_redeemed w (redeem_vault q) * (redeem_amount_btc q + redeem_transfer_fee_btc q)
  | _ => 0
  end.
Definition replace_weight (q : ReplaceRequest) : Z :=
  match replace_status q with
  | ReplacePending =>
      (w_to_be_issued w (currencies (replace_new_vault q)) + w_to_be_redeemed w (replace_old_vault q)) *
      replace_amount q
  | _ => 0
  end.
(** The tokens of the pending requests. *)
Definition pending (r : Runtime) : Z :=
  msum (λ _ q, issue_weight q) (IssueStore.IssueRequests (rt_issue r)) +
  msum (λ _ q, redeem_weight q) (RedeemStore.RedeemRequests (rt_redeem r)) +
  msum (λ _ q, replace_weight q) (ReplaceStore.ReplaceRequests (rt_replace r)).
Definition supply (r : Runtime) : Z := total_issuance (w_currency w) (rt_tokens r).
Definition total (r : Runtime) : Z := weight r - w_requests w * pending r + w_supply w * supply r.

(** Two vaults of one wrapped currency. *)
Definition replaceable (old new : VaultId) : Prop :=
  old ≠ new ∧ wrapped_currency old = wrapped_currency new.
(** Vaults are stored under their id, and replace each other in one wrapped currency. *)
Definition keyed (r : Runtime) : Prop :=
  (∀ vid v, RegistryStore.Vaults (rt_registry r) !! vid = Some v → id v = vid) ∧
  (∀ p s, LiquidationVault (rt_registry r) !! p = Some s → sys_currency_pair s = p) ∧
  (∀ k q, ReplaceStore.ReplaceRequests (rt_replace r) !! k = Some q →
     replaceable (replace_old_vault q) (replace_new_vault q)).
Definition current (self : Vault) (r : Runtime) : Prop :=
  RegistryStore.Vaults (rt_registry r) !! id self = Some self.
(** What [total] is computed from. *)
Definition requests (r : Runtime) :=
  (IssueStore.IssueRequests (rt_issue r), RedeemStore.RedeemRequests (rt_redeem r),
   ReplaceStore.ReplaceRequests (rt_replace r)).
Definition registry_maps (r : Runtime) :=
  (RegistryStore.Vaults (rt_registry r), LiquidationVault (rt_registry r)).
Definition watched (r : Runtime) := (registry_maps r, requests r, supply r).

(** The two writes of the registry. *)
Definition vault_put (v : Vault) (r : Runtime) : Runtime :=
  with_registry (with_Vaults <[id v := v]>) r.
Definition system_put (s : SystemVault) (r : Runtime) : Runtime :=
  with_registry (with_LiquidationVault <[sys_currency_pair s := s]>) r.

Lemma vault_put_weight v old r :
  RegistryStore.Vaults (rt_registry r) !! id v = Some old →
  weight (vault_put v r) = weight r + (vault_weight v - vault_weight old).
Proof.
  intros Hold. unfold weight, vault_put. cbn. rewrite msum_insert. unfold entry. rewrite Hold. cbn. lia.
Qed.
Lemma vault_put_keyed v r : keyed r → keyed (vault_put v r).
Proof.
  intros [Hv Hs]. split; [| exact Hs]. intros vid v'. unfold vault_put. cbn.
  intros [[<- <-] | [_ Hl]]%lookup_insert_Some; [done | by apply Hv].
Qed.
Lemma get_liquidation_vault_pair p r : keyed r → sys_currency_pair (get_liquidation_vault p r) = p.
Proof.
  intros (_ & Hs & _). unfold get_liquidation_vault.
  destruct (LiquidationVault (rt_registry r) !! p) as [s |] eqn:Hp; cbn; [by apply Hs | done].
Qed.
Lemma system_put_weight s r :
  weight (system_put s r) =
    weight r + (system_weight s - system_weight (get_liquidation_vault (sys_currency_pair s) r)).
Proof.
  unfold weight, system_put, get_liquidation_vault. cbn. rewrite msum_insert. unfold entry.
  assert (system_weight (system_vault_new (sys_currency_pair s)) = 0) by (unfold system_weight; cbn; lia).
  destruct (LiquidationVault (rt_registry r) !! sys_currency_pair s); cbn; lia.
Qed.
Lemma system_put_keyed s r : keyed r → keyed (system_put s r).
Proof.
  intros (Hv & Hs & Hq). split_and!; [exact Hv | | exact Hq]. intros p s'. unfold system_put. cbn.
  intros [[<- <-] | [_ Hl]]%lookup_insert_Some; [done | by apply Hs].
Qed.
Lemma system_put_read s r : get_liquidation_vault (sys_currency_pair s) (system_put s r) = s.
Proof. unfold get_liquidation_vault, system_put. cbn. by rewrite lookup_insert_eq. Qed.

(** ** The operations of a copy *)

(** A copy evolves to another, the registry with it. *)
Record tracks (δ : Z) (self self' : Vault) (r r' : Runtime) : Prop := {
  tracks_keyed : keyed r';
  tracks_current : current self' r';
  tracks_id : id self' = id self;
  tracks_liquidated : is_liquidated self' = is_liquidated self;
  tracks_others vid : vid ≠ id self →
    RegistryStore.Vaults (rt_registry r') !! vid = RegistryStore.Vaults (rt_registry r) !! vid;
  tracks_weight : weight r' = weight r + δ;
  tracks_rest : (requests r', supply r') = (requests r, supply r);
}.

Lemma tracks_trans δ1 δ2 δ v1 v2 v3 r1 r2 r3 :
  tracks δ1 v1 v2 r1 r2 → tracks δ2 v2 v3 r2 r3 → δ = δ1 + δ2 → tracks δ v1 v3 r1 r3.
Proof.
  intros [K1 C1 I1 L1 O1 W1 R1] [K2 C2 I2 L2 O2 W2 R2] ->. split; try done; try congruence.
  - intros vid Hne. rewrite O2 by congruence. by apply O1.
  - lia.
Qed.

Lemma tracks_eq δ δ' v1 v2 r1 r2 : tracks δ v1 v2 r1 r2 → δ' = δ → tracks δ' v1 v2 r1 r2.
Proof. by intros ? ->. Qed.

Lemma watched_total r r' : watched r' = watched r → total r' = total r.
Proof.
  unfold watched, registry_maps, requests, total, weight, pending. by intros [= -> -> -> -> -> ->].
Qed.
Lemma watched_keyed r r' : watched r' = watched r → keyed r → keyed r'.
Proof. unfold keyed, watched, registry_maps, requests. by intros [= -> -> _ _ -> _]. Qed.

Lemma tracks_keeps self r r' :
  keyed r → current self r → watched r' = watched r → tracks 0 self self r r'.
Proof.
  intros Hk Hc Hm. pose proof (watched_keyed _ _ Hm Hk). unfold watched, registry_maps, requests in Hm.
  injection Hm as Hv Hl Hi Hr Hp Hs. split; try done.
  - unfold current. by rewrite Hv.
  - intros vid _. by rewrite Hv.
  - unfold weight. rewrite Hv, Hl. lia.
  - unfold requests. by rewrite Hi, Hr, Hp, Hs.
Qed.

Lemma tracks_put self v r :
  keyed r → current self r → id v = id self → is_liquidated v = is_liquidated self →
  tracks (vault_weight v - vault_weight self) self v r (vault_put v r).
Proof.
  intros Hk Hc Hi Hl. split; try done.
  - by apply vault_put_keyed.
  - unfold current, vault_put. cbn. apply lookup_insert_eq.
  - intros vid Hne. unfold vault_put. cbn. apply lookup_insert_ne. congruence.
  - apply vault_put_weight. by rewrite Hi.
Qed.

(** A liquidated vault's tokens are those of its liquidation vault. *)
Lemma tracks_system self s r :
  keyed r → current self r → sys_currency_pair s = pair_of self →
  tracks (system_weight s - system_weight (get_liquidation_vault (pair_of self) r)) self self r
    (system_put s r).
Proof.
  intros Hk Hc Hp. split; try done.
  - by apply system_put_keyed.
  - rewrite system_put_weight, Hp. done.
Qed.

Lemma update_Ok f self r v' r' :
  RichVault.update f self r = Ok (v', r') ↔ f self = Ok v' ∧ r' = vault_put v' r.
Proof.
  unfold RichVault.update, update_storage. split.
  - intros Hr. outcome_inv. done.
  - intros [Hf ->]. unfold mbind, M_bind, lift. by rewrite Hf.
Qed.
Lemma set_Ok f self r v' r' :
  RichVault.set f self r = Ok (v', r') ↔ v' = f self ∧ r' = vault_put (f self) r.
Proof. unfold RichVault.set. rewrite update_Ok. split; [by intros [[= <-] ->] | by intros [-> ->]]. Qed.
Lemma system_update_Ok f self r s' r' :
  RichSystemVault.update f self r = Ok (s', r') ↔ s' = f self ∧ r' = system_put s' r.
Proof.
  unfold RichSystemVault.update, update_storage. split; [intros Hr; by outcome_inv | by intros [-> ->]].
Qed.

(** The three counters, in the vault or, once it is liquidated, in the liquidation vault. *)
Ltac tracks_op Hr :=
  match type of Hr with (if ?b then _ else _) _ = _ => destruct b eqn:Hliq | _ => idtac end;
  outcome_inv;
  match goal with
  | Hs : RichSystemVault.update _ _ _ = Ok _ |- _ => apply system_update_Ok in Hs as [-> ->]
  | _ => idtac
  end;
  repeat match goal with
  | Hs : RichVault.set _ _ _ = Ok _ |- _ => apply set_Ok in Hs as [-> ->]
  | Hs : Amount.checked_add _ _ = Ok _ |- _ => apply Amount.checked_add_Ok in Hs as (_ & _ & ? & _)
  | Hs : Amount.checked_sub _ _ = Ok _ |- _ => apply Amount.checked_sub_Ok in Hs as (_ & _ & ? & _)
  end.
Ltac tracks_sum := match goal with Hs : Amount.amount _ = _ |- _ => rewrite Hs end; cbn; lia.
Ltac tracks_weigh :=
  eapply tracks_eq; [by apply tracks_put |]; unfold vault_weight, pair_of; cbn; tracks_sum.
Ltac tracks_weigh_system :=
  eapply tracks_eq;
  [apply tracks_system; [done | done | by apply get_liquidation_vault_pair] |];
  unfold system_weight, get_rich_liquidation_vault, pair_of in *; cbn in *;
  rewrite !get_liquidation_vault_pair by done; tracks_sum.

Lemma increase_issued_tracks self t r v' r' :
  keyed r → current self r → RichVault.increase_issued self t r = Ok (v', r') →
  tracks (w_issued w (pair_of self) * Amount.amount t) self v' r r'.
Proof.
  intros Hk Hc Hr. unfold RichVault.increase_issued, RichSystemVault.increase_issued in Hr.
  tracks_op Hr; [tracks_weigh_system | tracks_weigh].
Qed.
Lemma decrease_issued_tracks self t r v' r' :
  keyed r → current self r → RichVault.decrease_issued self t r = Ok (v', r') →
  tracks (- (w_issued w (pair_of self) * Amount.amount t)) self v' r r'.
Proof.
  intros Hk Hc Hr. unfold RichVault.decrease_issued, RichSystemVault.decrease_issued in Hr.
  tracks_op Hr; [tracks_weigh_system | tracks_weigh].
Qed.
Lemma increase_to_be_issued_tracks self t r v' r' :
  keyed r → current self r → RichVault.increase_to_be_issued self t r = Ok (v', r') →
  tracks (w_to_be_issued w (pair_of self) * Amount.amount t) self v' r r'.
Proof.
  intros Hk Hc Hr. unfold RichVault.increase_to_be_issued in Hr. tracks_op Hr. tracks_weigh.
Qed.
Lemma decrease_to_be_issued_tracks self t r v' r' :
  keyed r → current self r → RichVault.decrease_to_be_issued self t r = Ok (v', r') →
  tracks (- (w_to_be_issued w (pair_of self) * Amount.amount t)) self v' r r'.
Proof.
  intros Hk Hc Hr. unfold RichVault.decrease_to_be_issued, RichSystemVault.decrease_to_be_issued in Hr.
  tracks_op Hr; [tracks_weigh_system | tracks_weigh].
Qed.
Lemma increase_to_be_redeemed_tracks self t r v' r' :
  keyed r → current self r → RichVault.increase_to_be_redeemed self t r = Ok (v', r') →
  tracks (w_to_be_redeemed w (id self) * Amount.amount t) self v' r r'.
Proof.
  intros Hk Hc Hr. unfold RichVault.increase_to_be_redeemed in Hr. tracks_op Hr. tracks_weigh.
Qed.
Lemma decrease_to_be_redeemed_tracks self t r v' r' :
  keyed r → current self r → RichVault.decrease_to_be_redeemed self t r = Ok (v', r') →
  tracks (- (w_to_be_redeemed w (id self) * Amount.amount t)) self v' r r'.
Proof.
  intros Hk Hc Hr. unfold RichVault.decrease_to_be_redeemed in Hr.
  apply M_bind_Ok in Hr as ([] & r1 & Hsys & Hr).
  assert (tracks 0 self self r r1) as Ht.
  { destruct (is_liquidated self) eqn:Hliq; outcome_inv; [| by apply tracks_keeps].
    unfold RichSystemVault.decrease_to_be_redeemed in *. outcome_inv.
    match goal with Hs : RichSystemVault.update _ _ _ = Ok _ |- _ => apply system_update_Ok in Hs as [-> ->] end.
    eapply tracks_eq; [apply tracks_system; [done | done | by apply get_liquidation_vault_pair] |].
    unfold system_weight, get_rich_liquidation_vault, pair_of. cbn.
    rewrite !get_liquidation_vault_pair by done. lia. }
  eapply tracks_trans; [exact Ht | | by rewrite Z.add_0_l].
  destruct Ht as [Hk1 Hc1 _ _ _ _]. clear Hsys. tracks_op Hr. tracks_weigh.
Qed.

Lemma execute_issue_tokens_tracks self t r v' r' :
  keyed r → current self r → RichVault.execute_issue_tokens self t r = Ok (v', r') →
  tracks ((w_issued w (pair_of self) - w_to_be_issued w (pair_of self)) * Amount.amount t) self v' r r'.
Proof.
  intros Hk Hc Hr. unfold RichVault.execute_issue_tokens in Hr. outcome_inv.
  match goal with Hd : RichVault.decrease_to_be_issued _ _ _ = Ok _ |- _ =>
    apply decrease_to_be_issued_tracks in Hd as Ht; [| done..] end.
  pose proof Ht as [Hk1 Hc1 Hi _ _ _]. apply increase_issued_tracks in Hr; [| done..].
  eapply tracks_trans; [done.. |]. unfold pair_of. rewrite Hi. lia.
Qed.
Lemma execute_redeem_tokens_tracks self t r v' r' :
  keyed r → current self r → RichVault.execute_redeem_tokens self t r = Ok (v', r') →
  tracks (- ((w_issued w (pair_of self) + w_to_be_redeemed w (id self)) * Amount.amount t)) self v' r r'.
Proof.
  intros Hk Hc Hr. unfold RichVault.execute_redeem_tokens in Hr. outcome_inv.
  match goal with Hd : RichVault.decrease_to_be_redeemed _ _ _ = Ok _ |- _ =>
    apply decrease_to_be_redeemed_tracks in Hd as Ht; [| done..] end.
  pose proof Ht as [Hk1 Hc1 Hi _ _ _]. apply decrease_issued_tracks in Hr; [| done..].
  eapply tracks_trans; [done.. |]. unfold pair_of. rewrite Hi. lia.
Qed.

(** A change of the other fields. *)
Definition same_tokens (v v' : Vault) : Prop :=
  id v' = id v ∧ is_liquidated v' = is_liquidated v ∧ issued_tokens v' = issued_tokens v ∧
  to_be_issued_tokens v' = to_be_issued_tokens v ∧ to_be_redeemed_tokens v' = to_be_redeemed_tokens v.

Lemma update_tracks f self r v' r' :
  (∀ v', f self = Ok v' → same_tokens self v') →
  keyed r → current self r → RichVault.update f self r = Ok (v', r') → tracks 0 self v' r r'.
Proof.
  intros Hf Hk Hc [Hv ->]%update_Ok. destruct (Hf _ Hv) as (Hi & Hl & H1 & H2 & H3).
  eapply tracks_eq; [by apply tracks_put |]. unfold vault_weight, pair_of. rewrite Hi, H1, H2, H3. lia.
Qed.
Lemma set_tracks f self r v' r' :
  same_tokens self (f self) →
  keyed r → current self r → RichVault.set f self r = Ok (v', r') → tracks 0 self v' r r'.
Proof. intros Hf. apply update_tracks. by intros v'' [= <-]. Qed.
Lemma checked_set_tracks put new_value e self r v' r' :
  (∀ f v, same_tokens v (put f v)) →
  keyed r → current self r → RichVault.checked_set put new_value e self r = Ok (v', r') →
  tracks 0 self v' r r'.
Proof. intros Hp. apply update_tracks. intros v'' Hv. outcome_inv. apply Hp. Qed.

Lemma available_collateral_tracks (up : bool) self t r v' r' :
  keyed r → current self r →
  (if up then RichVault.increase_available_replace_collateral self t
   else RichVault.decrease_available_replace_collateral self t) r = Ok (v', r') →
  tracks 0 self v' r r'.
Proof. destruct up; apply checked_set_tracks; done. Qed.
Lemma active_collateral_tracks (up : bool) self t r v' r' :
  keyed r → current self r →
  (if up then RichVault.increase_active_replace_collateral self t
   else RichVault.decrease_active_replace_collateral self t) r = Ok (v', r') →
  tracks 0 self v' r r'.
Proof. destruct up; apply checked_set_tracks; done. Qed.
Lemma liquidated_collateral_tracks (up : bool) self t r v' r' :
  keyed r → current self r →
  (if up then RichVault.increase_liquidated_collateral self t
   else RichVault.decrease_liquidated_collateral self t) r = Ok (v', r') →
  tracks 0 self v' r r'.
Proof. destruct up; apply checked_set_tracks; done. Qed.
Lemma to_be_replaced_tracks self t r v' r' :
  keyed r → current self r → RichVault.set_to_be_replaced_amount self t r = Ok (v', r') →
  tracks 0 self v' r r'.
Proof. by apply set_tracks. Qed.

(** ** Computations *)

(** The total changes by [δ], the requests do not. *)
Record shifted (δ : Z) (r r' : Runtime) : Prop := {
  shifted_keyed : keyed r';
  shifted_requests : requests r' = requests r;
  shifted_total : total r' = total r + δ;
}.
(** [m] shifts a keyed state. *)
Definition moves {A} (δ : Z) (m : B A) : Prop := ∀ r a r',
  keyed r → m r = Ok (a, r') → shifted δ r r'.

Lemma shifted_trans δ1 δ2 δ r1 r2 r3 :
  shifted δ1 r1 r2 → shifted δ2 r2 r3 → δ = δ1 + δ2 → shifted δ r1 r3.
Proof. intros [_ R1 T1] [K2 R2 T2] ->. split; [done | congruence | lia]. Qed.
Lemma shifted_refl r : keyed r → shifted 0 r r.
Proof. intros Hk. split; [done.. | lia]. Qed.
Lemma shifted_watched r r' : keyed r → watched r' = watched r → shifted 0 r r'.
Proof.
  intros Hk Hw. split; [by eapply watched_keyed | | rewrite (watched_total _ _ Hw); lia].
  unfold watched in Hw. injection Hw as _ _ ? ? ? _. unfold requests. congruence.
Qed.
Lemma shifted_weight δ r r' :
  keyed r' → (requests r', supply r') = (requests r, supply r) → weight r' = weight r + δ → shifted δ r r'.
Proof.
  intros Hk Hr Hw. injection Hr as Hi Hre Hp Hs. split; [done | unfold requests; congruence |].
  unfold total, pending. rewrite Hw, Hi, Hre, Hp, Hs. lia.
Qed.
Lemma tracks_shifted δ v v' r r' : tracks δ v v' r r' → shifted δ r r'.
Proof. intros []. by apply shifted_weight. Qed.
Lemma moves_eq {A} δ δ' (m : B A) : moves δ m → δ' = δ → moves δ' m.
Proof. by intros ? ->. Qed.
Lemma moves_keeps {A} (m : B A) : keeps watched m → moves 0 m.
Proof.
  intros Hm r a r' Hk Hr. apply Hm in Hr. by apply shifted_watched.
Qed.
Lemma moves_bind {A C} δ1 δ2 (m : B A) (k : A → B C) :
  moves δ1 m → (∀ a, moves δ2 (k a)) → moves (δ1 + δ2) (m ≫= k).
Proof.
  intros Hm Hk r a r' Hr Hx. apply M_bind_Ok in Hx as (x & r1 & Hx & Hy).
  apply Hm in Hx; [| done]. apply Hk in Hy; [| by destruct Hx]. by eapply shifted_trans.
Qed.
Lemma moves_bind_l {A C} δ (m : B A) (k : A → B C) :
  moves 0 m → (∀ a, moves δ (k a)) → moves δ (m ≫= k).
Proof. intros Hm Hk. eapply moves_eq; [by apply moves_bind | lia]. Qed.
Lemma moves_bind_r {A C} δ (m : B A) (k : A → B C) :
  moves δ m → (∀ a, moves 0 (k a)) → moves δ (m ≫= k).
Proof. intros Hm Hk. eapply moves_eq; [by apply moves_bind | lia]. Qed.
Lemma moves_attempt m : moves 0 m → moves 0 (attempt m).
Proof.
  intros Hm r a r' Hk Hr. apply attempt_Ok in Hr as [[-> Hr] | (-> & -> & _)].
  - by apply Hm in Hr.
  - by apply shifted_refl.
Qed.
End tokens.
