(* ===== verification/TokenMoves.v ===== *)
(** * Which operations move tokens, and by how much

    Conversions, rewards and collateral leave what [total] is computed from
    alone, or rewrite a vault without changing its tokens; the operations of the
    vault registry on tokens move it by a multiple of their amount. *)

From coqutil Require Import Byte.
From Stdlib Require Import ZArith Lia.
From stdpp Require Import base tactics option list numbers gmap.
From S2P Require Import Prelude Bytes BtcTypes BtcBuild Security Primitives FixedPoint Reward Staking Tokens Amount BridgeStores Bridge Oracle Fee Registry Collateral Nomination VaultRegistry TokenWeight.

Local Open Scope Z_scope.

Section moves.
Context `{LoansApi} (w : weights).
Import RegistryStore Vaults.

Abbreviation watched := (watched w).
Abbreviation moves := (moves w).
Abbreviation tracks := (tracks w).

(** ** Computations that leave everything watched alone *)

Lemma keeps_watched_tokens {A} (m : M ledger BError A) :
  (∀ l a l', m l = Ok (a, l') → total_issuance (w_currency w) l' = total_issuance (w_currency w) l) →
  keeps watched (on_tokens m).
Proof.
  intros Hm r a r' Hr. apply on_tokens_Ok in Hr as (l & Hl & ->). apply Hm in Hl.
  unfold TokenWeight.watched, supply. cbn. by rewrite Hl.
Qed.
Lemma transfer_watched a x y : keeps watched (on_tokens (Amount.transfer a x y)).
Proof. apply keeps_watched_tokens. intros l [] l' [_ _ Hi]%Amount.transfer_Ok. rewrite Hi. lia. Qed.
Lemma lock_on_watched a x : keeps watched (on_tokens (Amount.lock_on a x)).
Proof. apply keeps_watched_tokens. intros l [] l' [_ _ Hi]%Amount.lock_on_Ok. rewrite Hi. lia. Qed.
Lemma unlock_on_watched a x : keeps watched (on_tokens (Amount.unlock_on a x)).
Proof. apply keeps_watched_tokens. intros l [] l' [_ _ Hi]%Amount.unlock_on_Ok. rewrite Hi. lia. Qed.

Lemma convert_to_watched a c : keeps watched (CurrencyConvert.convert_to a c).
Proof.
  intros r b r' Hr. apply CurrencyConvert.convert_to_frame in Hr. unfold beyond_loans in Hr.
  unfold TokenWeight.watched, supply, registry_maps, requests. by injection Hr as -> _ _ _ _ _ -> _ -> -> ->.
Qed.

Lemma distribute_watched a : keeps watched (Fee.distribute a).
Proof.
  intros r b r' Hr. unfold Fee.distribute in Hr.
  destruct (RewardsApi.try_distribute_reward _ _ _ _ _) as [? ?]. by injection Hr as _ <-.
Qed.
End moves.

#[export] Hint Resolve transfer_watched lock_on_watched unlock_on_watched convert_to_watched
  distribute_watched : keeps.

Section moves.
Context `{LoansApi} (w : weights).
Import RegistryStore Vaults.

Abbreviation watched := (watched w).
Abbreviation moves := (moves w).
Abbreviation tracks := (tracks w).

Lemma distribute_rewards_watched a : keeps watched (Fee.distribute_rewards a).
Proof. unfold Fee.distribute_rewards, Fee.on_sweep. keeps. Qed.
Lemma distribute_vault_rewards_watched vid c : keeps watched (Fee.distribute_vault_rewards vid c).
Proof. unfold Fee.distribute_vault_rewards. keeps. Qed.
Lemma distribute_all_watched vid : keeps watched (Fee.distribute_all_vault_rewards vid).
Proof. unfold Fee.distribute_all_vault_rewards. keeps. apply distribute_vault_rewards_watched. Qed.
Lemma withdraw_vault_rewards_watched vid x i c : keeps watched (Fee.withdraw_vault_rewards vid x i c).
Proof. unfold Fee.withdraw_vault_rewards. keeps. apply distribute_vault_rewards_watched. Qed.
End moves.

#[export] Hint Resolve distribute_rewards_watched distribute_vault_rewards_watched distribute_all_watched
  withdraw_vault_rewards_watched : keeps.

(** ** Collateral *)
Section collateral.
Context `{LoansApi} (w : weights).
Import RegistryStore Vaults Collateral.Collateral.

Abbreviation watched := (watched w).

Lemma try_increase_total_watched p a : keeps watched (try_increase_total_backing_collateral p a).
Proof. unfold try_increase_total_backing_collateral, deposit_event, update_storage. keeps. Qed.
Lemma decrease_total_watched p a : keeps watched (decrease_total_backing_collateral p a).
Proof. unfold decrease_total_backing_collateral, deposit_event, update_storage. keeps. Qed.
Lemma below_threshold_watched a b t : keeps watched (is_collateral_below_threshold a b t).
Proof. unfold is_collateral_below_threshold, calculate_max_wrapped_from_collateral_for_threshold. keeps. Qed.
Lemma used_collateral_watched v t : keeps watched (get_used_collateral v t).
Proof. unfold get_used_collateral. keeps. Qed.
End collateral.
#[export] Hint Resolve try_increase_total_watched decrease_total_watched below_threshold_watched
  used_collateral_watched : keeps.

Section pool.
Context `{LoansApi} (w : weights).
Import RegistryStore Vaults Collateral.Collateral.

Abbreviation watched := (watched w).

Lemma issuable_tokens_watched v : keeps watched (issuable_tokens v).
Proof. unfold issuable_tokens, get_free_collateral, calculate_max_wrapped_from_collateral_for_threshold. keeps. Qed.
Lemma max_premium_watched vid : keeps watched (get_vault_max_premium_redeem vid).
Proof.
  unfold get_vault_max_premium_redeem, get_required_collateral_for_wrapped,
    get_required_collateral_for_wrapped_with_threshold. keeps.
Qed.
Lemma allowed_to_withdraw_watched vid a : keeps watched (is_allowed_to_withdraw_collateral vid a).
Proof.
  unfold is_allowed_to_withdraw_collateral, is_collateral_below_vault_secure_threshold. keeps.
Qed.
Lemma below_secure_watched vid : keeps watched (is_vault_below_secure_threshold vid).
Proof. unfold is_vault_below_secure_threshold, is_vault_below_certain_threshold. keeps. Qed.
Lemma below_liquidation_watched v t : keeps watched (is_vault_below_liquidation_threshold v t).
Proof. unfold is_vault_below_liquidation_threshold. keeps. Qed.

Lemma update_reward_stake_watched vid : keeps watched (PoolManager.update_reward_stake vid).
Proof. unfold PoolManager.update_reward_stake, PoolManager.update_capacity_stake. keeps. Qed.
End pool.
#[export] Hint Resolve issuable_tokens_watched max_premium_watched allowed_to_withdraw_watched
  below_secure_watched below_liquidation_watched update_reward_stake_watched : keeps.

Section pool_manager.
Context `{LoansApi} (w : weights).
Import RegistryStore Vaults Collateral.Collateral.

Abbreviation watched := (watched w).

Lemma pool_deposit_watched vid x a : keeps watched (PoolManager.deposit_collateral vid x a).
Proof. unfold PoolManager.deposit_collateral. keeps. Qed.
Lemma pool_withdraw_watched vid x a i : keeps watched (PoolManager.withdraw_collateral vid x a i).
Proof. unfold PoolManager.withdraw_collateral, PoolManager.withdraw_stake. keeps. Qed.
Lemma pool_slash_watched vid a : keeps watched (PoolManager.slash_collateral vid a).
Proof. unfold PoolManager.slash_collateral. keeps. Qed.
Lemma kick_nominators_watched vid : keeps watched (PoolManager.kick_nominators vid).
Proof. unfold PoolManager.kick_nominators. keeps. Qed.
Lemma settings_change_watched vid : keeps watched (PoolManager.on_vault_settings_change vid).
Proof. unfold PoolManager.on_vault_settings_change. keeps. Qed.
Lemma rate_change_watched c : keeps watched (PoolManager.on_exchange_rate_change c).
Proof.
  assert (keeps watched (total_reward_stake ← query (PoolManager.total_reward_stake c);
            CurrencyConvert.convert_to total_reward_stake GetWrappedCurrencyId)) as Hk by keeps.
  intros r [] r' Hr. unfold PoolManager.on_exchange_rate_change in Hr.
  match type of Hr with match ?m with _ => _ end = _ => destruct m as [[stake r1] | | |] eqn:Hs end;
    [| | done..]; injection Hr as <-; [| done].
  change (watched r1 = watched r). exact (Hk _ _ _ Hs).
Qed.
End pool_manager.
#[export] Hint Resolve pool_deposit_watched pool_withdraw_watched pool_slash_watched
  kick_nominators_watched settings_change_watched rate_change_watched : keeps.

(** ** Nomination, fees and the oracle *)
Section nomination.
Context `{LoansApi} (w : weights).
Import Nomination.Nomination.

Abbreviation watched := (watched w).

Lemma nomination_deposit_watched vid x v : keeps watched (_deposit_collateral vid x v).
Proof. unfold _deposit_collateral, ensure_nominatable, deposit_event, update. keeps. Qed.
Lemma nomination_withdraw_watched vid x v i : keeps watched (_withdraw_collateral vid x v i).
Proof. unfold _withdraw_collateral, ensure_nominatable, deposit_event, update. keeps. Qed.
Lemma opt_in_watched vid : keeps watched (_opt_in_to_nomination vid).
Proof. unfold _opt_in_to_nomination, deposit_event, update. keeps. Qed.
Lemma opt_out_watched vid : keeps watched (_opt_out_of_nomination vid).
Proof. unfold _opt_out_of_nomination, deposit_event, update. keeps. Qed.
Lemma deposit_vault_collateral_watched vid a : keeps watched (deposit_vault_collateral vid a).
Proof. apply nomination_deposit_watched. Qed.
Lemma signed_vault_id_watched o p : keeps watched (signed_vault_id o p).
Proof. unfold signed_vault_id. keeps. Qed.
End nomination.
#[export] Hint Resolve nomination_deposit_watched nomination_withdraw_watched opt_in_watched
  opt_out_watched deposit_vault_collateral_watched signed_vault_id_watched : keeps.

(** ** Copies of a vault *)
Section copies.
Context `{LoansApi} (w : weights).
Import RegistryStore Vaults.

Abbreviation watched := (watched w).
Abbreviation moves := (moves w).

(** An operation of the copy [self]. *)
Definition tracked (δ : Z) (self : Vault) (m : B Vault) : Prop := ∀ r v' r',
  keyed r → current self r → m r = Ok (v', r') → tracks w δ self v' r r'.
(** A computation that uses the copy [self]. *)
Definition moves_from {A} (δ : Z) (self : Vault) (m : B A) : Prop := ∀ r a r',
  keyed r → current self r → m r = Ok (a, r') → shifted w δ r r'.

Lemma moves_read {A} δ vid (k : Vault → B A) :
  (∀ v, id v = vid → moves_from δ v (k v)) → moves δ (v ← query (get_rich_vault_from_id vid); k v).
Proof.
  intros Hk r a r' Hr Hx. apply M_bind_Ok in Hx as (v & r1 & Hv & Hx).
  apply query_Ok in Hv as [Hv%ok_or_Ok ->]. assert (id v = vid) as Hi by by apply Hr.
  eapply (Hk v Hi); [done | | exact Hx]. unfold current. by rewrite Hi.
Qed.
Lemma active_vault_Ok vid r v :
  get_active_rich_vault_from_id vid r = Ok v ↔
  RegistryStore.Vaults (rt_registry r) !! vid = Some v ∧ is_liquidated v = false.
Proof.
  unfold get_active_rich_vault_from_id, get_active_vault_from_id. rewrite bind_Ok.
  setoid_rewrite ok_or_Ok. unfold is_liquidated. split.
  - intros (v' & Hv & Hm). destruct (status v') eqn:Hs; [| done]. injection Hm as ->. by rewrite Hs.
  - intros [Hv Hs]. exists v. split; [done |]. by destruct (status v).
Qed.
Lemma moves_read_active {A} δ vid (k : Vault → B A) :
  (∀ v, id v = vid → moves_from δ v (k v)) → moves δ (v ← query (get_active_rich_vault_from_id vid); k v).
Proof.
  intros Hk r a r' Hr Hx. apply M_bind_Ok in Hx as (v & r1 & Hv & Hx).
  apply query_Ok in Hv as [[Hv _]%active_vault_Ok ->]. assert (id v = vid) as Hi by by apply Hr.
  eapply (Hk v Hi); [done | | exact Hx]. unfold current. by rewrite Hi.
Qed.
Lemma moves_from_op {A} δ1 δ2 self (m : B Vault) (k : Vault → B A) :
  tracked δ1 self m → (∀ v, id v = id self → moves_from δ2 v (k v)) → moves_from (δ1 + δ2) self (m ≫= k).
Proof.
  intros Hm Hk r a r' Hr Hc Hx. apply M_bind_Ok in Hx as (v & r1 & Hv & Hx).
  apply Hm in Hv as Ht; [| done..]. apply (Hk v) in Hx; [| by destruct Ht..].
  by eapply shifted_trans; [eapply tracks_shifted | |].
Qed.
Lemma moves_from_last {A} δ self (m : B Vault) (k : Vault → B A) :
  tracked δ self m → (∀ v, moves 0 (k v)) → moves_from δ self (m ≫= k).
Proof.
  intros Hm Hk r a r' Hr Hc Hx. apply M_bind_Ok in Hx as (v & r1 & Hv & Hx).
  apply Hm in Hv as Ht; [| done..]. apply Hk in Hx; [| by destruct Ht].
  eapply shifted_trans; [by eapply tracks_shifted | done | lia].
Qed.
Lemma moves_from_keeps {A C} δ self (m : B A) (k : A → B C) :
  keeps watched m → (∀ a, moves_from δ self (k a)) → moves_from δ self (m ≫= k).
Proof.
  intros Hm Hk r a r' Hr Hc Hx. apply M_bind_Ok in Hx as (x & r1 & Hv & Hx).
  apply Hm in Hv as Hw. pose proof (tracks_keeps w self r r1 Hr Hc Hw) as Ht.
  apply Hk in Hx; [| by destruct Ht..]. eapply shifted_trans; [by eapply tracks_shifted | done | lia].
Qed.
Lemma moves_from_moves {A} δ self (m : B A) : moves δ m → moves_from δ self m.
Proof. intros Hm r a r' Hr _. by apply Hm. Qed.
End copies.

Create HintDb moves.
#[export] Hint Extern 1 (tracked _ _ _ (RichVault.increase_available_replace_collateral _ _)) =>
  exact (λ r v' r', available_collateral_tracks _ true _ _ r v' r') : moves.
#[export] Hint Extern 1 (tracked _ _ _ (RichVault.decrease_available_replace_collateral _ _)) =>
  exact (λ r v' r', available_collateral_tracks _ false _ _ r v' r') : moves.
#[export] Hint Extern 1 (tracked _ _ _ (RichVault.increase_active_replace_collateral _ _)) =>
  exact (λ r v' r', active_collateral_tracks _ true _ _ r v' r') : moves.
#[export] Hint Extern 1 (tracked _ _ _ (RichVault.decrease_active_replace_collateral _ _)) =>
  exact (λ r v' r', active_collateral_tracks _ false _ _ r v' r') : moves.
#[export] Hint Extern 1 (tracked _ _ _ (RichVault.increase_liquidated_collateral _ _)) =>
  exact (λ r v' r', liquidated_collateral_tracks _ true _ _ r v' r') : moves.
#[export] Hint Extern 1 (tracked _ _ _ (RichVault.decrease_liquidated_collateral _ _)) =>
  exact (λ r v' r', liquidated_collateral_tracks _ false _ _ r v' r') : moves.
#[export] Hint Extern 1 (tracked _ _ _ (RichVault.set_to_be_replaced_amount _ _)) =>
  exact (λ r v' r', to_be_replaced_tracks _ _ _ r v' r') : moves.
#[export] Hint Extern 1 (tracked _ _ _ (RichVault.set _ _)) =>
  (intros ? ? ?; apply set_tracks; split_and!; reflexivity) : moves.
#[export] Hint Extern 1 (tracked _ _ _ (RichVault.request_issue_tokens _ _)) =>
  exact (λ r v' r', increase_to_be_issued_tracks _ _ _ r v' r') : moves.
#[export] Hint Extern 1 (tracked _ _ _ (RichVault.cancel_issue_tokens _ _)) =>
  exact (λ r v' r', decrease_to_be_issued_tracks _ _ _ r v' r') : moves.
#[export] Hint Extern 1 (tracked _ _ _ (RichVault.execute_issue_tokens _ _)) =>
  exact (λ r v' r', execute_issue_tokens_tracks _ _ _ r v' r') : moves.
#[export] Hint Extern 1 (tracked _ _ _ (RichVault.request_redeem_tokens _ _)) =>
  exact (λ r v' r', increase_to_be_redeemed_tracks _ _ _ r v' r') : moves.
#[export] Hint Extern 1 (tracked _ _ _ (RichVault.cancel_redeem_tokens _ _)) =>
  exact (λ r v' r', decrease_to_be_redeemed_tracks _ _ _ r v' r') : moves.
#[export] Hint Extern 1 (tracked _ _ _ (RichVault.execute_redeem_tokens _ _)) =>
  exact (λ r v' r', execute_redeem_tokens_tracks _ _ _ r v' r') : moves.

(** Steps through a computation whose reads are followed by writes of the copy. *)
Ltac moves_step :=
  match goal with
  | |- moves _ _ _ => solve [auto 1 with moves nocore]
  | |- moves _ 0 _ => solve [apply moves_keeps; keeps]
  | |- moves _ _ (query (Vaults.get_rich_vault_from_id _) ≫= _) => apply moves_read; intros
  | |- moves _ _ (query (Vaults.get_active_rich_vault_from_id _) ≫= _) => apply moves_read_active; intros
  | |- moves _ _ (_ ≫= _) => apply moves_bind_l; [solve [apply moves_keeps; keeps] | intros]
  | |- moves _ _ (_ ≫= _) => apply moves_bind_r; [| intros; solve [apply moves_keeps; keeps]]
  | |- moves _ 0 (_ ≫= _) => apply moves_bind_l; [| intros]
  | |- moves_from _ _ _ (_ ≫= _) => apply moves_from_keeps; [solve [keeps] | intros]
  | |- moves_from _ _ _ (_ ≫= _) =>
      eapply moves_from_last; [solve [eauto 1 with moves nocore] | intros; solve [apply moves_keeps; keeps]]
  | |- moves_from _ _ _ _ => apply moves_from_moves
  | |- moves _ _ (match ?x with _ => _ end) => destruct x
  | |- moves _ 0 (attempt _) => apply moves_attempt
  end.
Ltac moves := intros; repeat moves_step.
