(* ===== verification/TokenLaws.v ===== *)
(** * The operations of the vault registry on tokens

    For every operation of the vault registry: by how much it moves [total].
    Moving collateral does not; the operations on tokens do by a multiple of
    their amount, in liquidation as outside it.  The second part has the
    operations that touch two vaults, or a vault and its liquidation vault:
    liquidating a vault hands its tokens to the liquidation vault of its
    currency pair, and no token is lost or gained. *)

From coqutil Require Import Byte.
From Stdlib Require Import ZArith Lia.
From stdpp Require Import base tactics option list numbers gmap.
From S2P Require Import Prelude Bytes BtcTypes BtcBuild Security Primitives FixedPoint Reward Staking Tokens Amount BridgeStores Bridge Oracle Fee Registry Collateral Nomination VaultRegistry TokenWeight TokenMoves.

Local Open Scope Z_scope.

(** ** Collateral *)
Section funds.
Context `{LoansApi} (w : weights).
Import RegistryStore Vaults VaultRegistry.VaultRegistry.

Abbreviation watched := (watched w).
Abbreviation moves := (moves w).
Abbreviation tracks := (tracks w).

(** The liquidation vault's collateral is no token. *)
Lemma system_collateral_moves (up : bool) p t r s' r' :
  keyed r →
  (if up then RichSystemVault.increase_collateral (get_rich_liquidation_vault p r) t
   else RichSystemVault.decrease_collateral (get_rich_liquidation_vault p r) t) r = Ok (s', r') →
  shifted w 0 r r'.
Proof.
  intros Hk Hr. destruct up;
    unfold RichSystemVault.increase_collateral, RichSystemVault.decrease_collateral in Hr; outcome_inv;
    match goal with Hs : RichSystemVault.update _ _ _ = Ok _ |- _ => apply system_update_Ok in Hs as [-> ->] end;
    (apply shifted_weight; [by apply system_put_keyed | done |]);
    rewrite system_put_weight; cbn [sys_currency_pair set_sys_collateral];
    unfold get_rich_liquidation_vault; rewrite get_liquidation_vault_pair by done;
    unfold system_weight; cbn; lia.
Qed.

Lemma moves_system_collateral {A} (up : bool) p t (k : B A) :
  moves 0 k →
  moves 0 (s ← gets (get_rich_liquidation_vault p);
    (if up then RichSystemVault.increase_collateral s t else RichSystemVault.decrease_collateral s t);; k).
Proof.
  intros Hm r x r' Hk Hr. apply M_bind_Ok in Hr as (s & r1 & Hs & Hr). apply gets_Ok in Hs as [-> ->].
  apply M_bind_Ok in Hr as (s' & r1 & Hs & Hr). apply system_collateral_moves in Hs; [| done].
  apply Hm in Hr; [| by destruct Hs]. by eapply shifted_trans.
Qed.

Lemma slash_backing_watched vid a : keeps watched (slash_backing_collateral vid a).
Proof. unfold slash_backing_collateral. keeps. Qed.
Lemma force_withdraw_watched vid a : keeps watched (force_withdraw_collateral vid a).
Proof. unfold force_withdraw_collateral. keeps. Qed.
Lemma try_deposit_watched vid a : keeps watched (try_deposit_collateral vid a).
Proof. apply deposit_vault_collateral_watched. Qed.

Lemma take_funds_moves from a : moves 0 (take_funds from a).
Proof.
  destruct from; unfold take_funds, ensure_currency.
  7: { apply (moves_system_collateral false). apply moves_keeps. keeps. }
  all: moves; apply moves_keeps; keeps; apply slash_backing_watched.
Qed.
Lemma hold_funds_moves to a : moves 0 (hold_funds to a).
Proof.
  destruct to; unfold hold_funds, ensure_currency.
  7: { apply moves_bind_l; [apply moves_keeps; keeps |]. intros _.
       apply (moves_system_collateral true). apply moves_keeps. keeps. }
  all: moves; apply moves_keeps; keeps; apply try_deposit_watched.
Qed.
End funds.
#[export] Hint Resolve slash_backing_watched force_withdraw_watched try_deposit_watched : keeps.
#[export] Hint Resolve take_funds_moves hold_funds_moves : moves.

Section tokens.
Context `{LoansApi} (w : weights).
Import RegistryStore Vaults VaultRegistry.VaultRegistry.

Abbreviation watched := (watched w).
Abbreviation moves := (moves w).
Abbreviation α := (w_issued w).
Abbreviation β := (w_to_be_issued w).
Abbreviation γ := (w_to_be_redeemed w).

Lemma registry_event_watched e : keeps watched (Vaults.deposit_event e).
Proof. unfold Vaults.deposit_event, update_storage. keeps. Qed.
Hint Resolve registry_event_watched : keeps.

Lemma transfer_funds_moves from to a : moves 0 (transfer_funds from to a).
Proof. unfold transfer_funds. moves. Qed.
Hint Resolve transfer_funds_moves : moves.
Lemma transfer_funds_saturated_moves from to a : moves 0 (transfer_funds_saturated from to a).
Proof. unfold transfer_funds_saturated. moves. Qed.

(** ** Issue *)
Lemma try_increase_to_be_issued_moves vid t :
  moves (β (currencies vid) * Amount.amount t) (try_increase_to_be_issued_tokens vid t).
Proof.
  unfold try_increase_to_be_issued_tokens. apply moves_read_active. intros v <-. moves.
Qed.
Lemma decrease_to_be_issued_moves vid t :
  moves (- (β (currencies vid) * Amount.amount t)) (decrease_to_be_issued_tokens vid t).
Proof. unfold decrease_to_be_issued_tokens. apply moves_read. intros v <-. moves. Qed.
Lemma issue_tokens_moves vid t :
  moves ((α (currencies vid) - β (currencies vid)) * Amount.amount t) (issue_tokens vid t).
Proof. unfold issue_tokens. apply moves_read. intros v <-. moves. Qed.
Lemma register_deposit_address_watched vid k : keeps watched (register_deposit_address vid k).
Proof. unfold register_deposit_address. keeps. Qed.
Lemma get_issuable_watched vid : keeps watched (get_issuable_tokens_from_vault vid).
Proof. unfold get_issuable_tokens_from_vault. keeps. Qed.

(** ** Redeem *)
Lemma try_increase_to_be_redeemed_moves vid t :
  moves (γ vid * Amount.amount t) (try_increase_to_be_redeemed_tokens vid t).
Proof. unfold try_increase_to_be_redeemed_tokens. apply moves_read_active. intros v <-. moves. Qed.
Lemma decrease_to_be_redeemed_moves vid t :
  moves (- (γ vid * Amount.amount t)) (decrease_to_be_redeemed_tokens vid t).
Proof. unfold decrease_to_be_redeemed_tokens. apply moves_read. intros v <-. moves. Qed.
Lemma decrease_tokens_moves vid x t :
  moves (- ((α (currencies vid) + γ vid) * Amount.amount t)) (decrease_tokens vid x t).
Proof. unfold decrease_tokens. apply moves_read. intros v <-. moves. Qed.
Lemma decrease_liquidated_moves vid t : moves 0 (decrease_liquidated_collateral vid t).
Proof. unfold decrease_liquidated_collateral. moves. Qed.
End tokens.
#[export] Hint Resolve registry_event_watched register_deposit_address_watched get_issuable_watched : keeps.
#[export] Hint Resolve transfer_funds_moves transfer_funds_saturated_moves try_increase_to_be_issued_moves
  decrease_to_be_issued_moves issue_tokens_moves try_increase_to_be_redeemed_moves
  decrease_to_be_redeemed_moves decrease_tokens_moves decrease_liquidated_moves : moves.

(** ** Redeem and replace *)
Section redeem.
Context `{LoansApi} (w : weights).
Import RegistryStore Vaults VaultRegistry.VaultRegistry.

Abbreviation watched := (watched w).
Abbreviation moves := (moves w).
Abbreviation α := (w_issued w).
Abbreviation β := (w_to_be_issued w).
Abbreviation γ := (w_to_be_redeemed w).

Lemma redeem_tokens_moves vid t premium x :
  moves (- ((α (currencies vid) + γ vid) * Amount.amount t)) (redeem_tokens vid t premium x).
Proof.
  unfold redeem_tokens. apply moves_read. intros v <-. rewrite <- (Z.add_0_r (- _)).
  apply moves_from_op; [auto 1 with moves nocore |]. intros v' Hi. destruct (negb _).
  - apply moves_from_moves. moves.
  - moves.
Qed.

Lemma burn_issued_moves p t r s' r' :
  keyed r → RichSystemVault.burn_issued (get_rich_liquidation_vault p r) t r = Ok (s', r') →
  shifted w (- (α p * Amount.amount t)) r r'.
Proof.
  intros Hk Hr. unfold RichSystemVault.burn_issued, RichSystemVault.decrease_issued in Hr. outcome_inv.
  match goal with Hs : RichSystemVault.update _ _ _ = Ok _ |- _ => apply system_update_Ok in Hs as [-> ->] end.
  apply shifted_weight; [by apply system_put_keyed | done |].
  match goal with Hs : Amount.checked_sub _ _ = Ok _ |- _ => apply Amount.checked_sub_Ok in Hs as (_ & _ & Ht & _) end.
  rewrite system_put_weight; cbn [sys_currency_pair set_sys_issued_tokens].
  unfold get_rich_liquidation_vault in *; rewrite get_liquidation_vault_pair by done.
  unfold system_weight; cbn in *. rewrite Ht, get_liquidation_vault_pair by done. lia.
Qed.

Lemma moves_burn_issued {A} p t (k : B A) :
  moves 0 k →
  moves (- (α p * Amount.amount t))
    (s ← gets (get_rich_liquidation_vault p); RichSystemVault.burn_issued s t;; k).
Proof.
  intros Hm r x r' Hk Hr. apply M_bind_Ok in Hr as (s & r1 & Hs & Hr). apply gets_Ok in Hs as [-> ->].
  apply M_bind_Ok in Hr as (s' & r1 & Hs & Hr). apply burn_issued_moves in Hs; [| done].
  apply Hm in Hr; [| by destruct Hs]. eapply shifted_trans; [done.. | lia].
Qed.
Lemma redeem_tokens_liquidation_moves c x t :
  moves (- (α (mkPair c (Amount.currency t)) * Amount.amount t)) (redeem_tokens_liquidation c x t).
Proof.
  unfold redeem_tokens_liquidation. do 7 (apply moves_bind_l; [solve [moves] | intros]).
  apply moves_bind_l; [solve [moves] | intros]. apply moves_burn_issued. moves.
Qed.

Lemma decrease_to_be_replaced_moves vid t : moves 0 (decrease_to_be_replaced_tokens vid t).
Proof. unfold decrease_to_be_replaced_tokens. moves. Qed.
Lemma try_increase_to_be_replaced_moves vid t : moves 0 (try_increase_to_be_replaced_tokens vid t).
Proof. unfold try_increase_to_be_replaced_tokens. moves. Qed.
Lemma withdraw_replace_request_moves vid t : moves 0 (withdraw_replace_request vid t).
Proof.
  unfold withdraw_replace_request. apply moves_bind_l; [apply decrease_to_be_replaced_moves |].
  intros [? ?]. moves.
Qed.
Lemma ban_vault_moves vid : moves 0 (ban_vault vid).
Proof.
  unfold ban_vault, RichVault.ban_until. moves.
Qed.
End redeem.
#[export] Hint Resolve redeem_tokens_moves redeem_tokens_liquidation_moves decrease_to_be_replaced_moves
  try_increase_to_be_replaced_moves withdraw_replace_request_moves ban_vault_moves : moves.

Section liquidation.
Context `{LoansApi} (w : weights).
Import RegistryStore Vaults Collateral.Collateral VaultRegistry.VaultRegistry.

Abbreviation watched := (watched w).
Abbreviation moves := (moves w).
Abbreviation tracks := (tracks w).
Abbreviation α := (w_issued w).
Abbreviation β := (w_to_be_issued w).
Abbreviation γ := (w_to_be_redeemed w).

(** A computation that does not write the vault [self] is a copy of. *)
Definition beside {A} (δ : Z) (self : Vault) (m : B A) : Prop := ∀ r a r',
  keyed r → current self r → m r = Ok (a, r') → tracks δ self self r r'.

Lemma beside_keeps {A} self (m : B A) : keeps watched m → beside 0 self m.
Proof. intros Hm r a r' Hk Hc Hr. apply tracks_keeps; [done.. | by eapply Hm]. Qed.
Lemma beside_bind {A C} δ1 δ2 self (m : B A) (k : A → B C) :
  beside δ1 self m → (∀ a, beside δ2 self (k a)) → beside (δ1 + δ2) self (m ≫= k).
Proof.
  intros Hm Hk r a r' Hr Hc Hx. apply M_bind_Ok in Hx as (x & r1 & Hx & Hy).
  apply Hm in Hx as Ht; [| done..]. destruct Ht as [Hk1 Hc1 ? ? ? ? ?] eqn:He.
  eapply tracks_trans; [exact Ht | by eapply Hk | done].
Qed.
Lemma beside_bind_l {A C} δ self (m : B A) (k : A → B C) :
  keeps watched m → (∀ a, beside δ self (k a)) → beside δ self (m ≫= k).
Proof. intros Hm Hk. rewrite <- (Z.add_0_l δ). apply beside_bind; [by apply beside_keeps | done]. Qed.
Lemma beside_moves {A C} δ1 δ2 δ self (m : B A) (k : A → B C) :
  beside δ1 self m → (∀ a, moves_from w δ2 self (k a)) → δ = δ1 + δ2 → moves_from w δ self (m ≫= k).
Proof.
  intros Hm Hk -> r a r' Hr Hc Hx. apply M_bind_Ok in Hx as (x & r1 & Hx & Hy).
  apply Hm in Hx as Ht; [| done..]. apply Hk in Hy; [| by destruct Ht..].
  by eapply shifted_trans; [eapply tracks_shifted | |].
Qed.

(** Writing a copy [s] of a liquidation vault. *)
Lemma system_put_beside self s s' r :
  keyed r → current self r → get_liquidation_vault (sys_currency_pair s) r = s →
  sys_currency_pair s' = sys_currency_pair s →
  tracks (system_weight w s' - system_weight w s) self self r (system_put s' r) ∧
  get_liquidation_vault (sys_currency_pair s') (system_put s' r) = s'.
Proof.
  intros Hk Hc Hs Hp. split; [| apply system_put_read].
  split; try done; [by apply system_put_keyed |]. by rewrite system_put_weight, Hp, Hs.
Qed.

(** The liquidation vault takes over the tokens of the vault. *)
Lemma move_to_liquidation_vault_beside self :
  beside (α (pair_of self) * issued_tokens self + β (pair_of self) * to_be_issued_tokens self) self
    (move_to_liquidation_vault self).
Proof.
  intros r [] r' Hk Hc Hr. unfold move_to_liquidation_vault, RichSystemVault.increase_issued,
    RichSystemVault.increase_to_be_issued, RichSystemVault.increase_to_be_redeemed in Hr. outcome_inv.
  repeat match goal with
  | Hs : RichSystemVault.update _ _ _ = Ok _ |- _ => apply system_update_Ok in Hs as [-> ->]
  | Hs : Amount.checked_add _ _ = Ok _ |- _ => apply Amount.checked_add_Ok in Hs as (_ & _ & ? & _)
  end.
  set (s := get_rich_liquidation_vault (currencies (id self)) r) in *.
  assert (sys_currency_pair s = pair_of self) as Hp by by apply get_liquidation_vault_pair.
  assert (get_liquidation_vault (sys_currency_pair s) r = s) as Hs by by rewrite Hp.
  match goal with |- tracks _ _ _ _ (system_put ?s3 (system_put ?s2 (system_put ?s1 _))) =>
    destruct (system_put_beside self s s1 r Hk Hc Hs eq_refl) as [T1 G1];
    destruct (system_put_beside self s1 s2 _ (tracks_keyed _ _ _ _ _ _ T1) (tracks_current _ _ _ _ _ _ T1)
                G1 eq_refl) as [T2 G2];
    destruct (system_put_beside self s2 s3 _ (tracks_keyed _ _ _ _ _ _ T2) (tracks_current _ _ _ _ _ _ T2)
                G2 eq_refl) as [T3 _]
  end.
  eapply tracks_trans; [exact T1 | eapply tracks_trans; [exact T2 | exact T3 | reflexivity] |].
  unfold system_weight. cbn in *. rewrite Hp. nia.
Qed.

Lemma system_collateral_beside {A} self p t (k : B A) :
  keeps watched k →
  beside 0 self (s ← gets (get_rich_liquidation_vault p); RichSystemVault.increase_collateral s t;; k).
Proof.
  intros Hm r a r' Hk Hc Hr. apply M_bind_Ok in Hr as (s & r1 & Hs & Hr). apply gets_Ok in Hs as [-> ->].
  apply M_bind_Ok in Hr as (s' & r1 & Hs & Hr). unfold RichSystemVault.increase_collateral in Hs. outcome_inv.
  match goal with Hs : RichSystemVault.update _ _ _ = Ok _ |- _ => apply system_update_Ok in Hs as [-> ->] end.
  set (s := get_rich_liquidation_vault p r) in *.
  assert (sys_currency_pair s = p) as Hp by by apply get_liquidation_vault_pair.
  assert (get_liquidation_vault (sys_currency_pair s) r = s) as Hg by by rewrite Hp.
  match goal with Hx : k (system_put ?s1 _) = Ok _ |- _ =>
    destruct (system_put_beside self s s1 r Hk Hc Hg eq_refl) as [T1 _];
    apply (beside_keeps self k Hm) in Hx as T2; [| by destruct T1..] end.
  eapply tracks_trans; [exact T1 | exact T2 |]. unfold system_weight. cbn. lia.
Qed.

Lemma transfer_liquidated_beside self vid p t :
  beside 0 self (transfer_funds (CurrencySource.LiquidatedCollateral vid) (CurrencySource.LiquidationVault p) t).
Proof.
  unfold transfer_funds, take_funds, hold_funds. do 3 (apply beside_bind_l; [keeps | intros]).
  apply system_collateral_beside. keeps.
Qed.

Lemma slash_to_liquidation_vault_beside self t : beside 0 self (slash_to_liquidation_vault self t).
Proof.
  unfold slash_to_liquidation_vault.
  apply beside_bind_l; [keeps | intros]. destruct (Amount.checked_sub t a); cbv beta iota.
  all: do 2 (apply beside_bind_l; [keeps | intros]); apply transfer_liquidated_beside.
Qed.

Lemma slash_for_to_be_redeemed_tracked self t : tracked w 0 self (slash_for_to_be_redeemed self t).
Proof.
  intros r v' r' Hk Hc Hr. unfold slash_for_to_be_redeemed in Hr. outcome_inv.
  match goal with Hs : RichVault.increase_liquidated_collateral _ _ _ = Ok (?v, _) |- _ =>
    apply (liquidated_collateral_tracks w true) in Hs as T1; [| done..] end.
  match goal with Hs : PoolManager.withdraw_collateral _ _ _ _ _ = Ok _ |- _ =>
    apply pool_withdraw_watched with (w := w) in Hs as Hw end.
  eapply tracks_trans; [exact T1 | apply tracks_keeps; [by destruct T1.. | exact Hw] | done].
Qed.

(** The last write of a liquidation: the vault no longer has what was moved. *)
Lemma set_liquidated_moves_from self (a : Amount.t) :
  moves_from w (- (α (pair_of self) * issued_tokens self + β (pair_of self) * to_be_issued_tokens self)) self
    (RichVault.set (λ v, set_status (λ _, Liquidated)
       (set_issued_tokens (λ _, 0) (set_to_be_issued_tokens (λ _, 0) v))) self;; mret a).
Proof.
  intros r x r' Hk Hc Hr. outcome_inv.
  match goal with Hs : RichVault.set _ _ _ = Ok _ |- _ => apply set_Ok in Hs as [-> ->] end.
  apply shifted_weight; [by apply vault_put_keyed | done |].
  rewrite (vault_put_weight w _ self) by exact Hc. unfold vault_weight, pair_of. cbn. lia.
Qed.

Lemma liquidate_moves self : moves 0 (liquidate self).
Proof.
  unfold liquidate. do 3 (apply moves_bind_l; [moves | intros]).
  apply moves_read. intros v _. do 4 (apply moves_from_keeps; [keeps | intros]).
  change 0 with (0 + 0) at 1. apply moves_from_op; [apply slash_for_to_be_redeemed_tracked |]. intros v' _.
  eapply beside_moves; [apply slash_to_liquidation_vault_beside | intros _ | symmetry; apply Z.add_0_l].
  eapply beside_moves; [apply move_to_liquidation_vault_beside | intros _ | symmetry; apply Z.add_opp_diag_r].
  apply moves_from_keeps; [unfold set_reward_stake; keeps | intros]. apply set_liquidated_moves_from.
Qed.

Lemma liquidate_vault_moves vid : moves 0 (liquidate_vault vid).
Proof.
  unfold liquidate_vault. apply moves_read_active. intros v _. apply moves_from_moves.
  apply moves_bind_l; [moves | intros]. apply moves_bind_r; [apply liquidate_moves | moves].
Qed.

(** ** Replace *)

(** The old vault, once liquidated, gives or gets collateral first. *)
Lemma replace_collateral_tracks (cancel : bool) old vid t r v' r' :
  keyed r → current old r →
  (if is_liquidated old then
     c ← lift (calculate_collateral (RichVault.liquidated_collateral old) t
                 (RichVault.to_be_redeemed_tokens old));
     v ← RichVault.decrease_liquidated_collateral old c;
     (if cancel then transfer_funds (CurrencySource.LiquidatedCollateral vid)
                       (CurrencySource.LiquidationVault (currencies vid)) c
      else PoolManager.deposit_collateral vid (account_id vid) c);;
     mret v
   else mret old) r = Ok (v', r') →
  tracks 0 old v' r r'.
Proof.
  intros Hk Hc Hr. destruct (is_liquidated old); outcome_inv; [| by apply tracks_keeps].
  match goal with Hs : RichVault.decrease_liquidated_collateral _ _ _ = Ok (?v, _) |- _ =>
    apply (liquidated_collateral_tracks w false) in Hs as T1; [| done..] end.
  destruct T1 as [Hk1 Hc1 ? ? ? ? ?] eqn:He. clear He.
  match goal with Hs : (if cancel then _ else _) _ = Ok _ |- _ =>
    assert (tracks 0 v' v' x2 r') as T2; [| by eapply tracks_trans] end.
  destruct cancel.
  - eapply transfer_liquidated_beside; done.
  - apply tracks_keeps; [done.. |]. by eapply pool_deposit_watched.
Qed.

Lemma tracks_beside δ v v' u r r' :
  tracks δ v v' r r' → current u r → id u ≠ id v → current u r'.
Proof. intros [_ _ _ _ Ho _ _] Hc Hne. unfold current. by rewrite Ho. Qed.

(** One operation on the tokens of each vault. *)
Lemma both_vaults_moves (cancel : bool) old new t (op1 op2 : Vault → B Vault) δ1 δ2 (k : B unit) :
  old ≠ new →
  (∀ o, id o = old → tracked w δ1 o (op1 o)) → (∀ n, id n = new → tracked w δ2 n (op2 n)) →
  keeps watched k →
  moves (δ1 + δ2)
    (o ← query (get_rich_vault_from_id old);
     n ← query (get_rich_vault_from_id new);
     o ← (if is_liquidated o then
            c ← lift (calculate_collateral (RichVault.liquidated_collateral o) t
                        (RichVault.to_be_redeemed_tokens o));
            v ← RichVault.decrease_liquidated_collateral o c;
            (if cancel then transfer_funds (CurrencySource.LiquidatedCollateral old)
                              (CurrencySource.LiquidationVault (currencies old)) c
             else PoolManager.deposit_collateral old (account_id old) c);;
            mret v
          else mret o);
     op1 o;; op2 n;; k).
Proof.
  intros Hne Hop1 Hop2 Hm r [] r' Hk Hr.
  apply M_bind_Ok in Hr as (o & r1 & [Ho%ok_or_Ok ->]%query_Ok & Hr).
  apply M_bind_Ok in Hr as (n & r1 & [Hn%ok_or_Ok ->]%query_Ok & Hr).
  assert (id o = old) as Hio by by apply Hk. assert (id n = new) as Hin by by apply Hk.
  assert (current o r) as Hco by by unfold current; rewrite Hio.
  assert (current n r) as Hcn by by unfold current; rewrite Hin.
  apply M_bind_Ok in Hr as (o1 & r1 & Hr1 & Hr). apply replace_collateral_tracks in Hr1 as T1; [| done..].
  pose proof (tracks_beside _ _ _ n _ _ T1 Hcn ltac:(congruence)) as Hcn1.
  pose proof T1 as [Hk1 Hc1 Hi1 _ _ _ _].
  apply M_bind_Ok in Hr as (o2 & r2 & Hr2 & Hr).
  apply Hop1 in Hr2 as T2; [| congruence | done..].
  pose proof (tracks_beside _ _ _ n _ _ T2 Hcn1 ltac:(congruence)) as Hcn2.
  pose proof T2 as [Hk2 _ _ _ _ _ _].
  apply M_bind_Ok in Hr as (n3 & r3 & Hr3 & Hr). apply Hop2 in Hr3 as T3; [| done..].
  apply Hm in Hr as Hw.
  apply tracks_shifted in T1, T2, T3. apply shifted_watched in Hw; [| by destruct T3].
  eapply shifted_trans; [exact T1 | eapply shifted_trans; [exact T2 | eapply shifted_trans; done | done] |]. lia.
Qed.

Lemma replace_tokens_moves old new t c :
  old ≠ new →
  moves (- ((α (currencies old) + γ old) * Amount.amount t) +
         (α (currencies new) - β (currencies new)) * Amount.amount t) (replace_tokens old new t c).
Proof.
  intros Hne. apply (both_vaults_moves false); [done | intros v <-; auto with moves.. |].
  auto with keeps.
Qed.
Lemma cancel_replace_tokens_moves old new t :
  old ≠ new →
  moves (- (γ old * Amount.amount t) + - (β (currencies new) * Amount.amount t))
    (cancel_replace_tokens old new t).
Proof.
  intros Hne. apply (both_vaults_moves true); [done | intros v <-; auto with moves.. |]. apply keeps_ret.
Qed.

(** ** Registration and settings *)

Lemma register_vault_moves vid c : moves 0 (_register_vault vid c).
Proof.
  unfold _register_vault. do 10 (apply moves_bind_l; [moves | intros]).
  intros r [] r' Hk Hr. apply M_bind_Ok in Hr as (b & r1 & [-> ->]%gets_Ok & Hr).
  apply M_bind_Ok in Hr as ([] & r1 & [Hb ->]%ensureM_Ok & Hr).
  apply M_bind_Ok in Hr as ([] & r1 & Hi & Hr). unfold insert_vault, update_storage in Hi.
  apply modify_Ok in Hi as ->.
  assert (RegistryStore.Vaults (rt_registry r) !! vid = None) as Hnone.
  { unfold vault_exists in Hb. case_bool_decide as Hd; [done |]. by apply eq_None_not_Some. }
  set (r1 := with_registry (with_Vaults <[vid:=vault_new vid]>) r) in *.
  assert (keyed r1) as Hk1 by by apply (vault_put_keyed (vault_new vid)).
  assert (shifted w 0 r r1) as Hw.
  { apply shifted_weight; [done.. |]. unfold weight, r1. cbn. rewrite msum_insert. unfold entry.
    rewrite Hnone. unfold vault_weight. cbn. lia. }
  assert (moves 0 (try_deposit_collateral vid (Amount.new c (collateral_currency vid));;
             Vaults.deposit_event (RegisterVault vid c))) as Hm by moves.
  apply Hm in Hr; [| done]. by eapply shifted_trans.
Qed.
Lemma custom_threshold_moves vid t : moves 0 (try_set_vault_custom_secure_threshold vid t).
Proof. unfold try_set_vault_custom_secure_threshold, RichVault.set_custom_secure_threshold. moves. Qed.
End liquidation.
