(* ===== verification/LiquidationSpec.v ===== *)
(** * What a liquidation does

    The exact effect of [liquidate_vault] on the books of the registry: the
    counters of every vault and the liquidation vaults.  The tokens and the
    slashed collateral of the vault are added to the liquidation vault of its
    pair, the tokens to be redeemed stay counted in both, and no other vault is
    touched. *)

From coqutil Require Import Byte.
From Stdlib Require Import ZArith Lia.
From stdpp Require Import base tactics option list numbers gmap.
From S2P Require Import Prelude Bytes BtcTypes BtcBuild Security Primitives FixedPoint Reward Staking Tokens Amount BridgeStores Bridge Oracle Fee Registry Collateral Nomination VaultRegistry TokenWeight TokenMoves TokenLaws.

Local Open Scope Z_scope.

Section books.
Context `{LoansApi}.
Import RegistryStore Vaults Collateral.Collateral VaultRegistry.VaultRegistry.

(** What a vault is registered with: all but its collateral, its threshold and its ban. *)
Record counters : Type := mkCounters {
  c_id : VaultId;
  c_liquidated : bool;
  c_issued : Z;
  c_to_be_issued : Z;
  c_to_be_redeemed : Z;
}.
Definition counters_of (v : Vault) : counters :=
  mkCounters (id v) (is_liquidated v) (issued_tokens v) (to_be_issued_tokens v) (to_be_redeemed_tokens v).
Definition books (r : Runtime) := (counters_of <$> RegistryStore.Vaults (rt_registry r), LiquidationVault (rt_registry r)).

(** The vaults other than [vid], with all their fields. *)
Definition others (vid : VaultId) (r : Runtime) := delete vid (RegistryStore.Vaults (rt_registry r)).

(** Any weights: the frame lemmas of [watched] carry over. *)
Definition no_weights : weights := mkWeights (λ _, 0) (λ _, 0) (λ _, 0) 0 0 GetWrappedCurrencyId.
Abbreviation watched := (watched no_weights).

Lemma watched_books r r' : watched r' = watched r → books r' = books r.
Proof. unfold TokenWeight.watched, registry_maps, books. by intros [= -> -> _ _ _ _]. Qed.

Lemma watched_others vid r r' : watched r' = watched r → others vid r' = others vid r.
Proof. unfold TokenWeight.watched, registry_maps, others. by intros [= -> _ _ _ _ _]. Qed.
Lemma vault_put_others v r : others (id v) (vault_put v r) = others (id v) r.
Proof. unfold others, vault_put. cbn. by rewrite delete_insert_eq. Qed.

(** A copy that is stored evolves to another with the same counters; the books stay. *)
Record rewrites (self self' : Vault) (r r' : Runtime) : Prop := {
  rewrites_keyed : keyed r';
  rewrites_current : current self' r';
  rewrites_counters : counters_of self' = counters_of self;
  rewrites_books : books r' = books r;
  rewrites_others : others (id self) r' = others (id self) r;
}.

Lemma rewrites_trans v1 v2 v3 r1 r2 r3 :
  rewrites v1 v2 r1 r2 → rewrites v2 v3 r2 r3 → rewrites v1 v3 r1 r3.
Proof.
  intros [_ _ C1 B1 O1] [K2 R2 C2 B2 O2]. assert (id v2 = id v1) as Hi by by injection C1.
  rewrite Hi in O2. split; [done | done | congruence..].
Qed.
Lemma rewrites_watched v r r' :
  keyed r → current v r → watched r' = watched r → rewrites v v r r'.
Proof.
  intros Hk Hc Hw. split; [by eapply watched_keyed | | done | by apply watched_books | by apply watched_others].
  unfold current. unfold TokenWeight.watched, registry_maps in Hw. by injection Hw as -> _ _ _ _ _.
Qed.
Lemma rewrites_put v v' r :
  keyed r → current v r → counters_of v' = counters_of v → rewrites v v' r (vault_put v' r).
Proof.
  intros Hk Hc Hv. assert (id v' = id v) as Hi by by injection Hv.
  split; [by apply vault_put_keyed | apply lookup_insert_eq | done | | by rewrite <- Hi; apply vault_put_others].
  unfold books, vault_put. cbn. f_equal. rewrite fmap_insert. apply insert_id. rewrite lookup_fmap, Hi, Hc. cbn. by rewrite Hv.
Qed.
Lemma rewrites_checked_set put new_value e v r v' r' :
  (∀ f u, same_tokens u (put f u)) →
  keyed r → current v r → RichVault.checked_set put new_value e v r = Ok (v', r') → rewrites v v' r r'.
Proof.
  intros Hp Hk Hc [Hv ->]%update_Ok. outcome_inv. apply rewrites_put; [done.. |].
  match goal with |- counters_of (put ?f v) = _ => destruct (Hp f v) as (? & ? & ? & ? & ?) end.
  unfold counters_of. congruence.
Qed.

(** The vault that is read is the one stored. *)
Lemma read_current vid r v r' :
  keyed r → query (get_rich_vault_from_id vid) r = Ok (v, r') → r' = r ∧ current v r ∧ id v = vid.
Proof.
  intros Hk [Hv%ok_or_Ok ->]%query_Ok. split; [done |]. assert (id v = vid) as Hi by by apply Hk.
  unfold current. by rewrite Hi.
Qed.
Lemma same_current v v' r : current v r → current v' r → id v = id v' → v = v'.
Proof. unfold current. intros Hv Hv' Hi. rewrite Hi, Hv' in Hv. by injection Hv. Qed.

(** ** The steps of a liquidation *)

Lemma event_watched e r u r' : Vaults.deposit_event e r = Ok (u, r') → watched r' = watched r.
Proof. intros He. by eapply (registry_event_watched no_weights). Qed.

Lemma decrease_to_be_replaced_rewrites v t r p r' :
  keyed r → current v r → decrease_to_be_replaced_tokens (id v) t r = Ok (p, r') →
  ∃ v', rewrites v v' r r'.
Proof.
  intros Hk Hc Hr. unfold decrease_to_be_replaced_tokens in Hr.
  apply M_bind_Ok in Hr as (u & r1 & Hu & Hr). apply read_current in Hu as (-> & Hcu & Hiu); [| done].
  apply (same_current _ _ _ Hcu Hc) in Hiu as ->. unfold RichVault.set_to_be_replaced_amount in Hr. outcome_inv.
  match goal with Hs : RichVault.set _ _ _ = Ok (?v', _), He : Vaults.deposit_event _ _ = Ok _ |- _ =>
    apply set_Ok in Hs as [-> ->]; apply event_watched in He; rename He into Hw end.
  match type of Hw with _ = watched (vault_put ?u _) => exists u; apply (rewrites_trans v u u r (vault_put u r)) end.
  - by apply rewrites_put.
  - apply rewrites_watched; [by apply vault_put_keyed | apply lookup_insert_eq | exact Hw].
Qed.

Lemma release_available_rewrites v x t r u r' :
  keyed r → current v r →
  transfer_funds (CurrencySource.AvailableReplaceCollateral (id v)) (CurrencySource.FreeBalance x) t r = Ok (u, r') →
  ∃ v', rewrites v v' r r'.
Proof.
  intros Hk Hc Hr. unfold transfer_funds, take_funds, hold_funds in Hr.
  apply M_bind_Ok in Hr as ([] & r1 & Ht & Hr). apply M_bind_Ok in Ht as (y & r2 & [Hy ->]%query_Ok & Ht).
  apply active_vault_Ok in Hy as [Hy _]. assert (y = v) as ->.
  { apply (same_current y v r); [| done | by apply Hk]. unfold current. by rewrite (proj1 Hk _ _ Hy). }
  apply M_bind_Ok in Ht as (v' & r2 & Hd & Ht).
  apply rewrites_checked_set in Hd as Hrw; [| done..]. exists v'.
  eapply rewrites_trans; [exact Hrw |]. destruct Hrw as [Hk' Hc' _ _ _].
  apply rewrites_watched; [done.. |]. outcome_inv.
  assert (watched r1 = watched r2) as <- by by eapply (unlock_on_watched no_weights).
  by eapply (transfer_watched no_weights).
Qed.

Lemma withdraw_replace_rewrites v t r p r' :
  keyed r → current v r → withdraw_replace_request (id v) t r = Ok (p, r') → ∃ v', rewrites v v' r r'.
Proof.
  intros Hk Hc Hr. unfold withdraw_replace_request in Hr.
  apply M_bind_Ok in Hr as ([t1 t2] & r1 & Hd & Hr).
  apply decrease_to_be_replaced_rewrites in Hd as [v1 H1]; [| done..].
  pose proof H1 as [Hk1 Hc1 Hi1 _ _]. injection Hi1 as Hi1 _ _ _ _.
  apply M_bind_Ok in Hr as ([] & r2 & Ht & Hr). rewrite <- Hi1 in Ht.
  apply release_available_rewrites in Ht as [v2 H2]; [| done..]. outcome_inv.
  exists v2. by eapply rewrites_trans.
Qed.

Lemma slash_for_to_be_redeemed_rewrites v t r v' r' :
  keyed r → current v r → slash_for_to_be_redeemed v t r = Ok (v', r') → rewrites v v' r r'.
Proof.
  intros Hk Hc Hr. unfold slash_for_to_be_redeemed in Hr. outcome_inv.
  match goal with Hs : RichVault.increase_liquidated_collateral _ _ _ = Ok (?u, _) |- _ =>
    apply rewrites_checked_set in Hs as Hrw; [| done..] end.
  eapply rewrites_trans; [exact Hrw |]. destruct Hrw as [Hk1 Hc1 _ _ _].
  apply rewrites_watched; [done.. |]. by eapply (pool_withdraw_watched no_weights).
Qed.

(** The liquidation vault [s] of a pair is written. *)
Definition liquidation_put (s : SystemVault) (r r' : Runtime) : Prop :=
  keyed r' ∧ RegistryStore.Vaults (rt_registry r') = RegistryStore.Vaults (rt_registry r) ∧
  LiquidationVault (rt_registry r') = <[sys_currency_pair s := s]> (LiquidationVault (rt_registry r)).

Lemma liquidation_put_read s r r' :
  liquidation_put s r r' → get_liquidation_vault (sys_currency_pair s) r' = s.
Proof. intros (_ & _ & Hl). unfold get_liquidation_vault. by rewrite Hl, lookup_insert_eq. Qed.
Lemma liquidation_put_trans s1 s2 r r1 r2 :
  liquidation_put s1 r r1 → liquidation_put s2 r1 r2 → sys_currency_pair s2 = sys_currency_pair s1 →
  liquidation_put s2 r r2.
Proof.
  intros (_ & V1 & L1) (K2 & V2 & L2) Hp. split_and!; [done | congruence |].
  by rewrite L2, L1, Hp, insert_insert_eq.
Qed.
Lemma watched_liquidation_put s r r1 r' :
  watched r1 = watched r → liquidation_put s r1 r' → liquidation_put s r r'.
Proof.
  unfold TokenWeight.watched, registry_maps. intros [= Hv Hl _ _ _ _] (K & V & L).
  split_and!; [done | congruence..].
Qed.
Lemma liquidation_put_watched s r r1 r' :
  liquidation_put s r r1 → watched r' = watched r1 → liquidation_put s r r'.
Proof.
  intros (K & V & L) Hw. split; [by eapply watched_keyed |].
  unfold TokenWeight.watched, registry_maps in Hw. injection Hw as Hv Hl _ _ _ _. split; congruence.
Qed.
Lemma system_update_put f s r s' r' :
  keyed r → sys_currency_pair (f s) = sys_currency_pair s →
  RichSystemVault.update f s r = Ok (s', r') → s' = f s ∧ liquidation_put s' r r'.
Proof.
  intros Hk Hp [-> ->]%system_update_Ok. split; [done |].
  split_and!; [by apply system_put_keyed | done..].
Qed.

Lemma transfer_liquidated_put vid p t r u r' :
  keyed r →
  transfer_funds (CurrencySource.LiquidatedCollateral vid) (CurrencySource.LiquidationVault p) t r = Ok (u, r') →
  liquidation_put
    (set_sys_collateral (λ c, c + Amount.amount t) (get_liquidation_vault p r)) r r'.
Proof.
  intros Hk Hr. unfold transfer_funds, take_funds, hold_funds, RichSystemVault.increase_collateral in Hr.
  outcome_inv.
  match goal with
  | Hd : decrease_total_backing_collateral _ _ _ = Ok _, Hu : on_tokens (Amount.unlock_on _ _) _ = Ok _,
    Ht : on_tokens (Amount.transfer _ _ _) _ = Ok _, Hi : try_increase_total_backing_collateral _ _ _ = Ok (_, ?r1),
    Hl : on_tokens (Amount.lock_on _ _) _ = Ok _, Hs : RichSystemVault.update _ _ _ = Ok (?s, ?r2),
    Ha : Amount.checked_add _ _ = Ok _ |- _ =>
      apply (decrease_total_watched no_weights) in Hd; apply (unlock_on_watched no_weights) in Hu;
      apply (transfer_watched no_weights) in Ht; apply (try_increase_total_watched no_weights) in Hi;
      apply (lock_on_watched no_weights) in Hl; apply Amount.checked_add_Ok in Ha as (_ & _ & Hsum & _);
      assert (watched r1 = watched r) as Hw by congruence;
      assert (get_liquidation_vault p r1 = get_liquidation_vault p r) as Hg
        by (unfold get_liquidation_vault; unfold TokenWeight.watched, registry_maps in Hw; congruence);
      apply system_update_put in Hs as [-> Hwr]; [| by eapply watched_keyed | done];
      apply (watched_liquidation_put _ _ _ _ Hw) in Hwr;
      apply (liquidation_put_watched _ _ _ _ Hwr) in Hl as Hput
  end.
  rewrite <- Hg. unfold get_rich_liquidation_vault, RichSystemVault.collateral in *. cbn in Hsum.
  unfold set_sys_collateral in *. by rewrite Hsum in Hput.
Qed.

Lemma slash_to_liquidation_put v t r u r' :
  keyed r → slash_to_liquidation_vault v t r = Ok (u, r') →
  liquidation_put
    (set_sys_collateral (λ c, c + Amount.amount t) (get_liquidation_vault (pair_of v) r)) r r'.
Proof.
  intros Hk Hr. unfold slash_to_liquidation_vault in Hr.
  apply M_bind_Ok in Hr as (own & r1 & [_ ->]%query_Ok & Hr).
  assert (∀ r1, watched r1 = watched r →
    transfer_funds (CurrencySource.LiquidatedCollateral (id v)) (CurrencySource.LiquidationVault (pair_of v)) t r1 = Ok (u, r') →
    liquidation_put (set_sys_collateral (λ c, c + Amount.amount t) (get_liquidation_vault (pair_of v) r)) r r') as Hend.
  { intros r1 Hw Ht. apply transfer_liquidated_put in Ht; [| by eapply watched_keyed].
    apply (watched_liquidation_put _ _ _ _ Hw) in Ht.
    replace (get_liquidation_vault (pair_of v) r) with (get_liquidation_vault (pair_of v) r1); [done |].
    unfold get_liquidation_vault. unfold TokenWeight.watched, registry_maps in Hw. congruence. }
  assert (∀ t1 (ts : option Amount.t),
    (PoolManager.withdraw_collateral (id v) (account_id (id v)) (Some t1) None;;
     match ts with Some t2 => PoolManager.slash_collateral (id v) t2 | None => mret tt end;;
     transfer_funds (CurrencySource.LiquidatedCollateral (id v)) (CurrencySource.LiquidationVault (pair_of v)) t) r = Ok (u, r') →
    liquidation_put (set_sys_collateral (λ c, c + Amount.amount t) (get_liquidation_vault (pair_of v) r)) r r') as Hrun.
  { intros t1 ts Hx. apply M_bind_Ok in Hx as (a1 & r1 & Hp & Hx). apply M_bind_Ok in Hx as ([] & r2 & Hs & Hx).
    apply (Hend r2); [| exact Hx]. apply (pool_withdraw_watched no_weights) in Hp.
    destruct ts; [apply (pool_slash_watched no_weights) in Hs; congruence | by injection Hs as <-]. }
  destruct (Amount.checked_sub t own); [exact (Hrun _ (Some _) Hr) | exact (Hrun _ None Hr)..].
Qed.

(** The counters of [v] added to a liquidation vault. *)
Definition absorb (v : Vault) (s : SystemVault) : SystemVault :=
  set_sys_issued_tokens (λ x, x + issued_tokens v)
    (set_sys_to_be_issued_tokens (λ x, x + to_be_issued_tokens v)
       (set_sys_to_be_redeemed_tokens (λ x, x + to_be_redeemed_tokens v) s)).

Lemma move_to_liquidation_put v r u r' :
  keyed r → move_to_liquidation_vault v r = Ok (u, r') →
  liquidation_put (absorb v (get_liquidation_vault (pair_of v) r)) r r'.
Proof.
  intros Hk Hr. unfold move_to_liquidation_vault, RichSystemVault.increase_issued,
    RichSystemVault.increase_to_be_issued, RichSystemVault.increase_to_be_redeemed in Hr. outcome_inv.
  repeat match goal with
  | Hs : Amount.checked_add _ _ = Ok _ |- _ => apply Amount.checked_add_Ok in Hs as (_ & _ & ? & _)
  end.
  repeat match goal with
  | Hs : RichSystemVault.update _ ?s ?r0 = Ok _, Hk0 : keyed ?r0 |- _ =>
      apply system_update_put in Hs as [-> ?]; [| exact Hk0 | reflexivity];
      match goal with Hl : liquidation_put _ r0 _ |- _ => pose proof (proj1 Hl) end
  end.
  match goal with
  | H1 : liquidation_put _ r ?r1, H2 : liquidation_put _ ?r1 ?r2, H3 : liquidation_put _ ?r2 r' |- _ =>
      pose proof (liquidation_put_trans _ _ _ _ _ H1 H2 eq_refl) as H12;
      pose proof (liquidation_put_trans _ _ _ _ _ H12 H3 eq_refl) as H13 end.
  unfold absorb. unfold get_rich_liquidation_vault, pair_of in *.
  destruct (get_liquidation_vault (currencies (id v)) r). cbn in *.
  repeat match goal with Ha : Amount.amount _ = _ |- _ => rewrite Ha in H13; clear Ha end. exact H13.
Qed.

Lemma absorb_counters v v' s : counters_of v' = counters_of v → absorb v' s = absorb v s.
Proof. intros Hc. unfold absorb. injection Hc as _ _ -> -> ->. done. Qed.
Lemma books_liquidation p r r' :
  books r' = books r → get_liquidation_vault p r' = get_liquidation_vault p r.
Proof. unfold books, get_liquidation_vault. by intros [= _ ->]. Qed.

(** The last two writes: the liquidation vault, then the vault. *)
Lemma liquidated_books v s r r1 :
  keyed r → current v r → liquidation_put s r r1 →
  books (vault_put (set_status (λ _, Liquidated)
                      (set_issued_tokens (λ _, 0) (set_to_be_issued_tokens (λ _, 0) v))) r1) =
    (<[id v := mkCounters (id v) true 0 0 (to_be_redeemed_tokens v)]> (books r).1,
     <[sys_currency_pair s := s]> (books r).2).
Proof.
  intros Hk Hc (_ & Hv & Hl). unfold books, vault_put. cbn. by rewrite Hv, Hl, fmap_insert.
Qed.

Lemma set_reward_stake_watched vid t r u r' : set_reward_stake vid t r = Ok (u, r') → watched r' = watched r.
Proof. assert (keeps watched (set_reward_stake vid t)) as Hm by (unfold set_reward_stake; keeps). apply Hm. Qed.

(** The liquidation vault takes the collateral and the tokens of [v], then [v] is emptied. *)
Lemma hand_over v v' a r r1 r2 r3 r4 u1 u2 :
  rewrites v v' r r1 → slash_to_liquidation_vault v' a r1 = Ok (u1, r2) →
  move_to_liquidation_vault v' r2 = Ok (u2, r3) → watched r4 = watched r3 →
  let r' := vault_put (set_status (λ _, Liquidated)
              (set_issued_tokens (λ _, 0) (set_to_be_issued_tokens (λ _, 0) v'))) r4 in
  others (id v) r' = others (id v) r ∧
  books r' =
    (<[id v := mkCounters (id v) true 0 0 (to_be_redeemed_tokens v)]> (books r).1,
     <[pair_of v := absorb v (set_sys_collateral (λ c, c + Amount.amount a)
                                (get_liquidation_vault (pair_of v) r))]> (books r).2).
Proof.
  intros [Hk1 Hc1 Hi B O] Ht Hm Hw r'. apply slash_to_liquidation_put in Ht as P1; [| done].
  apply move_to_liquidation_put in Hm as P2; [| by destruct P1].
  assert (pair_of v' = pair_of v) as Hp by (injection Hi; unfold pair_of; congruence).
  set (s1 := set_sys_collateral _ (get_liquidation_vault (pair_of v') r1)) in *.
  assert (sys_currency_pair s1 = pair_of v') as Hs1 by (apply (get_liquidation_vault_pair _ r1); exact Hk1).
  pose proof (liquidation_put_read _ _ _ P1) as G1. rewrite Hs1 in G1. rewrite G1 in P2.
  pose proof (liquidation_put_trans _ _ _ _ _ P1 P2 eq_refl) as P3.
  pose proof (liquidation_put_watched _ _ _ _ P3 Hw) as P4.
  assert (id v' = id v) as Hid by by injection Hi.
  split.
  { etrans; [| exact O]. rewrite <- Hid. etrans; [exact (vault_put_others (set_status _ _) r4) |].
    unfold others. by destruct P4 as (_ & -> & _). }
  unfold r'. rewrite (liquidated_books v' _ r1 r4 Hk1 Hc1 P4), B, (absorb_counters v v' _ Hi).
  unfold s1. rewrite (books_liquidation _ _ _ B), Hp. injection Hi as -> _ _ _ ->.
  do 2 f_equal. etrans; [| exact (eq_trans Hs1 Hp)]. unfold s1. cbn.
  by rewrite (books_liquidation _ _ _ B), Hp.
Qed.

Lemma liquidate_books v r a r' :
  keyed r → current v r → liquidate v r = Ok (a, r') →
  others (id v) r' = others (id v) r ∧ books r' =
    (<[id v := mkCounters (id v) true 0 0 (to_be_redeemed_tokens v)]> (books r).1,
     <[pair_of v := absorb v (set_sys_collateral (λ c, c + Amount.amount a)
                                (get_liquidation_vault (pair_of v) r))]> (books r).2).
Proof.
  intros Hk Hc Hr. unfold liquidate in Hr.
  apply M_bind_Ok in Hr as (threshold & r1 & [_ ->]%query_Ok & Hr).
  apply M_bind_Ok in Hr as (used & r1 & Hu & Hr). apply (used_collateral_watched no_weights) in Hu.
  pose proof (rewrites_watched v r r1 Hk Hc Hu) as R1. pose proof R1 as [Hk1 Hc1 _ B1 _].
  apply M_bind_Ok in Hr as (p & r2 & Hw & Hr). apply withdraw_replace_rewrites in Hw as [v1 R2]; [| done..].
  apply (rewrites_trans _ _ _ _ _ _ R1) in R2 as R3. destruct R3 as [Hk2 Hc2 Hi2 B2 _].
  assert (id v1 = id v) as Hid by by injection Hi2.
  apply M_bind_Ok in Hr as (u & r3 & Hu' & Hr). apply read_current in Hu' as (-> & Hcu & Hiu); [| done].
  assert (u = v1) as -> by (apply (same_current u v1 r2 Hcu Hc2); congruence). outcome_inv.
  match goal with
  | Hs : slash_for_to_be_redeemed v1 _ _ = Ok (?v2, ?r3), Ht : slash_to_liquidation_vault ?v2 _ _ = Ok _,
    Hm : move_to_liquidation_vault ?v2 _ = Ok _, Hw : set_reward_stake _ _ _ = Ok _,
    Hp : RichVault.set _ ?v2 _ = Ok _ |- _ =>
      apply slash_for_to_be_redeemed_rewrites in Hs as R4; [| done..];
      apply (rewrites_trans v v1 v2 r r2 r3) in R4 as R5; [| by eapply rewrites_trans];
      apply set_reward_stake_watched in Hw;
      pose proof (hand_over v v2 a _ _ _ _ _ _ _ R5 Ht Hm Hw) as Hb;
      apply set_Ok in Hp as [_ ->]; exact Hb
  end.
Qed.

Lemma liquidate_vault_books vid v r a r' :
  keyed r → RegistryStore.Vaults (rt_registry r) !! vid = Some v → liquidate_vault vid r = Ok (a, r') →
  is_liquidated v = false ∧ others vid r' = others vid r ∧
  books r' =
    (<[vid := mkCounters vid true 0 0 (to_be_redeemed_tokens v)]> (books r).1,
     <[currencies vid := absorb v (set_sys_collateral (λ c, c + Amount.amount a)
                                (get_liquidation_vault (currencies vid) r))]> (books r).2).
Proof.
  intros Hk Hv Hr. assert (id v = vid) as Hi by by apply Hk. unfold liquidate_vault in Hr.
  apply M_bind_Ok in Hr as (u & r1 & [Hu ->]%query_Ok & Hr). apply active_vault_Ok in Hu as [Hu Hl].
  rewrite Hv in Hu. injection Hu as <-. split; [done |]. outcome_inv.
  match goal with Hx : liquidate _ _ = Ok _, He : Vaults.deposit_event _ _ = Ok _ |- _ =>
    apply event_watched in He; apply liquidate_books in Hx as [Ho Hb]; [| exact Hk | exact Hv];
    by rewrite (watched_books _ _ He), (watched_others _ _ _ He), Ho, Hb end.
Qed.

(** C4: liquidating a vault hands its issued and to be issued tokens to the liquidation
    vault of its currency pair, together with the slashed collateral that is returned.
    The tokens to be redeemed stay with the vault, which must still redeem them, and are
    counted in the liquidation vault as well. The vault is liquidated and was not before;
    no other vault and no other liquidation vault changes in any field. *)
Theorem liquidate_vault_spec vid v r a r' :
  keyed r → RegistryStore.Vaults (rt_registry r) !! vid = Some v → liquidate_vault vid r = Ok (a, r') →
  let s := get_liquidation_vault (currencies vid) r in
  let s' := get_liquidation_vault (currencies vid) r' in
  (∃ v', RegistryStore.Vaults (rt_registry r') !! vid = Some v' ∧
     is_liquidated v = false ∧ status v' = Liquidated ∧ issued_tokens v' = 0 ∧
     to_be_issued_tokens v' = 0 ∧ to_be_redeemed_tokens v' = to_be_redeemed_tokens v) ∧
  sys_issued_tokens s' = sys_issued_tokens s + issued_tokens v ∧
  sys_to_be_issued_tokens s' = sys_to_be_issued_tokens s + to_be_issued_tokens v ∧
  sys_to_be_redeemed_tokens s' = sys_to_be_redeemed_tokens s + to_be_redeemed_tokens v ∧
  sys_collateral s' = sys_collateral s + Amount.amount a ∧
  (∀ vid', vid' ≠ vid →
     RegistryStore.Vaults (rt_registry r') !! vid' = RegistryStore.Vaults (rt_registry r) !! vid') ∧
  (∀ p, p ≠ currencies vid → get_liquidation_vault p r' = get_liquidation_vault p r).
Proof.
  intros Hk Hv Hr s s'. apply liquidate_vault_books with (v := v) in Hr as (Hl & Ho & Hb); [| done..].
  unfold books in Hb. injection Hb as Hvs Hls. cbn [fst snd] in *.
  assert (s' = absorb v (set_sys_collateral (λ c, c + Amount.amount a) s)) as ->
    by (unfold s', get_liquidation_vault; by rewrite Hls, lookup_insert_eq).
  split; [| split_and!; try reflexivity].
  - assert ((counters_of <$> RegistryStore.Vaults (rt_registry r')) !! vid =
            Some (mkCounters vid true 0 0 (to_be_redeemed_tokens v))) as Hc by by rewrite Hvs, lookup_insert_eq.
    rewrite lookup_fmap in Hc. apply fmap_Some in Hc as (v' & Hv' & Hc). exists v'. split; [done |].
    injection Hc as _ Hl' Hi Ht Hr. unfold is_liquidated in Hl'. by destruct (status v').
  - intros vid' Hne. unfold others in Ho. by rewrite <- (lookup_delete_ne _ vid vid'), Ho, lookup_delete_ne.
  - intros p Hne. unfold get_liquidation_vault. rewrite Hls. by rewrite lookup_insert_ne.
Qed.
End books.
