(* ===== verification/BridgeLaws.v ===== *)
(** * Supply and requests

    A [weights] is [balanced] when a token of the supply weighs against a token
    issued by a vault, and a pending request against the counter it was added
    to.  Then no operation of the bridge changes [total]: what issue, redeem and
    replace mint, burn and record comes to nothing. *)

From coqutil Require Import Byte.
From Stdlib Require Import ZArith Lia.
From stdpp Require Import base tactics option list numbers gmap.
From S2P Require Import Prelude Bytes BtcTypes BtcMerkle BtcBuild Security Relay RelayVerify Primitives FixedPoint Reward Staking Tokens Amount BridgeStores Bridge Oracle Fee Registry Collateral Nomination VaultRegistry Issue Redeem Replace TokenWeight TokenMoves TokenLaws.

Local Open Scope Z_scope.

(** The price of an amount of the supply. *)
Definition priced (w : weights) (a : Amount.t) : Z :=
  w_supply w * at_currency (Amount.currency a) (w_currency w) (Amount.amount a).

Record balanced (w : weights) : Prop := {
  balanced_issued p v : w_issued w p * v = - priced w (Amount.new v (wrapped p));
  balanced_to_be_issued p : w_requests w * w_to_be_issued w p = w_to_be_issued w p;
  balanced_to_be_redeemed v : w_requests w * w_to_be_redeemed w v = w_to_be_redeemed w v;
}.

Lemma balanced_requests_issued w p x :
  balanced w → w_requests w * (w_to_be_issued w p * x) = w_to_be_issued w p * x.
Proof. intros Hw. by rewrite Z.mul_assoc, balanced_to_be_issued. Qed.
Lemma balanced_requests_redeemed w v x :
  balanced w → w_requests w * (w_to_be_redeemed w v * x) = w_to_be_redeemed w v * x.
Proof. intros Hw. by rewrite Z.mul_assoc, balanced_to_be_redeemed. Qed.

Section supply.
Context `{LoansApi} (w : weights).

Abbreviation moves := (moves w).
Abbreviation shifted := (shifted w).

Lemma mint_to_moves a x : moves (priced w a) (on_tokens (Amount.mint_to a x)).
Proof.
  intros r [] r' Hk Hr. apply on_tokens_Ok in Hr as (l & [_ _ Hi]%Amount.mint_to_Ok & ->).
  split; [done.. |]. unfold total, supply, priced. cbn. rewrite Hi. unfold weight, pending. cbn. lia.
Qed.
Lemma burn_from_moves a x : moves (- priced w a) (on_tokens (Amount.burn_from a x)).
Proof.
  intros r [] r' Hk Hr. apply on_tokens_Ok in Hr as (l & [_ _ Hi]%Amount.burn_from_Ok & ->).
  split; [done.. |]. unfold total, supply, priced. cbn. rewrite Hi. unfold weight, pending. cbn. lia.
Qed.

Lemma run_moves {A} δ (m : B A) r a r' : m r = Ok (a, r') → keyed r → moves δ m → shifted δ r r'.
Proof. intros Hr Hk Hm. by eapply Hm. Qed.

Lemma moves_zero {A} (m : B A) : moves 0 m → moves 0 m.
Proof. done. Qed.
Lemma get_secure_id_watched x : keeps (watched w) (get_secure_id x).
Proof. keeps. Qed.
End supply.
#[export] Hint Resolve mint_to_moves burn_from_moves : moves.

(** Turn each step from a keyed state into a shift. *)
Ltac shift_step w :=
  match goal with
  | Hk : keyed ?r, Hm : ?m ?r = Ok (?a, ?r1) |- _ =>
      let Hs := fresh "Hs" in
      eassert (shifted w _ r r1) as Hs by
        (eapply run_moves; [exact Hm | exact Hk |
           first [solve [eauto 1 with moves nocore] | solve [apply moves_keeps; keeps] | solve [apply moves_zero; moves]]]);
      clear Hm; pose proof (shifted_keyed _ _ _ _ Hs)
  end.
(** All the steps; the equations on the requests and on the total remain. *)
Ltac shifts w :=
  repeat shift_step w;
  repeat match goal with Hs : shifted w _ _ _ |- _ => destruct Hs as [_ ? ?] end.

(** A request is recorded under a new id. *)
Definition gains {A} (m m' : gmap (list byte) A) : Prop := ∃ k, m !! k = None ∧ is_Some (m' !! k).
Lemma gains_insert {A} (m : gmap (list byte) A) k q : gains m (<[k := q]> m) → m !! k = None.
Proof.
  intros (k' & Hn & Hs). destruct (decide (k = k')) as [<- | Hne]; [done |].
  rewrite lookup_insert_ne, Hn in Hs by done. by destruct Hs.
Qed.

(** ** Requests written *)
Section requests.
Context `{LoansApi} (w : weights).

(** The total changes by [δ], whatever happens to the requests. *)
Record settles (δ : Z) (r r' : Runtime) : Prop := {
  settles_keyed : keyed r';
  settles_total : total w r' = total w r + δ;
}.

(** The events and the other writes after the last of a request. *)
Record unwatched (r r' : Runtime) : Prop := {
  unwatched_keyed : keyed r → keyed r';
  unwatched_total : total w r' = total w r;
  unwatched_requests : requests r' = requests r;
}.
Lemma event_settles r r' : watched w r' = watched w r → unwatched r r'.
Proof.
  intros He. split; [by apply (watched_keyed w) | by apply watched_total |].
  unfold watched in He. injection He as _ _ ? ? ? _. unfold requests. congruence.
Qed.

Lemma shifted_settles δ r r' : shifted w δ r r' → settles δ r r'.
Proof. by intros []. Qed.
Lemma settles_trans δ1 δ2 δ r1 r2 r3 :
  settles δ1 r1 r2 → settles δ2 r2 r3 → δ = δ1 + δ2 → settles δ r1 r3.
Proof. intros [_ T1] [K2 T2] ->. split; [done | lia]. Qed.

(** Rewriting a request. *)
Lemma alter_issue_settles f k q r :
  keyed r → IssueStore.IssueRequests (rt_issue r) !! k = Some q →
  settles (w_requests w * (issue_weight w q - issue_weight w (f q))) r
    (with_issue (IssueStore.with_IssueRequests (alter f k)) r).
Proof.
  intros Hk Hq. split; [exact Hk |]. unfold total, weight, pending, supply. cbn.
  rewrite (msum_alter _ _ _ _ _ Hq). lia.
Qed.
Lemma alter_redeem_settles f k q r :
  keyed r → RedeemStore.RedeemRequests (rt_redeem r) !! k = Some q →
  settles (w_requests w * (redeem_weight w q - redeem_weight w (f q))) r
    (with_redeem (RedeemStore.with_RedeemRequests (alter f k)) r).
Proof.
  intros Hk Hq. split; [exact Hk |]. unfold total, weight, pending, supply. cbn.
  rewrite (msum_alter _ _ _ _ _ Hq). lia.
Qed.
Lemma alter_replace_settles f k q r :
  keyed r → ReplaceStore.ReplaceRequests (rt_replace r) !! k = Some q →
  (∀ q, replace_old_vault (f q) = replace_old_vault q ∧ replace_new_vault (f q) = replace_new_vault q) →
  settles (w_requests w * (replace_weight w q - replace_weight w (f q))) r
    (with_replace (ReplaceStore.with_ReplaceRequests (alter f k)) r).
Proof.
  intros (Hv & Hl & Hq) Hk Hf. split.
  - split_and!; [exact Hv | exact Hl |]. intros k' q'. cbn.
    intros [(-> & q0 & Hq0 & ->) | [_ Hq0]]%lookup_alter_Some; [| by eapply Hq].
    destruct (Hf q0) as [-> ->]. by eapply Hq.
  - unfold total, weight, pending, supply. cbn. rewrite (msum_alter _ _ _ _ _ Hk). lia.
Qed.

(** Recording a request under a new id. *)
Lemma insert_issue_settles k q r :
  keyed r → IssueStore.IssueRequests (rt_issue r) !! k = None →
  settles (- (w_requests w * issue_weight w q)) r
    (with_issue (IssueStore.with_IssueRequests <[k := q]>) r).
Proof.
  intros Hk Hq. split; [exact Hk |]. unfold total, weight, pending, supply. cbn.
  rewrite msum_fresh by done. lia.
Qed.
Lemma insert_redeem_settles k q r :
  keyed r → RedeemStore.RedeemRequests (rt_redeem r) !! k = None →
  settles (- (w_requests w * redeem_weight w q)) r
    (with_redeem (RedeemStore.with_RedeemRequests <[k := q]>) r).
Proof.
  intros Hk Hq. split; [exact Hk |]. unfold total, weight, pending, supply. cbn.
  rewrite msum_fresh by done. lia.
Qed.
Lemma insert_replace_settles k q r :
  keyed r → ReplaceStore.ReplaceRequests (rt_replace r) !! k = None →
  replaceable (replace_old_vault q) (replace_new_vault q) →
  settles (- (w_requests w * replace_weight w q)) r
    (with_replace (ReplaceStore.with_ReplaceRequests <[k := q]>) r).
Proof.
  intros (Hv & Hl & Hr) Hq Hne. split.
  - split_and!; [exact Hv | exact Hl |]. intros k' q'. cbn.
    intros [[<- <-] | [_ Hq']]%lookup_insert_Some; [done | by eapply Hr].
  - unfold total, weight, pending, supply. cbn. rewrite msum_fresh by done. lia.
Qed.
End requests.

(** The requests at the end of a chain of shifts are those at its beginning. *)
Ltac same_requests :=
  match goal with |- _ (_ ?r1) !! _ = _ =>
    match goal with Hq : _ (_ ?r) !! _ = _ |- _ =>
      let E := fresh in
      assert (requests r1 = requests r) as E by congruence; unfold requests in E; congruence
    end
  end.

(** ** Issue *)
Section issue_requests.
Context `{LoansApi} (w : weights).
Import Issue.Issue IssueStore.

Lemma issue_event_watched e : keeps (watched w) (Issue.Issue.deposit_event e).
Proof. unfold Issue.Issue.deposit_event, update. keeps. Qed.
Lemma insert_issue_request_settles k q r u r' :
  insert_issue_request k q r = Ok (u, r') → keyed r →
  gains (IssueRequests (rt_issue r)) (IssueRequests (rt_issue r')) →
  settles w (- (w_requests w * issue_weight w q)) r r'.
Proof.
  intros Hr Hk Hq. unfold insert_issue_request, update in Hr. apply modify_Ok in Hr as ->.
  apply insert_issue_settles; [done | by apply gains_insert in Hq].
Qed.
Lemma set_issue_status_settles k st q r u r' :
  set_issue_status k st r = Ok (u, r') → keyed r → IssueRequests (rt_issue r) !! k = Some q →
  st ≠ IssuePending → settles w (w_requests w * issue_weight w q) r r'.
Proof.
  intros Hr Hk Hq Hst. unfold set_issue_status, update in Hr. apply modify_Ok in Hr as ->.
  destruct (alter_issue_settles w (with_status st) k q r Hk Hq) as [? Ht].
  split; [done |]. rewrite Ht. replace (issue_weight w (with_status st q)) with 0; [lia |].
  unfold issue_weight. cbn. by destruct st.
Qed.
End issue_requests.
#[export] Hint Resolve issue_event_watched : keeps.

Section issue.
Context `{LoansApi} (w : weights) (Hw : balanced w).
Import Issue.Issue IssueStore.

Lemma request_issue_settles x v vid g r k r' :
  keyed r → _request_issue x v vid g r = Ok (k, r') →
  gains (IssueRequests (rt_issue r)) (IssueRequests (rt_issue r')) → settles w 0 r r'.
Proof.
  intros Hk Hr Hg. unfold _request_issue in Hr. outcome_inv. shifts w.
  match goal with He : Issue.Issue.deposit_event _ ?r1 = Ok _ |- _ =>
    apply (issue_event_watched w) in He; apply (event_settles w) in He as [Hkey Htot Hreq] end.
  match goal with Hi : insert_issue_request _ _ ?r1 = Ok _ |- _ =>
    assert (requests r1 = requests r) as Hr0 by congruence; unfold requests in Hr0, Hreq;
    injection Hr0 as Hr0 _ _; injection Hreq as Hreq _ _;
    apply (insert_issue_request_settles w) in Hi as [? Ht]; [| done | by rewrite <- Hreq, Hr0] end.
  split; [by apply Hkey |]. rewrite Htot.
  match goal with Hs : Amount.checked_sub _ _ = Ok _ |- _ => apply Amount.checked_sub_Ok in Hs as (_ & _ & Hv & _) end.
  unfold issue_weight in Ht. cbn in *. rewrite balanced_requests_issued in Ht by done. rewrite Hv in Ht. lia.
Qed.

Lemma get_pending_issue_Ok k r q :
  get_pending_issue k r = Ok q → IssueRequests (rt_issue r) !! k = Some q ∧ issue_status q = IssuePending.
Proof.
  intros Hr. unfold get_pending_issue, find_request in Hr. outcome_inv.
  destruct (issue_status _) eqn:Hs; [| done..]. by injection Hr as ->.
Qed.
Lemma get_issue_request_Ok k r q :
  get_issue_request_from_id k r = Ok q → IssueRequests (rt_issue r) !! k = Some q.
Proof.
  intros Hr. unfold get_issue_request_from_id, find_request in Hr. outcome_inv.
  destruct (issue_status _) eqn:Hs; [| done |]; by injection Hr as ->.
Qed.

Lemma slashed_on_cancel_watched x q : keeps (watched w) (slashed_on_cancel x q).
Proof. unfold slashed_on_cancel. keeps. Qed.
Hint Resolve slashed_on_cancel_watched : keeps.

Lemma treasury_moves a x : TokenWeight.moves w 0 (treasury a x).
Proof. apply transfer_funds_moves. Qed.
Hint Resolve treasury_moves : moves.

Lemma cancel_issue_settles x k r u r' :
  keyed r → _cancel_issue x k r = Ok (u, r') → settles w 0 r r'.
Proof.
  intros Hk Hr. unfold _cancel_issue in Hr.
  apply M_bind_Ok in Hr as (q0 & r0 & [[Hq Hs]%get_pending_issue_Ok ->]%query_Ok & Hr). outcome_inv.
  shifts w.
  match goal with Hm : set_issue_status _ _ _ = Ok _ |- _ =>
    apply (set_issue_status_settles w _ _ q0) in Hm as [? Ht]; [| done | same_requests | done] end.
  shifts w. split; [done |].
  match goal with Hs : Amount.checked_add _ _ = Ok _ |- _ => apply Amount.checked_add_Ok in Hs as (_ & _ & Hv & _) end.
  unfold issue_weight in Ht. rewrite Hs, balanced_requests_issued in Ht by done. rewrite Hv in *. cbn in *. lia.
Qed.

(** The request after a payment that is not what was requested. *)
Lemma set_issue_amount_settles k q t c r q' r' :
  keyed r → IssueRequests (rt_issue r) !! k = Some q →
  set_issue_amount k q t c r = Ok (q', r') →
  settles w (w_requests w * (issue_weight w q - issue_weight w q')) r r' ∧
  IssueRequests (rt_issue r') !! k = Some q' ∧
  issue_vault q' = issue_vault q ∧ issue_status q' = issue_status q ∧
  issue_amount q' + issue_fee q' = Amount.amount t.
Proof.
  intros Hk Hq Hr. unfold set_issue_amount, update in Hr.
  apply M_bind_Ok in Hr as (fee & r1 & [Hfee ->]%query_Ok & Hr).
  apply M_bind_Ok in Hr as (v & r1 & [Hv ->]%lift_Ok & Hr).
  apply Amount.checked_sub_Ok in Hv as (_ & _ & Hv & _).
  apply M_bind_Ok in Hr as ([] & r1 & ->%modify_Ok & Hr). outcome_inv.
  match goal with He : Issue.Issue.deposit_event _ ?r1 = Ok _ |- _ =>
    destruct (alter_issue_settles w (with_amounts (Amount.amount v) (Amount.amount fee)) k q r Hk Hq) as [Hk1 Ht];
    change r1 with (with_issue (with_IssueRequests (alter (with_amounts (Amount.amount v) (Amount.amount fee)) k)) r)
      in He; apply (issue_event_watched w) in He as Hwa end.
  split_and!; [| | done | done |].
  - split; [by eapply watched_keyed |]. rewrite (watched_total _ _ _ Hwa). exact Ht.
  - unfold watched, requests in Hwa. injection Hwa as _ _ Hi _ _ _. rewrite Hi. cbn.
    by rewrite lookup_alter_eq, Hq.
  - cbn in *. lia.
Qed.

Definition request_total (q : IssueRequest) : Z := issue_amount q + issue_fee q.
(** What both arms of [execute_issue] come to. *)
Definition executes (k : list byte) (q q' : IssueRequest) (r r' : Runtime) : Prop :=
  settles w (w_to_be_issued w (currencies (issue_vault q)) * request_total q' - w_requests w * issue_weight w q') r r' ∧
  IssueRequests (rt_issue r') !! k = Some q' ∧ issue_vault q' = issue_vault q.

Lemma execute_cancelled_settles x k q t e r q' r' :
  keyed r → IssueRequests (rt_issue r) !! k = Some q → issue_status q = IssueCancelled →
  Amount.amount e = request_total q →
  execute_cancelled x k q t e r = Ok (q', r') → executes k q q' r r'.
Proof.
  intros Hk Hq Hs He Hr. unfold execute_cancelled in Hr.
  apply M_bind_Ok in Hr as (? & r0 & [_ ->]%query_Ok & Hr).
  apply M_bind_Ok in Hr as (? & r1 & Hi & Hr).
  apply M_bind_Ok in Hr as (? & r2 & [_ ->]%lift_Ok & Hr).
  apply M_bind_Ok in Hr as (? & r2 & [_ ->]%ensureM_Ok & Hr).
  apply M_bind_Ok in Hr as (b & r2 & [Hne ->]%lift_Ok & Hr).
  apply try_increase_to_be_issued_moves with (w := w) in Hi as [Hk1 Hr1 Ht1]; [| done].
  assert (IssueRequests (rt_issue r1) !! k = Some q) as Hq1 by same_requests.
  assert (∀ q, issue_status q = IssueCancelled → issue_weight w q = 0) as Hz
    by (intros ? E; unfold issue_weight; by rewrite E).
  destruct b.
  - destruct (set_issue_amount_settles _ _ _ _ _ _ _ Hk1 Hq1 Hr) as ([Hk2 Ht2] & Hq2 & Hv & Hs2 & Hsum).
    split_and!; [| done..]. split; [done |].
    rewrite (Hz q), (Hz q') in * by congruence. unfold request_total. rewrite Hsum. lia.
  - outcome_inv. split_and!; [| done..]. split; [done |]. rewrite (Hz q') in * by done.
    unfold Amount.ne in Hne. outcome_inv. apply Amount.eq_Ok in H1 as [_ ->].
    destruct (Z.eqb_spec (Amount.amount t) (Amount.amount e)); [| done]. rewrite <- He. lia.
Qed.

Lemma pending_weight q : issue_status q = IssuePending →
  w_requests w * issue_weight w q = w_to_be_issued w (currencies (issue_vault q)) * request_total q.
Proof. intros Hs. unfold issue_weight. by rewrite Hs, balanced_requests_issued. Qed.

(** While a request is pending its counter follows it. *)
Definition follows (k : list byte) (q q' : IssueRequest) (r r' : Runtime) : Prop :=
  settles w 0 r r' ∧ IssueRequests (rt_issue r') !! k = Some q' ∧ issue_vault q' = issue_vault q ∧
  issue_status q' = IssuePending.

Lemma follows_amount k q q' t c r r1 r2 :
  shifted w (w_to_be_issued w (currencies (issue_vault q)) * (Amount.amount t - request_total q)) r r1 →
  IssueRequests (rt_issue r) !! k = Some q → issue_status q = IssuePending →
  set_issue_amount k q t c r1 = Ok (q', r2) → follows k q q' r r2.
Proof.
  intros [Hk1 Hr1 Ht1] Hq Hs Hr. assert (IssueRequests (rt_issue r1) !! k = Some q) as Hq1 by same_requests.
  destruct (set_issue_amount_settles _ _ _ _ _ _ _ Hk1 Hq1 Hr) as ([Hk2 Ht2] & Hq2 & Hv & Hs2 & Hsum).
  split_and!; [| done | done | congruence]. split; [done |].
  rewrite Z.mul_sub_distr_l, !pending_weight in Ht2 by congruence.
  fold (request_total q') in Hsum. rewrite Hv, Hsum in Ht2. lia.
Qed.

Lemma decrease_issue_amount_follows k q t e r q' c r' :
  keyed r → IssueRequests (rt_issue r) !! k = Some q → issue_status q = IssuePending →
  Amount.amount e = request_total q →
  decrease_issue_amount k q t e r = Ok ((q', c), r') → follows k q q' r r'.
Proof.
  intros Hk Hq Hs He Hr. unfold decrease_issue_amount in Hr. outcome_inv.
  match goal with Hs : Amount.checked_sub e _ = Ok _ |- _ => apply Amount.checked_sub_Ok in Hs as (_ & _ & Hv & _) end.
  match goal with Hd : VaultRegistry.decrease_to_be_issued_tokens _ _ _ = Ok _ |- _ =>
    apply decrease_to_be_issued_moves with (w := w) in Hd as Hd1; [| done] end.
  match goal with Hd : treasury _ _ _ = Ok _ |- _ => apply treasury_moves in Hd as Hd2; [| by destruct Hd1] end.
  eapply follows_amount; [| done..]. eapply shifted_trans; [exact Hd1 | exact Hd2 |]. rewrite Hv, He. lia.
Qed.

Lemma try_increase_issue_amount_follows k q t e r q' r' :
  keyed r → IssueRequests (rt_issue r) !! k = Some q → issue_status q = IssuePending →
  Amount.amount e = request_total q →
  try_increase_issue_amount k q t e r = Ok (q', r') → follows k q q' r r'.
Proof.
  intros Hk Hq Hs He Hr. unfold try_increase_issue_amount in Hr.
  apply M_bind_Ok in Hr as (? & r0 & [_ ->]%lift_Ok & Hr).
  apply M_bind_Ok in Hr as (mx & r1 & Hg & Hr). apply (get_issuable_watched w) in Hg.
  apply shifted_watched in Hg; [| done].
  apply M_bind_Ok in Hr as (a & r2 & [_ ->]%lift_Ok & Hr).
  apply M_bind_Ok in Hr as (b & r2 & Ha & Hr). apply attempt_Ok in Ha as [[-> Ha] | (-> & -> & _)].
  - apply try_increase_to_be_issued_moves with (w := w) in Ha; [| by destruct Hg].
    apply M_bind_Ok in Hr as (s & r3 & [Hv ->]%lift_Ok & Hr). apply Amount.checked_add_Ok in Hv as (_ & _ & Hv & _).
    eapply follows_amount; [| done..]. eapply shifted_trans; [exact Hg | exact Ha |]. rewrite Hv, He. lia.
  - outcome_inv. destruct Hg as [Hk1 Hr1 Ht1]. split_and!; [by split | same_requests | done | done].
Qed.

Lemma follows_executes k q q' r r' : follows k q q' r r' → executes k q q' r r'.
Proof.
  intros ([Hk Ht] & Hq & Hv & Hs). split_and!; [split; [done |] | done | done].
  rewrite pending_weight, Hv by done. lia.
Qed.
Lemma follows_shifted k q q' r r1 r2 : follows k q q' r r1 → shifted w 0 r1 r2 → follows k q q' r r2.
Proof.
  intros ([Hk Ht] & Hq & Hv & Hs) [Hk2 Hr2 Ht2].
  split_and!; [split; [done | lia] | same_requests | done | done].
Qed.

Lemma execute_pending_settles x k q t e r q' r' :
  keyed r → IssueRequests (rt_issue r) !! k = Some q → issue_status q = IssuePending →
  Amount.amount e = request_total q →
  execute_pending x k q t e r = Ok (q', r') → executes k q q' r r'.
Proof.
  intros Hk Hq Hs He Hr. apply follows_executes. unfold execute_pending in Hr.
  apply M_bind_Ok in Hr as (under & r0 & [_ ->]%lift_Ok & Hr).
  apply M_bind_Ok in Hr as ([q1 c] & r1 & Hrel & Hr). cbv beta iota in Hr.
  assert (follows k q q1 r r1) as Hf.
  { destruct under.
    - apply M_bind_Ok in Hrel as (? & r0 & [_ ->]%ensureM_Ok & Hrel).
      by eapply decrease_issue_amount_follows.
    - apply M_bind_Ok in Hrel as (over & r0 & [_ ->]%lift_Ok & Hrel).
      apply M_bind_Ok in Hrel as (liq & r0 & Hl & Hrel).
      assert (r0 = r) as -> by (destruct over; by outcome_inv).
      apply M_bind_Ok in Hrel as (q2 & r2 & Hi & Hrel). outcome_inv.
      destruct (negb liq); [by eapply try_increase_issue_amount_follows |]. outcome_inv.
      split_and!; [split; [done | lia] | done..]. }
  outcome_inv.
  match goal with Hu : on_tokens _ r1 = Ok _ |- _ => apply unlock_on_watched with (w := w) in Hu end.
  eapply follows_shifted; [exact Hf |]. apply shifted_watched; [by destruct Hf as [[]] | done].
Qed.

Lemma execute_issue_settles x k proof r u r' :
  keyed r → _execute_issue x k proof r = Ok (u, r') → settles w 0 r r'.
Proof.
  intros Hk Hr. unfold _execute_issue in Hr.
  apply M_bind_Ok in Hr as (q & r0 & [Hq%get_issue_request_Ok ->]%query_Ok & Hr).
  apply M_bind_Ok in Hr as (paid & r0 & [_ ->]%query_Ok & Hr).
  apply M_bind_Ok in Hr as (e & r0 & [He ->]%lift_Ok & Hr).
  apply Amount.checked_add_Ok in He as (_ & _ & He & _).
  apply M_bind_Ok in Hr as (q' & r1 & Harm & Hr).
  assert (executes k q q' r r1) as ([Hk1 Ht1] & Hq1 & Hv).
  { destruct (issue_status q) eqn:Hs; [| discriminate Harm |].
    - by eapply execute_pending_settles.
    - by eapply execute_cancelled_settles. }
  clear Harm Hq. outcome_inv. shifts w.
  match goal with Hm : set_issue_status _ _ _ = Ok _ |- _ =>
    apply (set_issue_status_settles w _ _ q') in Hm as [? Ht]; [| done | same_requests | done] end.
  shifts w. split; [done |].
  match goal with Hs : Amount.checked_add _ _ = Ok _ |- _ => apply Amount.checked_add_Ok in Hs as (_ & _ & Hsum & _) end.
  pose proof (balanced_issued _ Hw (currencies (issue_vault q'))
                (Amount.amount (amount_of q') + Amount.amount (fee_of q'))) as Hb.
  assert (priced w (Amount.new (Amount.amount (amount_of q') + Amount.amount (fee_of q'))
            (wrapped (currencies (issue_vault q')))) = priced w (amount_of q') + priced w (fee_of q')) as Hp.
  { unfold priced, at_currency, amount_of, fee_of, wrapped_currency. cbn. case_decide; lia. }
  rewrite Hp in Hb. unfold request_total in *. rewrite <- Hv in *. cbn in *. rewrite Hsum in *. lia.
Qed.
End issue.

(** ** Redeem *)
Section redeem_requests.
Context `{LoansApi} (w : weights).
Import Redeem.Redeem RedeemStore.

Lemma redeem_event_watched e : keeps (watched w) (Redeem.Redeem.deposit_event e).
Proof. unfold Redeem.Redeem.deposit_event, update. keeps. Qed.
Lemma premium_for_watched vid a : keeps (watched w) (premium_for vid a).
Proof. unfold premium_for. keeps. Qed.
Lemma collect_fee_watched q : keeps (watched w) (collect_fee q).
Proof. unfold collect_fee. keeps. Qed.
Lemma release_replace_collateral_moves vid a : moves w 0 (release_replace_collateral vid a).
Proof.
  unfold release_replace_collateral. apply moves_bind_l; [moves |]. intros [? ?]. moves.
Qed.
Lemma insert_redeem_request_settles k q r u r' :
  insert_redeem_request k q r = Ok (u, r') → keyed r →
  gains (RedeemRequests (rt_redeem r)) (RedeemRequests (rt_redeem r')) →
  settles w (- (w_requests w * redeem_weight w q)) r r'.
Proof.
  intros Hr Hk Hq. unfold insert_redeem_request, update in Hr. apply modify_Ok in Hr as ->.
  apply insert_redeem_settles; [done | by apply gains_insert in Hq].
Qed.
Lemma set_redeem_status_settles k st q r u r' :
  set_redeem_status k st r = Ok (u, r') → keyed r → RedeemRequests (rt_redeem r) !! k = Some q →
  st ≠ RedeemPending → settles w (w_requests w * redeem_weight w q) r r'.
Proof.
  intros Hr Hk Hq Hst. unfold set_redeem_status, update in Hr. outcome_inv.
  destruct (alter_redeem_settles w (with_status u) k q r Hk Hq) as [? Ht].
  split; [done |]. rewrite Ht. replace (redeem_weight w (with_status u q)) with 0; [lia |].
  unfold redeem_weight. cbn. by destruct u.
Qed.
(** A change of status of a request that is not pending. *)
Lemma set_redeem_status_closed k st q r u r' :
  set_redeem_status k st r = Ok (u, r') → keyed r → RedeemRequests (rt_redeem r) !! k = Some q →
  st ≠ RedeemPending → redeem_status q ≠ RedeemPending → settles w 0 r r'.
Proof.
  intros Hr Hk Hq Hst Hcl. destruct (set_redeem_status_settles _ _ _ _ _ _ Hr Hk Hq Hst) as [? Ht].
  split; [done |]. rewrite Ht. unfold redeem_weight. destruct (redeem_status q); [done | lia..].
Qed.
End redeem_requests.
#[export] Hint Resolve redeem_event_watched premium_for_watched collect_fee_watched : keeps.
#[export] Hint Resolve release_replace_collateral_moves : moves.

Section redeem.
Context `{LoansApi} (w : weights) (Hw : balanced w).
Import Redeem.Redeem RedeemStore.

(** The tokens a vault gives up for a request. *)
Definition burned (q : RedeemRequest) : Z := redeem_amount_btc q + redeem_transfer_fee_btc q.

Lemma get_open_redeem_Ok k r q :
  get_open_redeem_request_from_id k r = Ok q →
  RedeemRequests (rt_redeem r) !! k = Some q ∧ redeem_status q = RedeemPending.
Proof.
  intros Hr. unfold get_open_redeem_request_from_id, find_request in Hr. outcome_inv.
  destruct (redeem_status _) eqn:Hs; [| done..]. by injection Hr as ->.
Qed.
Lemma redeem_pending_weight q : redeem_status q = RedeemPending →
  w_requests w * redeem_weight w q = w_to_be_redeemed w (redeem_vault q) * burned q.
Proof. intros Hs. unfold redeem_weight. by rewrite Hs, balanced_requests_redeemed. Qed.

(** The wrapped tokens of a vault, in the supply and as issued by it. *)
Lemma priced_wrapped vid a :
  Amount.currency a = wrapped_currency vid → priced w a = - (w_issued w (currencies vid) * Amount.amount a).
Proof.
  intros Hc. pose proof (balanced_issued _ Hw (currencies vid) (Amount.amount a)) as Hb.
  destruct a as [v c]. cbn in *. subst c. unfold wrapped_currency. lia.
Qed.

Lemma request_redeem_settles x v addr vid r k r' :
  keyed r → _request_redeem x v addr vid r = Ok (k, r') →
  gains (RedeemRequests (rt_redeem r)) (RedeemRequests (rt_redeem r')) → settles w 0 r r'.
Proof.
  intros Hk Hr Hg. unfold _request_redeem in Hr. outcome_inv. shifts w.
  match goal with He : Redeem.Redeem.deposit_event _ ?r1 = Ok _ |- _ =>
    apply (redeem_event_watched w) in He; apply (event_settles w) in He as [Hkey Htot Hreq] end.
  match goal with Hi : insert_redeem_request _ _ ?r1 = Ok _ |- _ =>
    assert (requests r1 = requests r) as Hr0 by congruence; unfold requests in Hr0, Hreq;
    injection Hr0 as _ Hr0 _; injection Hreq as _ Hreq _;
    apply (insert_redeem_request_settles w) in Hi as [? Ht]; [| done | by rewrite <- Hreq, Hr0] end.
  split; [by apply Hkey |]. rewrite Htot.
  match goal with Hs : Amount.checked_sub ?a _ = Ok ?c, Hs' : Amount.checked_sub ?c _ = Ok _ |- _ =>
    apply Amount.checked_sub_Ok in Hs' as (_ & _ & Hv & _) end.
  rewrite redeem_pending_weight in Ht by done. unfold burned in Ht. cbn in *. rewrite Hv in Ht. lia.
Qed.

Lemma liquidation_redeem_settles x p v r u r' :
  keyed r → _liquidation_redeem x p v r = Ok (u, r') → settles w 0 r r'.
Proof.
  intros Hk Hr. unfold _liquidation_redeem in Hr. outcome_inv. shifts w. split; [done |].
  pose proof (balanced_issued _ Hw p v) as Hb. destruct p as [pc pw]. cbn in *. lia.
Qed.

Lemma execute_redeem_settles k proof r u r' :
  keyed r → _execute_redeem k proof r = Ok (u, r') → settles w 0 r r'.
Proof.
  intros Hk Hr. unfold _execute_redeem in Hr.
  apply M_bind_Ok in Hr as (q & r0 & [[Hq Hs]%get_open_redeem_Ok ->]%query_Ok & Hr).
  outcome_inv. shifts w.
  match goal with Hm : set_redeem_status _ _ _ = Ok _ |- _ =>
    apply (set_redeem_status_settles w _ _ q) in Hm as [? Ht]; [| done | same_requests | done] end.
  shifts w. split; [done |].
  match goal with Hs : Amount.checked_add _ _ = Ok _ |- _ => apply Amount.checked_add_Ok in Hs as (_ & Hc & Hv & _) end.
  rewrite redeem_pending_weight in Ht by done. rewrite (priced_wrapped (redeem_vault q)) in * by done.
  unfold burned in Ht. rewrite Hv in *. cbn in *. lia.
Qed.

Lemma confiscate_liquidated_moves x vid a b re : moves w 0 (confiscate_liquidated x vid a b re).
Proof. unfold confiscate_liquidated. moves. Qed.
Lemma slash_vault_moves x vid a re : moves w 0 (slash_vault x vid a re).
Proof. unfold slash_vault. moves. Qed.
Hint Resolve confiscate_liquidated_moves slash_vault_moves : moves.

(** A pending request settled one way or the other. *)
Lemma settle_status_settles k st q r0 r u r' δ :
  set_redeem_status k st r = Ok (u, r') → st ≠ RedeemPending → redeem_status q = RedeemPending →
  RedeemRequests (rt_redeem r0) !! k = Some q → shifted w δ r0 r →
  settles w (δ + w_to_be_redeemed w (redeem_vault q) * burned q) r0 r'.
Proof.
  intros Hr Hst Hs Hq [Hk1 Hr1 Ht1].
  apply (set_redeem_status_settles w _ _ q) in Hr as [? Ht]; [| done | same_requests | done].
  split; [done |]. rewrite redeem_pending_weight in Ht by done. lia.
Qed.

Lemma settle_reimbursed_settles x k q liq a r st r' :
  keyed r → RedeemRequests (rt_redeem r) !! k = Some q → redeem_status q = RedeemPending →
  Amount.currency a = wrapped_currency (redeem_vault q) → Amount.amount a = burned q →
  settle_reimbursed x k q liq a r = Ok (st, r') → settles w 0 r r'.
Proof.
  intros Hk Hq Hs Hc Ha Hr. unfold settle_reimbursed in Hr.
  apply M_bind_Ok in Hr as ([] & r1 & Hfee & Hr). apply (collect_fee_watched w) in Hfee.
  apply shifted_watched in Hfee; [| done]. pose proof (shifted_keyed _ _ _ _ Hfee) as Hk1.
  assert (∀ δ r2, settles w δ r r2 → δ = 0 → settles w 0 r r2) as Hz by (by intros δ r2 ? <-).
  pose proof (priced_wrapped (redeem_vault q) a Hc) as Hp.
  assert (∀ r2 r3 r4 r5 u1 u2 u3 st', shifted w 0 r r2 →
    on_tokens (Amount.burn_from a x) r2 = Ok (u1, r3) →
    VaultRegistry.decrease_tokens (redeem_vault q) (redeem_redeemer q) a r3 = Ok (u2, r4) →
    set_redeem_status k st' r4 = Ok (u3, r5) → st' ≠ RedeemPending → settles w 0 r r5) as Hburn.
  { intros r2 r3 r4 r5 u1 u2 u3 st' H2 Hb Hd Hset Hst.
    apply (burn_from_moves w) in Hb; [| by destruct H2].
    apply (decrease_tokens_moves w) in Hd; [| by destruct Hb].
    eapply Hz; [eapply settle_status_settles; [exact Hset | done.. |] |].
    - eapply shifted_trans; [exact H2 | eapply shifted_trans; [exact Hb | exact Hd | done] | done].
    - rewrite Hp, Ha. lia. }
  destruct liq.
  - outcome_inv. by eapply Hburn.
  - apply M_bind_Ok in Hr as (below & r2 & Hb & Hr). apply (below_secure_watched w) in Hb.
    apply shifted_watched in Hb; [| done].
    assert (shifted w 0 r r2) as H2 by by eapply shifted_trans. destruct below.
    + outcome_inv. by eapply Hburn.
    + outcome_inv. pose proof (shifted_keyed _ _ _ _ H2). clear Hburn Hz. shifts w.
      apply (set_redeem_status_settles w _ _ q) in Hr as [? Ht]; [| done | same_requests | done].
      split; [done |]. rewrite redeem_pending_weight in Ht by done. rewrite Ha in *. lia.
Qed.

Lemma settle_retried_settles x k q a r st r' :
  keyed r → RedeemRequests (rt_redeem r) !! k = Some q → redeem_status q = RedeemPending →
  Amount.amount a = burned q → settle_retried x k q a r = Ok (st, r') → settles w 0 r r'.
Proof.
  intros Hk Hq Hs Ha Hr. unfold settle_retried in Hr. outcome_inv. shifts w.
  apply (set_redeem_status_settles w _ _ q) in Hr as [? Ht]; [| done | same_requests | done].
  split; [done |]. rewrite redeem_pending_weight in Ht by done. rewrite Ha in *. lia.
Qed.

Lemma cancel_redeem_settles x k re r u r' :
  keyed r → _cancel_redeem x k re r = Ok (u, r') → settles w 0 r r'.
Proof.
  intros Hk Hr. unfold _cancel_redeem in Hr.
  apply M_bind_Ok in Hr as (q & r0 & [[Hq Hs]%get_open_redeem_Ok ->]%query_Ok & Hr).
  outcome_inv.
  match goal with Ha : Amount.checked_add _ _ = Ok _ |- _ =>
    apply Amount.checked_add_Ok in Ha as (_ & Hc & Ha & _) end.
  repeat shift_step w.
  match goal with Hset : (if re then _ else _) ?r1 = Ok (_, ?r2), Hk1 : keyed ?r1 |- _ =>
    assert (settles w 0 r1 r2) as [? ?] end.
  { repeat match goal with Hs : shifted w _ _ _ |- _ => destruct Hs as [_ ? ?] end. destruct re.
    - (eapply settle_reimbursed_settles; cycle -1); [eassumption | done | same_requests | done..].
    - (eapply settle_retried_settles; cycle -1); [eassumption | done | same_requests | done..]. }
  shifts w. split; [done | lia].
Qed.

Lemma find_redeem_Ok k r q : Redeem.Redeem.find_request k r = Ok q → RedeemRequests (rt_redeem r) !! k = Some q.
Proof. intros Hr. by apply ok_or_Ok in Hr. Qed.

Lemma mint_reimbursed_settles vid k r u r' :
  keyed r → _mint_tokens_for_reimbursed_redeem vid k r = Ok (u, r') → settles w 0 r r'.
Proof.
  intros Hk Hr. unfold _mint_tokens_for_reimbursed_redeem in Hr.
  apply M_bind_Ok in Hr as (q & r0 & [Hq%find_redeem_Ok ->]%query_Ok & Hr).
  apply M_bind_Ok in Hr as (? & r0 & [Hs ->]%ensureM_Ok & Hr).
  apply M_bind_Ok in Hr as (? & r0 & [Hvid%bool_decide_eq_true ->]%ensureM_Ok & Hr).
  subst vid. assert (redeem_status q ≠ RedeemPending) as Hcl by (intros E; by rewrite E in Hs).
  outcome_inv. shifts w.
  match goal with Hm : set_redeem_status _ _ _ = Ok _ |- _ =>
    apply (set_redeem_status_closed w _ _ q) in Hm as [? Ht]; [| done | same_requests | done | done] end.
  shifts w. split; [done |].
  match goal with Ha : Amount.checked_add _ _ = Ok _ |- _ => apply Amount.checked_add_Ok in Ha as (_ & Hc & _) end.
  rewrite (priced_wrapped (redeem_vault q)) in * by done. lia.
Qed.

Lemma or_error_moves {A} δ (m : B A) e : moves w δ m → moves w δ (or_error m e).
Proof. intros Hm r a r' Hk Hr. unfold or_error in Hr. outcome_inv. by eapply Hm. Qed.
Lemma or_error_watched {A} (m : B A) e : keeps (watched w) m → keeps (watched w) (or_error m e).
Proof. intros Hm r a r' Hr. unfold or_error in Hr. outcome_inv. by eapply Hm. Qed.

Lemma take_user_tokens_moves x a f : moves w (- priced w a) (take_user_tokens x a f).
Proof.
  unfold take_user_tokens. apply moves_bind_l; [apply moves_keeps, or_error_watched, lock_on_watched | intros _].
  apply moves_bind_r; [apply burn_from_moves | intros _].
  apply moves_keeps, keeps_bind; [apply or_error_watched, transfer_watched | intros _; apply distribute_rewards_watched].
Qed.
Lemma update_vault_tokens_moves vid a :
  moves w (- (w_issued w (currencies vid) * Amount.amount a)) (update_vault_tokens vid a).
Proof.
  unfold update_vault_tokens. eapply moves_eq.
  - apply moves_bind; [apply try_increase_to_be_redeemed_moves | intros _].
    apply moves_bind_r; [apply redeem_tokens_moves | intros _; apply release_replace_collateral_moves].
  - lia.
Qed.
Hint Resolve take_user_tokens_moves update_vault_tokens_moves : moves.

Lemma self_redeem_settles vid a r u r' :
  keyed r → Amount.currency a = wrapped_currency vid →
  self_redeem_execute vid a r = Ok (u, r') → settles w 0 r r'.
Proof.
  intros Hk Hc Hr. unfold self_redeem_execute in Hr.
  apply M_bind_Ok in Hr as (? & r0 & [_ ->]%query_Ok & Hr).
  apply M_bind_Ok in Hr as (? & r0 & [_ ->]%ensureM_Ok & Hr).
  apply M_bind_Ok in Hr as ([f c] & r1 & Hca & Hr). cbv beta iota in Hr.
  assert (r1 = r ∧ Amount.currency c = wrapped_currency vid) as [-> Hcc].
  { unfold calculate_token_amounts in Hca. outcome_inv. repeat case_match; outcome_inv.
    all: match goal with Hs : Amount.checked_sub _ _ = Ok _ |- _ => apply Amount.checked_sub_Ok in Hs as (_ & Hs & _) end.
    all: split; [done | congruence]. }
  outcome_inv. shifts w. split; [done |]. rewrite (priced_wrapped vid) in * by done. lia.
Qed.
End redeem.

(** ** Replace *)
Section replace.
Context `{LoansApi} (w : weights) (Hw : balanced w).
Import Replace.Replace ReplaceStore.

Lemma replace_event_watched e : keeps (watched w) (Replace.Replace.deposit_event e).
Proof. unfold Replace.Replace.deposit_event, update. keeps. Qed.
Hint Resolve replace_event_watched : keeps.

Lemma request_replace_moves vid v : moves w 0 (_request_replace vid v).
Proof. unfold _request_replace. moves. Qed.
Lemma withdraw_replace_moves vid v : moves w 0 (_withdraw_replace_request vid v).
Proof.
  unfold _withdraw_replace_request. apply moves_bind_l; [moves |]. intros [? ?]. cbv beta iota. moves.
Qed.
Lemma accept_replace_tokens_moves old new t :
  moves w ((w_to_be_issued w (currencies new) + w_to_be_redeemed w old) * Amount.amount t)
    (accept_replace_tokens old new t).
Proof.
  unfold accept_replace_tokens. eapply moves_eq.
  - apply moves_bind; [apply try_increase_to_be_redeemed_moves | intros _; apply try_increase_to_be_issued_moves].
  - lia.
Qed.
Hint Resolve accept_replace_tokens_moves : moves.

Lemma set_replace_status_settles k st q r u r' :
  set_replace_status k st r = Ok (u, r') → keyed r → ReplaceRequests (rt_replace r) !! k = Some q →
  st ≠ ReplacePending → settles w (w_requests w * replace_weight w q) r r'.
Proof.
  intros Hr Hk Hq Hst. unfold set_replace_status, update in Hr. apply modify_Ok in Hr as ->.
  destruct (alter_replace_settles w (with_status st) k q r Hk Hq) as [? Ht]; [done |].
  split; [done |]. rewrite Ht. replace (replace_weight w (with_status st q)) with 0; [lia |].
  unfold replace_weight. cbn. by destruct st.
Qed.

Lemma insert_replace_request_settles k q r u r' :
  insert_replace_request k q r = Ok (u, r') → keyed r →
  gains (ReplaceRequests (rt_replace r)) (ReplaceRequests (rt_replace r')) →
  replaceable (replace_old_vault q) (replace_new_vault q) →
  settles w (- (w_requests w * replace_weight w q)) r r'.
Proof.
  intros Hr Hk Hg Hq. unfold insert_replace_request, update in Hr. apply modify_Ok in Hr as ->.
  apply insert_replace_settles; [done | by apply gains_insert in Hg | done].
Qed.
Lemma replace_pending_weight q : replace_status q = ReplacePending →
  w_requests w * replace_weight w q =
    (w_to_be_issued w (currencies (replace_new_vault q)) + w_to_be_redeemed w (replace_old_vault q)) *
    replace_amount q.
Proof.
  intros Hs. unfold replace_weight. rewrite Hs, !Z.mul_add_distr_r, Z.mul_add_distr_l.
  by rewrite balanced_requests_issued, balanced_requests_redeemed.
Qed.

Lemma accept_replace_settles old new v c addr r u r' :
  keyed r → _accept_replace old new v c addr r = Ok (u, r') →
  gains (ReplaceRequests (rt_replace r)) (ReplaceRequests (rt_replace r')) → settles w 0 r r'.
Proof.
  intros Hk Hr Hg. unfold _accept_replace in Hr.
  apply M_bind_Ok in Hr as (? & r0 & [Hne ->]%ensureM_Ok & Hr).
  apply M_bind_Ok in Hr as (? & r0 & [Hc%bool_decide_eq_true ->]%ensureM_Ok & Hr).
  assert (replaceable old new) as Hpair by (split; [by case_bool_decide | done]). clear Hne.
  apply M_bind_Ok in Hr as (? & r0 & [_ ->]%query_Ok & Hr).
  apply M_bind_Ok in Hr as ([t g] & r1 & Hd & Hr). cbv beta iota in Hr.
  outcome_inv. shifts w.
  match goal with He : Replace.Replace.deposit_event _ ?r1 = Ok _ |- _ =>
    apply replace_event_watched in He; apply (event_settles w) in He as [Hkey Htot Hreq] end.
  match goal with Hi : insert_replace_request _ _ ?r1 = Ok _ |- _ =>
    assert (requests r1 = requests r) as Hr0 by congruence; unfold requests in Hr0, Hreq;
    injection Hr0 as _ _ Hr0; injection Hreq as _ _ Hreq;
    apply insert_replace_request_settles in Hi as [? Ht]; [| done | by rewrite <- Hreq, Hr0 | done] end.
  split; [by apply Hkey |]. rewrite Htot, Ht, replace_pending_weight by done. cbn. lia.
Qed.

Lemma get_open_replace_Ok k r q :
  get_open_replace_request k r = Ok q →
  ReplaceRequests (rt_replace r) !! k = Some q ∧ replace_status q = ReplacePending.
Proof.
  intros Hr. unfold get_open_replace_request, find_request in Hr. outcome_inv.
  destruct (replace_status _) eqn:Hs; [| done..]. by injection Hr as ->.
Qed.
Lemma get_open_or_cancelled_Ok k r q :
  get_open_or_cancelled_replace_request k r = Ok q → ReplaceRequests (rt_replace r) !! k = Some q.
Proof.
  intros Hr. unfold get_open_or_cancelled_replace_request, find_request in Hr. outcome_inv.
  destruct (replace_status _) eqn:Hs; [| done |]; by injection Hr as ->.
Qed.

(** Both arms of [execute_replace]: the tokens are held and to be issued, and counted if pending. *)
Lemma execute_by_status_moves q :
  moves w ((w_to_be_issued w (currencies (replace_new_vault q)) + w_to_be_redeemed w (replace_old_vault q)) *
           replace_amount q - w_requests w * replace_weight w q) (execute_by_status q).
Proof.
  unfold execute_by_status. destruct (replace_status q) eqn:Hs.
  - eapply moves_eq; [moves | rewrite replace_pending_weight by done; lia].
  - intros r a r' _ Hr. discriminate Hr.
  - eapply moves_eq; [apply moves_bind_r; [apply accept_replace_tokens_moves | moves] |].
    unfold replace_weight. rewrite Hs. cbn. lia.
Qed.
Hint Resolve execute_by_status_moves : moves.

Lemma issued_replaceable old new v :
  replaceable old new → w_issued w (currencies old) * v = w_issued w (currencies new) * v.
Proof.
  intros [_ Hc]. rewrite !balanced_issued by done. unfold wrapped_currency in Hc. by rewrite Hc.
Qed.

Lemma execute_replace_settles k proof r u r' :
  keyed r → _execute_replace k proof r = Ok (u, r') → settles w 0 r r'.
Proof.
  intros Hk Hr. unfold _execute_replace in Hr.
  apply M_bind_Ok in Hr as (q & r0 & [Hq%get_open_or_cancelled_Ok ->]%query_Ok & Hr).
  assert (replaceable (replace_old_vault q) (replace_new_vault q)) as Hp by (destruct Hk as (_ & _ & Hk); by eapply Hk).
  apply M_bind_Ok in Hr as (? & r0 & [_ ->]%query_Ok & Hr).
  apply M_bind_Ok in Hr as (c & r1 & Hb & Hr). apply execute_by_status_moves in Hb; [| done].
  apply M_bind_Ok in Hr as (? & r2 & Ht & Hr).
  apply (replace_tokens_moves w) in Ht; [| by destruct Hp | by destruct Hb].
  destruct Hb as [Hk1 R1 T1], Ht as [Hk2 R2 T2]. outcome_inv. shifts w.
  apply (set_replace_status_settles _ _ q) in Hr as [? Ht]; [| done | same_requests | done].
  split; [done |]. pose proof (issued_replaceable _ _ (replace_amount q) Hp). cbn in *. lia.
Qed.

Lemma cancel_replace_settles k r u r' :
  keyed r → _cancel_replace k r = Ok (u, r') → settles w 0 r r'.
Proof.
  intros Hk Hr. unfold _cancel_replace in Hr.
  apply M_bind_Ok in Hr as (q & r0 & [[Hq Hs]%get_open_replace_Ok ->]%query_Ok & Hr).
  assert (replaceable (replace_old_vault q) (replace_new_vault q)) as [Hp _] by (destruct Hk as (_ & _ & Hk); by eapply Hk).
  apply M_bind_Ok in Hr as (? & r0 & [-> ->]%gets_Ok & Hr).
  apply M_bind_Ok in Hr as (? & r0 & [_ ->]%query_Ok & Hr).
  apply M_bind_Ok in Hr as (? & r0 & [_ ->]%ensureM_Ok & Hr).
  apply M_bind_Ok in Hr as (? & r1 & Hc & Hr). apply (cancel_replace_tokens_moves w) in Hc; [| done | done].
  destruct Hc as [Hk1 R1 T1]. unfold release_collateral in Hr. outcome_inv. shifts w.
  match goal with Hm : set_replace_status _ _ _ = Ok _ |- _ =>
    apply (set_replace_status_settles _ _ q) in Hm as [? Ht]; [| done | same_requests | done] end.
  shifts w. split; [done |]. rewrite replace_pending_weight in Ht by done. cbn in *. lia.
Qed.
End replace.
