(* ===== verification/BridgeStep.v ===== *)
(** * The bridge as a transition system

    [dispatch] is the call of the bridge's extrinsics; a [step] is an extrinsic
    that succeeded (the storage of one that fails is rolled back), the oracle's
    work at the beginning of a block, a transfer of tokens, a change of the relay,
    or the passing of time.  [balanced_step] says that a step preserves every balanced total. *)

From coqutil Require Import Byte.
From Stdlib Require Import ZArith Lia.
From stdpp Require Import base tactics option list numbers gmap relations.
From S2P Require Import Prelude Bytes BtcTypes BtcMerkle BtcBuild Security Relay RelayVerify Primitives FixedPoint Reward Staking Tokens Amount BridgeStores Bridge Oracle Fee Registry Collateral Nomination VaultRegistry TokenWeight TokenMoves TokenLaws Issue Redeem Replace BridgeLaws.

Local Open Scope Z_scope.

Module Call.
Inductive t : Type :=
  | request_issue (amount : Z) (vault_id : VaultId) (griefing_currency : CurrencyId.t)
  | execute_issue (issue_id : list byte) (unchecked_transaction : FullTransactionProof)
  | cancel_issue (issue_id : list byte)
  | set_issue_period (period : Z)
  | request_redeem (amount_wrapped : Z) (btc_address : Address) (vault_id : VaultId)
  | liquidation_redeem (currencies : VaultCurrencyPair) (amount_wrapped : Z)
  | execute_redeem (redeem_id : list byte) (unchecked_transaction : FullTransactionProof)
  | cancel_redeem (redeem_id : list byte) (reimburse : bool)
  | set_redeem_period (period : Z)
  | mint_tokens_for_reimbursed_redeem (currency_pair : VaultCurrencyPair) (redeem_id : list byte)
  | self_redeem (currency_pair : VaultCurrencyPair) (amount_wrapped : Z)
  | request_replace (currency_pair : VaultCurrencyPair) (amount : Z)
  | withdraw_replace (currency_pair : VaultCurrencyPair) (amount : Z)
  | accept_replace (currency_pair : VaultCurrencyPair) (old_vault : VaultId) (amount_btc collateral : Z)
      (btc_address : Address)
  | execute_replace (replace_id : list byte) (unchecked_transaction : FullTransactionProof)
  | cancel_replace (replace_id : list byte)
  | set_replace_period (period : Z)
  | register_vault (currency_pair : VaultCurrencyPair) (collateral : Z)
  | register_public_key (public_key : PublicKey)
  | accept_new_issues (currency_pair : VaultCurrencyPair) (accept : bool)
  | set_custom_secure_threshold (currency_pair : VaultCurrencyPair) (custom_threshold : option Z)
  | report_undercollateralized_vault (vault_id : VaultId)
  | set_minimum_collateral (currency_id : CurrencyId.t) (minimum : Z)
  | set_system_collateral_ceiling (currency_pair : VaultCurrencyPair) (ceiling : Z)
  | set_secure_collateral_threshold (currency_pair : VaultCurrencyPair) (threshold : Z)
  | set_premium_redeem_threshold (currency_pair : VaultCurrencyPair) (threshold : Z)
  | set_liquidation_collateral_threshold (currency_pair : VaultCurrencyPair) (threshold : Z)
  | recover_vault_id (currency_pair : VaultCurrencyPair)
  | set_nomination_enabled (enabled : bool)
  | opt_in_to_nomination (currency_pair : VaultCurrencyPair)
  | opt_out_of_nomination (currency_pair : VaultCurrencyPair)
  | deposit_collateral (vault_id : VaultId) (amount : Z)
  | withdraw_collateral (vault_id : VaultId) (amount index : option Z)
  | set_nomination_limit (currency_pair : VaultCurrencyPair) (limit : Z)
  | withdraw_rewards (vault_id : VaultId) (index : option Z)
  | set_issue_fee (fee : Z)
  | set_issue_griefing_collateral (griefing_collateral : Z)
  | set_redeem_fee (fee : Z)
  | set_premium_redeem_fee (fee : Z)
  | set_punishment_fee (fee : Z)
  | set_replace_griefing_collateral (griefing_collateral : Z)
  | set_commission (currencies : VaultCurrencyPair) (commission : Z)
  | feed_values (values : list (OracleKey * Z))
  | insert_authorized_oracle (account_id : AccountId) (name : list byte)
  | remove_authorized_oracle (account_id : AccountId).
End Call.

Section dispatch.
Context `{LoansApi}.

Definition dispatch (o : Origin) (c : Call.t) : B unit :=
  match c with
  | Call.request_issue v vid g => Issue.request_issue o v vid g
  | Call.execute_issue k proof => Issue.execute_issue o k proof
  | Call.cancel_issue k => Issue.cancel_issue o k
  | Call.set_issue_period n => Issue.set_issue_period o n
  | Call.request_redeem v addr vid => Redeem.request_redeem o v addr vid
  | Call.liquidation_redeem p v => Redeem.liquidation_redeem o p v
  | Call.execute_redeem k proof => Redeem.execute_redeem o k proof
  | Call.cancel_redeem k b => Redeem.cancel_redeem o k b
  | Call.set_redeem_period n => Redeem.set_redeem_period o n
  | Call.mint_tokens_for_reimbursed_redeem p k => Redeem.mint_tokens_for_reimbursed_redeem o p k
  | Call.self_redeem p v => Redeem.self_redeem o p v
  | Call.request_replace p v => Replace.request_replace o p v
  | Call.withdraw_replace p v => Replace.withdraw_replace o p v
  | Call.accept_replace p old v c addr => Replace.accept_replace o p old v c addr
  | Call.execute_replace k proof => Replace.execute_replace o k proof
  | Call.cancel_replace k => Replace.cancel_replace o k
  | Call.set_replace_period n => Replace.set_replace_period o n
  | Call.register_vault p c => VaultRegistry.register_vault o p c
  | Call.register_public_key k => VaultRegistry.register_public_key o k
  | Call.accept_new_issues p b => VaultRegistry.accept_new_issues o p b
  | Call.set_custom_secure_threshold p t => VaultRegistry.set_custom_secure_threshold o p t
  | Call.report_undercollateralized_vault vid => VaultRegistry.report_undercollateralized_vault o vid
  | Call.set_minimum_collateral c v => VaultRegistry.set_minimum_collateral o c v
  | Call.set_system_collateral_ceiling p v => VaultRegistry.set_system_collateral_ceiling o p v
  | Call.set_secure_collateral_threshold p t => VaultRegistry.set_secure_collateral_threshold o p t
  | Call.set_premium_redeem_threshold p t => VaultRegistry.set_premium_redeem_threshold o p t
  | Call.set_liquidation_collateral_threshold p t => VaultRegistry.set_liquidation_collateral_threshold o p t
  | Call.recover_vault_id p => VaultRegistry.recover_vault_id o p
  | Call.set_nomination_enabled b => Nomination.set_nomination_enabled o b
  | Call.opt_in_to_nomination p => Nomination.opt_in_to_nomination o p
  | Call.opt_out_of_nomination p => Nomination.opt_out_of_nomination o p
  | Call.deposit_collateral vid v => Nomination.deposit_collateral o vid v
  | Call.withdraw_collateral vid v i => Nomination.withdraw_collateral o vid v i
  | Call.set_nomination_limit p v => Nomination.set_nomination_limit o p v
  | Call.withdraw_rewards vid i => Fee.withdraw_rewards o vid i
  | Call.set_issue_fee v => Fee.set_issue_fee o v
  | Call.set_issue_griefing_collateral v => Fee.set_issue_griefing_collateral o v
  | Call.set_redeem_fee v => Fee.set_redeem_fee o v
  | Call.set_premium_redeem_fee v => Fee.set_premium_redeem_fee o v
  | Call.set_punishment_fee v => Fee.set_punishment_fee o v
  | Call.set_replace_griefing_collateral v => Fee.set_replace_griefing_collateral o v
  | Call.set_commission p v => Fee.set_commission o p v
  | Call.feed_values l => Oracle.feed_values o l
  | Call.insert_authorized_oracle x n => Oracle.insert_authorized_oracle o x n
  | Call.remove_authorized_oracle x => Oracle.remove_authorized_oracle o x
  end.

(** [(vault_registry::PoolManager<Runtime>, Loans)] *)
Definition on_exchange_rate_change (c : CurrencyId.t) : B unit :=
  PoolManager.on_exchange_rate_change c;; loans_on_exchange_rate_change c.

(** The secure id of a new request is not that of another: it is a hash of the
    account, a counter and the parent block. *)
Definition new_id (c : Call.t) (r r' : Runtime) : Prop :=
  match c with
  | Call.request_issue _ _ _ =>
      gains (IssueStore.IssueRequests (rt_issue r)) (IssueStore.IssueRequests (rt_issue r'))
  | Call.request_redeem _ _ _ =>
      gains (RedeemStore.RedeemRequests (rt_redeem r)) (RedeemStore.RedeemRequests (rt_redeem r'))
  | Call.accept_replace _ _ _ _ _ =>
      gains (ReplaceStore.ReplaceRequests (rt_replace r)) (ReplaceStore.ReplaceRequests (rt_replace r'))
  | _ => True
  end.

Inductive step (r : Runtime) : Runtime → Prop :=
  | step_call o c r' : dispatch o c r = Ok (tt, r') → new_id c r r' → step r r'
  | step_begin_block v r' : Oracle.begin_block on_exchange_rate_change r = Ok (v, r') → step r r'
  | step_transfer a x y r' : on_tokens (Amount.transfer a x y) r = Ok (tt, r') → step r r'
  | step_relay f : step r (with_relay f r)
  | step_block now parent_hash block :
      step r (with_block (λ _, block) (with_parent_hash (λ _, parent_hash) (with_now (λ _, now) r))).
End dispatch.

(** ** Settings and the other extrinsics *)
Section quiet.
Context `{LoansApi} (w : weights).
Import RegistryStore Vaults.

(** Neither tokens nor requests: the settings of the pallets, nomination, fees, the oracle. *)
Definition quiet (c : Call.t) : bool :=
  match c with
  | Call.set_issue_period _ | Call.set_redeem_period _ | Call.set_replace_period _
  | Call.register_public_key _ | Call.set_minimum_collateral _ _ | Call.set_system_collateral_ceiling _ _
  | Call.set_secure_collateral_threshold _ _ | Call.set_premium_redeem_threshold _ _
  | Call.set_liquidation_collateral_threshold _ _
  | Call.set_nomination_enabled _ | Call.opt_in_to_nomination _ | Call.opt_out_of_nomination _
  | Call.deposit_collateral _ _ | Call.withdraw_collateral _ _ _ | Call.set_nomination_limit _ _
  | Call.withdraw_rewards _ _ | Call.set_issue_fee _ | Call.set_issue_griefing_collateral _
  | Call.set_redeem_fee _ | Call.set_premium_redeem_fee _ | Call.set_punishment_fee _
  | Call.set_replace_griefing_collateral _ | Call.set_commission _ _
  | Call.feed_values _ | Call.insert_authorized_oracle _ _ | Call.remove_authorized_oracle _ => true
  | _ => false
  end.

Lemma quiet_watched o c : quiet c = true → keeps (watched w) (dispatch o c).
Proof.
  destruct c; intros Hq; try discriminate Hq; cbn [dispatch];
    unfold Issue.set_issue_period, Redeem.set_redeem_period, Replace.set_replace_period,
      Issue.deposit_event, Redeem.deposit_event, Replace.deposit_event, Issue.update, Redeem.update, Replace.update,
      VaultRegistry.register_public_key, VaultRegistry.set_minimum_collateral,
      VaultRegistry.set_system_collateral_ceiling, VaultRegistry._set_system_collateral_ceiling,
      VaultRegistry.set_secure_collateral_threshold, VaultRegistry._set_secure_collateral_threshold,
      VaultRegistry.set_premium_redeem_threshold, VaultRegistry._set_premium_redeem_threshold,
      VaultRegistry.set_liquidation_collateral_threshold, VaultRegistry._set_liquidation_collateral_threshold,
      Nomination.set_nomination_enabled, Nomination.opt_in_to_nomination, Nomination.opt_out_of_nomination,
      Nomination.deposit_collateral, Nomination.withdraw_collateral, Nomination.set_nomination_limit, Nomination.update,
      Fee.withdraw_rewards, Fee.set_issue_fee, Fee.set_issue_griefing_collateral, Fee.set_redeem_fee,
      Fee.set_premium_redeem_fee, Fee.set_punishment_fee, Fee.set_replace_griefing_collateral, Fee.set_commission,
      Fee.within_expected, Fee.update, Oracle.feed_values, Oracle._feed_values, Oracle.feed_one,
      Oracle.insert_authorized_oracle, Oracle.insert_oracle, Oracle.remove_authorized_oracle,
      Oracle.deposit_event, Oracle.update, update_storage;
    keeps.
Qed.

(** A vault whose tokens are those of the copy, whatever its status. *)
Lemma status_moves_from self f :
  moves_from w 0 self (RichVault.set (set_status f) self;; mret tt).
Proof.
  intros r [] r' Hk Hc Hr. outcome_inv.
  match goal with Hs : RichVault.set _ _ _ = Ok _ |- _ => apply set_Ok in Hs as [-> ->] end.
  apply shifted_weight; [by apply vault_put_keyed | done |].
  rewrite (vault_put_weight w _ self) by exact Hc. unfold vault_weight, pair_of. cbn. lia.
Qed.
End quiet.

Section steps.
Context `{LoansApi} (w : weights).
Import RegistryStore Vaults.

Lemma beyond_loans_watched {A} (m : B A) : keeps beyond_loans m → keeps (watched w) m.
Proof.
  intros Hm r a r' Hr. apply Hm in Hr. unfold beyond_loans in Hr.
  unfold watched, supply, registry_maps, requests. by injection Hr as -> _ _ _ _ _ -> _ -> -> ->.
Qed.
Lemma on_exchange_rate_change_watched c : keeps (watched w) (on_exchange_rate_change c).
Proof.
  unfold on_exchange_rate_change. keeps. apply beyond_loans_watched, loans_on_exchange_rate_change_frame.
Qed.
Hint Resolve on_exchange_rate_change_watched : keeps.

Lemma update_aggregate_watched k : keeps (watched w) (Oracle.update_aggregate on_exchange_rate_change k).
Proof. unfold Oracle.update_aggregate, Oracle.notify, Oracle.update. keeps. Qed.
Lemma begin_block_watched : keeps (watched w) (Oracle.begin_block on_exchange_rate_change).
Proof.
  unfold Oracle.begin_block. apply keeps_bind; [keeps | intros l]. apply keeps_bind; [keeps | intros now].
  apply keeps_bind; [| intros; unfold Oracle.deposit_event, Oracle.update; keeps].
  induction l as [| [k b] l IH]; cbn [Oracle.begin_block_loop]; keeps; auto using update_aggregate_watched.
Qed.

Lemma accept_new_issues_moves o p b : moves w 0 (VaultRegistry.accept_new_issues o p b).
Proof.
  unfold VaultRegistry.accept_new_issues, RichVault.set_accept_new_issues.
  apply moves_bind_l; [moves | intros vid]. apply moves_read_active. intros v _.
  intros r [] r' Hk Hc Hr. apply M_bind_Ok in Hr as (v' & r1 & Hs & Hr).
  assert ((RichVault.set (set_status (λ _, Active b)) v;; mret tt) r = Ok (tt, r1)) as Hs'
    by by unfold mbind, M_bind; rewrite Hs.
  apply (status_moves_from w) in Hs'; [| done..].
  assert (moves w 0 (PoolManager.on_vault_settings_change vid;;
             deposit_event (SetAcceptNewIssues vid b))) as Hm by moves.
  apply Hm in Hr; [| by destruct Hs']. by eapply shifted_trans.
Qed.
Lemma recover_vault_moves o p : moves w 0 (VaultRegistry.recover_vault_id o p).
Proof.
  unfold VaultRegistry.recover_vault_id, RichVault.set_accept_new_issues.
  do 3 (apply moves_bind_l; [moves | intros]). apply moves_read. intros v _.
  apply moves_from_keeps; [keeps | intros _]. apply status_moves_from.
Qed.
Lemma set_custom_threshold_moves o p t : moves w 0 (VaultRegistry.set_custom_secure_threshold o p t).
Proof.
  unfold VaultRegistry.set_custom_secure_threshold. apply moves_bind_l; [moves | intros].
  apply moves_bind_r; [apply custom_threshold_moves | moves].
Qed.
Lemma report_vault_moves o vid : moves w 0 (VaultRegistry.report_undercollateralized_vault o vid).
Proof.
  unfold VaultRegistry.report_undercollateralized_vault. do 2 (apply moves_bind_l; [moves | intros]).
  apply moves_bind_l; [moves | intros b]. destruct b; [| by intros ? ? ? ? Hr]. apply moves_bind_r; [apply liquidate_vault_moves | moves].
Qed.

Lemma signed_settles {A} o (k : AccountId → B A) r a r' δ :
  (∀ x, k x r = Ok (a, r') → settles w δ r r') →
  (x ← lift (ensure_signed o); k x) r = Ok (a, r') → settles w δ r r'.
Proof. intros Hk Hr. apply M_bind_Ok in Hr as (x & r1 & [_ ->]%lift_Ok & Hr). by eapply Hk. Qed.
Lemma signed_vault_settles {A} o p (k : VaultId → B A) r a r' δ :
  (∀ vid, k vid r = Ok (a, r') → settles w δ r r') →
  (vid ← Nomination.signed_vault_id o p; k vid) r = Ok (a, r') → settles w δ r r'.
Proof.
  intros Hk Hr. apply M_bind_Ok in Hr as (vid & r1 & Hv & Hr). unfold Nomination.signed_vault_id in Hv.
  outcome_inv. by eapply Hk.
Qed.
Lemma moves_settles {A} δ (m : B A) r a r' : moves w δ m → keyed r → m r = Ok (a, r') → settles w δ r r'.
Proof. intros Hm Hk Hr. by apply shifted_settles, (Hm _ _ _ Hk Hr). Qed.

Ltac enter Hr :=
  revert Hr; first [apply signed_settles | apply signed_vault_settles]; intros ? Hr; cbv beta in Hr.

(** An extrinsic of the bridge preserves a balanced total. *)
Lemma dispatch_settles o c r r' :
  balanced w → keyed r → dispatch o c r = Ok (tt, r') → new_id c r r' → settles w 0 r r'.
Proof.
  intros Hw Hk Hr Hn. destruct (quiet c) eqn:Hq.
  { eapply moves_settles; [apply moves_keeps; by apply quiet_watched | done | exact Hr]. }
  destruct c; try discriminate Hq; clear Hq; cbn [dispatch new_id] in *.
  - enter Hr. outcome_inv. by eapply request_issue_settles.
  - enter Hr. eapply execute_issue_settles; [.. | exact Hr]; done.
  - enter Hr. eapply cancel_issue_settles; [.. | exact Hr]; done.
  - enter Hr. outcome_inv. by eapply request_redeem_settles.
  - enter Hr. eapply liquidation_redeem_settles; [.. | exact Hr]; done.
  - enter Hr. eapply execute_redeem_settles; [.. | exact Hr]; done.
  - enter Hr. eapply cancel_redeem_settles; [.. | exact Hr]; done.
  - enter Hr. eapply mint_reimbursed_settles; [.. | exact Hr]; done.
  - enter Hr. eapply self_redeem_settles; [.. | exact Hr]; done.
  - enter Hr. eapply moves_settles; [apply request_replace_moves | done | exact Hr].
  - enter Hr. eapply moves_settles; [apply withdraw_replace_moves | done | exact Hr].
  - enter Hr. by eapply accept_replace_settles.
  - enter Hr. eapply execute_replace_settles; [.. | exact Hr]; done.
  - enter Hr. eapply cancel_replace_settles; [.. | exact Hr]; done.
  - enter Hr. eapply moves_settles; [apply register_vault_moves | done | exact Hr].
  - eapply moves_settles; [apply accept_new_issues_moves | done | exact Hr].
  - eapply moves_settles; [apply set_custom_threshold_moves | done | exact Hr].
  - eapply moves_settles; [apply report_vault_moves | done | exact Hr].
  - eapply moves_settles; [apply recover_vault_moves | done | exact Hr].
Qed.

Lemma step_settles r r' : balanced w → keyed r → step r r' → settles w 0 r r'.
Proof.
  intros Hw Hk Hs. destruct Hs.
  - by eapply dispatch_settles.
  - by eapply moves_settles; [apply moves_keeps, begin_block_watched | |].
  - by eapply moves_settles; [apply moves_keeps, transfer_watched | |].
  - split; [done |]. unfold total, weight, pending, supply. cbn. lia.
  - split; [done |]. unfold total, weight, pending, supply. cbn. lia.
Qed.
Lemma steps_settle r r' : balanced w → keyed r → rtc step r r' → settles w 0 r r'.
Proof.
  intros Hw Hk Hs. induction Hs as [r | r r1 r' Hs _ IH]; [split; [done | lia] |].
  apply step_settles in Hs as [Hk1 Ht1]; [| done..]. destruct (IH Hk1) as [Hk2 Ht2]. split; [done | lia].
Qed.
End steps.
