(* ===== verification/VaultQueries.v ===== *)
(** * Queries over all vaults ([crates/vault-registry/src/lib.rs])

    What the off-chain worker and the RPC of the vault registry compute by
    visiting every vault, and the two integrity checks the integration tests run
    after every extrinsic.  A conversion may accrue interest in the lending
    market, so the visits run one after the other; one that fails is left out,
    with the state before it. *)

From coqutil Require Import Byte.
From Stdlib Require Import ZArith Lia.
From stdpp Require Import base tactics option list numbers gmap sorting.
From S2P Require Import Prelude Bytes BtcTypes BtcBuild Security Primitives FixedPoint Reward Staking Tokens Amount BridgeStores Bridge Oracle Fee Registry Collateral Nomination VaultRegistry Redeem BridgeStep.

Local Open Scope Z_scope.

Module VaultQueries.
Import RegistryStore Vaults CurrencyConvert Collateral.Collateral VaultRegistry.VaultRegistry.

Section queries.
Context `{LoansApi}.

(** [m.ok()] *)
Definition ok_of {A} (m : B A) : B (option A) := λ r,
  match m r with
  | Ok (a, r') => Ok (Some a, r')
  | Err _ => Ok (None, r)
  | Panic => Panic
  | NoFuel => NoFuel
  end.

(** [iter().filter_map(f).collect()] *)
Fixpoint filter_map {A C} (f : A → B (option C)) (l : list A) : B (list C) :=
  match l with
  | [] => mret []
  | x :: l =>
      y ← f x;
      ys ← filter_map f l;
      mret (match y with Some y => y :: ys | None => ys end)
  end.
Definition vaults (r : Runtime) : list (VaultId * Vault) := storage_iter (RegistryStore.Vaults (rt_registry r)).

(** [sort_by(|a, b| b.1.amount().cmp(&a.1.amount()))] *)
Definition by_amount (a b : VaultId * Amount.t) : Prop := Amount.amount b.2 ≤ Amount.amount a.2.
#[global] Instance by_amount_dec : RelDecision by_amount := λ a b, decide (Amount.amount b.2 ≤ Amount.amount a.2).
Definition sort_by_amount (l : list (VaultId * Amount.t)) : list (VaultId * Amount.t) := merge_sort by_amount l.

(** ** Off-chain worker *)

Definition undercollateralized_vaults : B (list VaultId) :=
  all ← gets vaults;
  filter_map (λ kv : VaultId * Vault,
      threshold ← gets (liquidation_collateral_threshold (currencies (id kv.2)));
      match threshold with
      | Some liquidation_threshold =>
          below ← ok_of (is_vault_below_liquidation_threshold kv.2 liquidation_threshold);
          mret (if default false below then Some kv.1 else None)
      | None => mret None
      end) all.
(** The unsigned calls it submits. *)
Definition _offchain_worker : B (list Call.t) :=
  vaults ← undercollateralized_vaults;
  mret (Call.report_undercollateralized_vault <$> vaults).

Inductive TransactionSource : Type := External | Local | InBlock.
(** Whether an unsigned call enters the transaction pool. *)
Definition validate_unsigned (source : TransactionSource) (call : Call.t) : bool :=
  match source with
  | External => false
  | Local | InBlock =>
      match call with
      | Call.report_undercollateralized_vault _ => true
      | _ => false
      end
  end.

(** ** RPC *)

(** The tokens to redeem for the whole premium of the vault. *)
Definition tokens_for_max_premium (vault_id : VaultId) (redeem_transaction_size : Z) : B Amount.t :=
  premium_reward_rate ← gets Fee.premium_redeem_reward_rate;
  max_premium_in_collateral ← get_vault_max_premium_redeem vault_id;
  redeem_amount_wrapped_in_collateral ← lift (Amount.checked_div max_premium_in_collateral premium_reward_rate);
  burn_wrap ← convert_to redeem_amount_wrapped_in_collateral (wrapped_currency vault_id);
  inclusion_fee ← query (calculate_inclusion_fee (wrapped_currency vault_id) redeem_transaction_size);
  vault_to_burn_tokens ← lift (Amount.checked_add burn_wrap inclusion_fee);
  redeem_fee ← gets Fee.get_redeem_fee_value;
  let amount_wrapped := saturating_sub DIV redeem_fee in
  lift (Amount.checked_div vault_to_burn_tokens amount_wrapped).
Definition get_premium_redeem_vaults (redeem_transaction_size : Z) : B (list (VaultId * Amount.t)) :=
  all ← gets vaults;
  suitable_vaults ←
    filter_map (λ kv : VaultId * Vault,
      let vault_id := kv.1 in
      tokens ← ok_of (tokens_for_max_premium vault_id redeem_transaction_size);
      match tokens with
      | None => mret None
      | Some tokens =>
          not_banned ← gets (λ r, is_ok (ensure_not_banned vault_id r));
          if (not_banned : bool) && negb (Amount.is_zero tokens) then
            below ← ok_of (will_be_below_premium_threshold vault_id);
            mret (if default false below then Some (vault_id, tokens) else None)
          else mret None
      end) all;
  match suitable_vaults with
  | [] => fail (vault_error VaultRegistryError.NoVaultUnderThePremiumRedeemThreshold)
  | _ => mret (sort_by_amount suitable_vaults)
  end.

Definition nonzero (vault_id : VaultId) (tokens : option Amount.t) : option (VaultId * Amount.t) :=
  match tokens with
  | Some tokens => if negb (Amount.is_zero tokens) then Some (vault_id, tokens) else None
  | None => None
  end.
Definition get_vaults_with_issuable_tokens : B (list (VaultId * Amount.t)) :=
  all ← gets vaults;
  vaults_with_issuable_tokens ←
    filter_map (λ kv : VaultId * Vault,
      issuable_tokens ← ok_of (get_issuable_tokens_from_vault kv.1);
      mret (nonzero kv.1 issuable_tokens)) all;
  mret (sort_by_amount vaults_with_issuable_tokens).
Definition get_vaults_with_redeemable_tokens : B (list (VaultId * Amount.t)) :=
  all ← gets vaults;
  vaults_with_redeemable_tokens ←
    filter_map (λ kv : VaultId * Vault,
      redeemable_tokens ← ok_of (query (RichVault.redeemable_tokens kv.2));
      mret (nonzero kv.1 redeemable_tokens)) all;
  mret (sort_by_amount vaults_with_redeemable_tokens).

Definition new_vault_deposit_address (vault_id : VaultId) (secure_id : list byte) (r : Runtime)
  : outcome BError Address :=
  vault ← get_active_rich_vault_from_id vault_id r;
  RichVault.new_deposit_address vault secure_id r.

(** ** Integrity checks: an assertion that fails is [false] *)

Definition amount_is (c : outcome BError Amount.t) (p : Z → bool) : bool :=
  match c with Ok a => p (Amount.amount a) | _ => false end.

Definition collateral_of (vault_id : VaultId) (v : Vault) (r : Runtime) : option Z :=
  match get_backing_collateral vault_id r with
  | Ok a => Some (Amount.amount a + liquidated_collateral v)
  | _ => None
  end.
Fixpoint sum_of (l : list (option Z)) : option Z :=
  match l with
  | [] => Some 0
  | x :: l => x ← x; y ← sum_of l; Some (x + y)
  end.
(** The total of a currency pair is what its vaults and its liquidation vault hold. *)
Definition total_user_vault_collateral_integrity_check (r : Runtime) : bool :=
  forallb (λ pv : VaultCurrencyPair * Z,
    match sum_of ((λ kv : VaultId * Vault, collateral_of kv.1 kv.2 r) <$>
                  filter (λ kv : VaultId * Vault, currencies (id kv.2) = pv.1) (vaults r)) with
    | Some total_in_vaults =>
        total_in_vaults + sys_collateral (get_liquidation_vault pv.1 r) =? pv.2
    | None => false
    end)
    (map_to_list (TotalUserVaultCollateral (rt_registry r))).

Definition expected_reward_stake (vault_id : VaultId) (vault : Vault) (r : Runtime) : outcome BError Z :=
  if negb (accepts_new_issues vault) then Ok 0
  else
    total ← get_total_collateral vault r;
    threshold ← RichVault.get_secure_threshold vault r;
    stake ← Amount.checked_div total threshold;
    Ok (Amount.amount stake).
(** What an active vault has reserved covers what is recorded, and its reward stake is its collateral
    over its threshold. *)
Definition vault_integrity (vault_id : VaultId) (vault : Vault) (r : Runtime) : bool :=
  let griefing_currency := GetGriefingCollateralCurrencyId in
  let reserved c := Amount.amount (Amount.get_reserved_balance c (account_id vault_id) (rt_tokens r)) in
  (active_replace_collateral vault + replace_collateral vault <=? reserved griefing_currency) &&
  (negb (replace_collateral vault =? 0) || (to_be_replaced_tokens vault =? 0)) &&
  amount_is (get_backing_collateral vault_id r)
    (λ backing, backing + liquidated_collateral vault <=? reserved (collateral_currency vault_id)) &&
  match expected_reward_stake vault_id vault r,
        RewardsApi.get_stake (collateral_currency vault_id) vault_id (rt_rewards r) with
  | Ok expected, Ok stake => stake =? expected
  | _, _ => false
  end.
Definition collateral_integrity_check (r : Runtime) : bool :=
  forallb (λ kv : VaultId * Vault, is_liquidated kv.2 || vault_integrity kv.1 kv.2 r) (vaults r).
End queries.
End VaultQueries.

Module RedeemQueries.
(** [redeem::get_premium_redeem_vaults] *)
Definition get_premium_redeem_vaults `{LoansApi} : B (list (VaultId * Amount.t)) :=
  size ← gets (λ r, RedeemStore.RedeemTransactionSize (rt_redeem r));
  VaultQueries.get_premium_redeem_vaults size.
End RedeemQueries.
