(* ===== verification/BridgeProps.v ===== *)
(** * What holds in every state the bridge can reach

    Three balanced totals, read from a genesis state: the supply of a wrapped
    currency is what vaults and liquidation vaults have issued; the tokens to be
    issued of a currency pair are those of its pending issue and replace
    requests; the tokens to be redeemed of a vault are those of its pending
    redeem and replace requests. *)

From coqutil Require Import Byte.
From Stdlib Require Import ZArith Lia.
From stdpp Require Import base tactics option list numbers gmap relations.
From S2P Require Import Prelude Bytes BtcTypes BtcMerkle BtcBuild Security Relay RelayVerify Primitives FixedPoint Reward Staking Tokens Amount BridgeStores Bridge Oracle Fee Registry Collateral Nomination VaultRegistry TokenWeight TokenMoves TokenLaws Issue Redeem Replace BridgeLaws BridgeStep.

Local Open Scope Z_scope.

Definition count (P : Prop) `{Decision P} (v : Z) : Z := if decide P then v else 0.
Lemma count_scale (P : Prop) `{Decision P} v : count P 1 * v = count P v.
Proof. unfold count. case_decide; lia. Qed.

(** Both sides count the same requests. *)
Ltac count_cases :=
  rewrite ?Z.mul_0_l, ?Z.add_0_l, ?Z.add_0_r, ?count_scale; unfold count;
  repeat case_decide; try lia; exfalso; naive_solver.

Section props.
Context `{LoansApi}.
Import RegistryStore.

(** No vault and no request yet; any settings, prices and balances. *)
Record genesis (r : Runtime) : Prop := {
  genesis_vaults : Vaults (rt_registry r) = ∅;
  genesis_liquidation : LiquidationVault (rt_registry r) = ∅;
  genesis_issue : IssueStore.IssueRequests (rt_issue r) = ∅;
  genesis_redeem : RedeemStore.RedeemRequests (rt_redeem r) = ∅;
  genesis_replace : ReplaceStore.ReplaceRequests (rt_replace r) = ∅;
}.
Definition reachable (r0 r : Runtime) : Prop := genesis r0 ∧ rtc step r0 r.

(** The tokens of the wrapped currency [c] issued by vaults and liquidation vaults. *)
Definition issued_in (c : CurrencyId.t) (r : Runtime) : Z :=
  msum (λ _ v, count (wrapped_currency (id v) = c) (issued_tokens v)) (Vaults (rt_registry r)) +
  msum (λ _ s, count (wrapped (sys_currency_pair s) = c) (sys_issued_tokens s)) (LiquidationVault (rt_registry r)).

(** The tokens to be issued by the vaults of a currency pair, liquidated or not. *)
Definition to_be_issued_in (p : VaultCurrencyPair) (r : Runtime) : Z :=
  msum (λ _ v, count (currencies (id v) = p) (to_be_issued_tokens v)) (Vaults (rt_registry r)) +
  msum (λ _ s, count (sys_currency_pair s = p) (sys_to_be_issued_tokens s)) (LiquidationVault (rt_registry r)).
(** The pending requests that will issue them. *)
Definition pending_issue (q : IssueRequest) : bool :=
  match issue_status q with IssuePending => true | _ => false end.
Definition pending_redeem (q : RedeemRequest) : bool :=
  match redeem_status q with RedeemPending => true | _ => false end.
Definition pending_replace (q : ReplaceRequest) : bool :=
  match replace_status q with ReplacePending => true | _ => false end.
Definition pending_issues_in (p : VaultCurrencyPair) (r : Runtime) : Z :=
  msum (λ _ q, count (pending_issue q = true ∧ currencies (issue_vault q) = p) (issue_amount q + issue_fee q))
    (IssueStore.IssueRequests (rt_issue r)) +
  msum (λ _ q, count (pending_replace q = true ∧ currencies (replace_new_vault q) = p) (replace_amount q))
    (ReplaceStore.ReplaceRequests (rt_replace r)).

(** The tokens of the pending requests a vault is to redeem. *)
Definition pending_redeems_of (vid : VaultId) (r : Runtime) : Z :=
  msum (λ _ q, count (pending_redeem q = true ∧ redeem_vault q = vid)
                 (redeem_amount_btc q + redeem_transfer_fee_btc q))
    (RedeemStore.RedeemRequests (rt_redeem r)) +
  msum (λ _ q, count (pending_replace q = true ∧ replace_old_vault q = vid) (replace_amount q))
    (ReplaceStore.ReplaceRequests (rt_replace r)).

(** ** The weights *)
Definition supply_weights (c : CurrencyId.t) : weights :=
  mkWeights (λ p, count (wrapped p = c) 1) (λ _, 0) (λ _, 0) 0 (-1) c.
Definition issue_weights (p0 : VaultCurrencyPair) : weights :=
  mkWeights (λ _, 0) (λ p, count (p = p0) 1) (λ _, 0) 1 0 GetWrappedCurrencyId.
Definition redeem_weights (v0 : VaultId) : weights :=
  mkWeights (λ _, 0) (λ _, 0) (λ v, count (v = v0) 1) 1 0 GetWrappedCurrencyId.

Lemma supply_balanced c : balanced (supply_weights c).
Proof.
  split; cbn; [| lia | lia]. intros p v. unfold priced, at_currency, count. cbn. repeat case_decide; lia.
Qed.
Lemma issue_balanced p : balanced (issue_weights p).
Proof. split; cbn; unfold priced; cbn; lia. Qed.
Lemma redeem_balanced v : balanced (redeem_weights v).
Proof. split; cbn; unfold priced; cbn; lia. Qed.

Lemma supply_total c r : total (supply_weights c) r = issued_in c r - total_issuance c (rt_tokens r).
Proof.
  unfold total, weight, issued_in, supply. cbn [w_requests w_supply w_currency supply_weights].
  assert (∀ a b c d p s : Z, a = c → b = d → a + b - 0 * p + -1 * s = c + d - s) as Hab by (intros; lia).
  apply Hab; apply msum_ext; intros k v _; unfold vault_weight, system_weight; cbn; rewrite count_scale;
    unfold pair_of, wrapped_currency; lia.
Qed.
Lemma issue_total p r : total (issue_weights p) r = to_be_issued_in p r - pending_issues_in p r.
Proof.
  unfold total, weight, pending, to_be_issued_in, pending_issues_in.
  cbn [w_requests w_supply w_currency issue_weights].
  assert (msum (λ _ q, redeem_weight (issue_weights p) q) (RedeemStore.RedeemRequests (rt_redeem r)) = 0) as ->.
  { rewrite (msum_ext _ (λ _ _, 0)); [apply msum_zero |]. intros k q _. unfold redeem_weight. cbn. by destruct (redeem_status q). }
  assert (∀ a b c d a' b' c' d' : Z, a = a' → b = b' → c = c' → d = d' →
            a + b - 1 * (c + 0 + d) + 0 * supply (issue_weights p) r = a' + b' - (c' + d')) as Hab by (intros; lia).
  apply Hab; apply msum_ext; intros k v _;
    unfold vault_weight, system_weight, issue_weight, replace_weight, pair_of, pending_issue, pending_replace; cbn;
    rewrite ?count_scale, ?Z.add_0_r; [lia | done | |].
  - destruct (issue_status v); count_cases.
  - destruct (replace_status v); count_cases.
Qed.
Lemma redeem_total vid r : keyed r →
  total (redeem_weights vid) r =
    from_option to_be_redeemed_tokens 0 (Vaults (rt_registry r) !! vid) - pending_redeems_of vid r.
Proof.
  intros [Hk _]. unfold total, weight, pending, pending_redeems_of.
  cbn [w_requests w_supply w_currency redeem_weights].
  assert (msum (λ _ q, issue_weight (redeem_weights vid) q) (IssueStore.IssueRequests (rt_issue r)) = 0) as ->.
  { rewrite (msum_ext _ (λ _ _, 0)); [apply msum_zero |]. intros k q _. unfold issue_weight. cbn. by destruct (issue_status q). }
  assert (msum (λ _ s, system_weight (redeem_weights vid) s) (LiquidationVault (rt_registry r)) = 0) as ->.
  { rewrite (msum_ext _ (λ _ _, 0)); [apply msum_zero |]. intros. unfold system_weight. cbn. lia. }
  assert (∀ a c d a' c' d' : Z, a = a' → c = c' → d = d' →
            a + 0 - 1 * (0 + c + d) + 0 * supply (redeem_weights vid) r = a' - (c' + d')) as Hab by (intros; lia).
  apply Hab.
  - rewrite (msum_ext _ (λ k v, if decide (k = vid) then from_option to_be_redeemed_tokens 0 (Vaults (rt_registry r) !! vid) else 0)).
    + rewrite (msum_single _ _ vid (from_option to_be_redeemed_tokens 0 (Vaults (rt_registry r) !! vid))) by done.
      case_decide as Hs; [done |]. destruct (Vaults (rt_registry r) !! vid); [| done]. by destruct Hs.
    + intros k v Hv. unfold vault_weight. cbn. rewrite count_scale. pose proof (Hk _ _ Hv) as Hi.
      unfold count. rewrite Hi. case_decide; subst; [rewrite Hv; cbn; lia | lia].
  - apply msum_ext; intros k q _. unfold redeem_weight, pending_redeem. cbn.
    destruct (redeem_status q); count_cases.
  - apply msum_ext; intros k q _. unfold replace_weight, pending_replace. cbn.
    destruct (replace_status q); count_cases.
Qed.

Lemma genesis_keyed r : genesis r → keyed r.
Proof.
  intros [Hv Hl _ _ Hp]. unfold keyed. rewrite Hv, Hl, Hp.
  split_and!; intros ? ?; rewrite lookup_empty; discriminate.
Qed.
Lemma reachable_keyed r0 r : reachable r0 r → keyed r.
Proof.
  intros [Hg Hs]. by apply (steps_settle (supply_weights GetWrappedCurrencyId)) in Hs as [];
    [| apply supply_balanced | apply genesis_keyed].
Qed.
Lemma reachable_total w r0 r : balanced w → reachable r0 r → total w r = total w r0.
Proof.
  intros Hw [Hg Hs]. apply (steps_settle w) in Hs as [_ ->]; [lia | done | by apply genesis_keyed].
Qed.

(** ** Theorems *)

(** C1: in every state reachable from a genesis state, what has been added to the total
    issuance of a currency is the tokens issued by vaults and liquidation vaults: every
    wrapped token is accounted for by a vault, through issue, redeem, replace,
    cancellation, reimbursement and liquidation. *)
Theorem supply_is_issued c r0 r :
  reachable r0 r →
  total_issuance c (rt_tokens r) = total_issuance c (rt_tokens r0) + issued_in c r.
Proof.
  intros Hr. pose proof (reachable_total _ _ _ (supply_balanced c) Hr) as Ht.
  rewrite !supply_total in Ht. destruct Hr as [[Hv Hl _ _ _] _].
  assert (issued_in c r0 = 0) as Hz by (unfold issued_in; by rewrite Hv, Hl). lia.
Qed.

(** C2: in every reachable state the tokens to be issued of a currency pair, by its
    vaults and its liquidation vault together, are exactly those of its pending issue
    requests and of the pending requests to replace another vault. *)
Theorem to_be_issued_is_pending p r0 r :
  reachable r0 r → to_be_issued_in p r = pending_issues_in p r.
Proof.
  intros Hr. pose proof (reachable_total _ _ _ (issue_balanced p) Hr) as Ht.
  rewrite !issue_total in Ht. destruct Hr as [[Hv Hl Hi _ Hp] _].
  assert (to_be_issued_in p r0 = 0) as Hz by (unfold to_be_issued_in; by rewrite Hv, Hl).
  assert (pending_issues_in p r0 = 0) as Hz' by (unfold pending_issues_in; by rewrite Hi, Hp). lia.
Qed.

(** C3: in every reachable state the tokens a vault is to redeem, liquidated or not, are
    exactly those of its pending redeem requests and of the pending requests to replace
    it. *)
Theorem to_be_redeemed_is_pending vid v r0 r :
  reachable r0 r → Vaults (rt_registry r) !! vid = Some v →
  to_be_redeemed_tokens v = pending_redeems_of vid r.
Proof.
  intros Hr Hv0. pose proof (reachable_total _ _ _ (redeem_balanced vid) Hr) as Ht.
  rewrite (redeem_total vid r), (redeem_total vid r0) in Ht
    by first [by eapply reachable_keyed | by apply genesis_keyed, Hr].
  destruct Hr as [[Hv _ _ Hre Hp] _]. rewrite Hv0, Hv, lookup_empty in Ht. cbn in Ht.
  assert (pending_redeems_of vid r0 = 0) as Hz by (unfold pending_redeems_of; by rewrite Hre, Hp). lia.
Qed.
End props.
