(* ===== verification/CollateralProps.v ===== *)
(** * Prices, conversions and collateral thresholds

    Converting an amount and back never gains anything, and the median of the
    prices reported by the oracles lies among the honest ones as long as these
    are more than half.  How much collateral a threshold asks for: the two ways
    the code computes it agree up to a unit, a vault accepts a request to issue
    only when its collateral covers it, and shares of collateral never exceed
    the whole. *)

From coqutil Require Import Byte.
From Stdlib Require Import ZArith Lia Sorted.
From stdpp Require Import base tactics option list numbers gmap sorting.
From S2P Require Import Prelude Bytes BtcTypes BtcBuild Security Primitives FixedPoint Reward Staking Tokens Amount BridgeStores Bridge Oracle Fee Registry Collateral Nomination VaultRegistry TokenWeight TokenMoves.

Local Open Scope Z_scope.

Section conversion.
Context `{bridge_env}.
Import OracleStore.

Definition prices_fit (r : Runtime) : Prop :=
  ∀ key price, Aggregate (rt_oracle r) !! key = Some price → fits 128 price.

Lemma DIV_pos : 0 < DIV.
Proof. reflexivity. Qed.

Lemma wrapped_to_collateral_Ok x c r y :
  fits BALANCE x → prices_fit r →
  Oracle.wrapped_to_collateral x c r = Ok y →
  ∃ p, Aggregate (rt_oracle r) !! ExchangeRate c = Some p ∧ fits 128 p ∧ y = x * p / DIV ∧ fits BALANCE y.
Proof.
  intros Hx Hp Hy. unfold Oracle.wrapped_to_collateral, Oracle.get_price in Hy. outcome_inv.
  match goal with Hl : _ !! _ = Some ?p, Hm : Amount.checked_mul _ _ = Ok _ |- _ =>
    apply Amount.checked_rounded_mul_Ok in Hm as (_ & Hv & Hw); [| exact Hx | by eapply Hp];
    exists p; split_and!; [done | by eapply Hp | exact Hv | exact Hw] end.
Qed.

Lemma collateral_to_wrapped_Ok x c r y :
  fits BALANCE x → prices_fit r →
  Oracle.collateral_to_wrapped x c r = Ok y →
  ∃ p, Aggregate (rt_oracle r) !! ExchangeRate c = Some p ∧ fits 128 p ∧
    (x = 0 ∧ y = 0 ∨ p ≠ 0 ∧ y = x * DIV / p) ∧ fits BALANCE y.
Proof.
  intros Hx Hp Hy. unfold Oracle.collateral_to_wrapped, Oracle.get_price in Hy. outcome_inv.
  match goal with Hl : _ !! _ = Some ?p |- _ => exists p; pose proof (Hp _ _ Hl) as Hf end.
  destruct (Z.eqb_spec x 0) as [-> | Hne]; outcome_inv.
  - split_and!; [done | done | by left | by split].
  - match goal with Hm : Amount.checked_div _ _ = Ok _ |- _ =>
      apply Amount.checked_div_Ok in Hm as (Hz & _ & Hv & Hw); [| exact Hx | done] end.
    split_and!; [done | done | by right | exact Hw].
Qed.

(** Both ways through one price lose at most. *)
Lemma mul_div_le x p : 0 ≤ p → p ≠ 0 → x * p / DIV * DIV / p ≤ x.
Proof.
  intros Hp Hne. pose proof (Z.mul_div_le (x * p) DIV DIV_pos).
  apply Z.div_le_upper_bound; lia.
Qed.
Lemma div_mul_le x p : 0 ≤ p → p ≠ 0 → x * DIV / p * p / DIV ≤ x.
Proof.
  intros Hp Hne. pose proof (Z.mul_div_le (x * DIV) p ltac:(lia)).
  apply Z.div_le_upper_bound; [apply DIV_pos | lia].
Qed.

Lemma back_to_wrapped x c r y z :
  fits BALANCE x → prices_fit r →
  Oracle.wrapped_to_collateral x c r = Ok y → Oracle.collateral_to_wrapped y c r = Ok z → z ≤ x.
Proof.
  intros Hx Hp Hy Hz. apply wrapped_to_collateral_Ok in Hy as (p & Hl & Hf & -> & Hy); [| done..].
  apply collateral_to_wrapped_Ok in Hz as (p' & Hl' & _ & Hz & _); [| done..].
  rewrite Hl in Hl'. injection Hl' as <-. destruct Hf, Hx.
  destruct Hz as [[_ ->] | [Hne ->]]; [done | by apply mul_div_le].
Qed.
Lemma back_to_collateral x c r y z :
  fits BALANCE x → prices_fit r →
  Oracle.collateral_to_wrapped x c r = Ok y → Oracle.wrapped_to_collateral y c r = Ok z → z ≤ x.
Proof.
  intros Hx Hp Hy Hz. apply collateral_to_wrapped_Ok in Hy as (p & Hl & Hf & Hy & Hfy); [| done..].
  apply wrapped_to_collateral_Ok in Hz as (p' & Hl' & _ & -> & _); [| done..].
  rewrite Hl in Hl'. injection Hl' as <-. destruct Hf, Hx.
  destruct Hy as [[-> ->] | [Hne ->]]; [rewrite Z.mul_0_l; done | by apply div_mul_le].
Qed.
(** There and back between two collateral currencies, each way through the wrapped one. *)
Lemma back_through_wrapped x c c' r b1 y b2 z :
  fits BALANCE x → prices_fit r →
  Oracle.collateral_to_wrapped x c r = Ok b1 → Oracle.wrapped_to_collateral b1 c' r = Ok y →
  Oracle.collateral_to_wrapped y c' r = Ok b2 → Oracle.wrapped_to_collateral b2 c r = Ok z → z ≤ x.
Proof.
  intros Hx Hp H1 H2 H3 H4.
  destruct (collateral_to_wrapped_Ok _ _ _ _ Hx Hp H1) as (p1 & Hl1 & Hf1 & Hb1 & Hfb1).
  destruct (wrapped_to_collateral_Ok _ _ _ _ Hfb1 Hp H2) as (p2 & _ & _ & _ & Hfy).
  destruct (collateral_to_wrapped_Ok _ _ _ _ Hfy Hp H3) as (p3 & _ & _ & _ & Hfb2).
  destruct (wrapped_to_collateral_Ok _ _ _ _ Hfb2 Hp H4) as (p4 & Hl4 & _ & -> & _).
  pose proof (back_to_wrapped _ _ _ _ _ Hfb1 Hp H2 H3) as Hle.
  rewrite Hl1 in Hl4. injection Hl4 as <-. destruct Hf1, Hfb2, Hx.
  destruct Hb1 as [[E ->] | [Hne ->]].
  - assert (b2 = 0) as -> by lia. by rewrite Z.mul_0_l, Z.div_0_l by done.
  - etrans; [| by apply (div_mul_le x p1)]. apply Z.div_le_mono; [apply DIV_pos | nia].
Qed.

(** An amount converted to another currency and back is never more than it was, in
    whichever direction and through the price of each currency in the wrapped one. *)
Theorem convert_round_trip a c r b a' :
  Amount.wf a → prices_fit r →
  Oracle.convert a c r = Ok b → Oracle.convert b (Amount.currency a) r = Ok a' →
  Amount.currency a' = Amount.currency a ∧ Amount.amount a' ≤ Amount.amount a.
Proof.
  intros Ha Hp Hb Hb'. unfold Oracle.convert in Hb, Hb'. outcome_inv. cbn [Amount.currency Amount.amount] in *.
  split; [done |]. repeat case_bool_decide; simplify_eq; outcome_inv; try done.
  - by eapply back_to_collateral.
  - by eapply back_to_wrapped.
  - by eapply back_through_wrapped.
Qed.
End conversion.

(** ** The median *)
Section median.
Context `{bridge_env}.
Implicit Types (l s : list Z).

Lemma filter_take (P : Z → Prop) `{∀ x, Decision (P x)} s k :
  (∀ j x, (j < k)%nat → s !! j = Some x → P x) → (k ≤ length s)%nat → (k ≤ length (filter P s))%nat.
Proof.
  revert k. induction s as [| x s IH]; intros k Hk Hlen; [cbn in *; lia |].
  destruct k as [| k]; [lia |]. rewrite filter_cons_True by by apply (Hk 0%nat x); [lia |].
  cbn in *. assert (k ≤ length (filter P s))%nat; [| lia].
  apply IH; [| lia]. intros j y Hj Hy. apply (Hk (S j)); [lia | done].
Qed.
Lemma filter_drop (P : Z → Prop) `{∀ x, Decision (P x)} s k :
  (∀ j x, (k ≤ j)%nat → s !! j = Some x → P x) → (length s - k ≤ length (filter P s))%nat.
Proof.
  intros Hk. pose proof (filter_take P (drop k s) (length s - k)) as Hd. rewrite length_drop in Hd.
  assert (length (filter P (drop k s)) ≤ length (filter P s))%nat.
  { rewrite <- (take_drop k s) at 2. rewrite filter_app, length_app. lia. }
  etrans; [apply Hd; [| done] | done]. intros j x _ Hx. rewrite lookup_drop in Hx. eapply Hk, Hx. lia.
Qed.
Lemma filter_disjoint (P Q : Z → Prop) `{∀ x, Decision (P x), ∀ x, Decision (Q x)} l :
  (∀ x, P x → Q x → False) → (length (filter P l) + length (filter Q l) ≤ length l)%nat.
Proof.
  intros HPQ. induction l as [| x l IH]; [cbn; lia |]. rewrite !filter_cons. cbn [length].
  destruct (decide (P x)), (decide (Q x)); cbn [length]; [exfalso; eauto | lia..].
Qed.

Lemma sorted_index_le s i j x y :
  StronglySorted Z.le s → (i ≤ j)%nat → s !! i = Some x → s !! j = Some y → x ≤ y.
Proof.
  intros Hs. revert i j. induction Hs as [| z s Hs IH Hall]; intros i j Hij Hx Hy; [done |].
  destruct i as [| i], j as [| j]; cbn in *; simplify_eq; [lia | | lia | eapply IH; [| done..]; lia].
  rewrite Forall_forall in Hall. apply Hall. by eapply list_elem_of_lookup_2.
Qed.

(** C7: the median of the reported prices lies among the honest ones: when strictly more
    than half of the values are between [a] and [b], so is the median, whatever the
    others are. *)
Theorem median_honest (l : list Z) (a b m : Z) :
  (length l < 2 * length (filter (λ v, (a ≤ v ≤ b)%Z) l))%nat →
  Oracle.median l = Some m → a ≤ m ≤ b.
Proof.
  intros Hmaj Hm. unfold Oracle.median in Hm. set (s := merge_sort Z.le l) in *.
  assert (s ≡ₚ l) as Hperm by apply merge_sort_Permutation.
  assert (StronglySorted Z.le s) as Hsort by (apply (StronglySorted_merge_sort _)).
  pose proof (Permutation_length Hperm) as Hlen.
  rewrite <- Hperm in Hmaj. rewrite <- Hlen in *. clear Hperm Hlen. set (n := length s) in *.
  assert (length (filter (λ v, (v < a)%Z) s) + length (filter (λ v, (a ≤ v ≤ b)%Z) s) ≤ n)%nat as Hlo
    by (apply filter_disjoint; lia).
  assert (length (filter (λ v, (b < v)%Z) s) + length (filter (λ v, (a ≤ v ≤ b)%Z) s) ≤ n)%nat as Hhi
    by (apply filter_disjoint; lia).
  assert (∀ i v, s !! i = Some v → (n ≤ 2 * S i)%nat → a ≤ v) as Hge.
  { intros i v Hv Hi. destruct (Z.lt_ge_cases v a) as [Hlt |]; [| done].
    assert (S i ≤ length (filter (λ v, (v < a)%Z) s))%nat; [| lia].
    apply filter_take; [| by apply lookup_lt_Some in Hv].
    intros j x Hj Hx. assert (x ≤ v); [| lia]. eapply sorted_index_le; [exact Hsort | | exact Hx | exact Hv]. lia. }
  assert (∀ i v, s !! i = Some v → (2 * i ≤ n)%nat → v ≤ b) as Hle.
  { intros i v Hv Hi. destruct (Z.lt_ge_cases b v) as [Hlt |]; [| done].
    assert (n - i ≤ length (filter (λ v, (b < v)%Z) s))%nat; [| lia].
    apply filter_drop. intros j x Hj Hx. assert (v ≤ x); [| lia]. by eapply sorted_index_le. }
  pose proof (Nat.div_mod_eq n 2) as Hdm.
  assert (n ≠ 0%nat) as Hn0 by (intros E; rewrite E in *; lia).
  destruct n as [| n'] eqn:En; [done |]. rewrite <- En in *. clear En.
  destruct (Nat.eqb_spec (n mod 2) 0) as [Heven | Hodd].
  - destruct (s !! (n / 2 - 1)%nat) as [v1 |] eqn:H1; [| done].
    destruct (s !! (n / 2)%nat) as [v2 |] eqn:H2; [| done]. cbn in Hm.
    destruct (checked_add 128 v1 v2) as [sum |] eqn:Hsum; [| done].
    apply checked_Some in Hsum as [-> _]. apply ufixed_div_within in Hm as (_ & _ & Hm).
    assert (a ≤ v1) by (eapply Hge; [exact H1 | lia]). assert (v2 ≤ b) by (eapply Hle; [exact H2 | lia]).
    assert (v1 ≤ v2) by (eapply sorted_index_le; [exact Hsort | | exact H1 | exact H2]; lia).
    unfold Oracle.fixed_two in Hm. pose proof DIV_pos. nia.
  - assert (n mod 2 = 1)%nat by (pose proof (Nat.mod_upper_bound n 2 ltac:(done)); lia).
    split; [eapply Hge | eapply Hle]; [exact Hm | lia | exact Hm | lia].
Qed.
End median.

(** The least number of units of [d] that hold [n]. *)
Lemma ceil_le n d k : 0 < d → rounded_div Up n d ≤ k ↔ n ≤ k * d.
Proof.
  intros Hd. cbn. rewrite <- Z.lt_succ_r. split; intros Hk.
  - pose proof (Z.mul_succ_div_gt (n + d - 1) d Hd). nia.
  - apply Z.div_lt_upper_bound; nia.
Qed.
Lemma le_floor n d k : 0 < d → k ≤ n / d ↔ k * d ≤ n.
Proof.
  intros Hd. split; intros Hk.
  - pose proof (Z.mul_div_le n d Hd). nia.
  - apply Z.div_le_lower_bound; lia.
Qed.

(** The price of a wrapped token in a currency: one, if it is the wrapped currency itself. *)
Definition price `{bridge_env} (c : CurrencyId.t) (r : Runtime) : option Z :=
  if bool_decide (c = GetWrappedCurrencyId) then Some DIV
  else OracleStore.Aggregate (rt_oracle r) !! ExchangeRate c.

Section thresholds.
Context `{LoansApi}.
Import RegistryStore Vaults Collateral.Collateral VaultRegistry.VaultRegistry CurrencyConvert.
Context (c : CurrencyId.t) (Hlend : CurrencyId.is_lend_token c = false)
  (Hwrapped : CurrencyId.is_lend_token GetWrappedCurrencyId = false).

(** Outside the lending market a conversion is that of the oracle. *)
Lemma convert_to_wrapped x r y r' :
  fits BALANCE x → prices_fit r →
  convert_to (Amount.new x c) GetWrappedCurrencyId r = Ok (y, r') →
  r' = r ∧ Amount.currency y = GetWrappedCurrencyId ∧
  ∃ p, price c r = Some p ∧ fits 128 p ∧
    (x = 0 ∧ Amount.amount y = 0 ∨ p ≠ 0 ∧ Amount.amount y = x * DIV / p) ∧ fits BALANCE (Amount.amount y).
Proof.
  intros Hx Hp Hr. unfold convert_to in Hr. cbn in Hr. rewrite Hlend, Hwrapped in Hr. cbn in Hr. outcome_inv.
  unfold Oracle.convert in Hr. unfold price. cbn in Hr. case_bool_decide; [outcome_inv | rewrite bool_decide_eq_true_2 in Hr by done; outcome_inv].
  - split_and!; [done.. |]. exists DIV. split_and!; [done | done | right; split; [done |] | done].
    cbn. by rewrite Z.div_mul.
  - split_and!; [done.. |]. by apply collateral_to_wrapped_Ok.
Qed.
Lemma convert_from_wrapped x r y r' :
  fits BALANCE x → prices_fit r →
  convert_to (Amount.new x GetWrappedCurrencyId) c r = Ok (y, r') →
  r' = r ∧ Amount.currency y = c ∧
  ∃ p, price c r = Some p ∧ fits 128 p ∧ Amount.amount y = x * p / DIV ∧ fits BALANCE (Amount.amount y).
Proof.
  intros Hx Hp Hr. unfold convert_to in Hr. cbn in Hr. rewrite Hlend, Hwrapped in Hr. cbn in Hr. outcome_inv.
  unfold Oracle.convert in Hr. unfold price. cbn in Hr. repeat case_bool_decide; try congruence; outcome_inv.
  - split_and!; [done.. |]. exists DIV. split_and!; [done | done | | done]. cbn. by rewrite Z.div_mul.
  - split_and!; [done.. |]. by apply wrapped_to_collateral_Ok.
Qed.

(** What [x] of collateral is worth, and how many tokens it backs at threshold [t]. *)
Lemma max_wrapped_Ok x t r y r' :
  fits BALANCE x → fits 128 t → prices_fit r →
  calculate_max_wrapped_from_collateral_for_threshold (Amount.new x c) GetWrappedCurrencyId t r = Ok (y, r') →
  r' = r ∧ Amount.currency y = GetWrappedCurrencyId ∧
  ∃ p w, price c r = Some p ∧ fits 128 p ∧ 0 < t ∧
    (x = 0 ∧ w = 0 ∨ 0 < p ∧ w = x * DIV / p) ∧ 0 ≤ w ∧ Amount.amount y = w * DIV / t.
Proof.
  intros Hx Ht Hp Hr. unfold calculate_max_wrapped_from_collateral_for_threshold in Hr.
  apply M_bind_Ok in Hr as (w & r1 & Hw & Hr). apply convert_to_wrapped in Hw as (-> & Hcur & p & Hl & Hf & Hxp & Hfw); [| done..].
  apply lift_Ok in Hr as [Hr ->].
  apply Amount.checked_div_Ok in Hr as (Ht0 & Hcy & Hv & _); [| done..].
  split; [done |]. split; [congruence |]. exists p, (Amount.amount w). destruct Hf, Ht, Hfw.
  split_and!; try done; [lia |]. destruct Hxp as [Hxp | [Hp0 Hxp]]; [by left | right; split; [lia | done]].
Qed.

Lemma below_threshold_Ok x b t r below r' :
  fits BALANCE x → fits 128 t → prices_fit r →
  is_collateral_below_threshold (Amount.new x c) (Amount.new b GetWrappedCurrencyId) t r = Ok (below, r') →
  ∃ p w, price c r = Some p ∧ fits 128 p ∧ 0 < t ∧
    (x = 0 ∧ w = 0 ∨ 0 < p ∧ w = x * DIV / p) ∧ (below = false ↔ b * t ≤ w * DIV).
Proof.
  intros Hx Ht Hp Hr. unfold is_collateral_below_threshold in Hr.
  apply M_bind_Ok in Hr as (y & r1 & Hy & Hr). cbn in Hy.
  apply max_wrapped_Ok in Hy as (-> & _ & p & w & Hl & Hf & Ht0 & Hxp & _ & Hy); [| done..].
  apply lift_Ok in Hr as [[_ ->]%Amount.lt_Ok ->]. exists p, w. split_and!; [done.. |].
  rewrite Z.ltb_ge, Hy. cbn. by apply le_floor.
Qed.

Lemma required_Ok b t r req r' :
  fits BALANCE b → fits 128 t → prices_fit r →
  get_required_collateral_for_wrapped_with_threshold (Amount.new b GetWrappedCurrencyId) t c r = Ok (req, r') →
  ∃ p, price c r = Some p ∧
    Amount.amount req = rounded_div Up (b * t) DIV * p / DIV.
Proof.
  intros Hb Ht Hp Hr. unfold get_required_collateral_for_wrapped_with_threshold in Hr.
  apply M_bind_Ok in Hr as (s & r1 & Hs & Hr). apply lift_Ok in Hs as [Hs ->].
  apply Amount.checked_rounded_mul_Ok in Hs as (Hcs & Hs & Hfs); [| done..]. destruct s as [s cs]. cbn in *. subst cs.
  apply convert_from_wrapped in Hr as (-> & _ & p & Hl & _ & Hr & _); [| done..].
  exists p. split; [done |]. by rewrite Hr, Hs.
Qed.

(** ** Free collateral *)

Lemma backing_currency vid r cap :
  get_backing_collateral vid r = Ok cap → Amount.currency cap = collateral_currency vid.
Proof. unfold get_backing_collateral, total_current_stake. intros Hr. apply bind_Ok in Hr as (x & _ & [= <-]). done. Qed.

(** The collateral that backs no tokens yet: rounding may count up to a unit too much of it. *)
Lemma free_collateral_Ok v cap t r free r' :
  collateral_currency (id v) = c → wrapped_currency (id v) = GetWrappedCurrencyId → prices_fit r →
  get_backing_collateral (id v) r = Ok cap → Amount.wf cap →
  RichVault.get_secure_threshold v r = Ok t → fits 128 t →
  get_free_collateral v r = Ok (free, r') →
  r' = r ∧ free = Amount.new (Amount.amount free) c ∧ Amount.wf free ∧
  ∃ p, price c r = Some p ∧
    (0 < Amount.amount free →
     (issued_tokens v + to_be_issued_tokens v) * p * t <
       (Amount.amount cap - Amount.amount free + 1) * DIV * DIV + t * DIV).
Proof.
  intros Hc Hw Hp Hcap Hwf Hthr Ht Hr. unfold get_free_collateral in Hr.
  apply M_bind_Ok in Hr as (t' & r1 & [Ht' ->]%query_Ok & Hr). rewrite Hthr in Ht'. injection Ht' as <-.
  apply M_bind_Ok in Hr as (used & r1 & Hu & Hr). unfold get_used_collateral in Hu.
  apply M_bind_Ok in Hu as (b & r2 & [Hb ->]%lift_Ok & Hu). unfold RichVault.backed_tokens in Hb. revert Hc Hw. outcome_inv. intros Hc Hw.
  match goal with Hs : checked_add _ _ _ = Some ?s |- _ => apply checked_Some in Hs as [-> Hfit] end.
  unfold RichVault.wrapped_currency, get_total_collateral in *. rewrite Hw in *. rewrite Hc in *.
  match goal with Hx : convert_to _ _ _ = Ok (?y, _), Hm : Amount.checked_mul ?y _ = Ok _,
    Hmin : Amount.min _ _ = Ok _, Hs : Amount.checked_sub _ _ = Ok _ |- _ =>
    apply convert_from_wrapped in Hx as (-> & Hcx & p & Hl & [Hp0 _] & Hxv & Hfx); [| done..];
    apply Amount.checked_rounded_mul_Ok in Hm as (_ & Hmv & _); [| done..];
    apply Amount.min_Ok in Hmin as [_ ->];
    apply Amount.checked_sub_Ok in Hs as (_ & Hcf & Hf & _) end.
  repeat match goal with Hg : get_backing_collateral _ _ = Ok ?z |- _ =>
    lazymatch z with cap => fail | _ => rewrite Hcap in Hg; injection Hg as Hg; subst z end end.
  cbn [Amount.amount Amount.currency rounded_div] in *. rewrite Hmv, Hxv in Hf. clear Hmv Hxv Hfx.
  pose proof (backing_currency _ _ _ Hcap) as Hcc. rewrite Hc in Hcc.
  destruct free as [f cf]. cbn in *. rewrite Hcc in Hcf. subst cf. destruct Ht as [Ht _], Hwf as [Hc0 Hc1].
  set (B := issued_tokens v + to_be_issued_tokens v) in *.
  set (X := B * p / DIV) in *. set (U := X * t / DIV) in *.
  assert (0 ≤ U) as HU.
  { destruct Hfit. repeat (apply Z.div_pos; [| apply DIV_pos]; apply Z.mul_nonneg_nonneg; try lia). }
  split; [done |]. split; [done |]. split; [unfold Amount.wf, fits in *; cbn; lia |].
  exists p. split; [done |]. intros Hfp.
  pose proof (Z.mul_succ_div_gt (B * p) DIV DIV_pos) as H1. fold X in H1.
  pose proof (Z.mul_succ_div_gt (X * t) DIV DIV_pos) as H2. fold U in H2.
  assert (Amount.amount cap - f = U) as -> by lia. pose proof DIV_pos. clearbody X U B. nia.
Qed.

End thresholds.

Section covered.
Context `{LoansApi}.
Import RegistryStore Vaults Collateral.Collateral VaultRegistry.VaultRegistry CurrencyConvert.

(** C6: the two computations of a threshold agree. If the check finds that the collateral
    covers the tokens, it is at least the collateral computed as required; if it is more
    than that, the check finds that it does. So the check and the requirement differ by
    less than one unit of the collateral currency. This holds for
    collateral of any currency but a lend token, whose amounts convert through the exchange
    rate of its market, when the wrapped currency is no lend token either. *)
Theorem threshold_agrees c x b t r below req r1 r2 :
  CurrencyId.is_lend_token c = false → CurrencyId.is_lend_token GetWrappedCurrencyId = false →
  fits BALANCE x → fits BALANCE b → fits 128 t → prices_fit r →
  is_collateral_below_threshold (Amount.new x c) (Amount.new b GetWrappedCurrencyId) t r = Ok (below, r1) →
  get_required_collateral_for_wrapped_with_threshold (Amount.new b GetWrappedCurrencyId) t c r = Ok (req, r2) →
  (below = false → Amount.amount req ≤ x) ∧ (Amount.amount req < x → below = false).
Proof.
  intros Hlend Hwrapped Hx Hb Ht Hp Hc Hr. apply below_threshold_Ok in Hc as (p & w & Hl & [Hp0 _] & Ht0 & Hxp & Hbel); [| done..].
  apply required_Ok in Hr as (p' & Hl' & Hreq); [| done..]. rewrite Hl in Hl'. injection Hl' as <-.
  rewrite Hbel, Hreq. rewrite <- (ceil_le (b * t) DIV w) by apply DIV_pos.
  set (k := rounded_div Up (b * t) DIV). assert (0 ≤ k) as Hk.
  { destruct (Z.le_gt_cases 0 k) as [| Hneg]; [done |]. assert (k ≤ -1) as Hle by lia.
    unfold k in Hle. rewrite ceil_le in Hle by apply DIV_pos. destruct Hb. pose proof DIV_pos. nia. }
  destruct Hxp as [[-> ->] | [Hpos ->]].
  - split; intros Hle.
    + assert (k = 0) as -> by lia. done.
    + exfalso. assert (0 ≤ k * p / DIV) by (apply Z.div_pos; [nia | apply DIV_pos]). lia.
  - rewrite le_floor by done. split; intros Hle.
    + apply Z.div_le_upper_bound; [apply DIV_pos | lia].
    + pose proof (Z.mul_succ_div_gt (k * p) DIV DIV_pos) as Hs. apply Z.le_succ_l in Hle.
      apply (Z.mul_le_mono_nonneg_l _ _ DIV) in Hle; [lia | done].
Qed.

(** C5: a vault takes on a request to issue, to mint reimbursed tokens or to replace another
    vault only when its collateral covers it: with the request, the value of the tokens it
    has issued and is to issue, times its secure threshold, exceeds its backing collateral
    by less than the rounding of one unit of collateral and one of price. This holds
    for collateral of any currency but a lend token, whose amounts convert through the exchange
    rate of its market as well, when the wrapped currency is no lend token either. *)
Theorem request_is_covered vid v tokens cap t r u r' :
  CurrencyId.is_lend_token (collateral_currency vid) = false →
  CurrencyId.is_lend_token GetWrappedCurrencyId = false → wrapped_currency vid = GetWrappedCurrencyId → prices_fit r →
  RegistryStore.Vaults (rt_registry r) !! vid = Some v → id v = vid →
  get_backing_collateral vid r = Ok cap → Amount.wf cap →
  RichVault.get_secure_threshold v r = Ok t → fits 128 t →
  try_increase_to_be_issued_tokens vid (Amount.new tokens GetWrappedCurrencyId) r = Ok (u, r') →
  0 < tokens →
  ∃ p, price (collateral_currency vid) r = Some p ∧
    (issued_tokens v + to_be_issued_tokens v + tokens) * p * t <
      (Amount.amount cap + 1) * DIV * DIV + t * DIV.
Proof.
  intros Hlend Hwrapped Hw Hp Hv Hi Hcap Hwf Hthr Ht Hr Hpos. unfold try_increase_to_be_issued_tokens in Hr.
  apply M_bind_Ok in Hr as (y & r1 & [Hy ->]%query_Ok & Hr). apply active_vault_Ok in Hy as [Hy _].
  rewrite Hv in Hy. injection Hy as <-.
  apply M_bind_Ok in Hr as (m & r1 & Hm & Hr). apply M_bind_Ok in Hr as (enough & r2 & [Hge ->]%lift_Ok & Hr).
  apply M_bind_Ok in Hr as ([] & r2 & [-> ->]%ensureM_Ok & _). apply Amount.ge_Ok in Hge as [_ Hge].
  cbn in Hge. symmetry in Hge. apply Z.geb_le in Hge. unfold issuable_tokens in Hm.
  apply M_bind_Ok in Hm as (banned & r2 & [-> ->]%gets_Ok & Hm).
  destruct (RichVault.is_banned v r); [outcome_inv; cbn in *; lia |].
  apply M_bind_Ok in Hm as (free & r2 & Hf & Hm).
  apply (free_collateral_Ok (collateral_currency vid) Hlend Hwrapped v cap t) in Hf as (-> & Hfree & Hff & p & Hl & Hcov);
    [| rewrite ?Hi; done..].
  apply M_bind_Ok in Hm as (t' & r2 & [Ht' ->]%query_Ok & Hm). rewrite Hthr in Ht'. injection Ht' as <-.
  unfold RichVault.wrapped_currency in Hm. rewrite Hi, Hw, Hfree in Hm.
  apply max_wrapped_Ok in Hm as (_ & _ & p' & w & Hl' & [Hp0 _] & Ht0 & Hxp & Hw0 & Hmv); [| done..].
  rewrite Hl in Hl'. injection Hl' as <-. exists p. split; [done |].
  rewrite Hmv, le_floor in Hge by done. pose proof DIV_pos as HD.
  destruct Hxp as [[_ ->] | [Hpp ->]]; [nia |].
  set (f := Amount.amount free) in *. pose proof (Z.mul_div_le (f * DIV) p Hpp) as Hle.
  set (W := f * DIV / p) in *. clearbody W.
  assert (0 < f) as Hf0 by nia. specialize (Hcov Hf0). nia.
Qed.
End covered.
