(* ===== verification/IssueProps.v ===== *)
(** * When an issue request cannot be executed

    Two states in which a user who has paid bitcoin gets no tokens: a payment
    above the requested amount to a vault that has stopped accepting issues, and
    a request to a vault that was liquidated and then recovered. *)

From coqutil Require Import Byte.
From Stdlib Require Import ZArith Lia.
From stdpp Require Import base tactics option list numbers gmap.
From S2P Require Import Prelude Bytes BtcTypes BtcMerkle BtcBuild Security Relay RelayVerify Primitives FixedPoint Reward Staking Tokens Amount BridgeStores Bridge Oracle Fee Registry Collateral Nomination VaultRegistry Issue TokenWeight TokenMoves TokenLaws LiquidationSpec.

Local Open Scope Z_scope.

Section issue.
Context `{LoansApi}.
Import RegistryStore Vaults VaultRegistry.VaultRegistry Issue.Issue.

(** A request that waits for a payment, and its vault. *)
Definition waiting (issue_id : list byte) (q : IssueRequest) (v : Vault) (r : Runtime) : Prop :=
  IssueStore.IssueRequests (rt_issue r) !! issue_id = Some q ∧ issue_status q = IssuePending ∧
  RegistryStore.Vaults (rt_registry r) !! issue_vault q = Some v.
(** The tokens it is for. *)
Definition expected (q : IssueRequest) : Z := issue_amount q + issue_fee q.

Lemma run_lift_Ok {A C} (x : outcome BError A) (k : A → B C) r a :
  x = Ok a → (lift x ≫= k) r = k a r.
Proof. by intros ->. Qed.

(** Executing a waiting request with a verified payment. *)
Lemma execute_waiting executor issue_id proof q v r paid :
  waiting issue_id q v r → fits BALANCE (expected q) →
  RelayCalls.get_and_verify_issue_payment proof (issue_btc_address q) r = Ok paid →
  _execute_issue executor issue_id proof r =
    (issue ← execute_pending executor issue_id q (Amount.new paid (wrapped_currency (issue_vault q)))
               (Amount.new (expected q) (wrapped_currency (issue_vault q)));
     let issue_amount := amount_of issue in
     let issue_fee := fee_of issue in
     total ← lift (Amount.checked_add issue_amount issue_fee);
     issue_tokens (issue_vault issue) total;;
     on_tokens (Amount.mint_to issue_amount (issue_requester q));;
     on_tokens (Amount.mint_to issue_fee fee_pool_account_id);;
     Fee.distribute_rewards issue_fee;;
     set_issue_status issue_id IssueCompleted;;
     deposit_event (IssueStore.ExecuteIssue issue_id (issue_requester q) (issue_vault issue) (Amount.amount total)
                      (Primitives.issue_fee issue))) r.
Proof.
  intros (Hq & Hs & Hv) Hf Hp. unfold _execute_issue.
  rewrite (run_query _ _ _ q) by (unfold get_issue_request_from_id, find_request; rewrite Hq; cbn; by rewrite Hs).
  cbv zeta. rewrite (run_query _ _ _ paid Hp).
  rewrite (run_lift_Ok _ _ _ (Amount.new (expected q) (wrapped_currency (issue_vault q))))
    by (apply Amount.checked_add_Ok; split_and!; done).
  by rewrite Hs.
Qed.

(** C8: a payment above the requested amount cannot be executed while the vault does not
    accept new issues: the surplus is compared with zero in the collateral currency of the
    vault, not in the wrapped one, and the whole execution fails with [InvalidCurrency].
    The user has sent the bitcoin and gets nothing for it. *)
Theorem overpaid_issue_blocked executor issue_id proof q v r paid :
  waiting issue_id q v r → fits BALANCE (expected q) →
  status v = Active false → collateral_currency (issue_vault q) ≠ wrapped_currency (issue_vault q) →
  RelayCalls.get_and_verify_issue_payment proof (issue_btc_address q) r = Ok paid →
  expected q < paid →
  _execute_issue executor issue_id proof r = Err (ModuleError (CurrencyE CurrencyError.InvalidCurrency)).
Proof.
  intros Hw Hf Hst Hne Hp Hlt. rewrite (execute_waiting _ _ _ q v r paid Hw Hf Hp). destruct Hw as (_ & _ & Hv).
  assert (execute_pending executor issue_id q (Amount.new paid (wrapped_currency (issue_vault q)))
            (Amount.new (expected q) (wrapped_currency (issue_vault q))) r =
          Err (ModuleError (CurrencyE CurrencyError.InvalidCurrency))) as Hx; [| by unfold mbind, M_bind; rewrite Hx].
  unfold execute_pending.
  rewrite (run_lift_Ok _ _ _ false) by (apply Amount.lt_Ok; split; [done | symmetry; apply Z.ltb_ge; cbn; lia]).
  cbv beta iota. rewrite run_assoc.
  rewrite (run_lift_Ok _ _ _ true) by (apply Amount.gt_Ok; split; [done | symmetry; apply Z.gtb_lt; cbn; lia]).
  cbv beta iota. rewrite run_assoc. rewrite (run_query _ _ _ false).
  2: { unfold is_vault_liquidated, get_vault_from_id. rewrite Hv. cbn. unfold is_liquidated. by rewrite Hst. }
  cbn [negb]. rewrite run_assoc. unfold try_increase_issue_amount. rewrite run_assoc.
  rewrite (run_lift_Ok _ _ _ (Amount.new (paid - expected q) (wrapped_currency (issue_vault q))))
    by (apply Amount.checked_sub_Ok; cbn; split_and!; (done || lia)).
  rewrite run_assoc. unfold get_issuable_tokens_from_vault. rewrite run_assoc.
  rewrite (run_query _ _ _ v).
  2: { apply active_vault_Ok. split; [done |]. unfold is_liquidated. by rewrite Hst. }
  rewrite bool_decide_eq_true_2 by (rewrite Hst; done). rewrite run_ret, run_assoc.
  unfold mbind at 1, M_bind at 1, lift.
  assert (∀ a b, Amount.currency a ≠ Amount.currency b →
            Amount.min a b = Err (ModuleError (CurrencyE CurrencyError.InvalidCurrency))) as Hmin.
  { intros a b Hab. unfold Amount.min, Amount.ensure_same. by rewrite bool_decide_eq_false_2. }
  by rewrite Hmin.
Qed.

(** ** Requests the counter of the vault does not cover *)

Lemma set_issue_amount_Ok issue_id q t g r q' r' :
  set_issue_amount issue_id q t g r = Ok (q', r') →
  expected q' = Amount.amount t ∧ issue_vault q' = issue_vault q ∧ registry_maps r' = registry_maps r.
Proof.
  intros Hr. split_and!.
  - unfold set_issue_amount in Hr. outcome_inv.
    match goal with Hs : Amount.checked_sub _ _ = Ok _ |- _ => apply Amount.checked_sub_Ok in Hs as (_ & _ & Hs' & _) end.
    unfold expected. cbn in *. lia.
  - unfold set_issue_amount in Hr. outcome_inv. done.
  - assert (keeps registry_maps (set_issue_amount issue_id q t g)) as Hm; [| by apply Hm in Hr].
    unfold set_issue_amount, deposit_event, update. keeps.
Qed.
Lemma treasury_maps t x : keeps registry_maps (treasury t x).
Proof. unfold treasury, transfer_funds, take_funds, hold_funds. keeps. Qed.
Lemma registry_event_maps e : keeps registry_maps (Vaults.deposit_event e).
Proof. unfold Vaults.deposit_event, update_storage. keeps. Qed.

(** The vault of a request, in service, with [room] tokens to be issued. *)
Definition room_of (vid : VaultId) (room : Z) (r : Runtime) : Prop :=
  ∃ v, RegistryStore.Vaults (rt_registry r) !! vid = Some v ∧ id v = vid ∧ is_liquidated v = false ∧
       to_be_issued_tokens v = room.
Lemma room_maps vid room r r' : registry_maps r' = registry_maps r → room_of vid room r → room_of vid room r'.
Proof. unfold room_of, registry_maps. by intros [= -> _]. Qed.
Lemma room_put vid room v r :
  id v = vid → is_liquidated v = false → to_be_issued_tokens v = room → room_of vid room (vault_put v r).
Proof. intros <- Hl Ht. exists v. split_and!; try done. apply lookup_insert_eq. Qed.

Lemma decrease_room vid room t r u r' :
  room_of vid room r → decrease_to_be_issued_tokens vid t r = Ok (u, r') →
  Amount.amount t ≤ room ∧ room_of vid (room - Amount.amount t) r'.
Proof.
  intros (v & Hv & Hi & Hl & <-) Hr. unfold decrease_to_be_issued_tokens, RichVault.cancel_issue_tokens,
    RichVault.decrease_to_be_issued in Hr.
  apply M_bind_Ok in Hr as (y & r1 & [Hy%ok_or_Ok ->]%query_Ok & Hr). rewrite Hv in Hy. injection Hy as <-.
  rewrite Hl in Hr. outcome_inv.
  match goal with Hs : Amount.checked_sub _ _ = Ok _, Hp : RichVault.set _ _ _ = Ok _, He : Vaults.deposit_event _ _ = Ok _ |- _ =>
    apply Amount.checked_sub_Ok in Hs as (_ & _ & Ha & Hle); apply set_Ok in Hp as [_ ->];
    apply registry_event_maps in He end.
  split; [done |]. eapply room_maps; [done | apply room_put; [done.. |]]. exact Ha.
Qed.
Lemma increase_room vid room t r u r' :
  room_of vid room r → try_increase_to_be_issued_tokens vid t r = Ok (u, r') →
  room_of vid (room + Amount.amount t) r'.
Proof.
  intros (v & Hv & Hi & Hl & <-) Hr. unfold try_increase_to_be_issued_tokens, RichVault.request_issue_tokens,
    RichVault.increase_to_be_issued in Hr.
  apply M_bind_Ok in Hr as (y & r1 & [Hy ->]%query_Ok & Hr). apply active_vault_Ok in Hy as [Hy _].
  rewrite Hv in Hy. injection Hy as <-.
  apply M_bind_Ok in Hr as (m & r1 & Hm & Hr). apply (issuable_tokens_watched no_weights) in Hm. outcome_inv.
  match goal with Hs : Amount.checked_add _ _ = Ok _, Hp : RichVault.set _ _ _ = Ok _, He : Vaults.deposit_event _ _ = Ok _ |- _ =>
    apply Amount.checked_add_Ok in Hs as (_ & _ & Ha & _); apply set_Ok in Hp as [_ ->];
    apply registry_event_maps in He end.
  eapply room_maps; [done | apply room_put; [done.. |]]. exact Ha.
Qed.

Lemma get_issuable_maps vid r a r' :
  get_issuable_tokens_from_vault vid r = Ok (a, r') → registry_maps r' = registry_maps r.
Proof. intros Hr. apply (get_issuable_watched no_weights) in Hr. exact (f_equal (λ p, p.1.1) Hr). Qed.

(** What is missing for the request is missing after the payment has been compared with it. *)
Lemma execute_pending_room executor issue_id q c paid room r q' r' :
  room_of (issue_vault q) room r →
  execute_pending executor issue_id q (Amount.new paid c) (Amount.new (expected q) c) r = Ok (q', r') →
  issue_vault q' = issue_vault q ∧
  ∃ room', room_of (issue_vault q) room' r' ∧ room' - expected q' = room - expected q.
Proof.
  intros Hroom Hr. unfold execute_pending in Hr.
  apply M_bind_Ok in Hr as (underpaid & r1 & [[_ ->]%Amount.lt_Ok ->]%lift_Ok & Hr).
  apply M_bind_Ok in Hr as ([q1 released] & r1 & Hrel & Hr).
  assert (q' = q1 ∧ registry_maps r' = registry_maps r1) as [-> Hm] by (outcome_inv; by repeat
    match goal with Hu : on_tokens _ _ = Ok _ |- _ => apply on_tokens_Ok in Hu as (? & _ & ->) end).
  clear Hr. assert (issue_vault q1 = issue_vault q ∧
    ∃ room', room_of (issue_vault q) room' r1 ∧ room' - expected q1 = room - expected q) as [Hi (room' & Hr' & He)];
    [| split; [done | exists room'; split; [by eapply room_maps | done]]].
  clear Hm r'. cbn in Hrel. destruct (Z.ltb_spec paid (expected q)) as [Hlt | Hge].
  - unfold decrease_issue_amount in Hrel. outcome_inv.
    match goal with Hs : Amount.checked_sub (Amount.new (expected q) c) _ = Ok _, Hd : decrease_to_be_issued_tokens _ _ _ = Ok _,
      Ht : treasury _ _ _ = Ok _, Ha : set_issue_amount _ _ _ _ _ = Ok _ |- _ =>
      apply Amount.checked_sub_Ok in Hs as (_ & _ & Hdef & _);
      apply (decrease_room _ _ _ _ _ _ Hroom) in Hd as [_ Hd']; apply treasury_maps in Ht;
      apply set_issue_amount_Ok in Ha as (Hex & Hv & Hm) end.
    split; [done |]. eexists. split; [eapply room_maps, room_maps; done |]. cbn in *. lia.
  - outcome_inv.
    match goal with Hg : Amount.gt _ _ = Ok _ |- _ => apply Amount.gt_Ok in Hg as [_ ->] end.
    match goal with Hl : (if ?b then query _ else _) _ = Ok (?l, ?r0) |- _ =>
      assert (r0 = r) as -> by (destruct b; by outcome_inv); destruct l; cbn [negb] in * end.
    { outcome_inv. split; [done |]. by exists room. }
    match goal with Ht : try_increase_issue_amount _ _ _ _ _ = Ok _ |- _ => unfold try_increase_issue_amount in Ht end.
    outcome_inv.
    match goal with Hg : get_issuable_tokens_from_vault _ _ = Ok _, Ha : attempt _ _ = Ok (?b, _) |- _ =>
      apply get_issuable_maps in Hg; apply (room_maps _ room _ _ Hg) in Hroom;
      apply attempt_Ok in Ha as [[-> Ha'] | (-> & -> & _)] end.
    + apply (increase_room _ _ _ _ _ _ Hroom) in Ha'. outcome_inv.
      match goal with Hs : Amount.checked_add _ _ = Ok _, Ha : set_issue_amount _ _ _ _ _ = Ok _ |- _ =>
        apply Amount.checked_add_Ok in Hs as (_ & _ & Hsum & _);
        apply set_issue_amount_Ok in Ha as (Hex & Hv & Hm) end.
      split; [done |]. eexists. split; [by eapply room_maps |]. cbn in *. lia.
    + outcome_inv. split; [done |]. by exists room.
Qed.

Lemma issue_tokens_room vid room t r u r' :
  room_of vid room r → issue_tokens vid t r = Ok (u, r') → Amount.amount t ≤ room.
Proof.
  intros (v & Hv & Hi & Hl & <-) Hr. unfold issue_tokens, RichVault.execute_issue_tokens, RichVault.decrease_to_be_issued in Hr.
  apply M_bind_Ok in Hr as (y & r1 & [Hy%ok_or_Ok ->]%query_Ok & Hr). rewrite Hv in Hy. injection Hy as <-.
  rewrite Hl in Hr. outcome_inv.
  match goal with Hs : Amount.checked_sub (RichVault.to_be_issued_tokens v) _ = Ok _ |- _ =>
    apply Amount.checked_sub_Ok in Hs as (_ & _ & _ & Hle) end. exact Hle.
Qed.

(** A request for more tokens than its vault, in service, is to issue cannot end. *)
Lemma uncovered_request_stuck issue_id q v r :
  waiting issue_id q v r → id v = issue_vault q → is_liquidated v = false →
  to_be_issued_tokens v < expected q →
  (∀ executor proof, is_ok (_execute_issue executor issue_id proof r) = false) ∧
  (∀ requester, is_ok (_cancel_issue requester issue_id r) = false).
Proof.
  intros (Hq & Hst & Hv) Hi Hl Hlt.
  assert (room_of (issue_vault q) (to_be_issued_tokens v) r) as Hroom by by exists v.
  split.
  - intros executor proof. destruct (_execute_issue executor issue_id proof r) as [[u r'] | | |] eqn:Hx; [| done..].
    exfalso. unfold _execute_issue, get_issue_request_from_id, find_request in Hx.
    apply M_bind_Ok in Hx as (y & r1 & [Hy ->]%query_Ok & Hx).
    apply bind_Ok in Hy as (y' & Hy'%ok_or_Ok & Hy). rewrite Hq in Hy'. injection Hy' as <-. rewrite Hst in Hy.
    injection Hy as <-. cbv zeta in Hx. apply M_bind_Ok in Hx as (paid & r1 & [_ ->]%query_Ok & Hx).
    apply M_bind_Ok in Hx as (total & r1 & [Ht ->]%lift_Ok & Hx).
    apply Amount.checked_add_Ok in Ht as (_ & Hc & Ha & _). destruct total as [total c]. cbn in Ha, Hc. subst total c.
    rewrite Hst in Hx. apply M_bind_Ok in Hx as (q' & r1 & Hp & Hx).
    apply (execute_pending_room _ _ _ _ _ _ _ _ _ Hroom) in Hp as (Hiv & room' & Hroom' & Heq).
    apply M_bind_Ok in Hx as (t & r2 & [Ht ->]%lift_Ok & Hx). apply M_bind_Ok in Hx as ([] & r2 & His & _).
    rewrite Hiv in His. apply (issue_tokens_room _ _ _ _ _ _ Hroom') in His.
    apply Amount.checked_add_Ok in Ht as (_ & _ & Ht & _). unfold expected in *. cbn in Ht. lia.
  - intros requester. destruct (_cancel_issue requester issue_id r) as [[u r'] | | |] eqn:Hx; [| done..].
    exfalso. unfold _cancel_issue, get_pending_issue, find_request in Hx.
    apply M_bind_Ok in Hx as (y & r1 & [Hy ->]%query_Ok & Hx).
    apply bind_Ok in Hy as (y' & Hy'%ok_or_Ok & Hy). rewrite Hq in Hy'. injection Hy' as <-. rewrite Hst in Hy.
    injection Hy as <-. apply M_bind_Ok in Hx as (slashed & r1 & Hs & Hx).
    apply M_bind_Ok in Hx as (liq & r2 & [_ ->]%query_Ok & Hx). apply M_bind_Ok in Hx as ([] & r2 & Hf & Hx).
    apply M_bind_Ok in Hx as (full & r3 & [Ht ->]%lift_Ok & Hx). apply M_bind_Ok in Hx as ([] & r3 & Hd & _).
    assert (keeps registry_maps (slashed_on_cancel requester q)) as Hk1 by (unfold slashed_on_cancel; keeps).
    apply Hk1 in Hs.
    assert (registry_maps r2 = registry_maps r1) as Hm.
    { destruct liq; [by apply on_tokens_Ok in Hf as (? & _ & ->) | by apply treasury_maps in Hf]. }
    assert (room_of (issue_vault q) (to_be_issued_tokens v) r2) as Hroom2
      by (eapply room_maps; [| exact Hroom]; congruence).
    apply (decrease_room _ _ _ _ _ _ Hroom2) in Hd as [Hle _].
    apply Amount.checked_add_Ok in Ht as (_ & _ & Ht & _). unfold expected in *. cbn in Ht. lia.
Qed.

(** C9: recovering a liquidated vault id strands the requests made before the liquidation.
    Liquidation moved the tokens to be issued to the liquidation vault; the recovered vault
    is in service again and counts none, so a waiting request to it can be neither executed,
    whatever proof of payment is given, nor cancelled, by anyone: the subtraction from the
    counter of the vault underflows. *)
Theorem recovery_strands_issue origin pair account issue_id q v r r' :
  keyed r → ensure_signed origin = Ok (E := BError) account →
  recover_vault_id origin pair r = Ok (tt, r') →
  issue_vault q = vault_id_new account (Primitives.collateral pair) (wrapped pair) →
  waiting issue_id q v r → to_be_issued_tokens v = 0 → 0 < expected q →
  is_liquidated v = true ∧
  (∀ executor proof, is_ok (_execute_issue executor issue_id proof r') = false) ∧
  (∀ requester, is_ok (_cancel_issue requester issue_id r') = false).
Proof.
  intros Hk Ho Hr Hvid (Hq & Hst & Hv) Ht Hpos. unfold recover_vault_id, Nomination.signed_vault_id in Hr.
  apply M_bind_Ok in Hr as (vid & r1 & Hs & Hr). apply M_bind_Ok in Hs as (x & r2 & [Hx ->]%lift_Ok & Hs).
  rewrite Ho in Hx. injection Hx as <-. injection Hs as <- <-. rewrite <- Hvid in Hr.
  apply M_bind_Ok in Hr as (liq & r1 & [Hl ->]%query_Ok & Hr). unfold is_vault_liquidated, get_vault_from_id in Hl.
  rewrite Hv in Hl. injection Hl as Hl. apply M_bind_Ok in Hr as ([] & r1 & [Hl' ->]%ensureM_Ok & Hr).
  apply M_bind_Ok in Hr as (y & r1 & [Hy%ok_or_Ok ->]%query_Ok & Hr). rewrite Hv in Hy. injection Hy as <-.
  apply M_bind_Ok in Hr as ([] & r1 & [_ ->]%ensureM_Ok & Hr). apply M_bind_Ok in Hr as (v' & r1 & Hset & Hr).
  injection Hr as <-. unfold RichVault.set_accept_new_issues in Hset. apply set_Ok in Hset as [-> ->].
  split; [congruence |]. assert (id v = issue_vault q) as Hi by by apply Hk.
  set (v1 := set_status (λ _, Active true) v) in *.
  apply (uncovered_request_stuck issue_id q v1); [| done | done | unfold v1; cbn; lia].
  split_and!; [done | done |]. rewrite <- Hi. apply lookup_insert_eq.
Qed.
End issue.
