(* ===== verification/LoansRate.v ===== *)
(** * Interest rates of the lending market ([crates/loans/src/rate_model.rs, interest.rs])

    A [Rate] is a [FixedU128] counted in units of [10^-18]; a [Ratio] is a
    [Permill] counted in millionths.  Products and quotients of rates are those
    of [Rational128]; the power with saturation and the approximation of a
    quotient by a [Permill] are library functions of [sp_arithmetic]: the class
    [RateArith] states what is known of them. *)

From coqutil Require Import Byte.
From Stdlib Require Import ZArith Lia.
From stdpp Require Import base tactics option list numbers gmap.
From S2P Require Import Prelude Bytes Security Primitives FixedPoint Tokens Amount LoansStore.

Local Open Scope Z_scope.

(** [Ratio::one()] *)
Definition MILLION : Z := 10 ^ 6.

(** [from_rational p q]: [p / q] in millionths, rounded down and at most one. *)
Definition ratio_floor (p q : Z) : Z := if (q =? 0) || (q <=? p) then MILLION else p * MILLION / q.

Class RateArith `{Rational128} : Type := {
  (** products and quotients of rates round down ([SignedRounding::Minor]); [None] is an overflow *)
  ufixed_mul_spec a b : fits 128 a → fits 128 b → ufixed_mul a b = checked 128 (a * b / DIV);
  ufixed_div_spec a b :
    fits 128 a → fits 128 b → ufixed_div a b = if b =? 0 then None else checked 128 (a * DIV / b);
  (** [Permill::from_rational] *)
  from_rational : Z → Z → Z;
  from_rational_spec p q : 0 ≤ p → 0 ≤ q → from_rational p q = ratio_floor p q;
  (** [FixedU128::saturating_pow]: the power, saturating at the largest number *)
  saturating_pow : Z → Z → Z;
  saturating_pow_fits a n : fits 128 a → 0 ≤ n → fits 128 (saturating_pow a n);
  saturating_pow_one_le a n : fits 128 a → 0 ≤ n → DIV ≤ a → DIV ≤ saturating_pow a n;
  saturating_pow_le_one a n : fits 128 a → 0 < n → a ≤ DIV → saturating_pow a n ≤ a;
}.

(** [Permill::mul_floor] and [mul_ceil] *)
Definition mul_floor (ratio x : Z) : Z := ratio * x / MILLION.
Definition mul_ceil (ratio x : Z) : Z := rounded_div Up (ratio * x) MILLION.
(** [Rate::from(ratio)] *)
Definition rate_of (ratio : Z) : Z := ratio * (DIV / MILLION).
(** [Amount::mul_ratio_floor] *)
Definition mul_ratio_floor (self : Amount.t) (ratio : Z) : Amount.t := Amount.map self (mul_floor ratio).

(** Width of a [Rate]. *)
Definition RATE : Z := 128.
Definition SECONDS_PER_YEAR : Z := 365 * 24 * 60 * 60.

Section rates.
Context `{RateArith}.

(** [saturating_mul] *)
Definition rate_saturating_mul (a b : Z) : Z := default (umax RATE) (ufixed_mul a b).
End rates.

(** ** [rate_model.rs] *)

Module InterestRate.
Import RateModel.

(** [JumpModel::MAX_BASE_RATE] .. and [CurveModel::MAX_BASE_RATE] *)
Definition MAX_BASE_RATE : Z := 100000000000000000.
Definition MAX_JUMP_RATE : Z := 1000000000000000000.
Definition MAX_FULL_RATE : Z := 5000000000000000000.
Definition CURVE_MAX_BASE_RATE : Z := 100000000000000000.

Definition new_jump_model (base_rate jump_rate full_rate jump_utilization : Z) : InterestRateModel :=
  Jump (mkJumpModel base_rate jump_rate full_rate jump_utilization).
Definition new_curve_model (base_rate : Z) : InterestRateModel := Curve (mkCurveModel base_rate).
(** [InterestRateModel::default()] *)
Definition default_model : InterestRateModel :=
  new_jump_model (2 * DIV / 100) (10 * DIV / 100) (32 * DIV / 100) (80 * MILLION / 100).

Definition jump_check_model (self : JumpModel) : bool :=
  if (base_rate self >? MAX_BASE_RATE) || (jump_rate self >? MAX_JUMP_RATE) || (full_rate self >? MAX_FULL_RATE)
  then false
  else negb ((base_rate self >? jump_rate self) || (jump_rate self >? full_rate self)).
Definition curve_check_model (self : CurveModel) : bool := curve_base_rate self <=? CURVE_MAX_BASE_RATE.
Definition check_model (self : InterestRateModel) : bool :=
  match self with
  | Jump jump => jump_check_model jump
  | Curve curve => curve_check_model curve
  end.

Section model.
Context `{RateArith}.

Definition jump_get_borrow_rate (self : JumpModel) (utilization : Z) : option Z :=
  if utilization <=? jump_utilization self then
    slope ← checked_sub (jump_rate self) (base_rate self);
    result ← ufixed_div (rate_saturating_mul slope (rate_of utilization)) (rate_of (jump_utilization self));
    checked_add RATE result (base_rate self)
  else
    let excess_util := saturating_sub utilization (jump_utilization self) in
    slope ← checked_sub (full_rate self) (jump_rate self);
    result ← ufixed_div (rate_saturating_mul slope (rate_of excess_util))
               (rate_of (saturating_sub MILLION (jump_utilization self)));
    checked_add RATE result (jump_rate self).
Definition NINE : Z := 9.
Definition curve_get_borrow_rate (self : CurveModel) (utilization : Z) : option Z :=
  checked_add RATE (saturating_pow (rate_of utilization) NINE) (curve_base_rate self).
Definition get_borrow_rate (self : InterestRateModel) (utilization : Z) : option Z :=
  match self with
  | Jump jump => jump_get_borrow_rate jump utilization
  | Curve curve => curve_get_borrow_rate curve utilization
  end.
Definition get_supply_rate (borrow_rate util reserve_factor : Z) : Z :=
  let one_minus_reserve_factor := saturating_sub MILLION reserve_factor in
  let rate_to_pool := rate_saturating_mul borrow_rate (rate_of one_minus_reserve_factor) in
  rate_saturating_mul rate_to_pool (rate_of util).
End model.
End InterestRate.

(** ** The computations of [interest.rs] and [lib.rs] that read no storage *)
Section interest.
Context `{RateArith}.

Definition calc_utilization_ratio (cash borrows reserves : Amount.t) : outcome BError Z :=
  if Amount.is_zero borrows then Ok 0
  else
    sum ← Amount.checked_add cash borrows;
    total ← Amount.checked_sub sum reserves;
    Ok (from_rational (Amount.amount borrows) (Amount.amount total)).

Definition accrue_index (borrow_rate index delta_time : Z) : outcome BError Z :=
  rate_fraction ← ok_or (ufixed_div borrow_rate (SECONDS_PER_YEAR * DIV)) (Arithmetic Underflow);
  base_rate ← ok_or (checked_add RATE DIV rate_fraction) (Arithmetic Overflow);
  let compounded_rate := saturating_pow base_rate delta_time in
  ok_or (ufixed_mul index compounded_rate) (Arithmetic Overflow).

Definition borrow_balance_from_old_and_new_index (old_index new_index : Z) (amount : Amount.t)
    (rounding : Rounding) : outcome BError Amount.t :=
  borrow_index_increase ← ok_or (ufixed_div new_index old_index) (Arithmetic Underflow);
  Amount.checked_rounded_mul amount borrow_index_increase rounding.
End interest.
