(* ===== verification/Loans.v ===== *)
(** * The loans pallet ([crates/loans/src/lib.rs, interest.rs, farming.rs])

    A lending market per underlying currency: suppliers deposit the underlying
    and receive lend tokens, whose price grows with the interest that borrowers
    owe; lend tokens locked as collateral back loans of other currencies.  The
    pallet works on the runtime of the bridge: the token ledger, the oracle, its
    own storage, and the hook that tells the vault registry of a new price.

    The first half of the file is what [LoansApi] promises to the conversion of
    currencies, and an instance of it; the second half uses that conversion.
    The ledger calls the pallet back when lend tokens move: [tokens_transfer],
    [tokens_mint] and [tokens_burn] are the actions with these callbacks. *)

From coqutil Require Import Byte.
From Stdlib Require Import ZArith Lia.
From stdpp Require Import base tactics option list numbers gmap.
From S2P Require Import Prelude Bytes Security Primitives FixedPoint Tokens Amount BridgeStores LoansStore Bridge Oracle LoansRate.

Local Open Scope Z_scope.

(** What the pallet takes from its [Config] and from [sp_arithmetic]. *)
Class LoansEnv `{bridge_env} : Type := {
  loans_arith :: RateArith;
  market_iter :: StorageIter CurrencyId.t;
  (** the accounts derived from [PalletId] *)
  loans_account_id : AccountId;
  reward_account_id : AccountId;
  incentive_reward_account_id : AccountId;
  (** [T::OnExchangeRateChange] *)
  notify_exchange_rate_change : CurrencyId.t → B unit;
  notify_frame c : keeps beyond_loans (notify_exchange_rate_change c);
  notify_loans c : keeps rt_loans (notify_exchange_rate_change c);
  notify_now c : keeps rt_now (notify_exchange_rate_change c);
  (** [ReserveOrigin] and [UpdateOrigin] *)
  is_reserve_origin : Origin → bool;
  is_update_origin : Origin → bool;
}.

Definition loans_error (e : LoansError.t) : BError := ModuleError (LoansE e).

(** ** Interest and exchange rates *)
Module Interest.
Import LoansStore LoansError.
Section interest.
Context `{LoansEnv}.

Definition update (f : Storage → Storage) : B unit := modify (with_loans f).
Definition deposit_event (e : LoansStore.Event) : B unit := update (with_event e).
Definition get {A} (π : Storage → gmap CurrencyId.t A) (default_value : A) (asset_id : CurrencyId.t)
    (r : Runtime) : A := default default_value (π (rt_loans r) !! asset_id).

(** *** Getters *)

Definition last_accrued_interest_time : CurrencyId.t → Runtime → Z := get LastAccruedInterestTime 0.
Definition borrow_index : CurrencyId.t → Runtime → Z := get BorrowIndex 0.
Definition exchange_rate : CurrencyId.t → Runtime → Z := get ExchangeRate 0.
Definition total_borrows (asset_id : CurrencyId.t) (r : Runtime) : Amount.t :=
  Amount.new (get TotalBorrows 0 asset_id r) asset_id.
Definition total_reserves (asset_id : CurrencyId.t) (r : Runtime) : Amount.t :=
  Amount.new (get TotalReserves 0 asset_id r) asset_id.
Definition market (asset_id : CurrencyId.t) (r : Runtime) : outcome BError Market :=
  ok_or (Markets (rt_loans r) !! asset_id) (loans_error MarketDoesNotExist).
Definition lend_token_id (asset_id : CurrencyId.t) (r : Runtime) : outcome BError CurrencyId.t :=
  match market asset_id r with
  | Ok m => Ok (LoansStore.lend_token_id m)
  | _ => Err (loans_error MarketDoesNotExist)
  end.
Definition underlying_id (lend_token_id : CurrencyId.t) (r : Runtime) : outcome BError CurrencyId.t :=
  ok_or (UnderlyingAssetId (rt_loans r) !! lend_token_id) (loans_error InvalidLendTokenId).
Definition active_markets (r : Runtime) : list (CurrencyId.t * Market) :=
  filter (λ kv : CurrencyId.t * Market, state kv.2 = Active) (storage_iter (Markets (rt_loans r))).
Definition ensure_active_market (asset_id : CurrencyId.t) (r : Runtime) : outcome BError Market :=
  match list_find (λ kv : CurrencyId.t * Market, kv.1 = asset_id) (active_markets r) with
  | Some (_, (_, m)) => Ok m
  | None => Err (loans_error MarketNotActivated)
  end.

(** What can be taken from the account of the pallet. *)
Definition get_total_cash (asset_id : CurrencyId.t) (r : Runtime) : Amount.t :=
  Amount.new (free_balance asset_id loans_account_id (rt_tokens r)) asset_id.
Definition balance (asset_id : CurrencyId.t) (who : AccountId) (r : Runtime) : Amount.t :=
  Amount.new (free_balance asset_id who (rt_tokens r) + reserved_balance asset_id who (rt_tokens r)) asset_id.
Definition total_supply (asset_id : CurrencyId.t) (r : Runtime) : outcome BError Amount.t :=
  lend_token_id ← lend_token_id asset_id r;
  Ok (Amount.new (total_issuance lend_token_id (rt_tokens r)) lend_token_id).
(** [T::UnixTime::now().as_secs()] *)
Definition now_seconds (r : Runtime) : Z := rt_now r / 1000.

(** *** Exchange rate *)

Definition ensure_valid_exchange_rate (exchange_rate : Z) (r : Runtime) : outcome BError unit :=
  ensure ((MinExchangeRate (rt_loans r) <=? exchange_rate) && (exchange_rate <? MaxExchangeRate (rt_loans r)))
    (loans_error InvalidExchangeRate).
Definition calculate_exchange_rate (total_supply total_cash total_borrows total_reserves : Amount.t)
    (r : Runtime) : outcome BError Z :=
  if Amount.is_zero total_supply then Ok (MinExchangeRate (rt_loans r))
  else
    cash_plus_borrows ← Amount.checked_add total_cash total_borrows;
    cash_plus_borrows_minus_reserves ← Amount.checked_sub cash_plus_borrows total_reserves;
    exchange_rate ← ok_or (checked_from_rational (Amount.amount cash_plus_borrows_minus_reserves)
                             (Amount.amount total_supply)) (Arithmetic Underflow);
    ensure_valid_exchange_rate exchange_rate r;;
    Ok exchange_rate.
Definition exchange_rate_stored (asset_id : CurrencyId.t) (r : Runtime) : outcome BError Z :=
  total_supply ← total_supply asset_id r;
  calculate_exchange_rate total_supply (get_total_cash asset_id r) (total_borrows asset_id r)
    (total_reserves asset_id r) r.

(** *** Accruing interest *)

Record Status : Type := mkStatus {
  st_borrow_rate : Z;
  st_supply_rate : Z;
  st_exchange_rate : Z;
  st_utilization : Z;
  st_total_borrows : Z;
  st_total_reserves : Z;
  st_borrow_index : Z;
}.

(** Borrows, reserves and index after the seconds since the last accrual. *)
Definition accrued (market : Market) (borrow_rate last now index : Z) (borrows reserves : Amount.t)
  : outcome BError (Amount.t * Amount.t * Z) :=
  if now >? last then
    delta_time ← ok_or (checked_sub now last) (Arithmetic Underflow);
    borrow_index_new ← accrue_index borrow_rate index delta_time;
    total_borrows ← borrow_balance_from_old_and_new_index index borrow_index_new borrows Down;
    interest_accumulated ← Amount.checked_sub total_borrows borrows;
    total_reserves ← Amount.checked_add (mul_ratio_floor interest_accumulated (reserve_factor market)) reserves;
    Ok (total_borrows, total_reserves, borrow_index_new)
  else Ok (borrows, reserves, index).

Definition get_market_status (asset_id : CurrencyId.t) (r : Runtime) : outcome BError Status :=
  market ← market asset_id r;
  total_supply ← total_supply asset_id r;
  let total_cash := get_total_cash asset_id r in
  util ← calc_utilization_ratio total_cash (total_borrows asset_id r) (total_reserves asset_id r);
  borrow_rate ← ok_or (InterestRate.get_borrow_rate (rate_model market) util) (Arithmetic Overflow);
  let supply_rate := InterestRate.get_supply_rate borrow_rate util (reserve_factor market) in
  new ← accrued market borrow_rate (last_accrued_interest_time asset_id r) (now_seconds r)
          (borrow_index asset_id r) (total_borrows asset_id r) (total_reserves asset_id r);
  let '(total_borrows, total_reserves, borrow_index_new) := new : Amount.t * Amount.t * Z in
  exchange_rate ← calculate_exchange_rate total_supply total_cash total_borrows total_reserves r;
  Ok (mkStatus borrow_rate supply_rate exchange_rate util (Amount.amount total_borrows)
        (Amount.amount total_reserves) borrow_index_new).

(** [OnExchangeRateChange] of the pallet *)
Definition on_exchange_rate_change (currency_id : CurrencyId.t) : B unit :=
  lend ← gets (lend_token_id currency_id);
  match lend with
  | Ok lend_token_id => notify_exchange_rate_change lend_token_id
  | _ => mret tt
  end.

Definition update_last_accrued_interest_time (asset_id : CurrencyId.t) (time : Z) : B unit :=
  update (with_LastAccruedInterestTime <[asset_id := time]>).

Definition accrue_interest (asset_id : CurrencyId.t) : B unit :=
  now ← gets now_seconds;
  last ← gets (last_accrued_interest_time asset_id);
  if last =? 0 then update_last_accrued_interest_time asset_id now
  else if now <=? last then mret tt
  else
    s ← query (get_market_status asset_id);
    update_last_accrued_interest_time asset_id now;;
    update (with_TotalBorrows <[asset_id := st_total_borrows s]>);;
    update (with_TotalReserves <[asset_id := st_total_reserves s]>);;
    update (with_BorrowIndex <[asset_id := st_borrow_index s]>);;
    update (with_UtilizationRatio <[asset_id := st_utilization s]>);;
    update (with_BorrowRate <[asset_id := st_borrow_rate s]>);;
    update (with_SupplyRate <[asset_id := st_supply_rate s]>);;
    update (with_ExchangeRate <[asset_id := st_exchange_rate s]>);;
    on_exchange_rate_change asset_id;;
    deposit_event (InterestAccrued asset_id (st_total_borrows s) (st_total_reserves s) (st_borrow_index s)
                     (st_utilization s) (st_borrow_rate s) (st_supply_rate s) (st_exchange_rate s)).

(** *** Between lend tokens and the underlying currency *)

Definition recompute_underlying_amount (lend_tokens : Amount.t) : B Amount.t :=
  underlying_id ← query (underlying_id (Amount.currency lend_tokens));
  query (ensure_active_market underlying_id);;
  accrue_interest underlying_id;;
  exchange_rate ← query (exchange_rate_stored underlying_id);
  x ← lift (Amount.checked_mul lend_tokens exchange_rate);
  mret (Amount.set_currency x underlying_id).
Definition recompute_collateral_amount (underlying : Amount.t) : B Amount.t :=
  query (ensure_active_market (Amount.currency underlying));;
  accrue_interest (Amount.currency underlying);;
  exchange_rate ← query (exchange_rate_stored (Amount.currency underlying));
  lend_token_id ← query (lend_token_id (Amount.currency underlying));
  x ← lift (Amount.checked_div underlying exchange_rate);
  mret (Amount.set_currency x lend_token_id).

(** *** The interface of the bridge *)

Lemma on_exchange_rate_change_frame c : keeps beyond_loans (on_exchange_rate_change c).
Proof. unfold on_exchange_rate_change. repeat first [apply notify_frame | keeps_step]. Qed.
Lemma accrue_interest_frame c : keeps beyond_loans (accrue_interest c).
Proof.
  unfold accrue_interest, update_last_accrued_interest_time, deposit_event, update.
  repeat first [apply on_exchange_rate_change_frame | keeps_step].
Qed.
Lemma underlying_amount_frame a : keeps beyond_loans (recompute_underlying_amount a).
Proof. unfold recompute_underlying_amount. repeat first [apply accrue_interest_frame | keeps_step]. Qed.
Lemma collateral_amount_frame a : keeps beyond_loans (recompute_collateral_amount a).
Proof. unfold recompute_collateral_amount. repeat first [apply accrue_interest_frame | keeps_step]. Qed.

#[global] Instance loans_api : LoansApi := {|
  Oracle.recompute_underlying_amount := recompute_underlying_amount;
  Oracle.recompute_collateral_amount := recompute_collateral_amount;
  Oracle.underlying_id := underlying_id;
  loans_on_exchange_rate_change := on_exchange_rate_change;
  loans_on_exchange_rate_change_frame := on_exchange_rate_change_frame;
  recompute_underlying_frame := underlying_amount_frame;
  recompute_collateral_frame := collateral_amount_frame;
|}.
End interest.
End Interest.

(** ** Farming rewards ([farming.rs]) *)
Module Farming.
Import LoansStore LoansError Interest.
Section farming.
Context `{LoansEnv}.

Definition reward_scale : Z := 10 ^ 12.
(** Big integers, back to [u128] at the end. *)
Definition calculate_reward_delta_index (delta_block reward_speed total_share : Z) : outcome BError Z :=
  if total_share =? 0 then Ok 0
  else ok_or (checked BALANCE (delta_block * reward_speed * reward_scale / total_share)) (Arithmetic Overflow).
Definition calculate_reward_delta (share reward_delta_index : Z) : outcome BError Z :=
  ok_or (checked BALANCE (share * reward_delta_index / reward_scale)) (Arithmetic Overflow).

(** The index of a market after the blocks since it was last updated. *)
Definition advance (s : RewardMarketState) (speed now : Z) (share : outcome BError Z)
  : outcome BError RewardMarketState :=
  let delta_block := saturating_sub now (block s) in
  if delta_block =? 0 then Ok s
  else if speed =? 0 then Ok (mkRewardState (index s) now)
  else
    share ← share;
    delta_index ← calculate_reward_delta_index delta_block speed share;
    index ← ok_or (checked_add BALANCE (index s) delta_index) (Arithmetic Overflow);
    Ok (mkRewardState index now).

(** A share of the borrows, as of when the index was one. *)
Definition base_borrow (amount : Amount.t) (asset_id : CurrencyId.t) (r : Runtime) : outcome BError Z :=
  base ← Amount.checked_div amount (borrow_index asset_id r);
  Ok (Amount.amount base).

Definition update_reward_supply_index (asset_id : CurrencyId.t) : B unit :=
  s ← query (λ r,
        advance (get RewardSupplyState no_reward asset_id r) (get RewardSupplySpeed 0 asset_id r) (rt_block r)
          (total ← total_supply asset_id r; Ok (Amount.amount total)));
  update (with_RewardSupplyState <[asset_id := s]>).
Definition update_reward_borrow_index (asset_id : CurrencyId.t) : B unit :=
  s ← query (λ r,
        advance (get RewardBorrowState no_reward asset_id r) (get RewardBorrowSpeed 0 asset_id r) (rt_block r)
          (base_borrow (total_borrows asset_id r) asset_id r));
  update (with_RewardBorrowState <[asset_id := s]>).

(** The debt of an account, rounded up: no loan is free of interest. *)
Definition account_borrows (asset_id : CurrencyId.t) (who : AccountId) (r : Runtime) : BorrowSnapshot :=
  default no_borrow (AccountBorrows (rt_loans r) !! (asset_id, who)).
Definition current_borrow_balance (who : AccountId) (asset_id : CurrencyId.t) (r : Runtime)
  : outcome BError Amount.t :=
  let snapshot := account_borrows asset_id who r in
  if (principal snapshot =? 0) || (LoansStore.borrow_index snapshot =? 0) then Ok (Amount.zero asset_id)
  else
    borrow_balance_from_old_and_new_index (LoansStore.borrow_index snapshot) (borrow_index asset_id r)
      (Amount.new (principal snapshot) asset_id) Up.

Definition reward_accrued (who : AccountId) (r : Runtime) : Z := default 0 (RewardAccrued (rt_loans r) !! who).
Definition supplier_index (asset_id : CurrencyId.t) (who : AccountId) (r : Runtime) : Z :=
  default 0 (RewardSupplierIndex (rt_loans r) !! (asset_id, who)).
Definition borrower_index (asset_id : CurrencyId.t) (who : AccountId) (r : Runtime) : Z :=
  default 0 (RewardBorrowerIndex (rt_loans r) !! (asset_id, who)).
(** What is added to the reward of [who] whose share has seen [delta_index] pass. *)
Definition add_reward_accrued (who : AccountId) (share delta_index : Z) (r : Runtime) : outcome BError (Z * Z) :=
  reward_delta ← calculate_reward_delta share delta_index;
  total_reward ← ok_or (checked_add BALANCE (reward_accrued who r) reward_delta) (Arithmetic Overflow);
  Ok (reward_delta, total_reward).

Definition distribute_supplier_reward (asset_id : CurrencyId.t) (supplier : AccountId) : B unit :=
  supply_state ← gets (get RewardSupplyState no_reward asset_id);
  new ← query (λ r,
          delta_index ← ok_or (checked_sub (index supply_state) (supplier_index asset_id supplier r))
                          (Arithmetic Underflow);
          lend_token_id ← lend_token_id asset_id r;
          add_reward_accrued supplier (Amount.amount (balance lend_token_id supplier r)) delta_index r);
  let '(reward_delta, total_reward) := new : Z * Z in
  update (with_RewardAccrued <[supplier := total_reward]>);;
  deposit_event (DistributedSupplierReward asset_id supplier reward_delta (index supply_state));;
  update (with_RewardSupplierIndex <[(asset_id, supplier) := index supply_state]>).
Definition distribute_borrower_reward (asset_id : CurrencyId.t) (borrower : AccountId) : B unit :=
  borrow_state ← gets (get RewardBorrowState no_reward asset_id);
  new ← query (λ r,
          delta_index ← ok_or (checked_sub (index borrow_state) (borrower_index asset_id borrower r))
                          (Arithmetic Underflow);
          current_borrow_amount ← current_borrow_balance borrower asset_id r;
          share ← base_borrow current_borrow_amount asset_id r;
          add_reward_accrued borrower share delta_index r);
  let '(reward_delta, total_reward) := new : Z * Z in
  update (with_RewardAccrued <[borrower := total_reward]>);;
  deposit_event (DistributedBorrowerReward asset_id borrower reward_delta (index borrow_state));;
  update (with_RewardBorrowerIndex <[(asset_id, borrower) := index borrow_state]>).

Definition collect_market_reward (asset_id : CurrencyId.t) (user : AccountId) : B unit :=
  update_reward_supply_index asset_id;;
  distribute_supplier_reward asset_id user;;
  update_reward_borrow_index asset_id;;
  distribute_borrower_reward asset_id user.
End farming.
End Farming.

(** ** Collateral and the callbacks of the ledger *)
Module LendTokens.
Import LoansStore LoansError Interest Farming.
Section lend_tokens.
Context `{LoansEnv}.

Definition account_deposits (lend_token_id : CurrencyId.t) (supplier : AccountId) (r : Runtime) : Amount.t :=
  Amount.new (default 0 (AccountDeposits (rt_loans r) !! (lend_token_id, supplier))) lend_token_id.

(** [LoansApi::do_deposit_collateral] *)
Definition do_deposit_collateral (supplier : AccountId) (lend_token_amount : Amount.t) : B unit :=
  underlying_id ← query (underlying_id (Amount.currency lend_token_amount));
  query (ensure_active_market underlying_id);;
  on_tokens (Amount.lock_on lend_token_amount supplier);;
  deposit ← gets (account_deposits (Amount.currency lend_token_amount) supplier);
  new_deposit ← lift (Amount.checked_add deposit lend_token_amount);
  update (with_AccountDeposits
            <[(Amount.currency lend_token_amount, supplier) := Amount.amount new_deposit]>);;
  deposit_event (DepositCollateral supplier (Amount.currency lend_token_amount) (Amount.amount lend_token_amount)).

(** Tokens that reach an account with deposited collateral are deposited too. *)
Definition lock_if_account_deposited (account_id : AccountId) (lend_tokens : Amount.t) : B unit :=
  deposit ← gets (account_deposits (Amount.currency lend_tokens) account_id);
  whenM (negb (Amount.is_zero deposit)) (do_deposit_collateral account_id lend_tokens).

(** [OnSlashHook]: errors are dropped, what was written before stays. *)
Definition on_slash (currency_id : CurrencyId.t) (account_id : AccountId) : B unit :=
  if CurrencyId.is_lend_token currency_id then
    u ← gets (underlying_id currency_id);
    match u with
    | Ok underlying_id =>
        updated ← attempt (update_reward_supply_index underlying_id);
        whenM updated (attempt (distribute_supplier_reward underlying_id account_id);; mret tt)
    | _ => mret tt
    end
  else mret tt.
Definition pre_deposit (currency_id : CurrencyId.t) (account_id : AccountId) : B unit :=
  whenM (CurrencyId.is_lend_token currency_id)
    (underlying_id ← query (underlying_id currency_id);
     update_reward_supply_index underlying_id;;
     distribute_supplier_reward underlying_id account_id).
Definition post_deposit (currency_id : CurrencyId.t) (account_id : AccountId) (amount : Z) : B unit :=
  whenM (CurrencyId.is_lend_token currency_id)
    (lock_if_account_deposited account_id (Amount.new amount currency_id)).
Definition pre_transfer (currency_id : CurrencyId.t) (from to : AccountId) : B unit :=
  whenM (CurrencyId.is_lend_token currency_id)
    (underlying_id ← query (underlying_id currency_id);
     update_reward_supply_index underlying_id;;
     distribute_supplier_reward underlying_id from;;
     distribute_supplier_reward underlying_id to).
Definition post_transfer (currency_id : CurrencyId.t) (to : AccountId) (amount : Z) : B unit :=
  whenM (CurrencyId.is_lend_token currency_id)
    (lock_if_account_deposited to (Amount.new amount currency_id)).

(** The actions of [Amount], with the callbacks; nothing happens for a zero amount. *)
Definition tokens_transfer (a : Amount.t) (from to : AccountId) : B unit :=
  if Amount.is_zero a || bool_decide (from = to) then mret tt
  else
    pre_transfer (Amount.currency a) from to;;
    on_tokens (Amount.transfer a from to);;
    post_transfer (Amount.currency a) to (Amount.amount a).
Definition tokens_mint (a : Amount.t) (to : AccountId) : B unit :=
  if Amount.is_zero a then mret tt
  else
    pre_deposit (Amount.currency a) to;;
    on_tokens (Amount.mint_to a to);;
    post_deposit (Amount.currency a) to (Amount.amount a).
Definition tokens_burn (a : Amount.t) (from : AccountId) : B unit :=
  if Amount.is_zero a then mret tt
  else
    on_slash (Amount.currency a) from;;
    on_tokens (Amount.burn_from a from).

Definition pay_reward (user : AccountId) : B unit :=
  total_reward ← gets (reward_accrued user);
  whenM (total_reward >? 0)
    (tokens_transfer (Amount.new total_reward GetNativeCurrencyId) reward_account_id user;;
     update (with_RewardAccrued (delete user)));;
  deposit_event (RewardPaid user total_reward).
End lend_tokens.
End LendTokens.

(** ** Supplying, borrowing, liquidating *)
Module Loans.
Import LoansStore LoansError Interest Farming LendTokens CurrencyConvert.
Section loans.
Context `{LoansEnv}.

(** *** Liquidity of an account *)

(** [AccountLiquidity] of [types.rs] *)
Inductive AccountLiquidity : Type := Liquidity (x : Amount.t) | Shortfall (x : Amount.t).
Definition from_collateral_and_debt (collateral_value borrow_value : Amount.t) : outcome BError AccountLiquidity :=
  more ← Amount.gt collateral_value borrow_value;
  if (more : bool) then x ← Amount.checked_sub collateral_value borrow_value; Ok (Liquidity x)
  else x ← Amount.checked_sub borrow_value collateral_value; Ok (Shortfall x).
Definition currency (self : AccountLiquidity) : CurrencyId.t :=
  match self with Liquidity x | Shortfall x => Amount.currency x end.
Definition liquidity (self : AccountLiquidity) : Amount.t :=
  match self with Liquidity x => x | _ => Amount.zero (currency self) end.
Definition shortfall (self : AccountLiquidity) : Amount.t :=
  match self with Shortfall x => x | _ => Amount.zero (currency self) end.
Definition to_rpc_tuple (self : AccountLiquidity) : outcome BError (Z * Z) :=
  l ← Amount.to_unsigned_fixed_point (liquidity self);
  s ← Amount.to_unsigned_fixed_point (shortfall self);
  Ok (l, s).

(** [T::ReferenceAssetId] *)
Definition ReferenceAssetId : CurrencyId.t := GetWrappedCurrencyId.
Definition to_lend_token (self : Amount.t) : B Amount.t :=
  lend_token_id ← query (lend_token_id (Amount.currency self));
  convert_to self lend_token_id.
Definition to_underlying (self : Amount.t) : B Amount.t :=
  underlying_id ← query (underlying_id (Amount.currency self));
  convert_to self underlying_id.
Definition get_asset_value (asset : Amount.t) : B Amount.t := convert_to asset ReferenceAssetId.

(** Adds up the values of the active markets. *)
Fixpoint accrue_values (f : CurrencyId.t → B (option Amount.t)) (l : list (CurrencyId.t * Market))
    (total : Amount.t) : B Amount.t :=
  match l with
  | [] => mret total
  | (asset_id, _) :: l =>
      value ← f asset_id;
      match value with
      | None => accrue_values f l total
      | Some value => total ← lift (Amount.checked_add total value); accrue_values f l total
      end
  end.
Definition over_markets (f : CurrencyId.t → B (option Amount.t)) : B Amount.t :=
  markets ← gets active_markets;
  accrue_values f markets (Amount.zero ReferenceAssetId).

Definition borrowed_asset_value (borrower : AccountId) (asset_id : CurrencyId.t) : B (option Amount.t) :=
  borrow ← query (current_borrow_balance borrower asset_id);
  if Amount.is_zero borrow then mret None
  else value ← get_asset_value borrow; mret (Some value).
Definition total_borrowed_value (borrower : AccountId) : B Amount.t :=
  over_markets (borrowed_asset_value borrower).

Definition collateral_amount_value (voucher : Amount.t) : B Amount.t :=
  underlying ← to_underlying voucher;
  market ← query (market (Amount.currency underlying));
  get_asset_value (Amount.map underlying (mul_ceil (collateral_factor market))).
Definition collateral_asset_value (supplier : AccountId) (asset_id : CurrencyId.t) : B Amount.t :=
  lend_token_id ← query (lend_token_id asset_id);
  deposits ← gets (account_deposits lend_token_id supplier);
  if Amount.is_zero deposits then mret (Amount.zero ReferenceAssetId)
  else collateral_amount_value deposits.
Definition total_collateral_value (supplier : AccountId) : B Amount.t :=
  over_markets (λ asset_id, value ← collateral_asset_value supplier asset_id; mret (Some value)).

Definition liquidation_threshold_asset_value (borrower : AccountId) (asset_id : CurrencyId.t) : B Amount.t :=
  lend_token_id ← query (lend_token_id asset_id);
  deposits ← gets (account_deposits lend_token_id borrower);
  if Amount.is_zero deposits then mret (Amount.zero ReferenceAssetId)
  else
    underlying_amount ← to_underlying deposits;
    market ← query (market asset_id);
    get_asset_value (Amount.map underlying_amount (mul_ceil (liquidation_threshold market))).
Definition total_liquidation_threshold_value (borrower : AccountId) : B Amount.t :=
  over_markets (λ asset_id, value ← liquidation_threshold_asset_value borrower asset_id; mret (Some value)).

Definition get_account_liquidity (account : AccountId) : B AccountLiquidity :=
  total_collateral_value ← total_collateral_value account;
  total_borrow_value ← total_borrowed_value account;
  lift (from_collateral_and_debt total_collateral_value total_borrow_value).
Definition get_account_liquidation_threshold_liquidity (account : AccountId) : B AccountLiquidity :=
  total_collateral_value ← total_liquidation_threshold_value account;
  total_borrow_value ← total_borrowed_value account;
  lift (from_collateral_and_debt total_collateral_value total_borrow_value).

(** *** Checks *)

Definition free_lend_tokens (asset_id : CurrencyId.t) (account_id : AccountId) (r : Runtime)
  : outcome BError Amount.t :=
  lend_token_id ← lend_token_id asset_id r;
  Ok (Amount.new (free_balance lend_token_id account_id (rt_tokens r)) lend_token_id).
Definition reserved_lend_tokens (asset_id : CurrencyId.t) (account_id : AccountId) (r : Runtime)
  : outcome BError Amount.t :=
  lend_token_id ← lend_token_id asset_id r;
  Ok (Amount.new (reserved_balance lend_token_id account_id (rt_tokens r)) lend_token_id).

Definition ensure_under_supply_cap (asset : Amount.t) (r : Runtime) : outcome BError unit :=
  let asset_id := Amount.currency asset in
  market ← market asset_id r;
  let current_cash := balance asset_id loans_account_id r in
  total_cash ← Amount.checked_add current_cash asset;
  ensure (Amount.amount total_cash <=? supply_cap market) (loans_error SupplyCapacityExceeded).
Definition ensure_under_borrow_cap (asset : Amount.t) (r : Runtime) : outcome BError unit :=
  let asset_id := Amount.currency asset in
  market ← market asset_id r;
  new_total_borrows ← Amount.checked_add (total_borrows asset_id r) asset;
  ensure (Amount.amount new_total_borrows <=? borrow_cap market) (loans_error BorrowCapacityExceeded).
Definition ensure_enough_cash (amount : Amount.t) (r : Runtime) : outcome BError unit :=
  reducible_cash ← Amount.checked_sub (get_total_cash (Amount.currency amount) r)
                     (total_reserves (Amount.currency amount) r);
  less ← Amount.lt reducible_cash amount;
  ensure (negb less) (loans_error InsufficientCash).
(** Neither the lend token of a market nor the asset of one. *)
Definition ensure_lend_token (lend_token_id : CurrencyId.t) (r : Runtime) : outcome BError unit :=
  ensure (negb (bool_decide (is_Some (UnderlyingAssetId (rt_loans r) !! lend_token_id))))
    (loans_error InvalidLendTokenId);;
  ensure (negb (bool_decide (is_Some (Markets (rt_loans r) !! lend_token_id))))
    (loans_error InvalidLendTokenId).
Definition ensure_liquidity (account : AccountId) (reduce_amount : Amount.t) : B unit :=
  l ← get_account_liquidity account;
  enough ← lift (Amount.ge (liquidity l) reduce_amount);
  ensureM enough (loans_error InsufficientLiquidity).

Definition redeem_allowed (redeemer : AccountId) (voucher : Amount.t) : B unit :=
  asset_id ← query (underlying_id (Amount.currency voucher));
  ensureM (negb (Amount.is_zero voucher)) (loans_error InvalidAmount);;
  less ← query (λ r, Amount.lt (balance (Amount.currency voucher) redeemer r) voucher);
  ensureM (negb less) (loans_error InsufficientDeposit);;
  redeem_amount ← to_underlying voucher;
  query (ensure_enough_cash redeem_amount);;
  free ← query (free_lend_tokens asset_id redeemer);
  locked ← lift (Amount.gt voucher free);
  ensureM (negb locked) (loans_error LockedTokensCannotBeRedeemed).
Definition borrow_allowed (borrower : AccountId) (borrow : Amount.t) : B unit :=
  query (ensure_under_borrow_cap borrow);;
  query (ensure_enough_cash borrow);;
  borrow_value ← get_asset_value borrow;
  ensure_liquidity borrower borrow_value.
Definition liquidate_borrow_allowed (borrower : AccountId) (underlying : Amount.t) (market : Market) : B unit :=
  l ← get_account_liquidation_threshold_liquidity borrower;
  ensureM (negb (Amount.is_zero (shortfall l))) (loans_error InsufficientShortfall);;
  account_borrows ← query (current_borrow_balance borrower (Amount.currency underlying));
  account_borrows_value ← get_asset_value account_borrows;
  repay_value ← get_asset_value underlying;
  too_much ← lift (Amount.lt (Amount.map account_borrows_value (mul_ceil (close_factor market))) repay_value);
  ensureM (negb too_much) (loans_error TooMuchRepay).
End loans.
End Loans.

(** ** What an account does on a market *)
Module Lending.
Import LoansStore LoansError Interest Farming LendTokens Loans.
Section lending.
Context `{LoansEnv}.

Definition put_account_borrows (asset_id : CurrencyId.t) (who : AccountId) (amount : Amount.t) : B unit :=
  index ← gets (borrow_index asset_id);
  update (with_AccountBorrows <[(asset_id, who) := mkSnapshot (Amount.amount amount) index]>).
Definition put_total_borrows (asset_id : CurrencyId.t) (total : Amount.t) : B unit :=
  update (with_TotalBorrows <[asset_id := Amount.amount total]>).
(** [AccountDeposits::try_mutate_exists], less [amount]; no entry is kept for zero. *)
Definition decrease_deposit (amount : Amount.t) (supplier : AccountId) : B unit :=
  let key := (Amount.currency amount, supplier) in
  deposits ← gets (λ r, default 0 (AccountDeposits (rt_loans r) !! key));
  d ← lift (ok_or (checked_sub deposits (Amount.amount amount)) (Arithmetic Underflow));
  update (with_AccountDeposits (if d =? 0 then delete key else <[key := d]>)).

Definition do_mint (supplier : AccountId) (amount : Amount.t) : B unit :=
  let asset_id := Amount.currency amount in
  query (ensure_active_market asset_id);;
  query (ensure_under_supply_cap amount);;
  accrue_interest asset_id;;
  update_reward_supply_index asset_id;;
  distribute_supplier_reward asset_id supplier;;
  voucher ← to_lend_token amount;
  ensureM (negb (Amount.is_zero voucher)) (loans_error InvalidExchangeRate);;
  tokens_transfer amount supplier loans_account_id;;
  tokens_mint voucher supplier;;
  deposit_event (Deposited supplier asset_id (Amount.amount amount)).

Definition do_borrow (borrower : AccountId) (borrow : Amount.t) : B unit :=
  let asset_id := Amount.currency borrow in
  query (ensure_active_market asset_id);;
  accrue_interest asset_id;;
  borrow_allowed borrower borrow;;
  update_reward_borrow_index asset_id;;
  distribute_borrower_reward asset_id borrower;;
  account_borrows ← query (current_borrow_balance borrower asset_id);
  account_borrows_new ← lift (Amount.checked_add account_borrows borrow);
  total_borrows ← gets (total_borrows asset_id);
  total_borrows_new ← lift (Amount.checked_add total_borrows borrow);
  put_account_borrows asset_id borrower account_borrows_new;;
  put_total_borrows asset_id total_borrows_new;;
  tokens_transfer borrow loans_account_id borrower;;
  deposit_event (Borrowed borrower asset_id (Amount.amount borrow)).

Definition do_withdraw_collateral (supplier : AccountId) (voucher : Amount.t) : B unit :=
  underlying_id ← query (underlying_id (Amount.currency voucher));
  query (ensure_active_market underlying_id);;
  total_collateral_value ← total_collateral_value supplier;
  collateral_amount_value ← collateral_amount_value voucher;
  total_borrowed_value ← total_borrowed_value supplier;
  needed ← lift (Amount.checked_add total_borrowed_value collateral_amount_value);
  less ← lift (Amount.lt total_collateral_value needed);
  ensureM (negb less) (loans_error InsufficientLiquidity);;
  on_tokens (Amount.unlock_on voucher supplier);;
  decrease_deposit voucher supplier;;
  deposit_event (WithdrawCollateral supplier (Amount.currency voucher) (Amount.amount voucher)).

(** The total is rounded down, so it can be less than what is repaid. *)
Definition do_repay_borrow_with_amount (borrower : AccountId) (asset_id : CurrencyId.t)
    (account_borrows repay_amount : Amount.t) : B unit :=
  less ← lift (Amount.lt account_borrows repay_amount);
  ensureM (negb less) (loans_error TooMuchRepay);;
  update_reward_borrow_index asset_id;;
  distribute_borrower_reward asset_id borrower;;
  tokens_transfer repay_amount borrower loans_account_id;;
  account_borrows_new ← lift (Amount.checked_sub account_borrows repay_amount);
  total_borrows ← gets (total_borrows asset_id);
  total_borrows_new ← lift (Amount.saturating_sub total_borrows repay_amount);
  put_account_borrows asset_id borrower account_borrows_new;;
  put_total_borrows asset_id total_borrows_new.
Definition do_repay_borrow (borrower : AccountId) (borrow : Amount.t) : B unit :=
  let asset_id := Amount.currency borrow in
  query (ensure_active_market asset_id);;
  accrue_interest asset_id;;
  account_borrows ← query (current_borrow_balance borrower asset_id);
  do_repay_borrow_with_amount borrower asset_id account_borrows borrow;;
  deposit_event (RepaidBorrow borrower asset_id (Amount.amount borrow)).

Definition do_redeem (supplier : AccountId) (underlying voucher : Amount.t) : B unit :=
  let asset_id := Amount.currency underlying in
  deposits ← gets (account_deposits (Amount.currency voucher) supplier);
  whenM (negb (Amount.is_zero deposits)) (do_withdraw_collateral supplier voucher);;
  query (ensure_active_market asset_id);;
  accrue_interest asset_id;;
  redeem_allowed supplier voucher;;
  update_reward_supply_index asset_id;;
  distribute_supplier_reward asset_id supplier;;
  on_tokens (Amount.lock_on voucher supplier);;
  tokens_burn voucher supplier;;
  (λ r, map_err (λ _, loans_error InsufficientCash) (tokens_transfer underlying loans_account_id supplier r));;
  deposit_event (Redeemed supplier asset_id (Amount.amount underlying)).

(** The liquidator pays the debt and receives lend tokens of the borrower, less the reserve. *)
Definition liquidated_transfer (liquidator borrower : AccountId) (repayment collateral_underlying : Amount.t)
    (market : Market) : B unit :=
  let liquidation_asset_id := Amount.currency repayment in
  let collateral_asset_id := Amount.currency collateral_underlying in
  update_reward_borrow_index liquidation_asset_id;;
  distribute_borrower_reward liquidation_asset_id liquidator;;
  tokens_transfer repayment liquidator loans_account_id;;
  account_borrows ← query (current_borrow_balance borrower liquidation_asset_id);
  account_borrows_new ← lift (Amount.checked_sub account_borrows repayment);
  total_borrows ← gets (total_borrows liquidation_asset_id);
  total_borrows_new ← lift (Amount.checked_sub total_borrows repayment);
  put_account_borrows liquidation_asset_id borrower account_borrows_new;;
  put_total_borrows liquidation_asset_id total_borrows_new;;
  update_reward_supply_index collateral_asset_id;;
  distribute_supplier_reward collateral_asset_id liquidator;;
  distribute_supplier_reward collateral_asset_id borrower;;
  distribute_supplier_reward collateral_asset_id incentive_reward_account_id;;
  lend_token_id ← query (lend_token_id collateral_asset_id);
  amount_to_liquidate ← to_lend_token collateral_underlying;
  decrease_deposit (Amount.new (Amount.amount amount_to_liquidate) lend_token_id) borrower;;
  on_tokens (Amount.unlock_on amount_to_liquidate borrower);;
  without_incentive ← lift (Amount.checked_div amount_to_liquidate (liquidate_incentive market));
  let incentive_reserved := mul_ratio_floor without_incentive (liquidate_incentive_reserved_factor market) in
  liquidator_amount ← lift (Amount.checked_sub amount_to_liquidate incentive_reserved);
  tokens_transfer liquidator_amount borrower liquidator;;
  tokens_transfer incentive_reserved borrower incentive_reward_account_id;;
  deposit_event (LiquidatedBorrow liquidator borrower liquidation_asset_id collateral_asset_id
                   (Amount.amount repayment) (Amount.amount collateral_underlying)).
Definition do_liquidate_borrow (liquidator borrower : AccountId) (repayment_underlying : Amount.t)
    (collateral_asset_id : CurrencyId.t) : B unit :=
  let liquidation_asset_id := Amount.currency repayment_underlying in
  query (ensure_active_market liquidation_asset_id);;
  query (ensure_active_market collateral_asset_id);;
  market ← query (market liquidation_asset_id);
  ensureM (negb (bool_decide (borrower = liquidator))) (loans_error LiquidatorIsBorrower);;
  liquidate_borrow_allowed borrower repayment_underlying market;;
  lend_token_id ← query (lend_token_id collateral_asset_id);
  deposits ← gets (account_deposits lend_token_id borrower);
  ensureM (negb (Amount.is_zero deposits)) (loans_error DepositsAreNotCollateral);;
  borrower_deposits ← to_underlying deposits;
  collateral_value ← get_asset_value borrower_deposits;
  repayment_value ← get_asset_value repayment_underlying;
  liquidate_value ← lift (Amount.checked_mul repayment_value (liquidate_incentive market));
  less ← lift (Amount.lt collateral_value liquidate_value);
  ensureM (negb less) (loans_error InsufficientCollateral);;
  real_collateral_underlying_amount ← CurrencyConvert.convert_to liquidate_value collateral_asset_id;
  liquidated_transfer liquidator borrower repayment_underlying real_collateral_underlying_amount market.
End lending.
End Lending.

(** ** The extrinsics *)
Module LoansCalls.
Import LoansStore LoansError Interest Farming LendTokens Loans Lending.
Section calls.
Context `{LoansEnv}.

Definition ensure_update_origin (origin : Origin) : B unit := ensureM (is_update_origin origin) BadOrigin.
Definition ensure_reserve_origin (origin : Origin) : B unit := ensureM (is_reserve_origin origin) BadOrigin.

(** [market.state == MarketState::Pending] and the bounds on its factors; a
    [Permill] is never negative. *)
Definition valid_factors (collateral_factor liquidation_threshold reserve_factor reserved_factor : Z) : bool :=
  (collateral_factor <? MILLION) &&
  ((liquidation_threshold <? MILLION) && (collateral_factor <=? liquidation_threshold)) &&
  ((0 <? reserve_factor) && (reserve_factor <? MILLION)) && (reserved_factor <? MILLION).

Definition add_market (origin : Origin) (asset_id : CurrencyId.t) (market : Market) : B unit :=
  ensure_update_origin origin;;
  exists_ ← gets (λ r, bool_decide (is_Some (Markets (rt_loans r) !! asset_id)));
  ensureM (negb exists_) (loans_error MarketAlreadyExists);;
  ensureM (bool_decide (state market = Pending)) (loans_error NewMarketMustHavePendingState);;
  ensureM (InterestRate.check_model (rate_model market)) (loans_error InvalidRateModelParam);;
  ensureM (valid_factors (collateral_factor market) (liquidation_threshold market) (reserve_factor market)
             (liquidate_incentive_reserved_factor market)) (loans_error InvalidFactor);;
  ensureM (0 <? supply_cap market) (loans_error InvalidSupplyCap);;
  query (ensure_lend_token (LoansStore.lend_token_id market));;
  update (with_Markets <[asset_id := market]>);;
  update (with_UnderlyingAssetId <[LoansStore.lend_token_id market := asset_id]>);;
  initial_exchange_rate ← gets (λ r, MinExchangeRate (rt_loans r));
  update (with_ExchangeRate <[asset_id := initial_exchange_rate]>);;
  update (with_BorrowIndex <[asset_id := DIV]>);;
  deposit_event (InterestAccrued asset_id 0 0 DIV 0 0 0 initial_exchange_rate);;
  deposit_event (NewMarket asset_id market).

(** [mutate_market] *)
Definition mutate_market (asset_id : CurrencyId.t) (cb : Market → outcome BError Market) : B Market :=
  stored ← query (market asset_id);
  market ← lift (cb stored);
  update (with_Markets <[asset_id := market]>);;
  mret market.
Definition activate_market (origin : Origin) (asset_id : CurrencyId.t) : B unit :=
  ensure_update_origin origin;;
  mutate_market asset_id (λ stored_market,
    match state stored_market with
    | Active => Err (loans_error MarketAlreadyActivated)
    | _ => Ok (with_state Active stored_market)
    end);;
  deposit_event (ActivatedMarket asset_id).
Definition update_rate_model (origin : Origin) (asset_id : CurrencyId.t) (rate_model : RateModel.InterestRateModel)
  : B unit :=
  ensure_update_origin origin;;
  ensureM (InterestRate.check_model rate_model) (loans_error InvalidRateModelParam);;
  market ← mutate_market asset_id (λ stored_market, Ok (with_rate_model rate_model stored_market));
  deposit_event (UpdatedMarket asset_id market).
Definition update_market (origin : Origin) (asset_id : CurrencyId.t)
    (collateral_factor' liquidation_threshold' reserve_factor' close_factor' reserved_factor' : option Z)
    (liquidate_incentive' supply_cap' borrow_cap' : option Z) : B unit :=
  ensure_update_origin origin;;
  market ← query (market asset_id);
  let collateral_factor := default (collateral_factor market) collateral_factor' in
  let liquidation_threshold := default (liquidation_threshold market) liquidation_threshold' in
  let reserve_factor := default (reserve_factor market) reserve_factor' in
  let close_factor := default (close_factor market) close_factor' in
  let reserved_factor := default (liquidate_incentive_reserved_factor market) reserved_factor' in
  let liquidate_incentive := default (liquidate_incentive market) liquidate_incentive' in
  let supply_cap := default (supply_cap market) supply_cap' in
  let borrow_cap := default (borrow_cap market) borrow_cap' in
  ensureM (valid_factors collateral_factor liquidation_threshold reserve_factor
             (liquidate_incentive_reserved_factor market)) (loans_error InvalidFactor);;
  ensureM (0 <? supply_cap) (loans_error InvalidSupplyCap);;
  market ← mutate_market asset_id (λ stored_market,
    Ok (mkMarket collateral_factor liquidation_threshold reserve_factor close_factor liquidate_incentive
          reserved_factor (rate_model stored_market) (state stored_market) supply_cap borrow_cap
          (LoansStore.lend_token_id stored_market)));
  deposit_event (UpdatedMarket asset_id market).
Definition force_update_market (origin : Origin) (asset_id : CurrencyId.t) (market : Market) : B unit :=
  ensure_update_origin origin;;
  ensureM (InterestRate.check_model (rate_model market)) (loans_error InvalidRateModelParam);;
  known ← gets (λ r, UnderlyingAssetId (rt_loans r) !! LoansStore.lend_token_id market);
  ensureM match known with Some u => bool_decide (u = asset_id) | None => true end
    (loans_error InvalidLendTokenId);;
  update (with_UnderlyingAssetId <[LoansStore.lend_token_id market := asset_id]>);;
  updated_market ← mutate_market asset_id (λ _, Ok market);
  deposit_event (UpdatedMarket asset_id updated_market).

Definition add_reward (origin : Origin) (amount : Z) : B unit :=
  who ← lift (ensure_signed origin);
  ensureM (negb (amount =? 0)) (loans_error InvalidAmount);;
  tokens_transfer (Amount.new amount GetNativeCurrencyId) who reward_account_id;;
  deposit_event (RewardAdded who amount).
Definition update_market_reward_speed (origin : Origin) (asset_id : CurrencyId.t)
    (supply_reward_per_block borrow_reward_per_block : option Z) : B unit :=
  ensure_update_origin origin;;
  query (ensure_active_market asset_id);;
  current_supply_speed ← gets (get RewardSupplySpeed 0 asset_id);
  current_borrow_speed ← gets (get RewardBorrowSpeed 0 asset_id);
  let supply_reward_per_block := default current_supply_speed supply_reward_per_block in
  let borrow_reward_per_block := default current_borrow_speed borrow_reward_per_block in
  whenM (negb (supply_reward_per_block =? current_supply_speed))
    (update_reward_supply_index asset_id;;
     update (with_RewardSupplySpeed <[asset_id := supply_reward_per_block]>));;
  whenM (negb (borrow_reward_per_block =? current_borrow_speed))
    (update_reward_borrow_index asset_id;;
     update (with_RewardBorrowSpeed <[asset_id := borrow_reward_per_block]>));;
  deposit_event (MarketRewardSpeedUpdated asset_id supply_reward_per_block borrow_reward_per_block).
Definition claim_reward (origin : Origin) : B unit :=
  who ← lift (ensure_signed origin);
  markets ← gets (λ r, storage_iter (Markets (rt_loans r)));
  for_each (λ kv : CurrencyId.t * Market, collect_market_reward kv.1 who) markets;;
  pay_reward who.
Definition claim_reward_for_market (origin : Origin) (asset_id : CurrencyId.t) : B unit :=
  who ← lift (ensure_signed origin);
  collect_market_reward asset_id who;;
  pay_reward who.

Definition mint (origin : Origin) (asset_id : CurrencyId.t) (mint_amount : Z) : B unit :=
  who ← lift (ensure_signed origin);
  ensureM (negb (mint_amount =? 0)) (loans_error InvalidAmount);;
  do_mint who (Amount.new mint_amount asset_id).
Definition redeem (origin : Origin) (asset_id : CurrencyId.t) (redeem_amount : Z) : B unit :=
  who ← lift (ensure_signed origin);
  ensureM (negb (redeem_amount =? 0)) (loans_error InvalidAmount);;
  let underlying := Amount.new redeem_amount asset_id in
  voucher ← to_lend_token underlying;
  do_redeem who underlying voucher.
Definition redeem_all (origin : Origin) (asset_id : CurrencyId.t) : B unit :=
  who ← lift (ensure_signed origin);
  lend_token_id ← query (lend_token_id asset_id);
  voucher ← gets (balance lend_token_id who);
  underlying ← to_underlying voucher;
  do_redeem who underlying voucher.
Definition borrow (origin : Origin) (asset_id : CurrencyId.t) (borrow_amount : Z) : B unit :=
  who ← lift (ensure_signed origin);
  ensureM (negb (borrow_amount =? 0)) (loans_error InvalidAmount);;
  do_borrow who (Amount.new borrow_amount asset_id).
Definition repay_borrow (origin : Origin) (asset_id : CurrencyId.t) (repay_amount : Z) : B unit :=
  who ← lift (ensure_signed origin);
  ensureM (negb (repay_amount =? 0)) (loans_error InvalidAmount);;
  do_repay_borrow who (Amount.new repay_amount asset_id).
Definition repay_borrow_all (origin : Origin) (asset_id : CurrencyId.t) : B unit :=
  who ← lift (ensure_signed origin);
  query (ensure_active_market asset_id);;
  accrue_interest asset_id;;
  account_borrows ← query (current_borrow_balance who asset_id);
  ensureM (negb (Amount.is_zero account_borrows)) (loans_error InvalidAmount);;
  do_repay_borrow who account_borrows.
Definition deposit_all_collateral (origin : Origin) (asset_id : CurrencyId.t) : B unit :=
  who ← lift (ensure_signed origin);
  free_lend_tokens ← query (free_lend_tokens asset_id who);
  ensureM (negb (Amount.is_zero free_lend_tokens)) (loans_error DepositAllCollateralFailed);;
  reserved_lend_tokens ← query (reserved_lend_tokens asset_id who);
  ensureM (Amount.is_zero reserved_lend_tokens) (loans_error TokensAlreadyLocked);;
  do_deposit_collateral who free_lend_tokens.
Definition withdraw_all_collateral (origin : Origin) (asset_id : CurrencyId.t) : B unit :=
  who ← lift (ensure_signed origin);
  lend_token_id ← query (lend_token_id asset_id);
  collateral ← gets (account_deposits lend_token_id who);
  ensureM (negb (Amount.is_zero collateral)) (loans_error WithdrawAllCollateralFailed);;
  do_withdraw_collateral who collateral.
Definition liquidate_borrow (origin : Origin) (borrower : AccountId) (liquidation_asset_id : CurrencyId.t)
    (repay_amount : Z) (collateral_asset_id : CurrencyId.t) : B unit :=
  who ← lift (ensure_signed origin);
  accrue_interest liquidation_asset_id;;
  accrue_interest collateral_asset_id;;
  ensureM (negb (repay_amount =? 0)) (loans_error InvalidAmount);;
  do_liquidate_borrow who borrower (Amount.new repay_amount liquidation_asset_id) collateral_asset_id.

(** The accounts below are those the source looks up from the argument. *)
Definition add_reserves (origin : Origin) (payer : AccountId) (asset_id : CurrencyId.t) (add_amount : Z) : B unit :=
  let amount_to_transfer := Amount.new add_amount asset_id in
  ensure_reserve_origin origin;;
  query (ensure_active_market asset_id);;
  accrue_interest asset_id;;
  ensureM (negb (Amount.is_zero amount_to_transfer)) (loans_error InvalidAmount);;
  tokens_transfer amount_to_transfer payer loans_account_id;;
  total_reserves ← gets (total_reserves asset_id);
  total_reserves_new ← lift (Amount.checked_add total_reserves amount_to_transfer);
  update (with_TotalReserves <[asset_id := Amount.amount total_reserves_new]>);;
  deposit_event (ReservesAdded payer asset_id (Amount.amount amount_to_transfer) (Amount.amount total_reserves_new)).
Definition reduce_reserves (origin : Origin) (receiver : AccountId) (asset_id : CurrencyId.t) (reduce_amount : Z)
  : B unit :=
  ensure_reserve_origin origin;;
  query (ensure_active_market asset_id);;
  accrue_interest asset_id;;
  let amount_to_transfer := Amount.new reduce_amount asset_id in
  ensureM (negb (Amount.is_zero amount_to_transfer)) (loans_error InvalidAmount);;
  total_reserves ← gets (total_reserves asset_id);
  more ← lift (Amount.gt amount_to_transfer total_reserves);
  ensureM (negb more) (loans_error InsufficientReserves);;
  total_reserves_new ← lift (Amount.checked_sub total_reserves amount_to_transfer);
  update (with_TotalReserves <[asset_id := Amount.amount total_reserves_new]>);;
  tokens_transfer amount_to_transfer loans_account_id receiver;;
  deposit_event (ReservesReduced receiver asset_id (Amount.amount amount_to_transfer)
                   (Amount.amount total_reserves_new)).
Definition reduce_incentive_reserves (origin : Origin) (receiver : AccountId) (asset_id : CurrencyId.t)
    (redeem_amount : Z) : B unit :=
  ensure_reserve_origin origin;;
  ensureM (negb (redeem_amount =? 0)) (loans_error InvalidAmount);;
  query (ensure_active_market asset_id);;
  accrue_interest asset_id;;
  let underlying := Amount.new redeem_amount asset_id in
  voucher ← to_lend_token underlying;
  do_redeem incentive_reward_account_id underlying voucher;;
  tokens_transfer underlying incentive_reward_account_id receiver;;
  deposit_event (IncentiveReservesReduced receiver asset_id (Amount.amount underlying)).

(** *** Market data for other pallets *)

Record MarketInfo : Type := mkMarketInfo {
  mi_collateral_factor : Z;
  mi_liquidation_threshold : Z;
  mi_reserve_factor : Z;
  mi_close_factor : Z;
  mi_full_rate : Z;
}.
Definition get_full_interest_rate (asset_id : CurrencyId.t) (r : Runtime) : option Z :=
  match market asset_id r with
  | Ok m =>
      match rate_model m with
      | RateModel.Jump jump => Some (RateModel.full_rate jump)
      | _ => None
      end
  | _ => None
  end.
Definition get_market_info (asset_id : CurrencyId.t) (r : Runtime) : outcome BError MarketInfo :=
  market ← market asset_id r;
  full_rate ← ok_or (get_full_interest_rate asset_id r) (loans_error InvalidRateModelParam);
  Ok (mkMarketInfo (collateral_factor market) (liquidation_threshold market) (reserve_factor market)
        (close_factor market) full_rate).
End calls.
End LoansCalls.
