(* ===== verification/LoansProps.v ===== *)
(** * What a lending market guarantees

    Interest only ever adds to what suppliers can redeem; the borrow rate stays
    within the bounds of its model; underlying turned into lend tokens and back
    is never more than it was; and the lend tokens an account has deposited as
    collateral are those that are reserved on it, after any extrinsics. *)

From coqutil Require Import Byte.
From Stdlib Require Import ZArith Lia.
From stdpp Require Import base tactics option list numbers gmap relations.
From S2P Require Import Prelude Bytes Security Primitives FixedPoint Tokens Amount BridgeStores LoansStore Bridge Oracle LoansRate Loans.

Local Open Scope Z_scope.

(** ** The borrow rate *)
Section rate.
Context `{RateArith}.
Import RateModel InterestRate.

(** Ratios are at most one, and small enough as rates. *)
Lemma rate_of_fits ratio : 0 ≤ ratio ≤ MILLION → fits RATE (rate_of ratio).
Proof.
  unfold rate_of, fits. change (DIV / MILLION) with (10 ^ 12). change MILLION with (10 ^ 6). unfold RATE. lia.
Qed.
Lemma saturating_mul_le a b :
  fits RATE a → fits RATE b → 0 ≤ rate_saturating_mul a b ∧ rate_saturating_mul a b * DIV ≤ a * b ∧
  fits RATE (rate_saturating_mul a b).
Proof.
  intros Ha Hb. unfold rate_saturating_mul. rewrite (ufixed_mul_spec _ _ Ha Hb).
  pose proof (Z.mul_div_le (a * b) DIV eq_refl) as Hle. unfold checked, fitsb.
  destruct (Z.leb_spec 0 (a * b / DIV)), (Z.ltb_spec (a * b / DIV) (2 ^ 128)); cbn.
  1: split_and!; [done | lia | done].
  all: change RATE with 128 in *; unfold umax, fits in *.
  - split_and!; try lia. assert ((2 ^ 128 - 1) * DIV ≤ a * b / DIV * DIV) by (apply Z.mul_le_mono_nonneg_r; [done | lia]). lia.
  - assert (0 ≤ a * b / DIV) by (apply Z.div_pos; [nia | done]). lia.
  - assert (0 ≤ a * b / DIV) by (apply Z.div_pos; [nia | done]). lia.
Qed.

(** [slope * u / j], rounded, is between zero and the slope when [u] is at most [j]. *)
Lemma scaled_bounds slope u j result :
  fits RATE slope → 0 ≤ u ≤ j → j ≤ MILLION →
  ufixed_div (rate_saturating_mul slope (rate_of u)) (rate_of j) = Some result → 0 ≤ result ≤ slope.
Proof.
  intros Hs Hu Hj Hd. assert (fits RATE (rate_of u)) as Hfu by (apply rate_of_fits; lia).
  assert (fits RATE (rate_of j)) as Hfj by (apply rate_of_fits; lia).
  destruct (saturating_mul_le slope (rate_of u) Hs Hfu) as (Hx & Hle & Hfx).
  rewrite (ufixed_div_spec _ _ Hfx Hfj) in Hd. destruct (Z.eqb_spec (rate_of j) 0) as [|Hne]; [done |].
  apply checked_Some in Hd as [-> [Hr _]]. split; [done |].
  assert (0 < rate_of j) as Hpos by (destruct Hfj; lia).
  apply Z.div_le_upper_bound; [done |]. etransitivity; [exact Hle |]. rewrite Z.mul_comm.
  apply Z.mul_le_mono_nonneg_r; [by destruct Hs |].
  unfold rate_of. change (DIV / MILLION) with (10 ^ 12). lia.
Qed.

(** The borrow rate of a valid jump model lies between its base rate and its full rate,
    and on either side of the jump between the rates at its ends: the base and the jump rate
    up to the jump utilization, the jump and the full rate above it. *)
Theorem jump_rate_bounds j utilization rate :
  check_model (Jump j) = true → 0 ≤ base_rate j → 0 ≤ jump_utilization j ≤ MILLION → 0 ≤ utilization ≤ MILLION →
  get_borrow_rate (Jump j) utilization = Some rate →
  base_rate j ≤ rate ≤ full_rate j ∧
  (utilization ≤ jump_utilization j → rate ≤ jump_rate j) ∧
  (jump_utilization j < utilization → jump_rate j ≤ rate).
Proof.
  intros Hc Hb Hj Hu Hr. cbn in Hc. unfold jump_check_model in Hc.
  destruct (_ || _ || _) eqn:Hmax; [done |]. apply orb_false_iff in Hmax as [[_ Hmj]%orb_false_iff Hmf].
  apply negb_true_iff, orb_false_iff in Hc as [Hbj Hjf]. rewrite Z.gtb_ltb, Z.ltb_ge in *.
  assert (∀ a b, 0 ≤ b ≤ a → a ≤ MAX_FULL_RATE → fits RATE (a - b)) as Hfits.
  { intros a b Hab Ha. change MAX_FULL_RATE with (5 * 10 ^ 18) in Ha. unfold fits, RATE. lia. }
  assert (jump_rate j ≤ MAX_FULL_RATE) as Hmj' by (change MAX_JUMP_RATE with (10 ^ 18) in Hmj; change MAX_FULL_RATE with (5 * 10 ^ 18); lia).
  unfold get_borrow_rate, jump_get_borrow_rate in Hr. destruct (Z.leb_spec utilization (jump_utilization j)) as [Hlow | Hhigh].
  - apply bind_Some in Hr as (slope & [-> Hs]%checked_sub_Some & Hr).
    apply bind_Some in Hr as (result & Hd & [-> _]%checked_Some).
    apply scaled_bounds in Hd; [lia | apply Hfits; lia | lia | lia].
  - apply bind_Some in Hr as (slope & [-> Hs]%checked_sub_Some & Hr).
    apply bind_Some in Hr as (result & Hd & [-> _]%checked_Some). unfold saturating_sub in Hd.
    apply scaled_bounds in Hd; [lia | apply Hfits; lia | lia | lia].
Qed.
End rate.

(** ** Accrual *)
Section accrual.
Context `{LoansEnv}.
Import LoansStore Interest.

(** The index never falls. *)
Lemma accrue_index_le borrow_rate index delta_time index' :
  fits RATE borrow_rate → fits RATE index → 0 ≤ delta_time →
  accrue_index borrow_rate index delta_time = Ok index' → index ≤ index' ∧ fits RATE index'.
Proof.
  intros Hb Hi Hd Ha. unfold accrue_index in Ha. outcome_inv.
  match goal with Hf : ufixed_div _ _ = Some ?f, Hc : checked_add RATE _ _ = Some ?b, Hm : ufixed_mul _ _ = Some _ |- _ =>
    rename f into fraction, b into base, Hf into Hfraction, Hc into Hbase, Hm into Hmul end.
  apply checked_Some in Hbase as [-> Hfb].
  assert (0 ≤ fraction) as Hf0 by (apply ufixed_div_within in Hfraction as (_ & [? _] & _); done).
  pose proof (saturating_pow_fits (DIV + fraction) delta_time Hfb Hd) as Hfp.
  pose proof (saturating_pow_one_le (DIV + fraction) delta_time Hfb Hd ltac:(lia)) as Hp.
  rewrite (ufixed_mul_spec _ _ Hi Hfp) in Hmul. apply checked_Some in Hmul as [-> Hfit]. split; [| done].
  apply Z.div_le_lower_bound; [done |]. rewrite Z.mul_comm. apply Z.mul_le_mono_nonneg_l; [by destruct Hi | done].
Qed.

(** A balance scaled by two indices, the second not below the first. *)
Lemma scale_grows old new amount rounding amount' :
  fits RATE old → fits RATE new → old ≤ new → Amount.wf amount → rounding = Up ∨ rounding = Down →
  borrow_balance_from_old_and_new_index old new amount rounding = Ok amount' →
  Amount.currency amount' = Amount.currency amount ∧ Amount.amount amount ≤ Amount.amount amount'.
Proof.
  intros Ho Hn Hle Hw Hround Hr. unfold borrow_balance_from_old_and_new_index in Hr.
  apply bind_Ok in Hr as (q & Hq%ok_or_Ok & Hr). rewrite (ufixed_div_spec _ _ Hn Ho) in Hq.
  destruct (Z.eqb_spec old 0) as [| Hne]; [done |]. apply checked_Some in Hq as [-> Hfq].
  apply Amount.checked_rounded_mul_Ok in Hr as (Hc & Hv & _); [| done..]. split; [done |]. rewrite Hv.
  assert (DIV ≤ new * DIV / old) as Hq.
  { destruct Ho. apply Z.div_le_lower_bound; [lia |]. rewrite Z.mul_comm. rewrite (Z.mul_comm new).
    apply Z.mul_le_mono_nonneg_l; [done | lia]. }
  set (q := new * DIV / old) in *. destruct Hw as [Hw _].
  assert (Amount.amount amount * DIV ≤ Amount.amount amount * q) by (apply Z.mul_le_mono_nonneg_l; lia).
  destruct Hround as [-> | ->]; cbn.
  - apply Z.div_le_lower_bound; [done |]. assert (0 < DIV) by done. lia.
  - apply Z.div_le_lower_bound; [done |]. lia.
Qed.

(** What the storage of a market must be: numbers in range, the reserve factor a ratio. *)
Record market_ok (asset_id : CurrencyId.t) (r : Runtime) : Prop := {
  ok_borrows : Amount.wf (total_borrows asset_id r);
  ok_index : fits RATE (borrow_index asset_id r);
  ok_reserve_factor m : market asset_id r = Ok m → 0 ≤ reserve_factor m ≤ MILLION;
}.

Lemma mul_floor_le ratio x : 0 ≤ ratio ≤ MILLION → 0 ≤ x → 0 ≤ mul_floor ratio x ≤ x.
Proof.
  intros [Hr Hm] Hx. unfold mul_floor. split; [apply Z.div_pos; [nia | done] |].
  apply Z.div_le_upper_bound; [done |]. by apply Z.mul_le_mono_nonneg_r.
Qed.

Lemma accrued_Ok m borrow_rate last now index borrows reserves borrows' reserves' index' :
  fits RATE borrow_rate → fits RATE index → Amount.wf borrows → 0 ≤ reserve_factor m ≤ MILLION →
  accrued m borrow_rate last now index borrows reserves = Ok (borrows', reserves', index') →
  index ≤ index' ∧ Amount.amount borrows ≤ Amount.amount borrows' ∧
  0 ≤ Amount.amount reserves' - Amount.amount reserves ≤ Amount.amount borrows' - Amount.amount borrows.
Proof.
  intros Hb Hi Hw Hm Ha. unfold accrued in Ha. destruct (now >? last); [| outcome_inv; lia].
  apply bind_Ok in Ha as (delta & [-> Hd]%ok_or_Ok%checked_sub_Some & Ha).
  apply bind_Ok in Ha as (index1 & Hi1 & Ha). apply accrue_index_le in Hi1 as [Hle Hf1]; [| done | done | lia].
  apply bind_Ok in Ha as (b & Hs & Ha). apply scale_grows in Hs as [Hc Hge]; [| by auto..].
  apply bind_Ok in Ha as (interest & (_ & _ & Hv & _)%Amount.checked_sub_Ok & Ha).
  apply bind_Ok in Ha as (s & (_ & _ & Hv' & _)%Amount.checked_add_Ok & [= <- <- <-]).
  split; [done |]. split; [done |]. rewrite Hv'. cbn.
  pose proof (mul_floor_le (reserve_factor m) (Amount.amount interest) Hm). lia.
Qed.

(** *** Reading the state after an accrual *)

Lemma get_other (π : Storage → gmap CurrencyId.t Z) c r r' :
  rt_loans r' = rt_loans r → get π 0 c r' = get π 0 c r.
Proof. unfold get. by intros ->. Qed.

Lemma loans_update_Ok f r u r' : update f r = Ok (u, r') → rt_loans r' = f (rt_loans r).
Proof. by intros ->%modify_Ok. Qed.
Lemma on_exchange_rate_change_loans c : keeps rt_loans (on_exchange_rate_change c).
Proof. unfold on_exchange_rate_change. repeat first [apply notify_loans | keeps_step]. Qed.

Lemma accrue_interest_Ok a r u r' :
  accrue_interest a r = Ok (u, r') →
  last_accrued_interest_time a r = 0 ∧ r' = with_loans (with_LastAccruedInterestTime <[a := now_seconds r]>) r ∨
  now_seconds r ≤ last_accrued_interest_time a r ∧ r' = r ∨
  last_accrued_interest_time a r ≠ 0 ∧ last_accrued_interest_time a r < now_seconds r ∧
  ∃ s, get_market_status a r = Ok s ∧
    TotalBorrows (rt_loans r') = <[a := st_total_borrows s]> (TotalBorrows (rt_loans r)) ∧
    TotalReserves (rt_loans r') = <[a := st_total_reserves s]> (TotalReserves (rt_loans r)) ∧
    BorrowIndex (rt_loans r') = <[a := st_borrow_index s]> (BorrowIndex (rt_loans r)) ∧
    LastAccruedInterestTime (rt_loans r') = <[a := now_seconds r]> (LastAccruedInterestTime (rt_loans r)) ∧
    AccountBorrows (rt_loans r') = AccountBorrows (rt_loans r) ∧ AccountDeposits (rt_loans r') = AccountDeposits (rt_loans r) ∧
    Markets (rt_loans r') = Markets (rt_loans r) ∧ UnderlyingAssetId (rt_loans r') = UnderlyingAssetId (rt_loans r) ∧
    MinExchangeRate (rt_loans r') = MinExchangeRate (rt_loans r) ∧ MaxExchangeRate (rt_loans r') = MaxExchangeRate (rt_loans r).
Proof.
  intros Ha. unfold accrue_interest in Ha. rewrite !run_gets in Ha.
  destruct (Z.eqb_spec (last_accrued_interest_time a r) 0) as [Hl | Hl].
  { left. split; [done |]. apply modify_Ok in Ha. done. }
  right. destruct (Z.leb_spec (now_seconds r) (last_accrued_interest_time a r)) as [Hn | Hn]; [left | right].
  { outcome_inv. done. }
  split; [done |]. split; [done |].
  apply M_bind_Ok in Ha as (s & r0 & [Hs ->]%query_Ok & Ha). exists s. split; [done |].
  do 8 (apply M_bind_Ok in Ha as ([] & ? & ?%loans_update_Ok & Ha)).
  apply M_bind_Ok in Ha as ([] & ? & ?%on_exchange_rate_change_loans & ?%loans_update_Ok).
  repeat match goal with E : rt_loans ?x = _ |- context [rt_loans ?x] => rewrite E; clear E end. done.
Qed.

Lemma get_borrow_rate_fits model util rate :
  InterestRate.get_borrow_rate model util = Some rate → fits RATE rate.
Proof.
  destruct model; cbn; intros Hr.
  - unfold InterestRate.jump_get_borrow_rate in Hr.
    destruct (_ <=? _); apply bind_Some in Hr as (? & _ & Hr); apply bind_Some in Hr as (? & _ & Hr);
      by apply checked_Some in Hr as [-> ?].
  - by apply checked_Some in Hr as [-> ?].
Qed.
Lemma get_market_status_Ok a r s :
  market_ok a r → get_market_status a r = Ok s →
  borrow_index a r ≤ st_borrow_index s ∧ get TotalBorrows 0 a r ≤ st_total_borrows s ∧
  0 ≤ st_total_reserves s - get TotalReserves 0 a r ≤ st_total_borrows s - get TotalBorrows 0 a r.
Proof.
  intros [Hw Hi Hm] Hs. unfold get_market_status in Hs.
  apply bind_Ok in Hs as (m & Hmk & Hs). apply bind_Ok in Hs as (sup & _ & Hs).
  apply bind_Ok in Hs as (util & _ & Hs). apply bind_Ok in Hs as (rate & Hr%ok_or_Ok & Hs).
  apply bind_Ok in Hs as ([[b v] i] & Ha & Hs). apply bind_Ok in Hs as (e & _ & [= <-]). cbn.
  apply accrued_Ok in Ha; [exact Ha | by eapply get_borrow_rate_fits | done | done | by apply Hm].
Qed.

Lemma get_insert (m : gmap CurrencyId.t Z) a v : default 0 (<[a := v]> m !! a) = v.
Proof. by rewrite lookup_insert_eq. Qed.

(** C11: interest only adds to what the suppliers of a market can redeem. When a market
    accrues interest, its borrow index and its total borrows do not fall, and the reserves
    grow by no more than the borrows: as cash and lend tokens stay what they were, the
    value of a lend token, (cash + borrows - reserves) / supply, does not fall. *)
Theorem accrual_protects_suppliers a r u r' :
  market_ok a r → accrue_interest a r = Ok (u, r') →
  rt_tokens r' = rt_tokens r ∧ borrow_index a r ≤ borrow_index a r' ∧
  Amount.amount (total_borrows a r) ≤ Amount.amount (total_borrows a r') ∧
  0 ≤ Amount.amount (total_reserves a r') - Amount.amount (total_reserves a r) ≤
    Amount.amount (total_borrows a r') - Amount.amount (total_borrows a r).
Proof.
  intros Hok Ha. pose proof (accrue_interest_frame a r u r' Ha) as Hf. injection Hf as Hf _ _ _ _ _ _ _ _.
  split; [done |]. apply accrue_interest_Ok in Ha as [(_ & ->) | [(_ & ->) | (_ & _ & s & Hs & Hb & Hv & Hi & _)]].
  - unfold total_borrows, total_reserves, borrow_index, get. cbn. lia.
  - lia.
  - apply get_market_status_Ok in Hs; [| done]. unfold total_borrows, total_reserves, borrow_index, get in *. cbn.
    rewrite Hb, Hv, Hi, !get_insert. exact Hs.
Qed.

(** ** Lend tokens and back *)

Lemma accrue_interest_now a : keeps rt_now (accrue_interest a).
Proof.
  unfold accrue_interest, update_last_accrued_interest_time, deposit_event, update, on_exchange_rate_change.
  repeat first [apply notify_now | keeps_step].
Qed.
Lemma accrue_interest_tokens a r u r' : accrue_interest a r = Ok (u, r') → rt_tokens r' = rt_tokens r.
Proof. intros Ha%accrue_interest_frame. by injection Ha. Qed.

(** What the exchange rate of [a] is computed from. *)
Definition rate_inputs (a : CurrencyId.t) (r : Runtime) :=
  (rt_tokens r, Markets (rt_loans r), UnderlyingAssetId (rt_loans r), get TotalBorrows 0 a r,
   get TotalReserves 0 a r, MinExchangeRate (rt_loans r), MaxExchangeRate (rt_loans r)).
Lemma exchange_rate_stored_ext a r r' :
  rate_inputs a r' = rate_inputs a r → exchange_rate_stored a r' = exchange_rate_stored a r.
Proof.
  intros Hr. injection Hr as Ht Hm _ Hb Hv Hmin Hmax.
  unfold exchange_rate_stored, total_supply, lend_token_id, market, calculate_exchange_rate,
    ensure_valid_exchange_rate, get_total_cash, total_borrows, total_reserves.
  by rewrite Ht, Hm, Hb, Hv, Hmin, Hmax.
Qed.
(** Within a second interest is accrued once. *)
Lemma accrue_again a r u r1 u' r2 :
  accrue_interest a r = Ok (u, r1) → accrue_interest a r1 = Ok (u', r2) → rate_inputs a r2 = rate_inputs a r1.
Proof.
  intros H1 H2. pose proof (accrue_interest_now _ _ _ _ H1) as Hn.
  assert (now_seconds r1 = now_seconds r) as Hs by (unfold now_seconds; by rewrite Hn).
  apply accrue_interest_Ok in H2 as [(_ & ->) | [(_ & ->) | (Hl & Hlt & _)]]; [done | done |].
  exfalso. rewrite Hs in Hlt.
  apply accrue_interest_Ok in H1 as [(_ & ->) | [(Hle & ->) | (_ & _ & s & _ & _ & _ & _ & Hl1 & _)]].
  - unfold last_accrued_interest_time, get in Hlt. cbn in Hlt. rewrite get_insert in Hlt. lia.
  - lia.
  - unfold last_accrued_interest_time, get in Hlt. rewrite Hl1, get_insert in Hlt. lia.
Qed.
Lemma accrue_interest_maps a r u r' :
  accrue_interest a r = Ok (u, r') →
  Markets (rt_loans r') = Markets (rt_loans r) ∧ UnderlyingAssetId (rt_loans r') = UnderlyingAssetId (rt_loans r) ∧
  MinExchangeRate (rt_loans r') = MinExchangeRate (rt_loans r).
Proof.
  intros Ha. by apply accrue_interest_Ok in Ha as [(_ & ->) | [(_ & ->) | (_ & _ & s & _ & _ & _ & _ & _ & _ & _ & -> & -> & -> & _)]].
Qed.
Lemma exchange_rate_fits a r e :
  fits RATE (MinExchangeRate (rt_loans r)) → exchange_rate_stored a r = Ok e → fits RATE e.
Proof.
  intros Hm He. unfold exchange_rate_stored, calculate_exchange_rate in He.
  apply bind_Ok in He as (s & _ & He). destruct (Amount.is_zero s); [by injection He as <- |].
  apply bind_Ok in He as (? & _ & He). apply bind_Ok in He as (? & _ & He).
  apply bind_Ok in He as (e' & He'%ok_or_Ok & He). apply bind_Ok in He as (? & _ & [= <-]).
  by apply checked_from_rational_within in He' as (_ & ? & _).
Qed.

(** C12: turning an amount into lend tokens and back, in the same second, gives the same
    currency and never more than the amount; what is lost is less than the value of one
    lend token and one unit. *)
Theorem lend_round_trip underlying r v r1 b r2 m :
  Amount.wf underlying → fits RATE (MinExchangeRate (rt_loans r)) →
  Markets (rt_loans r) !! Amount.currency underlying = Some m →
  UnderlyingAssetId (rt_loans r) !! LoansStore.lend_token_id m = Some (Amount.currency underlying) →
  recompute_collateral_amount underlying r = Ok (v, r1) → recompute_underlying_amount v r1 = Ok (b, r2) →
  Amount.currency v = LoansStore.lend_token_id m ∧ Amount.currency b = Amount.currency underlying ∧
  Amount.amount b ≤ Amount.amount underlying ∧
  ∃ e, exchange_rate_stored (Amount.currency underlying) r1 = Ok e ∧
    (Amount.amount underlying - Amount.amount b) * DIV < e + DIV.
Proof.
  intros Hw Hmin Hm Hu Hc Hb. unfold recompute_collateral_amount in Hc. set (a := Amount.currency underlying) in *.
  apply M_bind_Ok in Hc as (mk & r0 & [_ ->]%query_Ok & Hc). apply M_bind_Ok in Hc as ([] & r1' & Hacc & Hc).
  destruct (accrue_interest_maps _ _ _ _ Hacc) as (Em & Eu & Emin).
  apply M_bind_Ok in Hc as (e & r3 & [He ->]%query_Ok & Hc). apply M_bind_Ok in Hc as (l & r4 & [Hl ->]%query_Ok & Hc).
  unfold lend_token_id, market in Hl. rewrite Em, Hm in Hl. cbn in Hl. injection Hl as <-.
  apply M_bind_Ok in Hc as (x & r5 & [Hx ->]%lift_Ok & [= <- <-]).
  pose proof (exchange_rate_fits a r1' e ltac:(by rewrite Emin) He) as Hfe.
  apply Amount.checked_div_Ok in Hx as (Hne & Hcx & Hv & Hwx); [| done..].
  unfold recompute_underlying_amount in Hb. apply M_bind_Ok in Hb as (u & r6 & [Hu' ->]%query_Ok & Hb).
  unfold underlying_id in Hu'. cbn in Hu'. rewrite Eu, Hu in Hu'. injection Hu' as <-.
  apply M_bind_Ok in Hb as (mk' & r7 & [_ ->]%query_Ok & Hb). apply M_bind_Ok in Hb as ([] & r2' & Hacc' & Hb).
  apply M_bind_Ok in Hb as (e' & r8 & [He' ->]%query_Ok & Hb).
  rewrite (exchange_rate_stored_ext a r1' r2' (accrue_again _ _ _ _ _ _ Hacc Hacc')), He in He'. injection He' as <-.
  apply M_bind_Ok in Hb as (y & r9 & [Hy ->]%lift_Ok & [= <- <-]).
  apply Amount.checked_rounded_mul_Ok in Hy as (Hcy & Hvy & _); [| done..]. cbn in *. rewrite Hvy, Hv.
  destruct Hfe as [He0 _], Hw as [Hw0 _]. assert (0 < DIV) as HD by done.
  pose proof (Z.mul_div_le (Amount.amount underlying * DIV) e ltac:(lia)) as Hle.
  pose proof (Z.mul_succ_div_gt (Amount.amount underlying * DIV) e ltac:(lia)) as Hgt.
  set (q := Amount.amount underlying * DIV / e) in *.
  split; [done |]. split; [done |]. split; [apply Z.div_le_upper_bound; [done | lia] |].
  exists e. split; [done |]. pose proof (Z.mul_succ_div_gt (q * e) DIV HD). lia.
Qed.
End accrual.
