(* ===== verification/LoansStep.v ===== *)
(** * The lending market as a transition system

    [dispatch] is the call of the 21 extrinsics of the loans pallet; a [step] is
    one that succeeded, a transfer of tokens with its callbacks, or a change of
    prices, time and block.  Two invariants hold in every reachable state: the
    maps from markets to lend tokens and back agree, and the lend tokens an
    account has deposited as collateral are those reserved on it. *)

From coqutil Require Import Byte.
From Stdlib Require Import ZArith Lia.
From stdpp Require Import base tactics option list numbers gmap relations.
From S2P Require Import Prelude Bytes Security Primitives FixedPoint Tokens Amount BridgeStores LoansStore Bridge Oracle LoansRate Loans LoansProps.

Local Open Scope Z_scope.

Module LoansCall.
Inductive t : Type :=
  | add_market (asset_id : CurrencyId.t) (market : LoansStore.Market)
  | activate_market (asset_id : CurrencyId.t)
  | update_rate_model (asset_id : CurrencyId.t) (rate_model : RateModel.InterestRateModel)
  | update_market (asset_id : CurrencyId.t)
      (collateral_factor liquidation_threshold reserve_factor close_factor reserved_factor : option Z)
      (liquidate_incentive supply_cap borrow_cap : option Z)
  | force_update_market (asset_id : CurrencyId.t) (market : LoansStore.Market)
  | add_reward (amount : Z)
  | update_market_reward_speed (asset_id : CurrencyId.t) (supply_reward_per_block borrow_reward_per_block : option Z)
  | claim_reward
  | claim_reward_for_market (asset_id : CurrencyId.t)
  | mint (asset_id : CurrencyId.t) (mint_amount : Z)
  | redeem (asset_id : CurrencyId.t) (redeem_amount : Z)
  | redeem_all (asset_id : CurrencyId.t)
  | borrow (asset_id : CurrencyId.t) (borrow_amount : Z)
  | repay_borrow (asset_id : CurrencyId.t) (repay_amount : Z)
  | repay_borrow_all (asset_id : CurrencyId.t)
  | deposit_all_collateral (asset_id : CurrencyId.t)
  | withdraw_all_collateral (asset_id : CurrencyId.t)
  | liquidate_borrow (borrower : AccountId) (liquidation_asset_id : CurrencyId.t) (repay_amount : Z)
      (collateral_asset_id : CurrencyId.t)
  | add_reserves (payer : AccountId) (asset_id : CurrencyId.t) (add_amount : Z)
  | reduce_reserves (receiver : AccountId) (asset_id : CurrencyId.t) (reduce_amount : Z)
  | reduce_incentive_reserves (receiver : AccountId) (asset_id : CurrencyId.t) (redeem_amount : Z).
End LoansCall.

Section step.
Context `{LoansEnv}.
Import LoansCalls.

Definition loans_dispatch (o : Origin) (c : LoansCall.t) : B unit :=
  match c with
  | LoansCall.add_market a m => add_market o a m
  | LoansCall.activate_market a => activate_market o a
  | LoansCall.update_rate_model a m => update_rate_model o a m
  | LoansCall.update_market a cf lt rf clf irf li sc bc => update_market o a cf lt rf clf irf li sc bc
  | LoansCall.force_update_market a m => force_update_market o a m
  | LoansCall.add_reward v => add_reward o v
  | LoansCall.update_market_reward_speed a s b => update_market_reward_speed o a s b
  | LoansCall.claim_reward => claim_reward o
  | LoansCall.claim_reward_for_market a => claim_reward_for_market o a
  | LoansCall.mint a v => mint o a v
  | LoansCall.redeem a v => redeem o a v
  | LoansCall.redeem_all a => redeem_all o a
  | LoansCall.borrow a v => borrow o a v
  | LoansCall.repay_borrow a v => repay_borrow o a v
  | LoansCall.repay_borrow_all a => repay_borrow_all o a
  | LoansCall.deposit_all_collateral a => deposit_all_collateral o a
  | LoansCall.withdraw_all_collateral a => withdraw_all_collateral o a
  | LoansCall.liquidate_borrow x a v c => liquidate_borrow o x a v c
  | LoansCall.add_reserves x a v => add_reserves o x a v
  | LoansCall.reduce_reserves x a v => reduce_reserves o x a v
  | LoansCall.reduce_incentive_reserves x a v => reduce_incentive_reserves o x a v
  end.

Inductive loans_step (r : Runtime) : Runtime → Prop :=
  | loans_step_call o c r' : loans_dispatch o c r = Ok (tt, r') → loans_step r r'
  | loans_step_transfer a x y r' : LendTokens.tokens_transfer a x y r = Ok (tt, r') → loans_step r r'
  | loans_step_oracle f : loans_step r (with_oracle f r)
  | loans_step_block now block : loans_step r (with_block (λ _, block) (with_now (λ _, now) r)).
End step.

(** ** Frames *)
Section frames.
Context `{LoansEnv} {X : Type} (π : Runtime → X).
Import LoansStore Interest Farming LendTokens Loans Lending LoansCalls CurrencyConvert.

(** [π] looks neither at what is written here nor at what the ledger does in a transfer. *)
Context (π_update : ∀ f, (∀ s, AccountDeposits (f s) = AccountDeposits s) →
                        (∀ s, Markets (f s) = Markets s) → (∀ s, UnderlyingAssetId (f s) = UnderlyingAssetId s) →
                        keeps π (update f))
  (π_notify : ∀ c, keeps π (notify_exchange_rate_change c))
  (π_transfer : ∀ a x y, keeps π (on_tokens (Amount.transfer a x y)))
  (π_mint : ∀ a x, keeps π (on_tokens (Amount.mint_to a x)))
  (π_deposit : ∀ x a, keeps π (do_deposit_collateral x a)).

Ltac k_step := first [apply π_update; intros; reflexivity | apply π_notify | apply π_transfer | apply π_mint
                     | apply π_deposit | keeps_step].
Ltac k := repeat k_step.

Lemma k_accrue a : keeps π (accrue_interest a).
Proof. unfold accrue_interest, update_last_accrued_interest_time, deposit_event, on_exchange_rate_change. k. Qed.
Lemma k_underlying a : keeps π (recompute_underlying_amount a).
Proof. unfold recompute_underlying_amount. repeat first [apply k_accrue | k_step]. Qed.
Lemma k_collateral a : keeps π (recompute_collateral_amount a).
Proof. unfold recompute_collateral_amount. repeat first [apply k_accrue | k_step]. Qed.
Lemma k_convert a c : keeps π (convert_to a c).
Proof. unfold convert_to. cbn. repeat first [apply k_underlying | apply k_collateral | k_step]. Qed.
Lemma k_lend_token a : keeps π (to_lend_token a).
Proof. unfold to_lend_token. repeat first [apply k_convert | k_step]. Qed.
Lemma k_to_underlying a : keeps π (to_underlying a).
Proof. unfold to_underlying. repeat first [apply k_convert | k_step]. Qed.
Lemma k_asset_value a : keeps π (get_asset_value a).
Proof. apply k_convert. Qed.
Lemma k_over_markets f : (∀ a, keeps π (f a)) → keeps π (over_markets f).
Proof.
  intros Hf. unfold over_markets. k. generalize (Amount.zero ReferenceAssetId).
  match goal with |- context [accrue_values f ?l] => induction l as [| [c m] l IH] end; intros total; cbn; [k |].
  repeat first [apply Hf | apply IH | k_step].
Qed.
Lemma k_borrowed x : keeps π (total_borrowed_value x).
Proof. apply k_over_markets. intros. unfold borrowed_asset_value. repeat first [apply k_asset_value | k_step]. Qed.
Lemma k_amount_value a : keeps π (collateral_amount_value a).
Proof. unfold collateral_amount_value. repeat first [apply k_asset_value | apply k_to_underlying | k_step]. Qed.
Lemma k_total_collateral x : keeps π (total_collateral_value x).
Proof. apply k_over_markets. intros. unfold collateral_asset_value. repeat first [apply k_amount_value | k_step]. Qed.
Lemma k_threshold_value x : keeps π (total_liquidation_threshold_value x).
Proof.
  apply k_over_markets. intros. unfold liquidation_threshold_asset_value.
  repeat first [apply k_asset_value | apply k_to_underlying | k_step].
Qed.
Lemma k_ensure_liquidity x a : keeps π (ensure_liquidity x a).
Proof.
  unfold ensure_liquidity, get_account_liquidity. repeat first [apply k_borrowed | apply k_total_collateral | k_step].
Qed.
Lemma k_redeem_allowed x a : keeps π (redeem_allowed x a).
Proof. unfold redeem_allowed. repeat first [apply k_to_underlying | k_step]. Qed.
Lemma k_borrow_allowed x a : keeps π (borrow_allowed x a).
Proof. unfold borrow_allowed. repeat first [apply k_asset_value | apply k_ensure_liquidity | k_step]. Qed.
Lemma k_liquidate_allowed x a m : keeps π (liquidate_borrow_allowed x a m).
Proof.
  unfold liquidate_borrow_allowed, get_account_liquidation_threshold_liquidity.
  repeat first [apply k_asset_value | apply k_borrowed | apply k_threshold_value | k_step].
Qed.

(** *** Rewards and callbacks *)
Lemma k_supply_index a : keeps π (update_reward_supply_index a).
Proof. unfold update_reward_supply_index. k. Qed.
Lemma k_borrow_index a : keeps π (update_reward_borrow_index a).
Proof. unfold update_reward_borrow_index. k. Qed.
Lemma k_supplier a x : keeps π (distribute_supplier_reward a x).
Proof. unfold distribute_supplier_reward, deposit_event. k. Qed.
Lemma k_borrower a x : keeps π (distribute_borrower_reward a x).
Proof. unfold distribute_borrower_reward, deposit_event. k. Qed.
Lemma k_collect a x : keeps π (collect_market_reward a x).
Proof.
  unfold collect_market_reward.
  repeat first [apply k_supply_index | apply k_borrow_index | apply k_supplier | apply k_borrower | k_step].
Qed.
Lemma k_locks x a : keeps π (lock_if_account_deposited x a).
Proof. unfold lock_if_account_deposited. k. Qed.
Lemma k_on_slash c x : keeps π (on_slash c x).
Proof. unfold on_slash. repeat first [apply k_supply_index | apply k_supplier | k_step]. Qed.
Lemma k_tokens_transfer a x y : keeps π (tokens_transfer a x y).
Proof.
  unfold tokens_transfer, pre_transfer, post_transfer.
  repeat first [apply k_supply_index | apply k_supplier | apply k_locks | k_step].
Qed.
Lemma k_tokens_mint a x : keeps π (tokens_mint a x).
Proof.
  unfold tokens_mint, pre_deposit, post_deposit.
  repeat first [apply k_supply_index | apply k_supplier | apply k_locks | k_step].
Qed.
Lemma k_pay_reward x : keeps π (pay_reward x).
Proof. unfold pay_reward, deposit_event. repeat first [apply k_tokens_transfer | k_step]. Qed.
End frames.

Lemma keeps_bind2 `{bridge_env} {X A C D} (π : Runtime → X) (m : B A) (m' : B C) (k : C → B D) :
  keeps π (m;; m') → (∀ c, keeps π (k c)) → keeps π (m;; m' ≫= k).
Proof.
  intros Hm Hk r d r' Hr. apply M_bind_Ok in Hr as (a & r1 & Ha & Hr). apply M_bind_Ok in Hr as (c & r2 & Hc & Hr).
  rewrite (Hk _ _ _ _ Hr). apply (Hm r c). apply M_bind_Ok. eauto.
Qed.

(** *** What an account does *)
Section operations.
Context `{LoansEnv} {X : Type} (π : Runtime → X).
Import LoansStore Interest Farming LendTokens Loans Lending LoansCalls CurrencyConvert.
Context (π_update : ∀ f, (∀ s, AccountDeposits (f s) = AccountDeposits s) →
                        (∀ s, Markets (f s) = Markets s) → (∀ s, UnderlyingAssetId (f s) = UnderlyingAssetId s) →
                        keeps π (update f))
  (π_notify : ∀ c, keeps π (notify_exchange_rate_change c))
  (π_transfer : ∀ a x y, keeps π (on_tokens (Amount.transfer a x y)))
  (π_mint : ∀ a x, keeps π (on_tokens (Amount.mint_to a x)))
  (π_deposit : ∀ x a, keeps π (do_deposit_collateral x a))
  (π_unlock : ∀ x a, keeps π (on_tokens (Amount.unlock_on a x);; decrease_deposit a x))
  (π_burn : ∀ x a, keeps π (on_tokens (Amount.lock_on a x);; tokens_burn a x)).

Ltac o_step :=
  lazymatch goal with
  | |- keeps _ (update _) => apply π_update; intros; reflexivity
  | |- keeps _ (on_tokens (Amount.transfer _ _ _)) => apply π_transfer
  | |- keeps _ (on_tokens (Amount.mint_to _ _)) => apply π_mint
  | |- keeps _ (do_deposit_collateral _ _) => apply π_deposit
  | |- keeps _ (accrue_interest _) => eapply k_accrue; [exact π_update | exact π_notify]
  | |- keeps _ (to_lend_token _) => eapply k_lend_token; [exact π_update | exact π_notify]
  | |- keeps _ (to_underlying _) => eapply k_to_underlying; [exact π_update | exact π_notify]
  | |- keeps _ (get_asset_value _) => eapply k_asset_value; [exact π_update | exact π_notify]
  | |- keeps _ (convert_to _ _) => eapply k_convert; [exact π_update | exact π_notify]
  | |- keeps _ (collateral_amount_value _) => eapply k_amount_value; [exact π_update | exact π_notify]
  | |- keeps _ (total_collateral_value _) => eapply k_total_collateral; [exact π_update | exact π_notify]
  | |- keeps _ (total_borrowed_value _) => eapply k_borrowed; [exact π_update | exact π_notify]
  | |- keeps _ (borrow_allowed _ _) => eapply k_borrow_allowed; [exact π_update | exact π_notify]
  | |- keeps _ (redeem_allowed _ _) => eapply k_redeem_allowed; [exact π_update | exact π_notify]
  | |- keeps _ (liquidate_borrow_allowed _ _ _) => eapply k_liquidate_allowed; [exact π_update | exact π_notify]
  | |- keeps _ (update_reward_supply_index _) => eapply k_supply_index; exact π_update
  | |- keeps _ (update_reward_borrow_index _) => eapply k_borrow_index; exact π_update
  | |- keeps _ (distribute_supplier_reward _ _) => eapply k_supplier; exact π_update
  | |- keeps _ (distribute_borrower_reward _ _) => eapply k_borrower; exact π_update
  | |- keeps _ (collect_market_reward _ _) => eapply k_collect; exact π_update
  | |- keeps _ (tokens_transfer _ _ _) => eapply k_tokens_transfer; [exact π_update | exact π_transfer | exact π_deposit]
  | |- keeps _ (tokens_mint _ _) => eapply k_tokens_mint; [exact π_update | exact π_mint | exact π_deposit]
  | |- keeps _ (pay_reward _) => eapply k_pay_reward; [exact π_update | exact π_transfer | exact π_deposit]
  | _ => keeps_step
  end.
Ltac o := repeat o_step.

Lemma o_mint x a : keeps π (do_mint x a).
Proof. unfold do_mint, deposit_event. o. Qed.
Lemma o_borrow x a : keeps π (do_borrow x a).
Proof. unfold do_borrow, put_account_borrows, put_total_borrows, deposit_event. o. Qed.
Lemma o_withdraw x a : keeps π (do_withdraw_collateral x a).
Proof.
  unfold do_withdraw_collateral, deposit_event.
  repeat lazymatch goal with
         | |- keeps _ (on_tokens _;; decrease_deposit _ _;; _) => apply keeps_bind2; [apply π_unlock | intro]
         | _ => o_step
         end.
Qed.
Lemma o_repay x a : keeps π (do_repay_borrow x a).
Proof.
  unfold do_repay_borrow, do_repay_borrow_with_amount, put_account_borrows, put_total_borrows, deposit_event. o.
Qed.
Lemma keeps_map_err {A} (f : BError → BError) (m : B A) : keeps π m → keeps π (λ r, map_err f (m r)).
Proof. intros Hm r a r' Hr%map_err_Ok. by eapply Hm. Qed.
Lemma o_redeem x a v : keeps π (do_redeem x a v).
Proof.
  unfold do_redeem, deposit_event.
  repeat lazymatch goal with
         | |- keeps _ (on_tokens _;; tokens_burn _ _;; _) => apply keeps_bind2; [apply π_burn | intro]
         | |- keeps _ (do_withdraw_collateral _ _) => apply o_withdraw
         | |- keeps _ (λ r, map_err _ _) => apply keeps_map_err
         | _ => o_step
         end.
Qed.
Lemma o_liquidate o y a v c :
  (∀ x y a b m, keeps π (liquidated_transfer x y a b m)) → keeps π (liquidate_borrow o y a v c).
Proof.
  intros π_liquidated. unfold liquidate_borrow, do_liquidate_borrow.
  repeat lazymatch goal with
         | |- keeps _ (liquidated_transfer _ _ _ _ _) => apply π_liquidated
         | _ => o_step
         end.
Qed.

(** The extrinsics that change the markets, and liquidation. *)
Definition market_call (c : LoansCall.t) : bool :=
  match c with
  | LoansCall.add_market _ _ | LoansCall.activate_market _ | LoansCall.update_rate_model _ _
  | LoansCall.update_market _ _ _ _ _ _ _ _ _ | LoansCall.force_update_market _ _ => true
  | _ => false
  end.
Definition liquidation_call (c : LoansCall.t) : bool :=
  match c with LoansCall.liquidate_borrow _ _ _ _ => true | _ => false end.
Lemma o_dispatch o c : market_call c = false → liquidation_call c = false → keeps π (loans_dispatch o c).
Proof.
  destruct c; intros Hc Hl; try discriminate Hc; try discriminate Hl; cbn [loans_dispatch];
    unfold add_reward, update_market_reward_speed, claim_reward, claim_reward_for_market, mint, redeem, redeem_all,
      borrow, repay_borrow, repay_borrow_all, deposit_all_collateral, withdraw_all_collateral,
      add_reserves, reduce_reserves, reduce_incentive_reserves, ensure_update_origin, ensure_reserve_origin, deposit_event;
    repeat lazymatch goal with
           | |- keeps _ (do_mint _ _) => apply o_mint
           | |- keeps _ (do_borrow _ _) => apply o_borrow
           | |- keeps _ (do_withdraw_collateral _ _) => apply o_withdraw
           | |- keeps _ (do_repay_borrow _ _) => apply o_repay
           | |- keeps _ (do_redeem _ _ _) => apply o_redeem
           | _ => o_step
           end.
Qed.
End operations.

(** ** The maps between markets and lend tokens *)
Section markets.
Context `{LoansEnv}.
Import LoansStore Interest Farming LendTokens Loans Lending LoansCalls CurrencyConvert.

Definition market_maps (r : Runtime) := (Markets (rt_loans r), UnderlyingAssetId (rt_loans r)).
(** The lend token of a market leads back to the market. *)
Definition lend_tokens_agree (r : Runtime) : Prop :=
  ∀ a m, Markets (rt_loans r) !! a = Some m →
    UnderlyingAssetId (rt_loans r) !! LoansStore.lend_token_id m = Some a.
Lemma agree_maps r r' : market_maps r' = market_maps r → lend_tokens_agree r → lend_tokens_agree r'.
Proof. unfold market_maps, lend_tokens_agree. by intros [= -> ->]. Qed.

Lemma maps_update f :
  (∀ s, Markets (f s) = Markets s) → (∀ s, UnderlyingAssetId (f s) = UnderlyingAssetId s) →
  keeps market_maps (update f).
Proof. intros Hm Hu r u r' Hr%loans_update_Ok. unfold market_maps. by rewrite Hr, Hm, Hu. Qed.
Lemma maps_tokens {A} (m : M ledger BError A) : keeps market_maps (on_tokens m).
Proof. by apply keeps_on_tokens. Qed.
Lemma maps_notify c : keeps market_maps (notify_exchange_rate_change c).
Proof. intros r u r' Hr%notify_loans. unfold market_maps. by rewrite Hr. Qed.
Lemma maps_decrease a x : keeps market_maps (decrease_deposit a x).
Proof.
  unfold decrease_deposit. do 2 (apply keeps_bind; [keeps | intro]). by case_match; apply maps_update.
Qed.
Lemma maps_deposit x a : keeps market_maps (do_deposit_collateral x a).
Proof.
  unfold do_deposit_collateral, deposit_event.
  repeat first [apply maps_tokens | by apply maps_update | keeps_step].
Qed.
Lemma maps_on_slash c x : keeps market_maps (on_slash c x).
Proof. apply k_on_slash; intros; by apply maps_update. Qed.
Lemma maps_liquidated x y a b m : keeps market_maps (liquidated_transfer x y a b m).
Proof.
  unfold liquidated_transfer, put_account_borrows, put_total_borrows, deposit_event.
  repeat lazymatch goal with
         | |- keeps _ (update _) => by apply maps_update
         | |- keeps _ (on_tokens _) => apply maps_tokens
         | |- keeps _ (decrease_deposit _ _) => apply maps_decrease
         | |- keeps _ (update_reward_supply_index _) => apply k_supply_index; intros; by apply maps_update
         | |- keeps _ (update_reward_borrow_index _) => apply k_borrow_index; intros; by apply maps_update
         | |- keeps _ (distribute_supplier_reward _ _) => apply k_supplier; intros; by apply maps_update
         | |- keeps _ (distribute_borrower_reward _ _) => apply k_borrower; intros; by apply maps_update
         | |- keeps _ (tokens_transfer _ _ _) =>
             apply k_tokens_transfer; intros; [by apply maps_update | apply maps_tokens | apply maps_deposit]
         | |- keeps _ (to_lend_token _) => apply k_lend_token; intros; [by apply maps_update | apply maps_notify]
         | _ => keeps_step
         end.
Qed.
Lemma maps_burn x a : keeps market_maps (on_tokens (Amount.lock_on a x);; tokens_burn a x).
Proof.
  apply keeps_bind; [apply maps_tokens | intro]. unfold tokens_burn. case_match; [keeps |].
  apply keeps_bind; [apply maps_on_slash | intro; apply maps_tokens].
Qed.
Lemma maps_unlock x a : keeps market_maps (on_tokens (Amount.unlock_on a x);; decrease_deposit a x).
Proof. apply keeps_bind; [apply maps_tokens | intro; apply maps_decrease]. Qed.
Lemma maps_dispatch o c : market_call c = false → keeps market_maps (loans_dispatch o c).
Proof.
  intros Hc. destruct (liquidation_call c) eqn:Hl.
  - destruct c; try discriminate Hl. apply o_liquidate; intros;
      first [by apply maps_update | apply maps_notify | apply maps_liquidated].
  - apply o_dispatch; try done; intros;
      first [by apply maps_update | apply maps_notify | apply maps_tokens | apply maps_deposit
            | apply maps_unlock | apply maps_burn].
Qed.

Lemma agree_put r a m m' :
  lend_tokens_agree r → Markets (rt_loans r) !! a = Some m → LoansStore.lend_token_id m' = LoansStore.lend_token_id m →
  ∀ r', Markets (rt_loans r') = <[a := m']> (Markets (rt_loans r)) →
    UnderlyingAssetId (rt_loans r') = UnderlyingAssetId (rt_loans r) → lend_tokens_agree r'.
Proof.
  intros Hg Ha Hl r' Hm Hu b n. rewrite Hm, Hu. intros [[<- <-] | [_ Hb]]%lookup_insert_Some; [| by apply Hg].
  rewrite Hl. by apply Hg.
Qed.
Lemma agree_new r a m :
  lend_tokens_agree r →
  (∀ b, UnderlyingAssetId (rt_loans r) !! LoansStore.lend_token_id m = Some b → b = a) →
  ∀ r', Markets (rt_loans r') = <[a := m]> (Markets (rt_loans r)) →
    UnderlyingAssetId (rt_loans r') = <[LoansStore.lend_token_id m := a]> (UnderlyingAssetId (rt_loans r)) →
    lend_tokens_agree r'.
Proof.
  intros Hg Hf r' Hm Hu b n. rewrite Hm, Hu. intros [[<- <-] | [Hne Hb]]%lookup_insert_Some; [by rewrite lookup_insert_eq |].
  rewrite lookup_insert_ne; [by apply Hg |]. intros Hl. apply Hg in Hb. rewrite <- Hl in Hb. by apply Hf in Hb.
Qed.
Lemma mutate_market_Ok a cb r m r' :
  mutate_market a cb r = Ok (m, r') →
  ∃ stored, Markets (rt_loans r) !! a = Some stored ∧ cb stored = Ok m ∧
    rt_loans r' = with_Markets <[a := m]> (rt_loans r).
Proof.
  intros Hr. unfold mutate_market in Hr. apply M_bind_Ok in Hr as (stored & r1 & [Hs%ok_or_Ok ->]%query_Ok & Hr).
  apply M_bind_Ok in Hr as (m' & r1 & [Hm ->]%lift_Ok & Hr). apply M_bind_Ok in Hr as (u & r1 & Hu%loans_update_Ok & [= <- <-]).
  eauto.
Qed.

Lemma agree_add_market o a m r u r' : lend_tokens_agree r → add_market o a m r = Ok (u, r') → lend_tokens_agree r'.
Proof.
  intros Hg Hr. unfold add_market, ensure_update_origin, deposit_event in Hr.
  do 6 (apply M_bind_Ok in Hr as (? & ? & [_ ->]%ensureM_Ok & Hr) || apply M_bind_Ok in Hr as (? & ? & [_ ->]%gets_Ok & Hr)).
  apply M_bind_Ok in Hr as (? & ? & [_ ->]%ensureM_Ok & Hr).
  apply M_bind_Ok in Hr as ([] & ? & [Hl ->]%query_Ok & Hr).
  unfold ensure_lend_token in Hl. apply bind_Ok in Hl as ([] & Hl%ensure_Ok & _).
  apply negb_true_iff, bool_decide_eq_false in Hl.
  do 2 (apply M_bind_Ok in Hr as ([] & ? & ?%loans_update_Ok & Hr)). apply M_bind_Ok in Hr as (? & ? & [_ ->]%gets_Ok & Hr).
  do 3 (apply M_bind_Ok in Hr as ([] & ? & ?%loans_update_Ok & Hr)). apply loans_update_Ok in Hr.
  apply (agree_new r a m Hg); [by intros b Hb; destruct Hl; exists b | |];
    repeat match goal with E : rt_loans ?x = _ |- context [rt_loans ?x] => rewrite E; clear E end; done.
Qed.
Lemma agree_mutate a cb r m r' :
  (∀ n n', cb n = Ok n' → LoansStore.lend_token_id n' = LoansStore.lend_token_id n) →
  lend_tokens_agree r → mutate_market a cb r = Ok (m, r') → lend_tokens_agree r'.
Proof.
  intros Hcb Hg (stored & Hs & Hm & E)%mutate_market_Ok.
  eapply (agree_put r a stored m Hg Hs); [by apply Hcb | by rewrite E..].
Qed.
Lemma agree_event e r u r' : deposit_event e r = Ok (u, r') → lend_tokens_agree r → lend_tokens_agree r'.
Proof. intros He%loans_update_Ok. apply agree_maps. unfold market_maps. by rewrite He. Qed.
Lemma agree_force o a m r u r' :
  lend_tokens_agree r → force_update_market o a m r = Ok (u, r') → lend_tokens_agree r'.
Proof.
  intros Hg Hr. unfold force_update_market, ensure_update_origin in Hr.
  do 2 (apply M_bind_Ok in Hr as (? & ? & [_ ->]%ensureM_Ok & Hr)).
  apply M_bind_Ok in Hr as (known & ? & [-> ->]%gets_Ok & Hr). apply M_bind_Ok in Hr as (? & ? & [Hk ->]%ensureM_Ok & Hr).
  apply M_bind_Ok in Hr as ([] & r1 & Hu%loans_update_Ok & Hr). apply M_bind_Ok in Hr as (m' & r2 & Hm & Hr).
  apply mutate_market_Ok in Hm as (stored & Hs & [= <-] & Hm). apply agree_event in Hr; [done |].
  apply (agree_new r a m Hg); [| by rewrite Hm, Hu..].
  intros b Hb. rewrite Hb in Hk. by apply bool_decide_eq_true in Hk.
Qed.

Lemma agree_dispatch o c r u r' :
  lend_tokens_agree r → loans_dispatch o c r = Ok (u, r') → lend_tokens_agree r'.
Proof.
  intros Hg. destruct (market_call c) eqn:Hc; [| intros Hr; by eapply agree_maps; [eapply maps_dispatch |]].
  destruct c; try discriminate Hc; cbn [loans_dispatch]; intros Hr.
  - by eapply agree_add_market.
  - unfold activate_market, ensure_update_origin in Hr. apply M_bind_Ok in Hr as (? & ? & [_ ->]%ensureM_Ok & Hr).
    apply M_bind_Ok in Hr as (m & r1 & Hm & Hr). eapply agree_event; [exact Hr |].
    eapply agree_mutate; [| exact Hg | exact Hm]. cbn. intros n n' Hn. destruct (state n); by simplify_eq.
  - unfold update_rate_model, ensure_update_origin in Hr. do 2 (apply M_bind_Ok in Hr as (? & ? & [_ ->]%ensureM_Ok & Hr)).
    apply M_bind_Ok in Hr as (m & r1 & Hm & Hr). eapply agree_event; [exact Hr |].
    eapply agree_mutate; [| exact Hg | exact Hm]. by intros n n' [= <-].
  - unfold update_market, ensure_update_origin in Hr. apply M_bind_Ok in Hr as (? & ? & [_ ->]%ensureM_Ok & Hr).
    apply M_bind_Ok in Hr as (? & ? & [_ ->]%query_Ok & Hr). cbv zeta in Hr.
    do 2 (apply M_bind_Ok in Hr as (? & ? & [_ ->]%ensureM_Ok & Hr)).
    apply M_bind_Ok in Hr as (m & r1 & Hm & Hr). eapply agree_event; [exact Hr |].
    eapply agree_mutate; [| exact Hg | exact Hm]. by intros n n' [= <-].
  - by eapply agree_force.
Qed.
End markets.
