(* ===== verification/LoansDeposits.v ===== *)
(** * Deposited collateral is reserved

    The lend tokens an account has deposited as collateral are reserved on it:
    each extrinsic of the loans pallet changes the two by the same amount.  A
    liquidation takes them from the borrower in two writes, in the currency the
    conversion returns and in that of the market; the maps of the markets agree,
    so these are the same. *)

From coqutil Require Import Byte.
From Stdlib Require Import ZArith Lia.
From stdpp Require Import base tactics option list numbers gmap relations.
From S2P Require Import Prelude Bytes Security Primitives FixedPoint Tokens Amount BridgeStores LoansStore Bridge Oracle LoansRate Loans LoansProps LoansStep.

Local Open Scope Z_scope.

Section deposits.
Context `{LoansEnv} (c : CurrencyId.t) (x : AccountId).
Import LoansStore Interest Farming LendTokens Loans Lending LoansCalls CurrencyConvert.

Definition deposit_of (r : Runtime) : Z := default 0 (AccountDeposits (rt_loans r) !! (c, x)).
(** What is reserved beyond the deposited collateral. *)
Definition excess (r : Runtime) : Z := reserved_balance c x (rt_tokens r) - deposit_of r.

Lemma excess_update f : (∀ s, AccountDeposits (f s) = AccountDeposits s) → keeps excess (update f).
Proof.
  intros Hf r u r' Hr. pose proof (loans_update_Ok _ _ _ _ Hr) as Hl. apply modify_Ok in Hr as ->. unfold excess, deposit_of.
  rewrite Hl, Hf. done.
Qed.
Lemma excess_event e : keeps excess (deposit_event e).
Proof. by apply excess_update. Qed.
Lemma excess_notify a : keeps excess (notify_exchange_rate_change a).
Proof.
  intros r u r' Hr. pose proof (notify_loans _ _ _ _ Hr) as Hl. apply notify_frame in Hr. injection Hr as Ht _ _ _ _ _ _ _ _.
  unfold excess, deposit_of. by rewrite Hl, Ht.
Qed.
Lemma excess_transfer a y z : keeps excess (on_tokens (Amount.transfer a y z)).
Proof.
  intros r u r' (l & [_ Hm _]%Amount.transfer_Ok & ->)%on_tokens_Ok. unfold excess, deposit_of. cbn. rewrite Hm. lia.
Qed.
Lemma excess_mint a y : keeps excess (on_tokens (Amount.mint_to a y)).
Proof.
  intros r u r' (l & [_ Hm _]%Amount.mint_to_Ok & ->)%on_tokens_Ok. unfold excess, deposit_of. cbn. rewrite Hm. lia.
Qed.

(** Writing the deposit of [y]. *)
Lemma deposit_put a y v (r r' : Runtime) :
  rt_loans r' = with_AccountDeposits <[(a, y) := v]> (rt_loans r) →
  deposit_of r' = deposit_of r + at_balance a c y x (v - default 0 (AccountDeposits (rt_loans r) !! (a, y))).
Proof.
  intros Hl. unfold deposit_of, at_balance. rewrite Hl. cbn. case_decide as Hd.
  - destruct Hd as [-> ->]. rewrite lookup_insert_eq. cbn. lia.
  - rewrite lookup_insert_ne by (by intros [= -> ->]; destruct Hd). lia.
Qed.
Lemma deposit_delete a y (r r' : Runtime) :
  rt_loans r' = with_AccountDeposits (delete (a, y)) (rt_loans r) →
  deposit_of r' = deposit_of r + at_balance a c y x (- default 0 (AccountDeposits (rt_loans r) !! (a, y))).
Proof.
  intros Hl. unfold deposit_of, at_balance. rewrite Hl. cbn. case_decide as Hd.
  - destruct Hd as [-> ->]. rewrite lookup_delete_eq. cbn. lia.
  - rewrite lookup_delete_ne by (by intros [= -> ->]; destruct Hd). lia.
Qed.
Lemma update_tokens f r u r' : update f r = Ok (u, r') → rt_tokens r' = rt_tokens r.
Proof. by intros ->%modify_Ok. Qed.

Lemma decrease_deposit_Ok a y r u r' :
  decrease_deposit a y r = Ok (u, r') →
  rt_tokens r' = rt_tokens r ∧ deposit_of r' = deposit_of r - at_balance (Amount.currency a) c y x (Amount.amount a).
Proof.
  intros Hr. unfold decrease_deposit in Hr. cbv zeta in Hr. apply M_bind_Ok in Hr as (d & r1 & [-> ->]%gets_Ok & Hr).
  apply M_bind_Ok in Hr as (v & r1 & [[-> Hle]%ok_or_Ok%checked_sub_Some ->]%lift_Ok & Hr).
  split; [by eapply update_tokens |]. apply loans_update_Ok in Hr.
  destruct (Z.eqb_spec (default 0 (AccountDeposits (rt_loans r) !! (Amount.currency a, y)) - Amount.amount a) 0) as [Hz | Hz].
  - apply deposit_delete in Hr. rewrite Hr. unfold at_balance. case_decide; lia.
  - apply deposit_put in Hr. rewrite Hr. unfold at_balance. case_decide; lia.
Qed.
Lemma excess_deposit y a : keeps excess (do_deposit_collateral y a).
Proof.
  intros r u r' Hr. unfold do_deposit_collateral in Hr.
  do 2 (apply M_bind_Ok in Hr as (? & ? & [_ ->]%query_Ok & Hr)).
  apply M_bind_Ok in Hr as ([] & r1 & (l & [_ Hm _]%Amount.lock_on_Ok & ->)%on_tokens_Ok & Hr).
  apply M_bind_Ok in Hr as (d & r2 & [-> ->]%gets_Ok & Hr).
  apply M_bind_Ok in Hr as (d' & r2 & [(_ & _ & Hv & _)%Amount.checked_add_Ok ->]%lift_Ok & Hr).
  apply M_bind_Ok in Hr as ([] & r2 & Hu & Hr). rewrite (excess_event _ _ _ _ Hr).
  pose proof (update_tokens _ _ _ _ Hu) as Ht. apply loans_update_Ok, deposit_put in Hu. unfold excess.
  rewrite Hu, Ht. cbn. rewrite Hm, Hv. unfold account_deposits. cbn. unfold deposit_of, at_balance. cbn. case_decide; lia.
Qed.
Lemma excess_unlock y a : keeps excess (on_tokens (Amount.unlock_on a y);; decrease_deposit a y).
Proof.
  intros r u r' Hr. apply M_bind_Ok in Hr as ([] & r1 & (l & [_ Hm _]%Amount.unlock_on_Ok & ->)%on_tokens_Ok & Hr).
  apply decrease_deposit_Ok in Hr as [Ht Hd]. unfold excess. rewrite Ht, Hd. cbn. rewrite Hm. unfold deposit_of. cbn. lia.
Qed.
Lemma excess_burn y a : keeps excess (on_tokens (Amount.lock_on a y);; tokens_burn a y).
Proof.
  intros r u r' Hr. apply M_bind_Ok in Hr as ([] & r1 & (l & [_ Hm _]%Amount.lock_on_Ok & ->)%on_tokens_Ok & Hr).
  assert (excess r' = excess (with_tokens (λ _, l) r) - at_balance (Amount.currency a) c y x (Amount.amount a)) as ->.
  - unfold tokens_burn in Hr. destruct (Amount.is_zero a) eqn:Hz.
    + apply Z.eqb_eq in Hz. injection Hr as <- <-. rewrite Hz. unfold at_balance. case_decide; lia.
    + apply M_bind_Ok in Hr as ([] & r2 & Hs & Hr). 
      apply (k_on_slash excess (λ f Hf _ _, excess_update f Hf)) in Hs as <-.
      apply on_tokens_Ok in Hr as (l' & [_ Hm' _]%Amount.burn_from_Ok & ->). unfold excess, deposit_of. cbn. rewrite Hm'. lia.
  - unfold excess, deposit_of. cbn. rewrite Hm. lia.
Qed.

(** ** Liquidation *)

(** In a state where the maps of the markets agree. *)
Definition safe {A} (m : B A) : Prop :=
  ∀ r a r', lend_tokens_agree r → m r = Ok (a, r') → excess r' = excess r ∧ lend_tokens_agree r'.
Lemma safe_bind {A C} (m : B A) (k : A → B C) : safe m → (∀ a, safe (k a)) → safe (m ≫= k).
Proof.
  intros Hm Hk r a r' Hg Hr. apply M_bind_Ok in Hr as (y & r1 & Hy & Hr). apply Hm in Hy as [He Hg1]; [| done].
  apply Hk in Hr as [He' Hg']; [| done]. split; [congruence | done].
Qed.
Lemma safe_keeps {A} (m : B A) : keeps excess m → keeps market_maps m → safe m.
Proof. intros He Hm r a r' Hg Hr. split; [by eapply He | by eapply agree_maps; [eapply Hm |]]. Qed.

(** The lend tokens of a market are in the currency the market has. *)
Lemma to_lend_token_currency u r v r' l :
  lend_tokens_agree r → lend_token_id (Amount.currency u) r = Ok l → to_lend_token u r = Ok (v, r') →
  Amount.currency v = l.
Proof.
  intros Hg Hl Hr. unfold to_lend_token in Hr. apply M_bind_Ok in Hr as (l' & r1 & [Hl' ->]%query_Ok & Hr).
  rewrite Hl in Hl'. injection Hl' as <-.
  assert (underlying_id l r = Ok (Amount.currency u)) as Hu.
  { unfold lend_token_id, market in Hl. destruct (Markets (rt_loans r) !! Amount.currency u) as [m |] eqn:Hm; [| done].
    injection Hl as <-. unfold underlying_id. by rewrite (Hg _ _ Hm). }
  assert (∀ w r2 v' r3, Amount.currency w = Amount.currency u → market_maps r2 = market_maps r →
            recompute_collateral_amount w r2 = Ok (v', r3) → Amount.currency v' = l) as Hcol.
  { intros w r2 v' r3 Hw Hmaps Hc. unfold recompute_collateral_amount in Hc.
    apply M_bind_Ok in Hc as (? & ? & [_ ->]%query_Ok & Hc). apply M_bind_Ok in Hc as ([] & r4 & Ha & Hc).
    apply (k_accrue market_maps) in Ha; [| intros; by apply maps_update | apply maps_notify].
    apply M_bind_Ok in Hc as (? & ? & [_ ->]%query_Ok & Hc). apply M_bind_Ok in Hc as (l' & ? & [Hl' ->]%query_Ok & Hc).
    apply M_bind_Ok in Hc as (? & ? & [_ ->]%lift_Ok & [= <- <-]). cbn.
    rewrite Hw in Hl'. unfold lend_token_id, market in Hl', Hl. rewrite Hmaps in Ha. injection Ha as Ha _.
    rewrite Ha, Hl in Hl'. by injection Hl' as ->. }
  unfold convert_to in Hr. cbn [Oracle.underlying_id Oracle.recompute_underlying_amount Oracle.recompute_collateral_amount loans_api] in Hr.
  assert (∀ w d r2 z r3, query (Oracle.convert w d) r2 = Ok (z, r3) → r3 = r2 ∧ Amount.currency z = d) as Hconv.
  { intros w d r2 z r3 [Hc ->]%query_Ok. split; [done |]. unfold Oracle.convert in Hc. by apply bind_Ok in Hc as (? & _ & [= <-]). }
  destruct (CurrencyId.is_lend_token (Amount.currency u)), (CurrencyId.is_lend_token l); cbn [andb] in Hr.
  - apply M_bind_Ok in Hr as (u' & ? & [Hu' ->]%query_Ok & Hr). rewrite Hu in Hu'. injection Hu' as <-.
    apply M_bind_Ok in Hr as (w & r2 & Hw & Hr).
    apply (k_underlying market_maps) in Hw; [| intros; by apply maps_update | apply maps_notify].
    apply M_bind_Ok in Hr as (z & r3 & [-> Hz]%Hconv & Hr). by eapply Hcol.
  - apply M_bind_Ok in Hr as (w & r2 & _ & Hr). by apply Hconv in Hr as [_ ->].
  - apply M_bind_Ok in Hr as (u' & ? & [Hu' ->]%query_Ok & Hr). rewrite Hu in Hu'. injection Hu' as <-.
    apply M_bind_Ok in Hr as (z & r3 & [-> Hz]%Hconv & Hr). by eapply Hcol.
  - by apply Hconv in Hr as [_ ->].
Qed.

Lemma excess_seize l v y :
  Amount.currency v = l → keeps excess (decrease_deposit (Amount.new (Amount.amount v) l) y;; on_tokens (Amount.unlock_on v y)).
Proof.
  intros Hl r u r' Hr. apply M_bind_Ok in Hr as ([] & r1 & Hd & Hr). apply decrease_deposit_Ok in Hd as [Ht Hd].
  apply on_tokens_Ok in Hr as (k & [_ Hm _]%Amount.unlock_on_Ok & ->). unfold excess, deposit_of in *. cbn in *.
  rewrite Hm, Hd, Ht, Hl. lia.
Qed.

Definition excess_quiet f (Hf : ∀ s, AccountDeposits (f s) = AccountDeposits s)
  (_ : ∀ s, Markets (f s) = Markets s) (_ : ∀ s, UnderlyingAssetId (f s) = UnderlyingAssetId s) :
  keeps excess (update f) := excess_update f Hf.
Definition maps_quiet f (_ : ∀ s, AccountDeposits (f s) = AccountDeposits s)
  (Hm : ∀ s, Markets (f s) = Markets s) (Hu : ∀ s, UnderlyingAssetId (f s) = UnderlyingAssetId s) :
  keeps market_maps (update f) := maps_update f Hm Hu.

Lemma safe_seize u y {C} (k : Amount.t → B C) :
  (∀ v, safe (k v)) →
  safe (l ← query (lend_token_id (Amount.currency u)); v ← to_lend_token u;
        decrease_deposit (Amount.new (Amount.amount v) l) y;; on_tokens (Amount.unlock_on v y);; k v).
Proof.
  intros Hk r a r' Hg Hr. apply M_bind_Ok in Hr as (l & ? & [Hl ->]%query_Ok & Hr).
  apply M_bind_Ok in Hr as (v & r1 & Hv & Hr). pose proof (to_lend_token_currency _ _ _ _ _ Hg Hl Hv) as Hc.
  assert (safe (to_lend_token u)) as Hs.
  { apply safe_keeps; [apply k_lend_token; [exact excess_quiet | exact excess_notify]
                      | apply k_lend_token; [exact maps_quiet | exact maps_notify]]. }
  apply Hs in Hv as [He Hg1]; [| done].
  apply M_bind_Ok in Hr as ([] & r2 & Hd & Hr). apply M_bind_Ok in Hr as ([] & r3 & Hu & Hr).
  assert ((decrease_deposit (Amount.new (Amount.amount v) l) y;; on_tokens (Amount.unlock_on v y)) r1 = Ok (tt, r3)) as Hp
    by (apply M_bind_Ok; eauto).
  apply excess_seize in Hp; [| done]. pose proof (agree_maps r1 r2 (maps_decrease _ _ _ _ _ Hd) Hg1) as Hg2.
  pose proof (agree_maps r2 r3 (maps_tokens _ _ _ _ Hu) Hg2) as Hg3.
  apply Hk in Hr as [He' Hg']; [| done]. split; [congruence | done].
Qed.

Ltac both l :=
  apply safe_keeps; [eapply l; first [exact excess_quiet | exact excess_notify | exact excess_transfer | exact excess_deposit]
                    | eapply l; first [exact maps_quiet | exact maps_notify | intros; apply maps_tokens | exact maps_deposit]].
Lemma safe_update f :
  (∀ s, AccountDeposits (f s) = AccountDeposits s) → (∀ s, Markets (f s) = Markets s) →
  (∀ s, UnderlyingAssetId (f s) = UnderlyingAssetId s) → safe (update f).
Proof. intros Hd Hm Hu. apply safe_keeps; [by apply excess_update | by apply maps_update]. Qed.
Lemma safe_read {A} (f : Runtime → outcome BError A) : safe (query f).
Proof. apply safe_keeps; apply keeps_query. Qed.
Lemma safe_lift {A} (f : outcome BError A) : safe (lift f).
Proof. apply safe_keeps; apply keeps_lift. Qed.
Lemma safe_gets {A} (f : Runtime → A) : safe (gets f).
Proof. apply safe_keeps; apply keeps_gets. Qed.
Lemma safe_ensure b e : safe (ensureM b e).
Proof. apply safe_keeps; apply keeps_ensure. Qed.

Ltac safe :=
  repeat lazymatch goal with
  | |- safe (l ← query (lend_token_id _); v ← to_lend_token _; decrease_deposit _ _;; _) => apply safe_seize; intro
  | |- safe (_ ≫= _) => apply safe_bind; [| intro]
  | |- safe (update _) => apply safe_update; reflexivity
  | |- safe (query _) => apply safe_read
  | |- safe (lift _) => apply safe_lift
  | |- safe (gets _) => apply safe_gets
  | |- safe (ensureM _ _) => apply safe_ensure
  | |- safe (update_reward_supply_index _) => both k_supply_index
  | |- safe (update_reward_borrow_index _) => both k_borrow_index
  | |- safe (distribute_supplier_reward _ _) => both k_supplier
  | |- safe (distribute_borrower_reward _ _) => both k_borrower
  | |- safe (tokens_transfer _ _ _) => both k_tokens_transfer
  | |- safe (accrue_interest _) => both k_accrue
  | |- safe (to_underlying _) => both k_to_underlying
  | |- safe (get_asset_value _) => both k_asset_value
  | |- safe (CurrencyConvert.convert_to _ _) => both k_convert
  | |- safe (liquidate_borrow_allowed _ _ _) => both k_liquidate_allowed
  end.

Lemma safe_liquidated y z a b m : safe (liquidated_transfer y z a b m).
Proof.
  unfold liquidated_transfer, put_account_borrows, put_total_borrows, deposit_event. cbv zeta. safe.
Qed.
Lemma safe_liquidate_borrow o y a v b : safe (liquidate_borrow o y a v b).
Proof.
  unfold liquidate_borrow, do_liquidate_borrow. cbv zeta. safe; apply safe_liquidated.
Qed.

(** The extrinsics on the markets write neither tokens nor deposits. *)
Lemma excess_market_call o k : market_call k = true → keeps excess (loans_dispatch o k).
Proof.
  destruct k; intros Hk; try discriminate Hk; cbn [loans_dispatch];
    unfold add_market, activate_market, update_rate_model, update_market, force_update_market, mutate_market,
      ensure_update_origin, deposit_event;
    repeat lazymatch goal with
           | |- keeps _ (update _) => apply excess_update; reflexivity
           | _ => keeps_step
           end.
Qed.
Lemma safe_dispatch o k : safe (loans_dispatch o k).
Proof.
  destruct (liquidation_call k) eqn:Hl; [destruct k; try discriminate Hl; apply safe_liquidate_borrow |].
  intros r u r' Hg Hr. split; [| by eapply agree_dispatch].
  destruct (market_call k) eqn:Hk; [by eapply excess_market_call |].
  apply (o_dispatch excess excess_quiet excess_notify excess_transfer excess_mint excess_deposit) in Hr;
    [done | intros; apply excess_unlock | intros; apply excess_burn | done | done].
Qed.
Lemma safe_steps r r' :
  lend_tokens_agree r → rtc loans_step r r' → excess r' = excess r ∧ lend_tokens_agree r'.
Proof.
  intros Hg Hs. induction Hs as [r | r r1 r' Hstep _ IH]; [done |].
  assert (excess r1 = excess r ∧ lend_tokens_agree r1) as [He Hg1].
  { destruct Hstep as [o k r1 Hr | a y z r1 Hr | f | now block]; [by eapply safe_dispatch | | done | done].
    assert (safe (tokens_transfer a y z)) as Hs by safe. by eapply Hs. }
  destruct (IH Hg1). split; [congruence | done].
Qed.
End deposits.

(** A chain on which no market has been made yet. *)
Record loans_genesis `{LoansEnv} (r : Runtime) : Prop := {
  genesis_markets : LoansStore.Markets (rt_loans r) = ∅;
  genesis_deposits : LoansStore.AccountDeposits (rt_loans r) = ∅;
}.

(** C10: in every state the lending market reaches from its genesis, the collateral an
    account has deposited in a lend token is what has been reserved on it since: every
    extrinsic changes the two alike, liquidation included, and no transfer of tokens
    touches them.  So deposited collateral is always there to be seized, and no account
    spends lend tokens that back its debts. *)
Theorem deposits_are_reserved `{LoansEnv} c x r0 r :
  loans_genesis r0 → rtc loans_step r0 r →
  reserved_balance c x (rt_tokens r) = reserved_balance c x (rt_tokens r0) + deposit_of c x r.
Proof.
  intros [Hm Hd] Hs. apply (safe_steps c x) in Hs as [He _]; [| intros a m Ha; by rewrite Hm in Ha].
  unfold excess in He. assert (deposit_of c x r0 = 0) as Hz by (unfold deposit_of; by rewrite Hd). lia.
Qed.
(** C13: in every state the lending market reaches from its genesis the two maps agree: the
    lend token of a market is mapped to the market, so no two markets share one. *)
Theorem markets_have_own_lend_token `{LoansEnv} r0 r a m a' m' :
  loans_genesis r0 → rtc loans_step r0 r →
  LoansStore.Markets (rt_loans r) !! a = Some m → LoansStore.Markets (rt_loans r) !! a' = Some m' →
  Interest.underlying_id (LoansStore.lend_token_id m) r = Ok a ∧
  (LoansStore.lend_token_id m = LoansStore.lend_token_id m' → a = a').
Proof.
  intros [Hm0 Hd] Hs Ha Ha'. apply (safe_steps a []) in Hs as [_ Hg]; [| intros b n Hb; by rewrite Hm0 in Hb].
  pose proof (Hg _ _ Ha) as Hu. unfold Interest.underlying_id. rewrite Hu. split; [done |].
  intros He. apply Hg in Ha'. rewrite <- He, Hu in Ha'. by injection Ha'.
Qed.
