(* ===== verification/BridgeExamples.v ===== *)
(** * A run of the bridge

    A concrete environment — the ledger of finite maps, floor division, toy
    hashes and keys, no lending market — and a run through the extrinsics: a
    vault registers, a user issues tokens with a proven bitcoin payment, redeems
    part of them, and the vault is liquidated when the price moves.  The
    witnesses of the theorems on the bridge are read off this run. *)

From coqutil Require Import Byte.
From Stdlib Require Import ZArith Lia.
From stdpp Require Import base tactics option list numbers gmap relations.
From S2P Require Import Prelude Bytes BtcTypes BtcFormat BtcMerkle BtcMerkleTree BtcMerkleProofs BtcBuild Security Relay RelayVerify RelayInclusion Primitives FixedPoint Reward Staking Tokens Amount BridgeStores LoansStore Bridge Oracle Fee Registry Collateral Nomination VaultRegistry Issue Redeem Replace BridgeLaws BridgeStep BridgeProps CollateralProps.

Local Open Scope Z_scope.

(** ** The environment *)

#[local] Existing Instances toy_sha256 floor_fixed floor_rational MapLedger.map_ledger.

(** A key is tweaked by appending the secret; its hash is its last twenty bytes. *)
#[local] Instance toy_curve : Curve := {|
  Secp256k1Error := Empty_set;
  mul_public_key key secret := inr (key ++ secret);
  hash160 b := take 20 (rev b ++ replicate 20 (u8 0));
|}.

Section iter.
Context (K : Type) `{Countable K}.
#[program] Definition list_iter : StorageIter K := {| storage_iter A m := map_to_list m |}.
Next Obligation. done. Qed.
End iter.

Definition DOT : CurrencyId.t := CurrencyId.Token TokenSymbol.DOT.
Definition IBTC : CurrencyId.t := CurrencyId.Token TokenSymbol.IBTC.
Definition INTR : CurrencyId.t := CurrencyId.Token TokenSymbol.INTR.

Definition mul_int_floor (a n : Z) : option Z := checked 32 (a * n / DIV).
Lemma mul_int_floor_within a n c : mul_int_floor a n = Some c → fits 32 c ∧ Z.abs (c * DIV - a * n) < DIV.
Proof. intros [-> Hf]%checked_Some. split; [done |]. by apply floor_within. Qed.

#[export] Instance toy_bridge : bridge_env := {|
  env_signed := floor_fixed;
  env_rational := floor_rational;
  env_tokens := MapLedger.map_ledger;
  env_sha := toy_sha256;
  env_curve := toy_curve;
  env_vault_iter := list_iter VaultId;
  env_oracle_iter := list_iter OracleKey;
  currency_le c d := Pos.le (encode c) (encode d);
  env_currency_le_dec c d := decide (encode c ≤ encode d)%positive;
  checked_mul_int_u32 := mul_int_floor;
  checked_mul_int_within := mul_int_floor_within;
  GetNativeCurrencyId := INTR;
  GetWrappedCurrencyId := IBTC;
  GetGriefingCollateralCurrencyId := INTR;
  MaxExpectedValue := DIV;
  MaxCapacityCurrencies := 10;
  MaxVaultCurrencies := 10;
  ParachainBlocksPerBitcoinBlock := 50;
  fee_pool_account_id := [u8 201];
  liquidation_vault_account_id := [u8 202];
  treasury_account_id := [u8 203];
  sweep_account_id := [u8 204];
|}.

(** No currency is a lend token with a market. *)
#[export] Instance no_market : LoansApi.
Proof.
  refine {|
    recompute_underlying_amount _ := fail BadOrigin;
    recompute_collateral_amount _ := fail BadOrigin;
    underlying_id _ _ := Err BadOrigin;
    loans_on_exchange_rate_change _ := mret tt;
  |}; try done; intros; keeps.
Defined.

(** ** The run *)

Definition ALICE : AccountId := [u8 1].
Definition BOB : AccountId := [u8 2].
Definition PAIR : VaultCurrencyPair := mkPair DOT IBTC.
Definition VAULT : VaultId := vault_id_new ALICE DOT IBTC.
Definition percent (n : Z) : Z := n * DIV / 100.

(** One satoshi is two units of DOT and one of INTR. *)
Definition prices (dot : Z) : gmap OracleKey Z :=
  {[ExchangeRate DOT := dot * DIV; ExchangeRate INTR := DIV; FeeEstimation := DIV]}.
Definition start_oracle : OracleStore.Storage :=
  OracleStore.with_Aggregate (λ _, prices 2) OracleStore.empty_storage.
Definition start_fee : FeeStore.Storage :=
  FeeStore.mkStorage (percent 1) (percent 1) (percent 1) (percent 5) (percent 10) (percent 10) ∅.
Definition start_registry : RegistryStore.Storage :=
  RegistryStore.mkStorage {[DOT := 100]} 10 {[PAIR := 1000000]} {[PAIR := percent 200]}
    {[PAIR := percent 150]} {[PAIR := percent 120]} ∅ ∅ ∅ ∅ [].
Definition start_tokens : MapLedger.t :=
  MapLedger.mkLedger {[(DOT, ALICE) := 100000; (INTR, ALICE) := 5000; (INTR, BOB) := 5000]} ∅
    {[DOT := 100000; INTR := 10000]}.

Definition start : Runtime :=
  mkRuntime start_tokens (Relay.with_BestBlockHeight 110 relay_storage) start_oracle start_fee Reward.empty_storage Reward.empty_storage
    Staking.empty_storage start_registry NominationStore.empty_storage
    (IssueStore.with_IssuePeriod (λ _, 100) IssueStore.empty_storage)
    (RedeemStore.with_RedeemTransactionSize (λ _, 50) (RedeemStore.with_RedeemPeriod (λ _, 100) RedeemStore.empty_storage))
    (ReplaceStore.with_ReplacePeriod (λ _, 100) ReplaceStore.empty_storage) LoansStore.empty_storage 1000 (replicate 32 (u8 9)) 0.

Definition run (o : Origin) (c : Call.t) (r : Runtime) : Runtime :=
  match dispatch o c r with Ok (_, r') => r' | _ => r end.

(** A block with a payment, between a coinbase and another transaction. *)
Definition payment (value : Z) (address : Address) : Transaction :=
  mkTransaction 2
    [mkTransactionInput (FromOutput (toy_id 9) 0) [] 5 []]
    [mkTransactionOutput value (mkScript (enc_script_pub_key address))] (BlockHeight 0).
Definition block_root_of (tx : Transaction) : H256Le :=
  match builder_compute_merkle_root (mkBlock toy_header [toy_coinbase; tx; toy_tx 30]) with
  | Ok r => r
  | _ => H256.zero
  end.
Definition block_of (tx : Transaction) : Block :=
  mkBlock (mkBlockHeader (block_root_of tx) 0 0 4 (toy_id 1) (toy_id 2) 0) [toy_coinbase; tx; toy_tx 30].
Definition proof_of (block : Block) (tx : Transaction) : PartialTransactionProof :=
  mkPartialTransactionProof tx 200
    match block_merkle_proof block [txid tx] with
    | Ok p => p
    | _ => mkMerkleProof (header block) [] 0 []
    end.
Definition full_proof (tx : Transaction) : FullTransactionProof :=
  mkFullTransactionProof (proof_of (block_of tx) tx) (proof_of (block_of tx) toy_coinbase).
(** The relay learns this block. *)
Definition mine (tx : Transaction) (r : Runtime) : Runtime :=
  with_relay (Relay.with_BlockHeaders (λ _, {[toy_id 1 := mkRich (header (block_of tx)) 100 0 10]})) r.

Definition first_key {A} (m : gmap (list byte) A) : list byte :=
  match map_to_list m with (k, _) :: _ => k | [] => [] end.
Definition issue_id (r : Runtime) : list byte := first_key (IssueStore.IssueRequests (rt_issue r)).
Definition deposit_address (r : Runtime) : Address :=
  match IssueStore.IssueRequests (rt_issue r) !! issue_id r with
  | Some q => issue_btc_address q
  | None => P2WPKHv0 []
  end.

Definition with_key : Runtime := run (Signed ALICE) (Call.register_public_key (replicate 33 (u8 3))) start.
Definition registered : Runtime := run (Signed ALICE) (Call.register_vault PAIR 50000) with_key.
Definition requested : Runtime := run (Signed BOB) (Call.request_issue 10000 VAULT INTR) registered.
Definition paid : Runtime := mine (payment 10000 (deposit_address requested)) requested.
Definition issued : Runtime :=
  run (Signed BOB) (Call.execute_issue (issue_id requested) (full_proof (payment 10000 (deposit_address requested)))) paid.
Definition redeeming : Runtime :=
  run (Signed BOB) (Call.request_redeem 5000 (P2WPKHv0 (replicate 20 (u8 8))) VAULT) issued.

(** ** The run is one of [step]s *)

Lemma gains_size {A} (m m' : gmap (list byte) A) : (size m < size m')%nat → gains m m'.
Proof.
  intros Hs. destruct (decide (m' ∖ m = ∅)) as [He | Hne].
  - exfalso. assert (dom m' ⊆ dom m) as Hd.
    { intros k. rewrite !elem_of_dom. intros [x Hx]. destruct (m !! k) eqn:Hk; [done |].
      assert ((m' ∖ m) !! k = Some x) as Hx' by by apply lookup_difference_Some.
      by rewrite He, lookup_empty in Hx'. }
    apply subseteq_size in Hd. rewrite !size_dom in Hd. lia.
  - apply map_choose in Hne as (k & x & [Hx Hk]%lookup_difference_Some). exists k. eauto.
Qed.

(** An extrinsic that ends well, and one more request when it makes one. *)
Definition more_requests (c : Call.t) (r r' : Runtime) : bool :=
  match c with
  | Call.request_issue _ _ _ =>
      (size (IssueStore.IssueRequests (rt_issue r)) <? size (IssueStore.IssueRequests (rt_issue r')))%nat
  | Call.request_redeem _ _ _ =>
      (size (RedeemStore.RedeemRequests (rt_redeem r)) <? size (RedeemStore.RedeemRequests (rt_redeem r')))%nat
  | Call.accept_replace _ _ _ _ _ =>
      (size (ReplaceStore.ReplaceRequests (rt_replace r)) <? size (ReplaceStore.ReplaceRequests (rt_replace r')))%nat
  | _ => true
  end.
Definition runs (o : Origin) (c : Call.t) (r : Runtime) : bool :=
  is_ok (dispatch o c r) && more_requests c r (run o c r).
Lemma run_step o c r : runs o c r = true → step r (run o c r).
Proof.
  intros [Hok Hm]%andb_true_iff. apply (step_call _ o c).
  - unfold run. by destruct (dispatch o c r) as [[[] r'] | | |].
  - revert Hm. generalize (run o c r). intros r'. destruct c; cbn [more_requests new_id]; try done;
      intros Hm; apply gains_size, Nat.ltb_lt, Hm.
Qed.
Lemma reachable_run r0 o c r : reachable r0 r → runs o c r = true → reachable r0 (run o c r).
Proof. intros [Hg Hs] Hr. split; [done |]. eapply rtc_r; [done | by apply run_step]. Qed.
Lemma reachable_mine r0 tx r : reachable r0 r → reachable r0 (mine tx r).
Proof. intros [Hg Hs]. split; [done |]. eapply rtc_r; [done | apply step_relay]. Qed.

Lemma start_genesis : genesis start.
Proof. by split. Qed.
Lemma registered_reachable : reachable start registered.
Proof.
  do 2 (apply reachable_run; [| vm_refl]). split; [apply start_genesis | apply rtc_refl].
Qed.
Lemma requested_reachable : reachable start requested.
Proof. apply reachable_run; [apply registered_reachable | vm_refl]. Qed.
Lemma issued_reachable : reachable start issued.
Proof. apply reachable_run; [apply reachable_mine, requested_reachable | vm_refl]. Qed.
Lemma redeeming_reachable : reachable start redeeming.
Proof. apply reachable_run; [apply issued_reachable | vm_refl]. Qed.

(** ** Witnesses *)

Lemma supply_is_issued_witness :
  reachable start redeeming ∧ issued_in IBTC redeeming = 10000 ∧
  total_issuance IBTC (rt_tokens redeeming) = total_issuance IBTC (rt_tokens start) + issued_in IBTC redeeming.
Proof.
  split; [exact redeeming_reachable |]. split; [vm_refl |].
  exact (supply_is_issued IBTC start redeeming redeeming_reachable).
Defined.

Lemma to_be_issued_is_pending_witness :
  reachable start requested ∧ pending_issues_in PAIR requested = 10000 ∧
  to_be_issued_in PAIR requested = pending_issues_in PAIR requested.
Proof.
  split; [exact requested_reachable |]. split; [vm_refl |].
  exact (to_be_issued_is_pending PAIR start requested requested_reachable).
Defined.

Definition vault_in (r : Runtime) : RegistryStore.Vault :=
  default (RegistryStore.vault_new VAULT) (RegistryStore.Vaults (rt_registry r) !! VAULT).
Lemma vault_in_Some r :
  bool_decide (is_Some (RegistryStore.Vaults (rt_registry r) !! VAULT)) = true →
  RegistryStore.Vaults (rt_registry r) !! VAULT = Some (vault_in r).
Proof. intros [v Hv]%bool_decide_eq_true. unfold vault_in. by rewrite Hv. Qed.

Lemma to_be_redeemed_is_pending_witness :
  reachable start redeeming ∧ RegistryStore.Vaults (rt_registry redeeming) !! VAULT = Some (vault_in redeeming) ∧
  pending_redeems_of VAULT redeeming = 4950 ∧
  RegistryStore.to_be_redeemed_tokens (vault_in redeeming) = pending_redeems_of VAULT redeeming.
Proof.
  assert (RegistryStore.Vaults (rt_registry redeeming) !! VAULT = Some (vault_in redeeming)) as Hv
    by (apply vault_in_Some; vm_refl).
  split; [exact redeeming_reachable |]. split; [exact Hv |]. split; [vm_refl |].
  exact (to_be_redeemed_is_pending VAULT (vault_in redeeming) start redeeming redeeming_reachable Hv).
Defined.

Lemma prices_fit_b r :
  forallb (λ kv : OracleKey * Z, fitsb 128 kv.2) (map_to_list (OracleStore.Aggregate (rt_oracle r))) = true →
  prices_fit r.
Proof.
  intros Hall key price Hp. rewrite forallb_forall in Hall. apply fitsb_spec, (Hall (key, price)).
  by apply list_elem_of_In, elem_of_map_to_list.
Qed.
Lemma prices_fit_start : prices_fit start.
Proof. apply prices_fit_b. vm_refl. Qed.
Lemma convert_round_trip_witness :
  Amount.wf (Amount.new 7 IBTC) ∧ prices_fit start ∧
  Oracle.convert (Amount.new 7 IBTC) DOT start = Ok (Amount.new 14 DOT) ∧
  Oracle.convert (Amount.new 14 DOT) IBTC start = Ok (Amount.new 7 IBTC) ∧
  Amount.amount (Amount.new 7 IBTC) ≤ Amount.amount (Amount.new 7 IBTC).
Proof.
  assert (Amount.wf (Amount.new 7 IBTC)) as Hw by (apply fitsb_spec; reflexivity).
  assert (Oracle.convert (Amount.new 7 IBTC) DOT start = Ok (Amount.new 14 DOT)) as H1 by vm_refl.
  assert (Oracle.convert (Amount.new 14 DOT) IBTC start = Ok (Amount.new 7 IBTC)) as H2 by vm_refl.
  split; [exact Hw |]. split; [exact prices_fit_start |]. split; [exact H1 |]. split; [exact H2 |].
  exact (proj2 (convert_round_trip (Amount.new 7 IBTC) DOT start (Amount.new 14 DOT) (Amount.new 7 IBTC)
    Hw prices_fit_start H1 H2)).
Defined.
Lemma median_honest_witness :
  Oracle.median [1000; 5; 6; 7; 1] = Some 6 ∧ 5 ≤ 6 ≤ 7.
Proof.
  assert (Oracle.median [1000; 5; 6; 7; 1] = Some 6) as Hm by vm_refl.
  split; [exact Hm |]. refine (median_honest [1000; 5; 6; 7; 1] 5 7 6 _ Hm). vm_compute. lia.
Defined.
