(* ===== verification/LoansExamples.v ===== *)
(** * A run of the lending market

    Two markets on the state of the bridge's examples: a supplier of DOT, a
    borrower who deposits INTR as collateral.  The witnesses of the theorems on
    the market are read off the run; the last theorems show rounding and a check
    that do not do what they are there for. *)

From coqutil Require Import Byte.
From Stdlib Require Import ZArith Lia.
From stdpp Require Import base tactics option list numbers gmap relations.
From S2P Require Import Prelude Bytes BtcBuild Security Relay Primitives FixedPoint Reward Staking Tokens Amount BridgeStores LoansStore Bridge Oracle LoansRate Loans LoansProps LoansStep LoansDeposits BridgeExamples.

Local Open Scope Z_scope.
#[local] Existing Instances toy_bridge no_market.

(** ** Arithmetic: powers by repeated squaring, rounding down, with saturation *)

Definition sat_mul (a b : Z) : Z := Z.min (a * b / DIV) (umax 128).
Fixpoint sat_pow (a : Z) (p : positive) : Z :=
  match p with
  | xH => a
  | xO p => let y := sat_pow a p in sat_mul y y
  | xI p => let y := sat_pow a p in sat_mul (sat_mul y y) a
  end.
Definition floor_pow (a n : Z) : Z := match n with Zpos p => sat_pow a p | _ => DIV end.

Lemma sat_mul_fits a b : fits 128 a → fits 128 b → fits 128 (sat_mul a b).
Proof.
  unfold sat_mul, umax, fits. intros Ha Hb.
  assert (0 ≤ a * b / DIV) by (apply Z.div_pos; [nia | done]). lia.
Qed.
Lemma sat_mul_ge a b : fits 128 a → DIV ≤ a → DIV ≤ b → a ≤ sat_mul a b.
Proof.
  unfold sat_mul, umax, fits. intros [Ha Ha'] _ Hb. assert (a ≤ a * b / DIV); [| lia].
  apply Z.div_le_lower_bound; [done |]. rewrite Z.mul_comm. by apply Z.mul_le_mono_nonneg_l.
Qed.
Lemma sat_mul_le a b : fits 128 a → 0 ≤ b ≤ DIV → sat_mul a b ≤ a.
Proof.
  unfold sat_mul, fits. intros [Ha _] [Hb Hb']. assert (a * b / DIV ≤ a); [| lia].
  apply Z.div_le_upper_bound; [done |]. rewrite (Z.mul_comm DIV). by apply Z.mul_le_mono_nonneg_l.
Qed.
Lemma sat_pow_fits a p : fits 128 a → fits 128 (sat_pow a p).
Proof. intros Ha. induction p; cbn; auto using sat_mul_fits. Qed.
Lemma sat_pow_ge a p : fits 128 a → DIV ≤ a → DIV ≤ sat_pow a p.
Proof.
  intros Hf Ha. induction p as [p IH | p IH |]; cbn; [| | done]; pose proof (sat_pow_fits a p Hf) as Hp;
    pose proof (sat_mul_ge _ _ Hp IH IH); [| lia].
  etransitivity; [| apply sat_mul_ge]; [lia | by apply sat_mul_fits | lia | done].
Qed.
Lemma sat_pow_le a p : fits 128 a → a ≤ DIV → sat_pow a p ≤ a.
Proof.
  intros Hf Ha. induction p as [p IH | p IH |]; cbn; [| | done]; pose proof (sat_pow_fits a p Hf) as Hp;
    assert (0 ≤ sat_pow a p ≤ DIV) as Hb by (destruct Hp; lia); pose proof (sat_mul_le _ _ Hp Hb); [| lia].
  etransitivity; [apply sat_mul_le | lia]; [by apply sat_mul_fits | destruct Hf; lia].
Qed.

#[program] Definition floor_rates : RateArith (H := floor_rational) := {|
  from_rational := ratio_floor;
  saturating_pow := floor_pow;
|}.
Next Obligation. intros a b _ _. cbn. done. Qed.
Next Obligation. intros a b _ _. cbn. unfold floor_ufixed. done. Qed.
Next Obligation. done. Qed.
Next Obligation. intros a [| p | p] Ha Hn; cbn; [done | by apply sat_pow_fits | lia]. Qed.
Next Obligation. intros a [| p | p] Hf Hn Ha; cbn; [done | by apply sat_pow_ge | lia]. Qed.
Next Obligation. intros a [| p | p] Hf Hn Ha; cbn; [done | by apply sat_pow_le | lia]. Qed.

(** ** The environment: nobody listens to the exchange rate *)
#[export] Instance toy_loans : LoansEnv.
Proof.
  refine {|
    loans_arith := floor_rates;
    market_iter := list_iter CurrencyId.t;
    loans_account_id := [u8 210];
    reward_account_id := [u8 211];
    incentive_reward_account_id := [u8 212];
    notify_exchange_rate_change _ := mret tt;
    is_reserve_origin o := match o with Root => true | _ => false end;
    is_update_origin o := match o with Root => true | _ => false end;
  |}; intros; keeps.
Defined.

(** ** The run *)

Definition percent_of (n : Z) : Z := n * MILLION / 100.
Definition lend (n : Z) : CurrencyId.t := CurrencyId.LendToken n.
(** Collateral counts for half, debts above 60% can be liquidated. *)
Definition a_market (lend_token : CurrencyId.t) : LoansStore.Market :=
  LoansStore.mkMarket (percent_of 50) (percent_of 60) (percent_of 15) (percent_of 50) (11 * DIV / 10) (percent_of 3)
    InterestRate.default_model LoansStore.Pending (10 ^ 12) (10 ^ 12) lend_token.
Definition loans_start : Runtime :=
  with_loans (λ s, LoansStore.with_MinExchangeRate (λ _, 2 * DIV / 100) (LoansStore.with_MaxExchangeRate (λ _, DIV) s))
    (with_now (λ _, 1000000) start).
Definition loans_run (o : Origin) (c : LoansCall.t) (r : Runtime) : Runtime :=
  match loans_dispatch o c r with Ok (_, r') => r' | _ => r end.
Definition loans_runs (l : list (Origin * LoansCall.t)) (r : Runtime) : Runtime :=
  fold_left (λ r oc, loans_run oc.1 oc.2 r) l r.
Fixpoint loans_all_run (l : list (Origin * LoansCall.t)) (r : Runtime) : bool :=
  match l with
  | [] => true
  | (o, c) :: l => is_ok (loans_dispatch o c r) && loans_all_run l (loans_run o c r)
  end.
Definition after (seconds blocks : Z) (r : Runtime) : Runtime :=
  with_block (λ _, rt_block r + blocks) (with_now (λ _, rt_now r + seconds * 1000) r).

Definition opening : list (Origin * LoansCall.t) :=
  [(Root, LoansCall.add_market DOT (a_market (lend 1))); (Root, LoansCall.activate_market DOT);
   (Root, LoansCall.add_market INTR (a_market (lend 2))); (Root, LoansCall.activate_market INTR);
   (Signed ALICE, LoansCall.mint DOT 50000); (Signed BOB, LoansCall.mint INTR 4000);
   (Signed BOB, LoansCall.deposit_all_collateral INTR); (Signed BOB, LoansCall.borrow DOT 3000)].
Definition borrowed : Runtime := loans_runs opening loans_start.
Definition year_later : Runtime := after SECONDS_PER_YEAR 1000 borrowed.
Definition runs_B {A} (m : B A) (r : Runtime) : Runtime := match m r with Ok (_, r') => r' | _ => r end.
Definition value_B {A} (a : A) (m : B A) (r : Runtime) : A := match m r with Ok (a, _) => a | _ => a end.
Lemma value_runs_Ok {A} (a : A) (m : B A) r : is_ok (m r) = true → m r = Ok (value_B a m r, runs_B m r).
Proof. unfold value_B, runs_B. by destruct (m r) as [[x r'] | | |]. Qed.
Lemma runs_B_Ok (m : B unit) r : is_ok (m r) = true → m r = Ok (tt, runs_B m r).
Proof. unfold runs_B. by destruct (m r) as [[[] r'] | | |]. Qed.

(** Interest accrued, then one unit of DOT redeemed. *)
Definition accrued_market : Runtime := runs_B (Interest.accrue_interest DOT) year_later.
Definition redeemed : Runtime := loans_run (Signed ALICE) (LoansCall.redeem DOT 1) accrued_market.

Lemma loans_runs_reachable l r r' :
  rtc loans_step r r' → loans_all_run l r' = true → rtc loans_step r (loans_runs l r').
Proof.
  revert r'. induction l as [| [o c] l IH]; intros r' Hr Ha; [exact Hr |].
  apply andb_true_iff in Ha as [Hc Hl]. cbn. apply IH; [| exact Hl]. eapply rtc_r; [exact Hr |].
  apply (loans_step_call _ o c). unfold loans_run. by destruct (loans_dispatch o c r') as [[[] r1] | | |].
Qed.
Lemma after_reachable r r' s b : rtc loans_step r r' → rtc loans_step r (after s b r').
Proof. intros Hr. eapply rtc_r; [exact Hr | apply loans_step_block]. Qed.
Lemma loans_start_genesis : loans_genesis loans_start.
Proof. by split. Qed.
Lemma borrowed_reachable : rtc loans_step loans_start borrowed.
Proof. apply loans_runs_reachable; [apply rtc_refl | vm_refl]. Qed.

(** ** Witnesses *)

Definition default_jump : RateModel.JumpModel :=
  RateModel.mkJumpModel (2 * DIV / 100) (10 * DIV / 100) (32 * DIV / 100) (80 * MILLION / 100).
Lemma jump_rate_bounds_witness :
  InterestRate.get_borrow_rate (RateModel.Jump default_jump) (percent_of 40) = Some (6 * DIV / 100) ∧
  RateModel.base_rate default_jump ≤ 6 * DIV / 100 ≤ RateModel.full_rate default_jump.
Proof.
  assert (InterestRate.get_borrow_rate (RateModel.Jump default_jump) (percent_of 40) = Some (6 * DIV / 100)) as Hr
    by vm_refl.
  split; [exact Hr |].
  refine (proj1 (jump_rate_bounds default_jump (percent_of 40) (6 * DIV / 100) _ _ _ _ Hr)); clear; by vm_compute.
Defined.

Lemma year_later_ok : market_ok DOT year_later.
Proof.
  split.
  - apply fitsb_spec. vm_refl.
  - apply fitsb_spec. vm_refl.
  - assert (Interest.market DOT year_later = Ok (LoansStore.with_state LoansStore.Active (a_market (lend 1)))) as Hm
      by vm_refl.
    intros m Hm'. rewrite Hm in Hm'. injection Hm' as <-. clear. by vm_compute.
Qed.
Lemma accrual_protects_suppliers_witness :
  Interest.accrue_interest DOT year_later = Ok (tt, accrued_market) ∧
  Amount.amount (Interest.total_borrows DOT year_later) = 3000 ∧
  Amount.amount (Interest.total_borrows DOT year_later) ≤ Amount.amount (Interest.total_borrows DOT accrued_market).
Proof.
  assert (Interest.accrue_interest DOT year_later = Ok (tt, accrued_market)) as Ha by (apply runs_B_Ok; vm_refl).
  split; [exact Ha |]. split; [vm_refl |].
  exact (proj1 (proj2 (proj2 (accrual_protects_suppliers DOT year_later tt accrued_market year_later_ok Ha)))).
Defined.

Definition lent : Amount.t := value_B (Amount.zero DOT) (Interest.recompute_collateral_amount (Amount.new 777 DOT)) year_later.
Definition lent_market : Runtime := runs_B (Interest.recompute_collateral_amount (Amount.new 777 DOT)) year_later.
Definition unlent_market : Runtime := runs_B (Interest.recompute_underlying_amount lent) lent_market.
Lemma lend_round_trip_witness :
  Interest.recompute_collateral_amount (Amount.new 777 DOT) year_later = Ok (lent, lent_market) ∧
  Interest.recompute_underlying_amount lent lent_market = Ok (Amount.new 776 DOT, unlent_market) ∧
  Amount.amount (Amount.new 776 DOT) ≤ 777.
Proof.
  assert (Interest.recompute_collateral_amount (Amount.new 777 DOT) year_later = Ok (lent, lent_market)) as Hc.
  { unfold lent, lent_market. exact (value_runs_Ok _ _ _ ltac:(vm_refl)). }
  assert (Interest.recompute_underlying_amount lent lent_market = Ok (Amount.new 776 DOT, unlent_market)) as Hu.
  { assert (value_B (Amount.zero DOT) (Interest.recompute_underlying_amount lent) lent_market = Amount.new 776 DOT) as <-
      by vm_refl.
    unfold unlent_market. exact (value_runs_Ok _ _ _ ltac:(vm_refl)). }
  assert (LoansStore.Markets (rt_loans year_later) !! DOT = Some (LoansStore.with_state LoansStore.Active (a_market (lend 1)))) as Hm
    by vm_refl.
  assert (LoansStore.UnderlyingAssetId (rt_loans year_later) !! lend 1 = Some DOT) as Hl by vm_refl.
  assert (fits RATE (LoansStore.MinExchangeRate (rt_loans year_later))) as Hf by (apply fitsb_spec; vm_refl).
  split; [exact Hc |]. split; [exact Hu |]. revert Hc Hu Hm Hl Hf. generalize unlent_market lent_market lent year_later.
  intros r2 r1 v r Hc Hu Hm Hl Hf.
  refine (proj1 (proj2 (proj2 (lend_round_trip (Amount.new 777 DOT) r v r1 (Amount.new 776 DOT) r2 _ _ Hf Hm Hl Hc Hu)))).
  clear. by vm_compute.
Defined.

Lemma deposits_are_reserved_witness :
  loans_genesis loans_start ∧ rtc loans_step loans_start borrowed ∧ deposit_of (lend 2) BOB borrowed = 200000 ∧
  reserved_balance (lend 2) BOB (rt_tokens borrowed) =
    reserved_balance (lend 2) BOB (rt_tokens loans_start) + deposit_of (lend 2) BOB borrowed.
Proof.
  split; [exact loans_start_genesis |]. split; [exact borrowed_reachable |]. split; [vm_refl |].
  exact (deposits_are_reserved (lend 2) BOB loans_start borrowed loans_start_genesis borrowed_reachable).
Defined.
Lemma markets_have_own_lend_token_witness :
  rtc loans_step loans_start borrowed ∧
  LoansStore.Markets (rt_loans borrowed) !! DOT = Some (LoansStore.with_state LoansStore.Active (a_market (lend 1))) ∧
  Interest.underlying_id (lend 1) borrowed = Ok DOT.
Proof.
  assert (LoansStore.Markets (rt_loans borrowed) !! DOT = Some (LoansStore.with_state LoansStore.Active (a_market (lend 1))))
    as Hm by vm_refl.
  split; [exact borrowed_reachable |]. split; [exact Hm |].
  exact (proj1 (markets_have_own_lend_token loans_start borrowed DOT _ DOT _ loans_start_genesis borrowed_reachable Hm Hm)).
Defined.

(** ** What the checks let through *)

(** Redeeming can take more than the lend tokens are worth. [redeem] burns the lend
    tokens for an amount rounded down: in a reachable state with some interest accrued, a
    supplier who redeems one unit burns 49 lend tokens worth less than it, and the exchange
    rate of everyone else's lend tokens falls. *)
Theorem redeem_lowers_exchange_rate :
  rtc loans_step loans_start year_later ∧
  Interest.accrue_interest DOT year_later = Ok (tt, accrued_market) ∧
  is_ok (loans_dispatch (Signed ALICE) (LoansCall.redeem DOT 1) accrued_market) = true ∧
  Interest.exchange_rate_stored DOT accrued_market = Ok 20027200000000000 ∧
  Interest.exchange_rate_stored DOT redeemed = Ok 20027192532973646 ∧
  total_issuance (lend 1) (rt_tokens accrued_market) - total_issuance (lend 1) (rt_tokens redeemed) = 49.
Proof.
  split; [apply after_reachable, borrowed_reachable |]. split; [| split_and!; vm_refl].
  unfold accrued_market. exact (runs_B_Ok _ _ ltac:(vm_refl)).
Qed.

(** [update_market] accepts a reserve share of the liquidation incentive of 100%: it
    checks the share that is stored, not the one it is given, and so it sets a market to a
    value that [add_market] refuses. All that a liquidator then receives of the borrower's
    collateral is the premium. *)
Theorem update_market_skips_reserved_factor :
  let unchecked := LoansCall.update_market DOT None None None None (Some MILLION) None None None in
  let updated := loans_run Root unchecked borrowed in
  is_ok (loans_dispatch Root unchecked borrowed) = true ∧
  LoansStore.liquidate_incentive_reserved_factor <$> (LoansStore.Markets (rt_loans updated) !! DOT) = Some MILLION ∧
  ∀ o asset_id m r, LoansStore.liquidate_incentive_reserved_factor m = MILLION →
    is_ok (loans_dispatch o (LoansCall.add_market asset_id m) r) = false.
Proof.
  split; [vm_refl |]. split; [vm_refl |]. intros o asset_id m r Hm. cbn [loans_dispatch].
  destruct (LoansCalls.add_market o asset_id m r) as [[[] r'] | | |] eqn:Hr; try done. exfalso.
  unfold LoansCalls.add_market, LoansCalls.ensure_update_origin in Hr. outcome_inv.
  match goal with Hv : LoansCalls.valid_factors _ _ _ _ = true |- _ =>
    unfold LoansCalls.valid_factors in Hv; rewrite Hm in Hv; change (MILLION <? MILLION) with false in Hv;
    by rewrite andb_false_r in Hv end.
Qed.
