(* ===== verification/BridgeCases.v ===== *)
(** * Runs into the corners of the bridge

    The run of the examples continued: the price moves and the vault is
    liquidated and recovered, it closes while a user overpays, and collateral is
    nominated, refunded and withdrawn.  The witnesses of the theorems on
    liquidation, collateral and blocked requests are read off these runs, and two
    of them show behaviour that the code's own comments and integrity checks
    exclude. *)

From coqutil Require Import Byte.
From Stdlib Require Import ZArith Lia.
From stdpp Require Import base tactics option list numbers gmap relations.
From S2P Require Import Prelude Bytes BtcTypes BtcFormat BtcMerkle BtcMerkleTree BtcMerkleProofs BtcBuild Security Relay RelayVerify RelayInclusion Primitives FixedPoint Reward Staking Tokens Amount BridgeStores Bridge Oracle Fee Registry Collateral Nomination VaultRegistry Issue Redeem Replace TokenWeight LiquidationSpec BridgeLaws BridgeStep VaultQueries BridgeProps CollateralProps IssueProps BridgeExamples.

Local Open Scope Z_scope.
#[local] Existing Instances toy_bridge no_market.

(** ** A price change *)

Definition CAROL : AccountId := [u8 3].
Definition begin_block (r : Runtime) : Runtime :=
  match Oracle.begin_block on_exchange_rate_change r with Ok (_, r') => r' | _ => r end.
(** An oracle feeds a new price of DOT, which the next block aggregates. *)
Definition authorized (r : Runtime) : Runtime := run Root (Call.insert_authorized_oracle CAROL []) r.
Definition feed (dot : Z) : Call.t := Call.feed_values [(ExchangeRate DOT, dot * DIV)].
Definition repriced (dot : Z) (r : Runtime) : Runtime :=
  begin_block (run (Signed CAROL) (feed dot) (authorized r)).
Definition reprices (dot : Z) (r : Runtime) : bool :=
  runs Root (Call.insert_authorized_oracle CAROL []) r && runs (Signed CAROL) (feed dot) (authorized r).

Lemma reachable_begin_block r0 r : reachable r0 r → reachable r0 (begin_block r).
Proof.
  intros Hr. unfold begin_block. destruct (Oracle.begin_block _ r) as [[v r'] | | |] eqn:Hb; try exact Hr.
  destruct Hr as [Hg Hs]. split; [done |]. eapply rtc_r; [done | by eapply step_begin_block].
Qed.
Lemma reachable_repriced r0 dot r : reachable r0 r → reprices dot r = true → reachable r0 (repriced dot r).
Proof.
  intros Hr [Ha Hf]%andb_true_iff. apply reachable_begin_block, reachable_run; [| done].
  by apply reachable_run.
Qed.

(** ** Liquidation *)

(** What the vault holds when its collateral is worth too little: 10000 issued, 4950 to be
    redeemed. *)
Definition crashed : Runtime := repriced 5 redeeming.
Lemma crashed_reachable : reachable start crashed.
Proof. apply reachable_repriced; [exact redeeming_reachable | vm_refl]. Qed.

Definition slashed_of (vid : VaultId) (r : Runtime) : Amount.t :=
  match VaultRegistry.liquidate_vault vid r with Ok (a, _) => a | _ => Amount.zero DOT end.
Definition liquidated_of (vid : VaultId) (r : Runtime) : Runtime :=
  match VaultRegistry.liquidate_vault vid r with Ok (_, r') => r' | _ => r end.
Lemma liquidated_of_Ok vid r :
  is_ok (VaultRegistry.liquidate_vault vid r) = true →
  VaultRegistry.liquidate_vault vid r = Ok (slashed_of vid r, liquidated_of vid r).
Proof. unfold slashed_of, liquidated_of. by destruct (VaultRegistry.liquidate_vault vid r) as [[a r'] | | |]. Qed.

Lemma liquidate_vault_spec_witness :
  keyed crashed ∧ RegistryStore.Vaults (rt_registry crashed) !! VAULT = Some (vault_in crashed) ∧
  VaultRegistry.liquidate_vault VAULT crashed = Ok (slashed_of VAULT crashed, liquidated_of VAULT crashed) ∧
  Amount.amount (slashed_of VAULT crashed) = 25250 ∧
  RegistryStore.sys_issued_tokens (Vaults.get_liquidation_vault PAIR (liquidated_of VAULT crashed)) = 10000.
Proof.
  pose proof (reachable_keyed _ _ crashed_reachable) as Hk.
  assert (RegistryStore.Vaults (rt_registry crashed) !! VAULT = Some (vault_in crashed)) as Hv
    by (apply vault_in_Some; vm_refl).
  assert (VaultRegistry.liquidate_vault VAULT crashed = Ok (slashed_of VAULT crashed, liquidated_of VAULT crashed)) as Hl
    by (apply liquidated_of_Ok; vm_refl).
  split; [exact Hk |]. split; [exact Hv |]. split; [exact Hl |]. split; [vm_refl |].
  destruct (liquidate_vault_spec VAULT (vault_in crashed) crashed _ _ Hk Hv Hl) as (_ & Hi & _).
  refine (eq_trans Hi _). vm_refl.
Defined.

(** ** Thresholds *)

Lemma prices_fit_registered : prices_fit registered.
Proof. apply prices_fit_b. vm_refl. Qed.

(** 50000 DOT is 25000 satoshi: more than 150% of 10000 tokens, which takes 30000 DOT. *)
Lemma threshold_agrees_witness :
  Collateral.is_collateral_below_threshold (Amount.new 50000 DOT) (Amount.new 10000 IBTC) (percent 150) registered
    = Ok (false, registered) ∧
  Collateral.get_required_collateral_for_wrapped_with_threshold (Amount.new 10000 IBTC) (percent 150) DOT registered
    = Ok (Amount.new 30000 DOT, registered) ∧
  Amount.amount (Amount.new 30000 DOT) ≤ 50000.
Proof.
  assert (Collateral.is_collateral_below_threshold (Amount.new 50000 DOT) (Amount.new 10000 IBTC) (percent 150) registered
    = Ok (false, registered)) as Hb by vm_refl.
  assert (Collateral.get_required_collateral_for_wrapped_with_threshold (Amount.new 10000 IBTC) (percent 150) DOT registered
    = Ok (Amount.new 30000 DOT, registered)) as Hr by vm_refl.
  split; [exact Hb |]. split; [exact Hr |].
  pose proof prices_fit_registered as Hp. revert Hp Hb Hr. generalize registered. intros r Hp Hb Hr.
  refine (proj1 (threshold_agrees DOT 50000 10000 (percent 150) r false (Amount.new 30000 DOT)
    r r _ _ _ _ _ Hp Hb Hr) _); clear; by vm_compute.
Defined.

Definition increased : Runtime :=
  match VaultRegistry.try_increase_to_be_issued_tokens VAULT (Amount.new 10000 IBTC) registered with
  | Ok (_, r') => r'
  | _ => registered
  end.
Lemma request_is_covered_witness :
  VaultRegistry.try_increase_to_be_issued_tokens VAULT (Amount.new 10000 IBTC) registered = Ok (tt, increased) ∧
  ∃ p, price DOT registered = Some p ∧
    (RegistryStore.issued_tokens (vault_in registered) + RegistryStore.to_be_issued_tokens (vault_in registered)
       + 10000) * p * percent 200 < (50000 + 1) * DIV * DIV + percent 200 * DIV.
Proof.
  assert (VaultRegistry.try_increase_to_be_issued_tokens VAULT (Amount.new 10000 IBTC) registered
            = Ok (tt, increased)) as Ht by vm_refl.
  assert (RegistryStore.Vaults (rt_registry registered) !! VAULT = Some (vault_in registered)) as Hv
    by (apply vault_in_Some; vm_refl).
  assert (RegistryStore.id (vault_in registered) = VAULT) as Hi by vm_refl.
  assert (Collateral.get_backing_collateral VAULT registered = Ok (Amount.new 50000 DOT)) as Hc by vm_refl.
  assert (RichVault.get_secure_threshold (vault_in registered) registered = Ok (percent 200)) as Hs by vm_refl.
  split; [exact Ht |]. pose proof prices_fit_registered as Hp. revert Hp Hc Hs Ht Hv Hi.
  generalize (vault_in registered). intros v. generalize increased registered. intros r' r Hp Hc Hs Ht Hv Hi.
  refine (request_is_covered VAULT v 10000 (Amount.new 50000 DOT) (percent 200) r tt r'
            _ _ _ Hp Hv Hi Hc _ Hs _ Ht _); clear; by vm_compute.
Defined.

(** ** Requests that cannot be executed *)

Definition pending_issue (r : Runtime) : list byte :=
  first_key (filter (λ kq : list byte * IssueRequest,
    match issue_status kq.2 with IssuePending => true | _ => false end = true)
    (IssueStore.IssueRequests (rt_issue r))).
Definition no_request : IssueRequest :=
  mkIssueRequest VAULT 0 0 0 INTR 0 0 BOB (P2WPKHv0 []) [] 0 IssueCompleted.
Definition pending_of (r : Runtime) : IssueRequest :=
  default no_request (IssueStore.IssueRequests (rt_issue r) !! pending_issue r).

(** The vault closes after the request for 10000, and the user pays 12000. *)
Definition closed : Runtime := run (Signed ALICE) (Call.accept_new_issues PAIR false) requested.
Definition payment_of_12000 : Transaction := payment 12000 (deposit_address requested).
Definition overpaid : Runtime := mine payment_of_12000 closed.

Lemma waiting_Some r :
  match IssueStore.IssueRequests (rt_issue r) !! pending_issue r with
  | Some q => match issue_status q with IssuePending => bool_decide (issue_vault q = VAULT) | _ => false end
  | None => false
  end = true →
  bool_decide (is_Some (RegistryStore.Vaults (rt_registry r) !! VAULT)) = true →
  waiting (pending_issue r) (pending_of r) (vault_in r) r.
Proof.
  intros Hq Hv%vault_in_Some. unfold waiting, pending_of.
  destruct (IssueStore.IssueRequests (rt_issue r) !! pending_issue r) as [q |] eqn:Hl; [| done].
  cbn. destruct (issue_status q); try done. apply bool_decide_eq_true in Hq. by rewrite Hq.
Qed.

Lemma overpaid_issue_blocked_witness :
  waiting (pending_issue overpaid) (pending_of overpaid) (vault_in overpaid) overpaid ∧
  expected (pending_of overpaid) = 10000 ∧
  Issue._execute_issue BOB (pending_issue overpaid) (full_proof payment_of_12000) overpaid =
    Err (ModuleError (CurrencyE CurrencyError.InvalidCurrency)).
Proof.
  assert (waiting (pending_issue overpaid) (pending_of overpaid) (vault_in overpaid) overpaid) as Hw
    by (apply waiting_Some; vm_refl).
  split; [exact Hw |]. split; [vm_refl |].
  refine (overpaid_issue_blocked BOB _ _ _ _ overpaid 12000 Hw _ _ _ _ _); by vm_compute.
Defined.

(** A second request waits when the vault is liquidated; then the vault is recovered. *)
Definition second : Runtime := run (Signed BOB) (Call.request_issue 2000 VAULT INTR) issued.
Definition reported : Runtime :=
  run (Signed BOB) (Call.report_undercollateralized_vault VAULT) (repriced 5 second).
Definition recovered : Runtime := run (Signed ALICE) (Call.recover_vault_id PAIR) reported.
Lemma reported_reachable : reachable start reported.
Proof.
  apply reachable_run; [| vm_refl]. apply reachable_repriced; [| vm_refl].
  apply reachable_run; [exact issued_reachable | vm_refl].
Qed.
Lemma recovery_strands_issue_witness :
  reachable start reported ∧ VaultRegistry.recover_vault_id (Signed ALICE) PAIR reported = Ok (tt, recovered) ∧
  expected (pending_of reported) = 2000 ∧
  RegistryStore.is_liquidated (vault_in reported) = true ∧
  (∀ requester, is_ok (Issue._cancel_issue requester (pending_issue reported) recovered) = false).
Proof.
  assert (VaultRegistry.recover_vault_id (Signed ALICE) PAIR reported = Ok (tt, recovered)) as Hr by vm_refl.
  assert (waiting (pending_issue reported) (pending_of reported) (vault_in reported) reported) as Hw
    by (apply waiting_Some; vm_refl).
  destruct (recovery_strands_issue (Signed ALICE) PAIR ALICE _ _ _ reported recovered
    (reachable_keyed _ _ reported_reachable) eq_refl Hr ltac:(vm_refl) Hw ltac:(vm_refl) ltac:(vm_compute; done))
    as (Hl & _ & Hc).
  split; [exact reported_reachable |]. split; [exact Hr |]. split; [vm_refl |]. split; [exact Hl | exact Hc].
Defined.

(** ** Collateral that is counted twice *)

Definition transferred (a : Amount.t) (x y : AccountId) (r : Runtime) : Runtime :=
  match on_tokens (Amount.transfer a x y) r with Ok (_, r') => r' | _ => r end.
Lemma reachable_transferred r0 a x y r : reachable r0 r → reachable r0 (transferred a x y r).
Proof.
  intros Hr. unfold transferred. destruct (on_tokens _ r) as [[[] r'] | | |] eqn:Ht; try exact Hr.
  destruct Hr as [Hg Hs]. split; [done |]. eapply rtc_r; [done | by eapply step_transfer].
Qed.

(** A sequence of extrinsics, and whether all of them end well. *)
Definition runs_to (l : list (Origin * Call.t)) (r : Runtime) : Runtime :=
  fold_left (λ r oc, run oc.1 oc.2 r) l r.
Fixpoint all_run (l : list (Origin * Call.t)) (r : Runtime) : bool :=
  match l with
  | [] => true
  | (o, c) :: l => runs o c r && all_run l (run o c r)
  end.
Lemma reachable_runs_to r0 l r : reachable r0 r → all_run l r = true → reachable r0 (runs_to l r).
Proof.
  revert r. induction l as [| [o c] l IH]; intros r Hr Ha; [exact Hr |].
  apply andb_true_iff in Ha as [Hc Hl]. apply IH; [| exact Hl]. by apply reachable_run.
Qed.

(** BOB nominates 10000, is refunded when the vault opts out, and nominates 10000 again. *)
Definition renominated : Runtime :=
  runs_to
    [(Root, Call.set_nomination_enabled true); (Signed ALICE, Call.opt_in_to_nomination PAIR);
     (Signed ALICE, Call.set_nomination_limit PAIR 100000); (Signed BOB, Call.deposit_collateral VAULT 10000);
     (Signed ALICE, Call.opt_out_of_nomination PAIR); (Signed ALICE, Call.opt_in_to_nomination PAIR);
     (Signed BOB, Call.deposit_collateral VAULT 10000)]
    (transferred (Amount.new 30000 DOT) ALICE BOB registered).
(** He withdraws the refunded collateral, from the pool of before the refund. *)
Definition refunded : Runtime := run (Signed BOB) (Call.withdraw_collateral VAULT None (Some 0)) renominated.

(** A nominator whose collateral was refunded takes it out of the total of the currency
    pair a second time when he withdraws it. Both states are reachable; the vault's backing
    collateral is 60000 in both, which the total says before the withdrawal, and after it
    the total is 50000 and the integrity check on it fails: the system ceiling no longer
    bounds the collateral that is there. *)
Theorem nomination_refund_breaks_total :
  reachable start renominated ∧ reachable start refunded ∧
  Collateral.get_backing_collateral VAULT renominated = Ok (Amount.new 60000 DOT) ∧
  Collateral.get_backing_collateral VAULT refunded = Ok (Amount.new 60000 DOT) ∧
  RegistryStore.TotalUserVaultCollateral (rt_registry renominated) !! PAIR = Some 60000 ∧
  RegistryStore.TotalUserVaultCollateral (rt_registry refunded) !! PAIR = Some 50000 ∧
  VaultQueries.total_user_vault_collateral_integrity_check renominated = true ∧
  VaultQueries.total_user_vault_collateral_integrity_check refunded = false.
Proof.
  assert (reachable start renominated) as Hr.
  { apply reachable_runs_to; [| vm_refl]. apply reachable_transferred, registered_reachable. }
  split; [exact Hr |]. split; [apply reachable_run; [exact Hr | vm_refl] |].
  split_and!; vm_refl.
Qed.

(** ** A premium above the premium threshold *)

(** 50000 DOT at a price of 3 are 166% of the 10000 tokens: below the secure threshold of 200%
    and above the premium threshold of 150%. *)
Definition cheaper : Runtime := repriced 3 issued.
Definition premium_redeem : Runtime :=
  run (Signed BOB) (Call.request_redeem 5000 (P2WPKHv0 (replicate 20 (u8 8))) VAULT) cheaper.
Definition redeem_of (r : Runtime) : option RedeemRequest :=
  RedeemStore.RedeemRequests (rt_redeem r) !! first_key (RedeemStore.RedeemRequests (rt_redeem r)).

(** The premium of a redeem request does not depend on the premium threshold. In a
    reachable state where the vault, the request included, is not below that threshold, a
    request for redeem is still made with a premium, since the maximal premium is computed
    from the secure threshold alone. *)
Theorem premium_above_threshold :
  reachable start cheaper ∧ reachable start premium_redeem ∧
  Collateral.will_be_below_premium_threshold VAULT cheaper = Ok (false, cheaper) ∧
  issued_in IBTC cheaper = 10000 ∧
  redeem_premium <$> redeem_of premium_redeem = Some 256.
Proof.
  assert (reachable start cheaper) as Hr by (apply reachable_repriced; [exact issued_reachable | vm_refl]).
  split; [exact Hr |]. split; [apply reachable_run; [exact Hr | vm_refl] |].
  split_and!; vm_refl.
Qed.
