(* ===== verification/Frames.v ===== *)
(** * What a computation does to its state, by its structure

    [respects R m]: a run of [m] that succeeds takes the state to one related
    by the preorder [R].  With [R] the equality of a part of the state this is a
    frame: [leaves π m].  The tactic [respects] follows the structure of the
    computation and leaves the operations it does not know.

    A pallet that calls others runs their operations on their part of its state
    and passes their errors on as its own.  [inside get put f m] is the
    operation [m] of the component that [get] reads and [put] writes. *)

From Stdlib Require Import ZArith.
From stdpp Require Import base tactics list relations option.
From S2P Require Import Prelude Security.

Section respects.
Context {S E : Type} (R : relation S) `{!PreOrder R}.

Definition respects {A} (m : M S E A) : Prop := ∀ s a s', m s = Ok (a, s') → R s s'.

Lemma respects_ret {A} (a : A) : respects (mret a).
Proof. by intros s a' s' [= <- <-]. Qed.
Lemma respects_bind {A B} (m : M S E A) (k : A → M S E B) :
  respects m → (∀ a, respects (k a)) → respects (m ≫= k).
Proof.
  intros Hm Hk s a s' Hr. apply M_bind_Ok in Hr as (x & s1 & Hx & Hr).
  etransitivity; [by eapply Hm | by eapply Hk].
Qed.
Lemma respects_gets {A} (f : S → A) : respects (gets f).
Proof. intros s a s' Hr. by apply gets_Ok in Hr as [_ ->]. Qed.
Lemma respects_query {A} (f : S → outcome E A) : respects (query f).
Proof. intros s a s' Hr. by apply query_Ok in Hr as [_ ->]. Qed.
Lemma respects_lift {A} (c : outcome E A) : respects (lift c).
Proof. intros s a s' Hr. by apply lift_Ok in Hr as [_ ->]. Qed.
Lemma respects_ensure b e : respects (ensureM b e).
Proof. intros s a s' Hr. by apply ensureM_Ok in Hr as [_ ->]. Qed.
Lemma respects_fail {A} e : respects (A := A) (fail e).
Proof. intros s a s' Hr. discriminate Hr. Qed.
Lemma respects_modify f : (∀ s, R s (f s)) → respects (modify f).
Proof. intros Hf s a s' Hr. apply modify_Ok in Hr as ->. apply Hf. Qed.
Lemma respects_when b (m : M S E unit) : respects m → respects (whenM b m).
Proof. destruct b; [done |]. intros _. apply respects_ret. Qed.
Lemma respects_for_each {A} (f : A → M S E unit) l : (∀ x, respects (f x)) → respects (for_each f l).
Proof.
  intros Hf. induction l as [| x l IH]; cbn; [apply respects_ret |]. apply respects_bind; [apply Hf | done].
Qed.
End respects.

(** The part [π] of the state is left as it was. *)
Definition same {S X} (π : S → X) : relation S := λ s s', π s' = π s.
#[export] Instance same_preorder {S X} (π : S → X) : PreOrder (same π).
Proof. split; [done |]. intros s1 s2 s3 H1 H2. unfold same in *. congruence. Qed.
Abbreviation leaves π := (respects (same π)).

Create HintDb respects.
Ltac respects_step :=
  match goal with
  | |- respects _ _ => solve [auto 1 with respects nocore]
  | |- respects _ (_ ≫= _) => apply respects_bind; [exact _ | | intro]
  | |- respects _ (mret _) => apply respects_ret; exact _
  | |- respects _ (gets _) => apply respects_gets; exact _
  | |- respects _ (query _) => apply respects_query; exact _
  | |- respects _ (lift _) => apply respects_lift; exact _
  | |- respects _ (ensureM _ _) => apply respects_ensure; exact _
  | |- respects _ (fail _) => apply respects_fail
  | |- respects _ (modify _) => apply respects_modify; intros; reflexivity
  | |- respects _ (whenM _ _) => apply respects_when; [exact _ |]
  | |- respects _ (for_each _ _) => apply respects_for_each; [exact _ | intro]
  | |- respects _ (match ?x with _ => _ end) => destruct x
  | |- respects _ (let _ := _ in _) => cbv zeta
  end.
Ltac respects := intros; repeat respects_step.

Definition map_module {E F} (f : E → F) (e : DispatchError E) : DispatchError F :=
  match e with
  | ModuleError e => ModuleError (f e)
  | ForeignError index error => ForeignError index error
  | Arithmetic e => Arithmetic e
  | BadOrigin => BadOrigin
  end.

Section inside.
Context {S T E F : Type} (get : S → T) (put : T → S → S) (f : E → F).

Definition inside {A} (m : M T (DispatchError E) A) : M S (DispatchError F) A := λ s,
  match m (get s) with
  | Ok (a, t) => Ok (a, put t s)
  | Err e => Err (map_module f e)
  | Panic => Panic
  | NoFuel => NoFuel
  end.

Lemma inside_Ok {A} (m : M T (DispatchError E) A) s a s' :
  inside m s = Ok (a, s') ↔ ∃ t, m (get s) = Ok (a, t) ∧ s' = put t s.
Proof.
  unfold inside. destruct (m (get s)) as [[x t] | | |];
    (split; [intros Hr; try discriminate Hr; injection Hr as <- <-; eauto | intros (t' & Ht & ->); try done]).
  by injection Ht as <- <-.
Qed.

(** A component is run by steps of its own, and the rest of the state is left alone. *)
Lemma respects_inside {A} (R : relation S) (m : M T (DispatchError E) A) :
  (∀ s a t, m (get s) = Ok (a, t) → R s (put t s)) → respects R (inside m).
Proof. intros Hm s a s' (t & Ht & ->)%inside_Ok. by eapply Hm. Qed.
Lemma leaves_inside {A X} (π : S → X) (m : M T (DispatchError E) A) :
  (∀ t s, π (put t s) = π s) → leaves π (inside m).
Proof. intros Hp. apply respects_inside. intros s a t _. apply Hp. Qed.

(** An operation in a storage layer of its own, whose error is only reported. *)
Definition transactional (m : M S (DispatchError F) unit) (s : S) : bool * S :=
  match m s with Ok (_, s') => (true, s') | _ => (false, s) end.
End inside.
