(* ===== verification/DexStore.v ===== *)
(** * Storage of the exchange of pairs ([crates/dex-general/src/primitives.rs, lib.rs])

    A pair of assets is a pair of currencies in sorted order.  It is disabled
    until it is created, or collects contributions first, in a bootstrap; a
    pair that trades has an account that holds its reserves and a recorded
    supply of liquidity tokens.  Balances are [u128], the last product of the
    reserves is a [U256]; an absent entry reads as the default value. *)

From coqutil Require Import Byte.
From Stdlib Require Import ZArith.
From stdpp Require Import base list numbers gmap.
From S2P Require Import Prelude Bytes Security Primitives Tokens.

Local Open Scope Z_scope.

Module DexGeneralError.
Inductive t : Type :=
  | InvalidFeeRate | UnsupportedAssetType | InsufficientAssetBalance | DeniedCreatePair
  | PairAlreadyExists | PairNotExists | AssetNotExists | InsufficientLiquidity
  | InsufficientPairReserve | InsufficientTargetAmount | ExcessiveSoldAmount | InvalidPath
  | IncorrectAssetAmountRange | Overflow | Deadline | InvariantCheckFailed | NotInBootstrap
  | InvalidContributionAmount | UnqualifiedBootstrap | ZeroContribute | DenyRefund
  | DisableBootstrap | NotQualifiedAccount | NoRewardTokens | ChargeRewardParamsError
  | ExistRewardsInBootstrap | TooManyRewards | TooManyLimits.
End DexGeneralError.

(** Errors of the pallet and of the ledger it calls. *)
Inductive DexGeneralModule : Type :=
  | DexGeneralE (e : DexGeneralError.t)
  | DexTokensE (e : TokensError.t).
Abbreviation DError := (DispatchError DexGeneralModule).

(** ** Primitives *)
Definition DEFAULT_FEE_RATE : Z := 30.
Definition FEE_ADJUSTMENT : Z := 10000.
Abbreviation Pair := (CurrencyId.t * CurrencyId.t)%type.

Module DexStore.
Record BootstrapParameter : Type := mkBootstrap {
  target_supply : Z * Z;
  capacity_supply : Z * Z;
  accumulated_supply : Z * Z;
  end_block_number : Z;
  bootstrap_account : AccountId;
}.
Record PairMetadata : Type := mkMetadata {
  pair_account : AccountId;
  total_supply : Z;
  meta_fee_rate : Z;
}.
Inductive PairStatus : Type :=
  | Trading (m : PairMetadata)
  | Bootstrap (p : BootstrapParameter)
  | Disable.
Definition fee_rate (s : PairStatus) : Z :=
  match s with Trading m => meta_fee_rate m | _ => DEFAULT_FEE_RATE end.
Definition set_total_supply v (m : PairMetadata) : PairMetadata :=
  mkMetadata (pair_account m) v (meta_fee_rate m).
Definition set_accumulated v (p : BootstrapParameter) : BootstrapParameter :=
  mkBootstrap (target_supply p) (capacity_supply p) v (end_block_number p) (bootstrap_account p).

Inductive Event : Type :=
  | PairCreated (asset_0 asset_1 : CurrencyId.t) (fee_rate : Z)
  | LiquidityAdded (owner : AccountId) (asset_0 asset_1 : CurrencyId.t)
      (add_balance_0 add_balance_1 mint_balance_lp : Z)
  | LiquidityRemoved (owner recipient : AccountId) (asset_0 asset_1 : CurrencyId.t)
      (rm_balance_0 rm_balance_1 burn_balance_lp : Z)
  | AssetSwap (owner recipient : AccountId) (swap_path : list CurrencyId.t) (balances : list Z)
  | BootstrapContribute (who : AccountId) (asset_0 asset_1 : CurrencyId.t)
      (asset_0_contribute asset_1_contribute : Z)
  | BootstrapEnd (asset_0 asset_1 : CurrencyId.t) (asset_0_amount asset_1_amount total_lp_supply : Z)
  | BootstrapCreated (bootstrap_pair_account : AccountId) (asset_0 asset_1 : CurrencyId.t)
      (total_supply_0 total_supply_1 capacity_supply_0 capacity_supply_1 end_ : Z)
  | BootstrapClaim (bootstrap_pair_account claimer receiver : AccountId) (asset_0 asset_1 : CurrencyId.t)
      (asset_0_refund asset_1_refund lp_amount : Z)
  | BootstrapUpdate (bootstrap_pair_account : AccountId) (asset_0 asset_1 : CurrencyId.t)
      (total_supply_0 total_supply_1 capacity_supply_0 capacity_supply_1 end_ : Z)
  | BootstrapRefund (bootstrap_pair_account caller : AccountId) (asset_0 asset_1 : CurrencyId.t)
      (asset_0_refund asset_1_refund : Z)
  | DistributeReward (asset_0 asset_1 : CurrencyId.t) (reward_holder : AccountId)
      (rewards : list (CurrencyId.t * Z))
  | ChargeReward (asset_0 asset_1 : CurrencyId.t) (who : AccountId) (charge_rewards : list (CurrencyId.t * Z))
  | WithdrawReward (asset_0 asset_1 : CurrencyId.t) (recipient : AccountId)
  | NewFeeRate (asset_0 asset_1 : CurrencyId.t) (new_fee_rate : Z)
  | NewFeePoint (new_fee_point : Z).

Record Storage : Type := mkStorage {
  KLast : gmap Pair Z;
  FeeMeta : option AccountId * Z;
  LiquidityPairs : gmap Pair CurrencyId.t;
  PairStatuses : gmap Pair PairStatus;
  BootstrapPersonalSupply : gmap (Pair * AccountId) (Z * Z);
  BootstrapEndStatus : gmap Pair PairStatus;
  BootstrapRewards : gmap Pair (gmap CurrencyId.t Z);
  BootstrapLimits : gmap Pair (gmap CurrencyId.t Z);
  events : list Event;
}.
Definition empty_storage : Storage :=
  mkStorage ∅ (None, 0) ∅ ∅ ∅ ∅ ∅ ∅ [].
Definition with_KLast f (s : Storage) : Storage :=
  mkStorage (f (KLast s)) (FeeMeta s) (LiquidityPairs s) (PairStatuses s)
    (BootstrapPersonalSupply s) (BootstrapEndStatus s) (BootstrapRewards s) (BootstrapLimits s)
    (events s).
Definition with_FeeMeta f (s : Storage) : Storage :=
  mkStorage (KLast s) (f (FeeMeta s)) (LiquidityPairs s) (PairStatuses s)
    (BootstrapPersonalSupply s) (BootstrapEndStatus s) (BootstrapRewards s) (BootstrapLimits s)
    (events s).
Definition with_LiquidityPairs f (s : Storage) : Storage :=
  mkStorage (KLast s) (FeeMeta s) (f (LiquidityPairs s)) (PairStatuses s)
    (BootstrapPersonalSupply s) (BootstrapEndStatus s) (BootstrapRewards s) (BootstrapLimits s)
    (events s).
Definition with_PairStatuses f (s : Storage) : Storage :=
  mkStorage (KLast s) (FeeMeta s) (LiquidityPairs s) (f (PairStatuses s))
    (BootstrapPersonalSupply s) (BootstrapEndStatus s) (BootstrapRewards s) (BootstrapLimits s)
    (events s).
Definition with_BootstrapPersonalSupply f (s : Storage) : Storage :=
  mkStorage (KLast s) (FeeMeta s) (LiquidityPairs s) (PairStatuses s)
    (f (BootstrapPersonalSupply s)) (BootstrapEndStatus s) (BootstrapRewards s) (BootstrapLimits s)
    (events s).
Definition with_BootstrapEndStatus f (s : Storage) : Storage :=
  mkStorage (KLast s) (FeeMeta s) (LiquidityPairs s) (PairStatuses s) (BootstrapPersonalSupply s)
    (f (BootstrapEndStatus s)) (BootstrapRewards s) (BootstrapLimits s) (events s).
Definition with_BootstrapRewards f (s : Storage) : Storage :=
  mkStorage (KLast s) (FeeMeta s) (LiquidityPairs s) (PairStatuses s) (BootstrapPersonalSupply s)
    (BootstrapEndStatus s) (f (BootstrapRewards s)) (BootstrapLimits s) (events s).
Definition with_BootstrapLimits f (s : Storage) : Storage :=
  mkStorage (KLast s) (FeeMeta s) (LiquidityPairs s) (PairStatuses s) (BootstrapPersonalSupply s)
    (BootstrapEndStatus s) (BootstrapRewards s) (f (BootstrapLimits s)) (events s).
Definition with_event e (s : Storage) : Storage :=
  mkStorage (KLast s) (FeeMeta s) (LiquidityPairs s) (PairStatuses s) (BootstrapPersonalSupply s)
    (BootstrapEndStatus s) (BootstrapRewards s) (BootstrapLimits s) (events s ++ [e]).
End DexStore.
