(* ===== verification/DexMath.v ===== *)
(** * The arithmetic of the exchange of pairs ([crates/dex-general/src/swap/mod.rs])

    Shares of the reserves, liquidity for contributions, the price of a swap in
    both directions, the protocol fee.  Products are taken in [U256] and
    converted back to [u128]; every function says what happens when they do not
    fit.  [integer_sqrt] is the floor of the square root. *)

From Stdlib Require Import ZArith Lia.
From stdpp Require Import base tactics option list numbers.
From S2P Require Import Prelude Bytes Security Primitives Tokens DexStore.

Local Open Scope Z_scope.

Definition U256 : Z := 256.
(** [U256::checked_div] *)
Definition checked_div (a b : Z) : option Z := if b =? 0 then None else Some (a / b).
(** [TryInto::<AssetBalance>::try_into(n).ok()] *)
Definition try_balance (n : Z) : option Z := checked BALANCE n.
Definition dex_error (e : DexGeneralError.t) : DError := ModuleError (DexGeneralE e).

(** [U256::integer_sqrt] of [primitive_types] *)
Class IntegerSqrt : Type := {
  integer_sqrt : Z → Z;
  integer_sqrt_spec n : 0 ≤ n → 0 ≤ integer_sqrt n ∧ integer_sqrt n * integer_sqrt n ≤ n < (integer_sqrt n + 1) * (integer_sqrt n + 1);
}.

Module DexMath.
Import DexStore DexGeneralError.

Definition calculate_share_amount (amount_0 reserve_0 reserve_1 : Z) : Z :=
  default 0 (n ← checked_mul U256 amount_0 reserve_1; n ← checked_div n reserve_0; try_balance n).

Definition get_amount_in (output_amount input_reserve output_reserve fee_rate : Z) : outcome DError Z :=
  ensure (negb (input_reserve =? 0) && negb (output_reserve =? 0) && negb (output_amount =? 0))
    (dex_error Overflow);;
  numerator ← ok_or (n ← checked_mul U256 input_reserve output_amount; checked_mul U256 n FEE_ADJUSTMENT)
                (dex_error Overflow);
  denominator ← ok_or (n ← checked_sub output_reserve output_amount;
                       checked_mul U256 n (saturating_sub FEE_ADJUSTMENT fee_rate)) (dex_error Overflow);
  ok_or (r ← checked_div numerator denominator; r ← checked_add U256 r 1; try_balance r) (dex_error Overflow).

Definition get_amount_out (input_amount input_reserve output_reserve fee_rate : Z) : outcome DError Z :=
  ensure (negb (input_reserve =? 0) && negb (output_reserve =? 0) && negb (input_amount =? 0))
    (dex_error Overflow);;
  input_amount_with_fee ← ok_or (checked_mul U256 input_amount (saturating_sub FEE_ADJUSTMENT fee_rate))
                            (dex_error Overflow);
  numerator ← ok_or (checked_mul U256 input_amount_with_fee output_reserve) (dex_error Overflow);
  denominator ← ok_or (n ← checked_mul U256 input_reserve FEE_ADJUSTMENT;
                       checked_add U256 n input_amount_with_fee) (dex_error Overflow);
  ok_or (n ← checked_div numerator denominator; try_balance n) (dex_error Overflow).

Definition calculate_added_amount (amount_0_desired amount_1_desired amount_0_min amount_1_min reserve_0 reserve_1 : Z)
  : outcome DError (Z * Z) :=
  if (reserve_0 =? 0) || (reserve_1 =? 0) then Ok (amount_0_desired, amount_1_desired)
  else
    let amount_1_optimal := calculate_share_amount amount_0_desired reserve_0 reserve_1 in
    if amount_1_optimal <=? amount_1_desired then
      ensure (amount_1_min <=? amount_1_optimal) (dex_error IncorrectAssetAmountRange);;
      Ok (amount_0_desired, amount_1_optimal)
    else
      let amount_0_optimal := calculate_share_amount amount_1_desired reserve_1 reserve_0 in
      ensure ((amount_0_min <=? amount_0_optimal) && (amount_0_optimal <=? amount_0_desired))
        (dex_error IncorrectAssetAmountRange);;
      Ok (amount_0_optimal, amount_1_desired).

Section sqrt.
Context `{IntegerSqrt}.

(** The liquidity for two amounts of an empty pair, zero if it does not fit. *)
Definition root_liquidity (amount_0 amount_1 : Z) : option Z :=
  n ← checked_mul U256 amount_0 amount_1; try_balance (integer_sqrt n).
Definition calculate_liquidity (amount_0 amount_1 reserve_0 reserve_1 total_liquidity : Z) : Z :=
  if total_liquidity =? 0 then default 0 (root_liquidity amount_0 amount_1)
  else Z.min (calculate_share_amount amount_0 reserve_0 total_liquidity)
         (calculate_share_amount amount_1 reserve_1 total_liquidity).

(** The fee for a receiver: a share of the growth of the root of [k]. *)
Definition protocol_fee (fee_point k_last reserve_0 reserve_1 total_liquidity : Z) : outcome DError Z :=
  if k_last =? 0 then Ok 0
  else
    k ← ok_or (checked_mul U256 reserve_0 reserve_1) (dex_error Overflow);
    let root_k := integer_sqrt k in
    let root_k_last := integer_sqrt k_last in
    if root_k >? root_k_last then
      growth ← ok_or (checked_sub root_k root_k_last) (dex_error Overflow);
      numerator ← ok_or (checked_mul U256 total_liquidity growth) (dex_error Overflow);
      denominator ← ok_or (n ← checked_mul U256 root_k fee_point; checked_add U256 n root_k_last)
                      (dex_error Overflow);
      Ok (default 0 (n ← checked_div numerator denominator; try_balance n))
    else Ok 0.

(** What a contributor of a bootstrap claims. *)
Definition exact_amount (a accumulated b accumulated' divisor : Z) : option Z :=
  n ← checked_mul U256 a accumulated;
  n' ← checked_mul U256 b accumulated';
  n ← checked_add U256 n n';
  d ← checked_mul U256 divisor 2;
  checked_div n d.
Definition claim_liquidity (contributed accumulated : Z * Z) : outcome DError Z :=
  exact_amount_0 ← ok_or (exact_amount contributed.1 accumulated.2 contributed.2 accumulated.1 accumulated.2)
                     (dex_error Overflow);
  exact_amount_1 ← ok_or (exact_amount contributed.2 accumulated.1 contributed.1 accumulated.2 accumulated.1)
                     (dex_error Overflow);
  ok_or (root_liquidity exact_amount_0 exact_amount_1) (dex_error Overflow).
End sqrt.
End DexMath.
