(* ===== verification/DexGeneral.v ===== *)
(** * The exchange of pairs ([crates/dex-general/src/swap/mod.rs, lib.rs, rpc.rs])

    A constant-product exchange.  Each operation is a computation over the
    token ledger, the storage of the pallet and the block number.  [DexEnv] has
    what the pallet takes from its [Config] and from libraries: the ledger with
    withdrawals, the order of assets, the accounts derived from the pallet id
    and the hash of a pair, and the integer square root.  The module
    [DexGeneral] has the operations, [DexCalls] the sixteen extrinsics and the
    queries of the RPC. *)

From coqutil Require Import Byte.
From Stdlib Require Import ZArith Lia.
From stdpp Require Import base tactics option list numbers gmap sorting.
From S2P Require Import Prelude Bytes Security Primitives Tokens DexStore DexMath.

Local Open Scope Z_scope.

Class DexEnv : Type := {
  dex_currency :: MultiCurrency;
  dex_sqrt :: IntegerSqrt;
  (** [MultiCurrency::withdraw] *)
  ml_withdraw : CurrencyId.t → AccountId → Z → M ledger TError unit;
  withdraw_moves c x v l l' :
    ml_withdraw c x v l = Ok (tt, l') →
    moved free_balance reserved_balance total_issuance
      (λ d z, - at_balance c d x z v) (λ _ _, 0) (λ d, - at_currency c d v) l l';
  (** [CurrencyId: Ord] *)
  asset_le : relation CurrencyId.t;
  asset_le_dec :: RelDecision asset_le;
  asset_le_total :: TotalOrder asset_le;
  (** [PalletId::into_sub_account_truncating], of a sorted pair and of the bootstraps *)
  pair_sub_account : CurrencyId.t → CurrencyId.t → AccountId;
  bootstrap_account_id : AccountId;
}.

(** A run of the exchange over the ledger. *)
Record Dex `{DexEnv} : Type := mkDex {
  tokens : ledger;
  dex : DexStore.Storage;
  block_number : Z;
}.

Module DexGeneral.
Import DexStore DexMath DexGeneralError.
Section dex_general.
Context `{DexEnv}.

Abbreviation D := (M Dex DError).

Definition on_storage (f : Storage → Storage) (d : Dex) : Dex := mkDex _ (tokens d) (f (dex d)) (block_number d).
Definition update (f : Storage → Storage) : D unit := modify (on_storage f).
Definition deposit_event (e : Event) : D unit := update (with_event e).
Definition from_tokens (e : DispatchError TokensError.t) : DError :=
  match e with
  | ModuleError e => ModuleError (DexTokensE e)
  | ForeignError index error => ForeignError index error
  | Arithmetic e => Arithmetic e
  | BadOrigin => BadOrigin
  end.
Definition on_ledger {A} (m : M ledger TError A) : D A := λ d,
  match m (tokens d) with
  | Ok (a, l) => Ok (a, mkDex _ l (dex d) (block_number d))
  | Err e => Err (from_tokens e)
  | Panic => Panic
  | NoFuel => NoFuel
  end.
Definition transfer (asset : CurrencyId.t) (from to : AccountId) (amount : Z) : D unit :=
  on_ledger (ml_transfer asset from to amount).
Definition mint (asset : CurrencyId.t) (to : AccountId) (amount : Z) : D unit :=
  on_ledger (ml_deposit asset to amount).
Definition burn (asset : CurrencyId.t) (from : AccountId) (amount : Z) : D unit :=
  on_ledger (ml_withdraw asset from amount).
Definition free (asset : CurrencyId.t) (who : AccountId) (d : Dex) : Z := free_balance asset who (tokens d).

(** ** Pairs *)

Definition sort_asset_id (asset_0 asset_1 : CurrencyId.t) : Pair :=
  if bool_decide (asset_le asset_1 asset_0) then (asset_1, asset_0) else (asset_0, asset_1).
Definition pair_account_id (asset_0 asset_1 : CurrencyId.t) : AccountId :=
  let pair := sort_asset_id asset_0 asset_1 in pair_sub_account pair.1 pair.2.
(** [T::LpGenerate] and [T::EnsurePairAsset] of the runtime *)
Definition generate_lp_asset_id (asset_0 asset_1 : CurrencyId.t) : option CurrencyId.t :=
  CurrencyId.join_lp_token asset_0 asset_1.
Definition validate_asset (asset : CurrencyId.t) : bool := CurrencyId.is_lp_token asset.
Definition lp_asset_id (asset_0 asset_1 : CurrencyId.t) : option CurrencyId.t :=
  let pair := sort_asset_id asset_0 asset_1 in generate_lp_asset_id pair.1 pair.2.
Definition mutate_lp_pairs (asset_0 asset_1 : CurrencyId.t) : D unit :=
  lp ← lift (ok_or (lp_asset_id asset_0 asset_1) (dex_error AssetNotExists));
  update (with_LiquidityPairs <[sort_asset_id asset_0 asset_1 := lp]>).

Definition pair_status (pair : Pair) (d : Dex) : PairStatus := default Disable (PairStatuses (dex d) !! pair).
Definition bootstrap_end_status (pair : Pair) (d : Dex) : PairStatus :=
  default Disable (BootstrapEndStatus (dex d) !! pair).
Definition lp_pairs (pair : Pair) (d : Dex) : option CurrencyId.t := LiquidityPairs (dex d) !! pair.
Definition k_last (pair : Pair) (d : Dex) : Z := default 0 (KLast (dex d) !! pair).
Definition fee_meta (d : Dex) : option AccountId * Z := FeeMeta (dex d).
Definition get_bootstrap_rewards (pair : Pair) (d : Dex) : gmap CurrencyId.t Z :=
  default ∅ (BootstrapRewards (dex d) !! pair).
Definition get_bootstrap_limits (pair : Pair) (d : Dex) : gmap CurrencyId.t Z :=
  default ∅ (BootstrapLimits (dex d) !! pair).
(** Iterating a [BTreeMap]: by ascending key. *)
Definition by_key : relation (CurrencyId.t * Z) := λ x y, asset_le x.1 y.1.
#[local] Instance by_key_dec : RelDecision by_key := λ x y, decide (asset_le x.1 y.1).
Definition map_iter (m : gmap CurrencyId.t Z) : list (CurrencyId.t * Z) := merge_sort by_key (map_to_list m).
(** [collect::<BTreeMap<_, _>>()]: a later entry replaces an earlier one. *)
Definition collect (l : list (CurrencyId.t * Z)) : gmap CurrencyId.t Z :=
  fold_left (λ m kv, <[kv.1 := kv.2]> m) l ∅.

Definition put_status (pair : Pair) (s : PairStatus) : D unit := update (with_PairStatuses <[pair := s]>).
Definition mutate_k_last (asset_0 asset_1 : CurrencyId.t) (last : Z) : D unit :=
  update (with_KLast <[sort_asset_id asset_0 asset_1 := last]>).
(** [if let Trading(parameter) = status] *)
Definition trading (pair : Pair) : D PairMetadata :=
  status ← gets (pair_status pair);
  match status with
  | Trading parameter => mret parameter
  | _ => fail (dex_error PairNotExists)
  end.

(** ** Liquidity *)

Definition mint_protocol_fee (reserve_0 reserve_1 : Z) (asset_0 asset_1 : CurrencyId.t) (total_liquidity : Z) : D Z :=
  new_k_last ← gets (k_last (sort_asset_id asset_0 asset_1));
  meta ← gets fee_meta;
  match meta.1 with
  | Some _ => lift (protocol_fee meta.2 new_k_last reserve_0 reserve_1 total_liquidity)
  | None =>
      whenM (negb (new_k_last =? 0)) (mutate_k_last asset_0 asset_1 0);;
      mret 0
  end.
(** The fee goes to the receiver and to the recorded supply. *)
Definition pay_protocol_fee (lp_asset_id : CurrencyId.t) (mint_fee : Z) (parameter : PairMetadata) : D PairMetadata :=
  meta ← gets fee_meta;
  match meta.1 with
  | Some fee_to =>
      if mint_fee >? 0 then
        mint lp_asset_id fee_to mint_fee;;
        total ← lift (ok_or (checked_add BALANCE (total_supply parameter) mint_fee) (dex_error Overflow));
        mret (set_total_supply total parameter)
      else mret parameter
  | None => mret parameter
  end.
(** The product of the reserves, kept while there is a receiver of fees. *)
Definition record_k (asset_0 asset_1 : CurrencyId.t) (pair_account : AccountId) : D unit :=
  meta ← gets fee_meta;
  match meta.1 with
  | Some _ =>
      reserve_0 ← gets (free asset_0 pair_account);
      reserve_1 ← gets (free asset_1 pair_account);
      last_k_value ← lift (ok_or (checked_mul U256 reserve_0 reserve_1) (dex_error Overflow));
      mutate_k_last asset_0 asset_1 last_k_value
  | None => mret tt
  end.

Definition inner_add_liquidity (who : AccountId) (asset_0 asset_1 : CurrencyId.t)
    (amount_0_desired amount_1_desired amount_0_min amount_1_min : Z) : D unit :=
  let pair := sort_asset_id asset_0 asset_1 in
  parameter ← trading pair;
  reserve_0 ← gets (free asset_0 (pair_account parameter));
  reserve_1 ← gets (free asset_1 (pair_account parameter));
  amounts ← lift (calculate_added_amount amount_0_desired amount_1_desired amount_0_min amount_1_min
                    reserve_0 reserve_1);
  let '(amount_0, amount_1) := amounts : Z * Z in
  balance_asset_0 ← gets (free asset_0 who);
  balance_asset_1 ← gets (free asset_1 who);
  ensureM ((amount_0 <=? balance_asset_0) && (amount_1 <=? balance_asset_1)) (dex_error InsufficientAssetBalance);;
  lp_asset_id ← query (λ d, ok_or (lp_pairs pair d) (dex_error InsufficientAssetBalance));
  mint_fee ← mint_protocol_fee reserve_0 reserve_1 asset_0 asset_1 (total_supply parameter);
  parameter ← pay_protocol_fee lp_asset_id mint_fee parameter;
  let mint_liquidity := calculate_liquidity amount_0 amount_1 reserve_0 reserve_1 (total_supply parameter) in
  ensureM (mint_liquidity >? 0) (dex_error Overflow);;
  total ← lift (ok_or (checked_add BALANCE (total_supply parameter) mint_liquidity) (dex_error Overflow));
  mint lp_asset_id who mint_liquidity;;
  transfer asset_0 who (pair_account parameter) amount_0;;
  transfer asset_1 who (pair_account parameter) amount_1;;
  record_k asset_0 asset_1 (pair_account parameter);;
  deposit_event (LiquidityAdded who asset_0 asset_1 amount_0 amount_1 mint_liquidity);;
  put_status pair (Trading (set_total_supply total parameter)).

(** The shares are those of the supply before the protocol fee. *)
Definition inner_remove_liquidity (who : AccountId) (asset_0 asset_1 : CurrencyId.t)
    (remove_liquidity amount_0_min amount_1_min : Z) (recipient : AccountId) : D unit :=
  let pair := sort_asset_id asset_0 asset_1 in
  parameter ← trading pair;
  reserve_0 ← gets (free asset_0 (pair_account parameter));
  reserve_1 ← gets (free asset_1 (pair_account parameter));
  let amount_0 := calculate_share_amount remove_liquidity (total_supply parameter) reserve_0 in
  let amount_1 := calculate_share_amount remove_liquidity (total_supply parameter) reserve_1 in
  ensureM ((amount_0_min <=? amount_0) && (amount_1_min <=? amount_1)) (dex_error InsufficientTargetAmount);;
  lp_asset_id ← query (λ d, ok_or (lp_pairs pair d) (dex_error InsufficientAssetBalance));
  mint_fee ← mint_protocol_fee reserve_0 reserve_1 asset_0 asset_1 (total_supply parameter);
  parameter ← pay_protocol_fee lp_asset_id mint_fee parameter;
  total ← lift (ok_or (checked_sub (total_supply parameter) remove_liquidity) (dex_error InsufficientLiquidity));
  burn lp_asset_id who remove_liquidity;;
  transfer asset_0 (pair_account parameter) recipient amount_0;;
  transfer asset_1 (pair_account parameter) recipient amount_1;;
  record_k asset_0 asset_1 (pair_account parameter);;
  deposit_event (LiquidityRemoved who recipient asset_0 asset_1 amount_0 amount_1 remove_liquidity);;
  put_status pair (Trading (set_total_supply total parameter)).

(** ** Swaps *)

(** [invariant_after_swap >= invariant_before_swap] *)
Definition check_k (input_reserve output_reserve amount_in amount_out : Z) : outcome DError unit :=
  invariant_before_swap ← ok_or (checked_mul U256 input_reserve output_reserve) (dex_error Overflow);
  input_after_swap ← ok_or (checked_add BALANCE input_reserve amount_in) (dex_error Overflow);
  output_after_swap ← ok_or (checked_sub output_reserve amount_out) (dex_error Overflow);
  invariant_after_swap ← ok_or (checked_mul U256 output_after_swap input_after_swap) (dex_error Overflow);
  ensure (invariant_before_swap <=? invariant_after_swap) (dex_error InvariantCheckFailed).

(** One step of the path, forwards and backwards. *)
Definition step_out (amount_in : Z) (input_asset output_asset : CurrencyId.t) (d : Dex) : outcome DError Z :=
  let pair_account := pair_account_id input_asset output_asset in
  let reserve_0 := free input_asset pair_account d in
  let reserve_1 := free output_asset pair_account d in
  ensure ((reserve_1 >? 0) && (reserve_0 >? 0)) (dex_error InvalidPath);;
  let fee_rate := fee_rate (pair_status (sort_asset_id input_asset output_asset) d) in
  amount ← get_amount_out amount_in reserve_0 reserve_1 fee_rate;
  ensure (amount >? 0) (dex_error InvalidPath);;
  check_k reserve_0 reserve_1 amount_in amount;;
  Ok amount.
Definition step_in (amount_out : Z) (output_asset input_asset : CurrencyId.t) (d : Dex) : outcome DError Z :=
  let pair_account := pair_account_id output_asset input_asset in
  let reserve_0 := free output_asset pair_account d in
  let reserve_1 := free input_asset pair_account d in
  ensure ((reserve_1 >? 0) && (reserve_0 >? 0)) (dex_error InvalidPath);;
  let fee_rate := fee_rate (pair_status (sort_asset_id output_asset input_asset) d) in
  amount ← get_amount_in amount_out reserve_1 reserve_0 fee_rate;
  ensure (1 <=? amount) (dex_error InvalidPath);;
  check_k reserve_1 reserve_0 amount amount_out;;
  Ok amount.
(** The amounts after the first, over the windows of the path. *)
Fixpoint amounts_out (amount_in : Z) (input_asset : CurrencyId.t) (path : list CurrencyId.t) (d : Dex)
  : outcome DError (list Z) :=
  match path with
  | [] => Ok []
  | output_asset :: path =>
      amount ← step_out amount_in input_asset output_asset d;
      amounts ← amounts_out amount output_asset path d;
      Ok (amount :: amounts)
  end.
Definition get_amount_out_by_path (amount_in : Z) (path : list CurrencyId.t) (d : Dex) : outcome DError (list Z) :=
  match path with
  | input_asset :: (_ :: _) as rest =>
      amounts ← amounts_out amount_in input_asset rest d;
      Ok (amount_in :: amounts)
  | _ => Err (dex_error InvalidPath)
  end.
(** The amounts before the last, latest first, over the reversed path. *)
Fixpoint amounts_in (amount_out : Z) (output_asset : CurrencyId.t) (rpath : list CurrencyId.t) (d : Dex)
  : outcome DError (list Z) :=
  match rpath with
  | [] => Ok []
  | input_asset :: rpath =>
      amount ← step_in amount_out output_asset input_asset d;
      amounts ← amounts_in amount input_asset rpath d;
      Ok (amount :: amounts)
  end.
Definition get_amount_in_by_path (amount_out : Z) (path : list CurrencyId.t) (d : Dex) : outcome DError (list Z) :=
  match reverse path with
  | output_asset :: (_ :: _) as rest =>
      amounts ← amounts_in amount_out output_asset rest d;
      Ok (reverse (amount_out :: amounts))
  | _ => Err (dex_error InvalidPath)
  end.

Definition pair_swap (asset_0 asset_1 : CurrencyId.t) (pair_account : AccountId) (amount_0 amount_1 : Z)
    (recipient : AccountId) : D unit :=
  let pair := sort_asset_id asset_0 asset_1 in
  trading pair;;
  reserve_0 ← gets (free asset_0 pair_account);
  reserve_1 ← gets (free asset_1 pair_account);
  ensureM ((amount_0 <=? reserve_0) && (amount_1 <=? reserve_1)) (dex_error InsufficientPairReserve);;
  whenM (amount_0 >? 0) (transfer asset_0 pair_account recipient amount_0);;
  whenM (amount_1 >? 0) (transfer asset_1 pair_account recipient amount_1).
(** What the pair of [input] and [output] gives out. *)
Definition swap_out (input output : CurrencyId.t) (amount : Z) (recipient : AccountId) : D unit :=
  let '(asset_0, asset_1) := sort_asset_id input output in
  let '(amount0_out, amount1_out) := if decide (input = asset_0) then (0, amount) else (amount, 0) in
  pair_swap asset_0 asset_1 (pair_account_id asset_0 asset_1) amount0_out amount1_out recipient.
(** The loop over the path; each pair but the last pays into the next. *)
Fixpoint swap (amounts : list Z) (path : list CurrencyId.t) (recipient : AccountId) : D unit :=
  match amounts, path with
  | _ :: (amount :: more) as amounts, input :: (output :: rest) as path =>
      match more, rest with
      | [], _ => swap_out input output amount recipient
      | _, next :: _ =>
          swap_out input output amount (pair_account_id output next);;
          swap amounts path recipient
      | _, [] => lift Panic
      end
  | [_], _ => mret tt
  | _, _ => lift Panic
  end.

(** The first two entries of the path; indexing panics if there are none. *)
Definition first_pair (path : list CurrencyId.t) : outcome DError AccountId :=
  match path with
  | asset_0 :: asset_1 :: _ => Ok (pair_account_id asset_0 asset_1)
  | _ => Panic
  end.
Definition inner_swap_exact_assets_for_assets (who : AccountId) (amount_in amount_out_min : Z)
    (path : list CurrencyId.t) (recipient : AccountId) : D unit :=
  amounts ← query (get_amount_out_by_path amount_in path);
  amount_out ← lift (unwrap (last amounts));
  ensureM (amount_out_min <=? amount_out) (dex_error InsufficientTargetAmount);;
  pair_account ← lift (first_pair path);
  path_0 ← lift (unwrap (head path));
  transfer path_0 who pair_account amount_in;;
  swap amounts path recipient;;
  deposit_event (AssetSwap who recipient path amounts).
Definition inner_swap_assets_for_exact_assets (who : AccountId) (amount_out amount_in_max : Z)
    (path : list CurrencyId.t) (recipient : AccountId) : D unit :=
  ensureM (forallb validate_asset path) (dex_error UnsupportedAssetType);;
  amounts ← query (get_amount_in_by_path amount_out path);
  amount_in ← lift (unwrap (head amounts));
  ensureM (amount_in <=? amount_in_max) (dex_error ExcessiveSoldAmount);;
  pair_account ← lift (first_pair path);
  path_0 ← lift (unwrap (head path));
  transfer path_0 who pair_account amount_in;;
  swap amounts path recipient;;
  deposit_event (AssetSwap who recipient path amounts).

(** ** Bootstraps *)

(** After the end block, without enough contributions. *)
Definition bootstrap_disable (params : BootstrapParameter) (d : Dex) : bool :=
  (block_number d >? end_block_number params) &&
  (((accumulated_supply params).1 <? (target_supply params).1) ||
   ((accumulated_supply params).2 <? (target_supply params).2)).
Definition bootstrap_check_limits (asset_0 asset_1 : CurrencyId.t) (account : AccountId) (d : Dex) : bool :=
  let limits := get_bootstrap_limits (sort_asset_id asset_0 asset_1) d in
  forallb (λ kv : CurrencyId.t * Z, kv.2 <=? free kv.1 account d) (map_iter limits).

(** A contribution is cut to what is left of the capacity. *)
Definition clip_contribution (contribute accumulated capacity : Z) : outcome DError Z :=
  sum ← ok_or (checked_add BALANCE contribute accumulated) (dex_error Overflow);
  if sum >? capacity then ok_or (checked_sub capacity accumulated) (dex_error Overflow) else Ok contribute.
Definition add_pair (x y : Z * Z) : outcome DError (Z * Z) :=
  a ← ok_or (checked_add BALANCE x.1 y.1) (dex_error Overflow);
  b ← ok_or (checked_add BALANCE x.2 y.2) (dex_error Overflow);
  Ok (a, b).
Definition do_bootstrap_contribute (who : AccountId) (asset_0 asset_1 : CurrencyId.t)
    (amount_0_contribute amount_1_contribute : Z) : D unit :=
  let pair := sort_asset_id asset_0 asset_1 in
  status ← gets (pair_status pair);
  match status with
  | Bootstrap parameter =>
      now ← gets block_number;
      ensureM (now <? end_block_number parameter) (dex_error NotInBootstrap);;
      let '(amount_0, amount_1) :=
        if decide (pair.1 = asset_0) then (amount_0_contribute, amount_1_contribute)
        else (amount_1_contribute, amount_0_contribute) in
      amount_0 ← lift (clip_contribution amount_0 (accumulated_supply parameter).1 (capacity_supply parameter).1);
      amount_1 ← lift (clip_contribution amount_1 (accumulated_supply parameter).2 (capacity_supply parameter).2);
      ensureM ((1 <=? amount_0) || (1 <=? amount_1)) (dex_error InvalidContributionAmount);;
      contribution ← gets (λ d, default (0, 0) (BootstrapPersonalSupply (dex d) !! (pair, who)));
      contribution ← lift (add_pair contribution (amount_0, amount_1));
      transfer pair.1 who bootstrap_account_id amount_0;;
      transfer pair.2 who bootstrap_account_id amount_1;;
      accumulated ← lift (add_pair (accumulated_supply parameter) (amount_0, amount_1));
      put_status pair (Bootstrap (set_accumulated accumulated parameter));;
      deposit_event (BootstrapContribute who pair.1 pair.2 amount_0 amount_1);;
      update (with_BootstrapPersonalSupply <[(pair, who) := contribution]>)
  | _ => fail (dex_error NotInBootstrap)
  end.

Definition do_end_bootstrap (asset_0 asset_1 : CurrencyId.t) : D unit :=
  let pair := sort_asset_id asset_0 asset_1 in
  status ← gets (pair_status pair);
  match status with
  | Bootstrap parameter =>
      let accumulated := accumulated_supply parameter in
      now ← gets block_number;
      ensureM ((end_block_number parameter <=? now) && ((target_supply parameter).1 <=? accumulated.1) &&
               ((target_supply parameter).2 <=? accumulated.2)) (dex_error UnqualifiedBootstrap);;
      let total_lp_supply := calculate_liquidity accumulated.1 accumulated.2 0 0 0 in
      ensureM (total_lp_supply >? 0) (dex_error Overflow);;
      let pair_account := pair_account_id pair.1 pair.2 in
      lp_asset_id ← query (λ d, ok_or (lp_pairs pair d) (dex_error InsufficientAssetBalance));
      transfer pair.1 (bootstrap_account parameter) pair_account accumulated.1;;
      transfer pair.2 (bootstrap_account parameter) pair_account accumulated.2;;
      mint lp_asset_id pair_account total_lp_supply;;
      put_status pair (Trading (mkMetadata pair_account total_lp_supply DEFAULT_FEE_RATE));;
      update (with_BootstrapEndStatus <[pair := Bootstrap parameter]>);;
      deposit_event (BootstrapEnd pair.1 pair.2 accumulated.1 accumulated.2 total_lp_supply)
  | _ => fail (dex_error NotInBootstrap)
  end.

(** The owner's share of every reward; what was paid. *)
Fixpoint pay_rewards (owner reward_holder : AccountId) (share_lp total_lp : Z) (rewards : list (CurrencyId.t * Z))
  : D (list (CurrencyId.t * Z)) :=
  match rewards with
  | [] => mret []
  | (asset_id, reward_amount) :: rewards =>
      owner_reward ← lift (ok_or (r ← checked_mul U256 share_lp reward_amount; n ← checked_div r total_lp;
                                  try_balance n) (dex_error Overflow));
      transfer asset_id reward_holder owner owner_reward;;
      paid ← pay_rewards owner reward_holder share_lp total_lp rewards;
      mret ((asset_id, owner_reward) :: paid)
  end.
Definition bootstrap_distribute_reward (owner reward_holder : AccountId) (asset_0 asset_1 : CurrencyId.t)
    (share_lp total_lp : Z) : D unit :=
  let pair := sort_asset_id asset_0 asset_1 in
  rewards ← gets (get_bootstrap_rewards pair);
  distribute_rewards ← pay_rewards owner reward_holder share_lp total_lp (map_iter rewards);
  match distribute_rewards with
  | [] => mret tt
  | _ => deposit_event (DistributeReward pair.1 pair.2 reward_holder distribute_rewards)
  end.

(** [contribution.take()] *)
Definition take_contribution (pair : Pair) (who : AccountId) : D (Z * Z) :=
  contribution ← gets (λ d, BootstrapPersonalSupply (dex d) !! (pair, who));
  contribution ← lift (ok_or contribution (dex_error ZeroContribute));
  update (with_BootstrapPersonalSupply (delete (pair, who)));;
  mret contribution.
Definition do_bootstrap_claim (who recipient : AccountId) (asset_0 asset_1 : CurrencyId.t) : D unit :=
  let pair := sort_asset_id asset_0 asset_1 in
  trading' ← gets (pair_status pair);
  match trading' with
  | Trading _ =>
      contributed ← take_contribution pair who;
      ended ← gets (bootstrap_end_status pair);
      match ended with
      | Bootstrap parameter =>
          disabled ← gets (bootstrap_disable parameter);
          ensureM (negb disabled) (dex_error DisableBootstrap);;
          liquidity ← lift (claim_liquidity contributed (accumulated_supply parameter));
          let pair_account := pair_account_id pair.1 pair.2 in
          lp_asset_id ← query (λ d, ok_or (lp_pairs pair d) (dex_error InsufficientAssetBalance));
          transfer lp_asset_id pair_account recipient liquidity;;
          total ← lift (ok_or (root_liquidity (accumulated_supply parameter).1 (accumulated_supply parameter).2)
                          (dex_error Overflow));
          bootstrap_distribute_reward who (bootstrap_account parameter) pair.1 pair.2 liquidity total;;
          deposit_event (BootstrapClaim pair_account who recipient pair.1 pair.2 contributed.1 contributed.2 liquidity)
      | _ => fail (dex_error NotInBootstrap)
      end
  | _ => fail (dex_error NotInBootstrap)
  end.

Definition do_bootstrap_refund (who : AccountId) (asset_0 asset_1 : CurrencyId.t) : D unit :=
  let pair := sort_asset_id asset_0 asset_1 in
  status ← gets (pair_status pair);
  ended ← gets (bootstrap_end_status pair);
  params ← match status, ended with
           | Bootstrap params, _ | _, Bootstrap params => mret params
           | _, _ => fail (dex_error DenyRefund)
           end;
  disabled ← gets (bootstrap_disable params);
  ensureM disabled (dex_error DenyRefund);;
  contributed ← take_contribution pair who;
  transfer pair.1 bootstrap_account_id who contributed.1;;
  transfer pair.2 bootstrap_account_id who contributed.2;;
  match status with
  | Bootstrap parameter =>
      a ← lift (ok_or (checked_sub (accumulated_supply parameter).1 contributed.1) (dex_error Overflow));
      b ← lift (ok_or (checked_sub (accumulated_supply parameter).2 contributed.2) (dex_error Overflow));
      put_status pair (Bootstrap (set_accumulated (a, b) parameter))
  | _ => mret tt
  end;;
  deposit_event (BootstrapRefund bootstrap_account_id who pair.1 pair.2 contributed.1 contributed.2).
End dex_general.
End DexGeneral.

(** ** The extrinsics; the accounts are those looked up from the arguments *)
Module DexCalls.
Import DexStore DexMath DexGeneralError DexGeneral.
Section calls.
Context `{DexEnv}.

Abbreviation D := (M Dex DError).

(** Constants of the runtime *)
Definition MaxBootstrapRewards : Z := 1000.
Definition MaxBootstrapLimits : Z := 1000.

Definition set_fee_receiver (origin : Origin) (send_to : option AccountId) : D unit :=
  lift (ensure_root origin);;
  update (with_FeeMeta (λ fee_meta, (send_to, fee_meta.2))).
Definition set_fee_point (origin : Origin) (fee_point : Z) : D unit :=
  lift (ensure_root origin);;
  update (with_FeeMeta (λ fee_meta, (fee_meta.1, fee_point)));;
  deposit_event (NewFeePoint fee_point).
Definition set_exchange_fee (origin : Origin) (asset_0 asset_1 : CurrencyId.t) (fee_rate : Z) : D unit :=
  lift (ensure_root origin);;
  ensureM (fee_rate <? FEE_ADJUSTMENT) (dex_error InvalidFeeRate);;
  let pair := sort_asset_id asset_0 asset_1 in
  status ← gets (pair_status pair);
  match status with
  | Trading m => put_status pair (Trading (mkMetadata (pair_account m) (total_supply m) fee_rate))
  | Bootstrap _ => fail (dex_error PairAlreadyExists)
  | Disable => fail (dex_error PairNotExists)
  end;;
  deposit_event (NewFeeRate asset_0 asset_1 fee_rate).

Definition create_pair (origin : Origin) (asset_0 asset_1 : CurrencyId.t) (fee_rate : Z) : D unit :=
  lift (ensure_root origin);;
  ensureM (validate_asset asset_0 && validate_asset asset_1) (dex_error UnsupportedAssetType);;
  ensureM (negb (bool_decide (asset_0 = asset_1))) (dex_error DeniedCreatePair);;
  ensureM (fee_rate <? FEE_ADJUSTMENT) (dex_error InvalidFeeRate);;
  let pair := sort_asset_id asset_0 asset_1 in
  let created := Trading (mkMetadata (pair_account_id pair.1 pair.2) 0 fee_rate) in
  status ← gets (pair_status pair);
  match status with
  | Trading _ => fail (dex_error PairAlreadyExists)
  | Bootstrap params =>
      disabled ← gets (bootstrap_disable params);
      if disabled : bool then
        update (with_BootstrapEndStatus <[pair := Bootstrap params]>);;
        put_status pair created
      else fail (dex_error PairAlreadyExists)
  | Disable => put_status pair created
  end;;
  mutate_lp_pairs asset_0 asset_1;;
  deposit_event (PairCreated asset_0 asset_1 fee_rate).

Definition before_deadline (deadline : Z) : D unit :=
  now ← gets block_number;
  ensureM (deadline >? now) (dex_error Deadline).
Definition add_liquidity (origin : Origin) (asset_0 asset_1 : CurrencyId.t)
    (amount_0_desired amount_1_desired amount_0_min amount_1_min deadline : Z) : D unit :=
  ensureM (validate_asset asset_0 && validate_asset asset_1) (dex_error UnsupportedAssetType);;
  who ← lift (ensure_signed origin);
  before_deadline deadline;;
  inner_add_liquidity who asset_0 asset_1 amount_0_desired amount_1_desired amount_0_min amount_1_min.
Definition remove_liquidity (origin : Origin) (asset_0 asset_1 : CurrencyId.t)
    (liquidity amount_0_min amount_1_min : Z) (recipient : AccountId) (deadline : Z) : D unit :=
  ensureM (validate_asset asset_0 && validate_asset asset_1) (dex_error UnsupportedAssetType);;
  who ← lift (ensure_signed origin);
  before_deadline deadline;;
  inner_remove_liquidity who asset_0 asset_1 liquidity amount_0_min amount_1_min recipient.
Definition swap_exact_assets_for_assets (origin : Origin) (amount_in amount_out_min : Z) (path : list CurrencyId.t)
    (recipient : AccountId) (deadline : Z) : D unit :=
  who ← lift (ensure_signed origin);
  before_deadline deadline;;
  ensureM (forallb validate_asset path) (dex_error UnsupportedAssetType);;
  inner_swap_exact_assets_for_assets who amount_in amount_out_min path recipient.
Definition swap_assets_for_exact_assets (origin : Origin) (amount_out amount_in_max : Z) (path : list CurrencyId.t)
    (recipient : AccountId) (deadline : Z) : D unit :=
  who ← lift (ensure_signed origin);
  before_deadline deadline;;
  inner_swap_assets_for_exact_assets who amount_out amount_in_max path recipient.

(** The two amounts of an argument list, in the order of the pair. *)
Definition in_order (pair : Pair) (asset_0 : CurrencyId.t) (x_0 x_1 : Z) : Z * Z :=
  if decide (pair.1 = asset_0) then (x_0, x_1) else (x_1, x_0).
Definition no_rewards_left (pair : Pair) (d : Dex) : bool :=
  forallb (λ kv : CurrencyId.t * Z, kv.2 =? 0) (map_iter (get_bootstrap_rewards pair d)).
Definition put_rewards_and_limits (pair : Pair) (rewards : list CurrencyId.t) (limits : list (CurrencyId.t * Z))
  : D unit :=
  let rewards := collect ((λ asset_id, (asset_id, 0)) <$> rewards) in
  ensureM (Z.of_nat (size rewards) <=? MaxBootstrapRewards) (dex_error TooManyRewards);;
  update (with_BootstrapRewards <[pair := rewards]>);;
  let limits := collect limits in
  ensureM (Z.of_nat (size limits) <=? MaxBootstrapLimits) (dex_error TooManyLimits);;
  update (with_BootstrapLimits <[pair := limits]>).
(** The event carries the two capacities in the wrong order. *)
Definition bootstrap_create (origin : Origin) (asset_0 asset_1 : CurrencyId.t)
    (target_supply_0 target_supply_1 capacity_supply_0 capacity_supply_1 end_ : Z)
    (rewards : list CurrencyId.t) (limits : list (CurrencyId.t * Z)) : D unit :=
  lift (ensure_root origin);;
  let pair := sort_asset_id asset_0 asset_1 in
  let target := in_order pair asset_0 target_supply_0 target_supply_1 in
  let capacity := in_order pair asset_0 capacity_supply_0 capacity_supply_1 in
  status ← gets (pair_status pair);
  match status with
  | Trading _ => fail (dex_error PairAlreadyExists)
  | Bootstrap params =>
      disabled ← gets (bootstrap_disable params);
      ensureM disabled (dex_error PairAlreadyExists);;
      empty ← gets (no_rewards_left pair);
      ensureM empty (dex_error ExistRewardsInBootstrap);;
      put_rewards_and_limits pair rewards limits;;
      put_status pair (Bootstrap (mkBootstrap target capacity (accumulated_supply params) end_ bootstrap_account_id))
  | Disable =>
      put_rewards_and_limits pair rewards limits;;
      put_status pair (Bootstrap (mkBootstrap target capacity (0, 0) end_ bootstrap_account_id))
  end;;
  deposit_event (BootstrapCreated bootstrap_account_id pair.1 pair.2 target.1 target.2 capacity.2 capacity.1 end_).
Definition bootstrap_contribute (origin : Origin) (asset_0 asset_1 : CurrencyId.t)
    (amount_0_contribute amount_1_contribute deadline : Z) : D unit :=
  who ← lift (ensure_signed origin);
  qualified ← gets (bootstrap_check_limits asset_0 asset_1 who);
  ensureM qualified (dex_error NotQualifiedAccount);;
  before_deadline deadline;;
  do_bootstrap_contribute who asset_0 asset_1 amount_0_contribute amount_1_contribute.
Definition bootstrap_claim (origin : Origin) (recipient : AccountId) (asset_0 asset_1 : CurrencyId.t) (deadline : Z)
  : D unit :=
  who ← lift (ensure_signed origin);
  before_deadline deadline;;
  do_bootstrap_claim who recipient asset_0 asset_1.
Definition bootstrap_end (origin : Origin) (asset_0 asset_1 : CurrencyId.t) : D unit :=
  lift (ensure_signed origin);;
  mutate_lp_pairs asset_0 asset_1;;
  do_end_bootstrap asset_0 asset_1.
Definition bootstrap_update (origin : Origin) (asset_0 asset_1 : CurrencyId.t)
    (target_supply_0 target_supply_1 capacity_supply_0 capacity_supply_1 end_ : Z)
    (rewards : list CurrencyId.t) (limits : list (CurrencyId.t * Z)) : D unit :=
  lift (ensure_root origin);;
  let pair := sort_asset_id asset_0 asset_1 in
  let target := in_order pair asset_0 target_supply_0 target_supply_1 in
  let capacity := in_order pair asset_0 capacity_supply_0 capacity_supply_1 in
  let pair_account := pair_account_id asset_0 asset_1 in
  status ← gets (pair_status pair);
  match status with
  | Trading _ => fail (dex_error PairAlreadyExists)
  | Bootstrap params =>
      empty ← gets (no_rewards_left pair);
      ensureM empty (dex_error ExistRewardsInBootstrap);;
      put_rewards_and_limits pair rewards limits;;
      put_status pair (Bootstrap (mkBootstrap target capacity (accumulated_supply params) end_ bootstrap_account_id))
  | Disable => fail (dex_error NotInBootstrap)
  end;;
  deposit_event (BootstrapUpdate pair_account pair.1 pair.2 target.1 target.2 capacity.1 capacity.2 end_).
Definition bootstrap_refund (origin : Origin) (asset_0 asset_1 : CurrencyId.t) : D unit :=
  who ← lift (ensure_signed origin);
  do_bootstrap_refund who asset_0 asset_1.

Fixpoint charge_each (who : AccountId) (charge_rewards : list (CurrencyId.t * Z)) (rewards : gmap CurrencyId.t Z)
  : D (gmap CurrencyId.t Z) :=
  match charge_rewards with
  | [] => mret rewards
  | (asset_id, amount) :: charge_rewards =>
      already_charge_amount ← lift (ok_or (rewards !! asset_id) (dex_error NoRewardTokens));
      transfer asset_id who bootstrap_account_id amount;;
      new_charge_amount ← lift (ok_or (checked_add BALANCE already_charge_amount amount) (dex_error Overflow));
      charge_each who charge_rewards (<[asset_id := new_charge_amount]> rewards)
  end.
Definition bootstrap_charge_reward (origin : Origin) (asset_0 asset_1 : CurrencyId.t)
    (charge_rewards : list (CurrencyId.t * Z)) : D unit :=
  let pair := sort_asset_id asset_0 asset_1 in
  who ← lift (ensure_signed origin);
  rewards ← gets (get_bootstrap_rewards pair);
  ensureM (Nat.eqb (size rewards) (length charge_rewards)) (dex_error ChargeRewardParamsError);;
  rewards ← charge_each who charge_rewards rewards;
  deposit_event (ChargeReward pair.1 pair.2 who charge_rewards);;
  update (with_BootstrapRewards <[pair := rewards]>).
Definition bootstrap_withdraw_reward (origin : Origin) (asset_0 asset_1 : CurrencyId.t) (recipient : AccountId) : D unit :=
  lift (ensure_root origin);;
  let pair := sort_asset_id asset_0 asset_1 in
  rewards ← gets (get_bootstrap_rewards pair);
  for_each (λ kv : CurrencyId.t * Z, transfer kv.1 bootstrap_account_id recipient kv.2) (map_iter rewards);;
  update (with_BootstrapRewards <[pair := (λ _, 0) <$> rewards]>);;
  deposit_event (WithdrawReward pair.1 pair.2 recipient).

(** *** Queries of the RPC *)

Definition supply_out_amount (supply : Z) (path : list CurrencyId.t) (d : Dex) : Z :=
  match get_amount_out_by_path supply path d with Ok amounts => default 0 (last amounts) | _ => 0 end.
Definition desired_in_amount (desired_amount : Z) (path : list CurrencyId.t) (d : Dex) : Z :=
  match get_amount_in_by_path desired_amount path d with Ok amounts => default 0 (head amounts) | _ => 0 end.
Definition get_estimate_lptoken (asset_0 asset_1 : CurrencyId.t)
    (amount_0_desired amount_1_desired amount_0_min amount_1_min : Z) (d : Dex) : Z :=
  match pair_status (sort_asset_id asset_0 asset_1) d with
  | Trading metadata =>
      let reserve_0 := free asset_0 (pair_account metadata) d in
      let reserve_1 := free asset_1 (pair_account metadata) d in
      match calculate_added_amount amount_0_desired amount_1_desired amount_0_min amount_1_min reserve_0 reserve_1 with
      | Ok (amount_0, amount_1) => calculate_liquidity amount_0 amount_1 reserve_0 reserve_1 (total_supply metadata)
      | _ => 0
      end
  | _ => 0
  end.
Record PairInfo : Type := mkPairInfo {
  info_asset_0 : CurrencyId.t;
  info_asset_1 : CurrencyId.t;
  info_account : AccountId;
  total_liquidity : Z;
  holding_liquidity : Z;
  info_reserve_0 : Z;
  info_reserve_1 : Z;
  info_lp_asset_id : CurrencyId.t;
  info_status : Z;
}.
Definition get_pair_by_asset_id (asset_0 asset_1 : CurrencyId.t) (d : Dex) : option PairInfo :=
  let pair_account := pair_account_id asset_0 asset_1 in
  lp_asset_id ← lp_asset_id asset_0 asset_1;
  status ← match pair_status (sort_asset_id asset_0 asset_1) d with
           | Trading _ => Some 0
           | Bootstrap _ => Some 1
           | Disable => None
           end;
  Some (mkPairInfo asset_0 asset_1 pair_account (total_issuance lp_asset_id (tokens d)) 0
          (free asset_0 pair_account d) (free asset_1 pair_account d) lp_asset_id status).
Definition calculate_remove_liquidity (asset_0 asset_1 : CurrencyId.t) (amount : Z) (d : Dex) : option (Z * Z) :=
  let pair_account := pair_account_id asset_0 asset_1 in
  lp_asset_id ← lp_asset_id asset_0 asset_1;
  let lp_total_supply := total_issuance lp_asset_id (tokens d) in
  Some (calculate_share_amount amount lp_total_supply (free asset_0 pair_account d),
        calculate_share_amount amount lp_total_supply (free asset_1 pair_account d)).
End calls.
End DexCalls.
