(* ===== verification/DexSwap.v ===== *)
(** * What the arithmetic of the exchange guarantees, and what a swap does

    Shares are rounded down; a quoted price is never too low in either
    direction; the protocol fee takes no more than the growth of the pair; the
    claims of a bootstrap never exceed the liquidity minted for it.

    The loop over a path moves every amount from one pair to the next.  On a
    path that uses every pair once, each pair gains what the one before paid and
    loses what it pays, so the product of its reserves, checked on the quote,
    does not fall. *)

From coqutil Require Import Byte.
From Stdlib Require Import ZArith Lia.
From stdpp Require Import base tactics option list numbers gmap.
From S2P Require Import Prelude Bytes Security Primitives Tokens Frames DexStore DexMath DexGeneral.

Local Open Scope Z_scope.
Import DexStore DexMath DexGeneralError.

Lemma checked_div_Some a b n : checked_div a b = Some n ↔ b ≠ 0 ∧ n = a / b.
Proof. unfold checked_div. destruct (Z.eqb_spec b 0); naive_solver. Qed.
Lemma try_balance_Some a n : try_balance a = Some n ↔ n = a ∧ fits BALANCE a.
Proof. apply checked_Some. Qed.
Lemma floor_mul_le a b : 0 < b → a / b * b ≤ a.
Proof. intros. rewrite Z.mul_comm. by apply Z.mul_div_le. Qed.

(** A share never exceeds its part of the reserve. *)
Lemma share_amount_le a r0 r1 :
  0 ≤ a → 0 ≤ r1 → 0 < r0 →
  0 ≤ calculate_share_amount a r0 r1 ∧ calculate_share_amount a r0 r1 * r0 ≤ a * r1.
Proof.
  intros Ha Hr1 Hr0. unfold calculate_share_amount.
  destruct (_ ≫= _) as [s |] eqn:Hs; cbn; [| nia].
  apply bind_Some in Hs as (n & [-> Hn]%checked_Some & Hs). apply bind_Some in Hs as (q & [_ ->]%checked_div_Some & Hs).
  apply try_balance_Some in Hs as [-> [Hq _]]. split; [done | by apply floor_mul_le].
Qed.
(** It is that part, rounded down, when it fits. *)
Lemma share_amount_eq a r0 r1 :
  fits BALANCE a → fits BALANCE r1 → 0 < r0 → fits BALANCE (a * r1 / r0) →
  calculate_share_amount a r0 r1 = a * r1 / r0.
Proof.
  unfold calculate_share_amount. intros Ha Hr Hr0 Hf. unfold checked_mul.
  assert (fits U256 (a * r1)) as Hu by (unfold fits, BALANCE, U256 in *; nia).
  rewrite (checked_fits _ _ Hu). cbn. unfold checked_div. destruct (Z.eqb_spec r0 0); [lia |]. cbn.
  unfold try_balance. by rewrite (checked_fits _ _ Hf).
Qed.

Lemma share_amount_nonneg a r0 r1 : 0 ≤ calculate_share_amount a r0 r1.
Proof.
  unfold calculate_share_amount. destruct (_ ≫= _) as [s |] eqn:Hs; cbn; [| done].
  apply bind_Some in Hs as (n & _ & Hs). apply bind_Some in Hs as (q & _ & Hs). by apply try_balance_Some in Hs as [-> [? _]].
Qed.
Lemma share_amount_empty a r : calculate_share_amount a 0 r = 0.
Proof. unfold calculate_share_amount. by destruct (checked_mul U256 a r). Qed.
Lemma added_amount_nonneg x y n0 n1 r0 r1 x0 x1 :
  0 ≤ x → 0 ≤ y → calculate_added_amount x y n0 n1 r0 r1 = Ok (x0, x1) → 0 ≤ x0 ∧ 0 ≤ x1.
Proof.
  unfold calculate_added_amount. intros Hx Hy Ha. pose proof share_amount_nonneg.
  destruct (_ || _); [by injection Ha as <- <- |]. destruct (_ <=? y); outcome_inv; auto.
Qed.

(** ** Prices *)

Lemma get_amount_out_Ok x r0 r1 fee y :
  get_amount_out x r0 r1 fee = Ok y ↔
  (r0 ≠ 0 ∧ r1 ≠ 0 ∧ x ≠ 0) ∧
  let x' := x * saturating_sub FEE_ADJUSTMENT fee in
  fits U256 x' ∧ fits U256 (x' * r1) ∧ fits U256 (r0 * FEE_ADJUSTMENT) ∧ fits U256 (r0 * FEE_ADJUSTMENT + x') ∧
  r0 * FEE_ADJUSTMENT + x' ≠ 0 ∧ y = x' * r1 / (r0 * FEE_ADJUSTMENT + x') ∧ fits BALANCE y.
Proof.
  unfold get_amount_out. split.
  - intros Hy. outcome_inv. rewrite !andb_true_iff, !negb_true_iff, !Z.eqb_neq in *.
    unfold checked_mul in *.
    repeat match goal with
    | H : checked _ _ = Some _ |- _ => apply checked_Some in H as [-> ?]
    | H : (_ ≫= _) = Some _ |- _ => apply bind_Some in H as (? & ? & H)
    | H : checked_div _ _ = Some _ |- _ => apply checked_div_Some in H as [? ->]
    | H : try_balance _ = Some _ |- _ => apply try_balance_Some in H as [-> ?]
    | H : checked_add _ _ _ = Some _ |- _ => apply checked_Some in H as [-> ?]
    end. naive_solver.
  - intros [(Hr0 & Hr1 & Hx) (H1 & H2 & H3 & H4 & Hne & -> & Hf)].
    apply Z.eqb_neq in Hr0, Hr1, Hx. rewrite Hr0, Hr1, Hx. cbn.
    unfold checked_mul, checked_add. rewrite (checked_fits _ _ H1). cbn. rewrite (checked_fits _ _ H2). cbn.
    rewrite (checked_fits _ _ H3). cbn. rewrite (checked_fits _ _ H4). cbn. unfold checked_div.
    apply Z.eqb_neq in Hne. rewrite Hne. cbn. unfold try_balance. by rewrite (checked_fits _ _ Hf).
Qed.

(** What leaves a pair keeps the product of its reserves, whatever the fee. *)
Lemma amount_out_keeps_product x r0 r1 fee y :
  0 ≤ x → 0 < r0 → 0 ≤ r1 → 0 ≤ fee → get_amount_out x r0 r1 fee = Ok y →
  0 ≤ y ≤ r1 ∧ r0 * r1 ≤ (r0 + x) * (r1 - y).
Proof.
  intros Hx Hr0 Hr1 Hfee (_ & _ & _ & _ & _ & Hne & -> & Hf)%get_amount_out_Ok.
  set (x' := x * saturating_sub FEE_ADJUSTMENT fee) in *.
  assert (0 ≤ x' ≤ x * FEE_ADJUSTMENT) as Hx' by (unfold x', saturating_sub; unfold FEE_ADJUSTMENT in *; nia).
  set (den := r0 * FEE_ADJUSTMENT + x') in *. assert (0 < den) as Hd by (unfold den, FEE_ADJUSTMENT in *; nia).
  pose proof (floor_mul_le (x' * r1) den Hd) as Hy. set (y := x' * r1 / den) in *.
  assert (0 ≤ y) as Hy0 by (destruct Hf; done).
  assert (y * (r0 * FEE_ADJUSTMENT) ≤ x' * (r1 - y)) as Hk by (unfold den in Hy; lia).
  assert (y ≤ r1) as Hyr.
  { destruct (Z.le_gt_cases y r1) as [| Hgt]; [done |].
    assert (x' * (r1 - y) ≤ 0) by nia. assert (0 < y * (r0 * FEE_ADJUSTMENT)) by (unfold FEE_ADJUSTMENT in *; nia). lia. }
  assert (x' * (r1 - y) ≤ x * FEE_ADJUSTMENT * (r1 - y)) as Hx'' by (apply Z.mul_le_mono_nonneg_r; lia).
  split; [done |]. assert (y * r0 ≤ x * (r1 - y)) by (unfold FEE_ADJUSTMENT in *; lia). lia.
Qed.

Lemma get_amount_in_Ok y r0 r1 fee x :
  get_amount_in y r0 r1 fee = Ok x →
  (r0 ≠ 0 ∧ r1 ≠ 0 ∧ y ≠ 0) ∧ y ≤ r1 ∧
  let n := r0 * y * FEE_ADJUSTMENT in let d := (r1 - y) * saturating_sub FEE_ADJUSTMENT fee in
  fits U256 n ∧ fits U256 d ∧ d ≠ 0 ∧ x = n / d + 1 ∧ fits BALANCE x.
Proof.
  unfold get_amount_in. intros Hx. outcome_inv. rewrite !andb_true_iff, !negb_true_iff, !Z.eqb_neq in *.
  unfold checked_mul in *.
  repeat match goal with
  | H : checked _ _ = Some _ |- _ => apply checked_Some in H as [-> ?]
  | H : (_ ≫= _) = Some _ |- _ => apply bind_Some in H as (? & ? & H)
  | H : checked_sub _ _ = Some _ |- _ => apply checked_sub_Some in H as [-> ?]
  | H : checked_div _ _ = Some _ |- _ => apply checked_div_Some in H as [? ->]
  | H : try_balance _ = Some _ |- _ => apply try_balance_Some in H as [-> ?]
  | H : checked_add _ _ _ = Some _ |- _ => apply checked_Some in H as [-> ?]
  end. naive_solver.
Qed.

Lemma amount_in_keeps_product y r0 r1 fee x :
  0 < y → 0 < r0 → 0 ≤ fee → get_amount_in y r0 r1 fee = Ok x →
  0 < x ∧ y ≤ r1 ∧ r0 * r1 ≤ (r0 + x) * (r1 - y).
Proof.
  intros Hy Hr0 Hfee (_ & Hyr & _ & Hd & Hne & -> & Hx)%get_amount_in_Ok. cbv zeta in *.
  set (d := (r1 - y) * saturating_sub FEE_ADJUSTMENT fee) in *. set (n := r0 * y * FEE_ADJUSTMENT) in *.
  assert (0 < d ≤ (r1 - y) * FEE_ADJUSTMENT) as Hdb.
  { split; [destruct Hd; lia |]. unfold d. apply Z.mul_le_mono_nonneg_l; [lia |]. unfold saturating_sub, FEE_ADJUSTMENT. lia. }
  pose proof (Z.mul_succ_div_gt n d (proj1 Hdb)) as Hlt. unfold Z.succ in Hlt.
  assert (0 ≤ n / d) as H0 by (apply Z.div_pos; [unfold n, FEE_ADJUSTMENT; nia | lia]).
  set (x := n / d + 1) in *. split; [lia |]. split; [done |].
  assert (d * x ≤ (r1 - y) * FEE_ADJUSTMENT * x) as Hle by (apply Z.mul_le_mono_nonneg_r; lia).
  assert (r0 * y ≤ (r1 - y) * x) by (unfold n, FEE_ADJUSTMENT in *; lia). lia.
Qed.

(** Paying the quoted input buys at least the output it was quoted for. *)
Lemma amount_in_out y r0 r1 fee x y' :
  0 < y → 0 < r0 → 0 ≤ fee →
  get_amount_in y r0 r1 fee = Ok x → get_amount_out x r0 r1 fee = Ok y' → y ≤ y'.
Proof.
  intros Hy Hr0 Hfee (_ & Hyr & _ & Hd & Hne & -> & Hx)%get_amount_in_Ok Hout. cbv zeta in *.
  apply get_amount_out_Ok in Hout as (_ & _ & _ & _ & _ & _ & -> & _).
  set (g := saturating_sub FEE_ADJUSTMENT fee) in *. assert (0 ≤ g) as Hg by (unfold g, saturating_sub; lia).
  set (n := r0 * y * FEE_ADJUSTMENT) in *. assert (0 < (r1 - y) * g) as Hd0 by (destruct Hd; lia).
  pose proof (Z.mul_succ_div_gt n _ Hd0) as Hlt. unfold Z.succ in Hlt. set (x := n / ((r1 - y) * g) + 1) in *.
  assert (0 ≤ x) as Hx0 by (destruct Hx; done).
  apply Z.div_le_lower_bound; [unfold FEE_ADJUSTMENT; nia |]. unfold n in Hlt. nia.
Qed.

(** ** Liquidity *)
Section sqrt.
Context `{IntegerSqrt}.

Lemma root_liquidity_Some a b s :
  0 ≤ a → 0 ≤ b → root_liquidity a b = Some s → 0 ≤ s ∧ s * s ≤ a * b < (s + 1) * (s + 1).
Proof.
  intros Ha Hb Hs. unfold root_liquidity in Hs. apply bind_Some in Hs as (n & [-> _]%checked_Some & Hs).
  apply try_balance_Some in Hs as [-> _]. apply integer_sqrt_spec. nia.
Qed.

(** What is minted for a contribution leaves no share with less of a reserve. *)
Lemma calculate_liquidity_bound x0 x1 r0 r1 total :
  0 ≤ x0 → 0 ≤ x1 → 0 ≤ r0 → 0 ≤ r1 → 0 < total →
  let l := calculate_liquidity x0 x1 r0 r1 total in l * r0 ≤ x0 * total ∧ l * r1 ≤ x1 * total.
Proof.
  intros Hx0 Hx1 Hr0 Hr1 Ht. unfold calculate_liquidity. destruct (Z.eqb_spec total 0); [lia |].
  assert (∀ x r, 0 ≤ x → 0 ≤ r → calculate_share_amount x r total * r ≤ x * total) as Hle.
  { intros x r Hx Hr. destruct (decide (r = 0)) as [-> |]; [nia |]. apply share_amount_le; lia. }
  pose proof (Hle x0 r0 Hx0 Hr0). pose proof (Hle x1 r1 Hx1 Hr1).
  split; (etransitivity; [apply Z.mul_le_mono_nonneg_r; [done |] | eassumption]); lia.
Qed.

(** The protocol fee, minted to the supply, leaves the other shares at least the root of
    the product that was recorded last. *)
Lemma protocol_fee_bound fee_point k_last r0 r1 total fee :
  0 ≤ fee_point → 0 ≤ k_last → 0 ≤ r0 → 0 ≤ r1 → 0 ≤ total →
  protocol_fee fee_point k_last r0 r1 total = Ok fee →
  0 ≤ fee ∧ (0 < fee → (total + fee) * integer_sqrt k_last ≤ total * integer_sqrt (r0 * r1)).
Proof.
  intros Hp Hk H0 H1 Ht. unfold protocol_fee. destruct (k_last =? 0); [intros [= <-]; lia |].
  intros Hf. apply bind_Ok in Hf as (k & Hk'%ok_or_Ok & Hf). unfold checked_mul in Hk'.
  apply checked_Some in Hk' as [-> _]. rewrite Z.gtb_ltb in Hf.
  destruct (Z.ltb_spec (integer_sqrt k_last) (integer_sqrt (r0 * r1))) as [Hlt |]; [| injection Hf as <-; lia].
  outcome_inv. unfold checked_mul in *.
  repeat match goal with
  | H : checked _ _ = Some _ |- _ => apply checked_Some in H as [-> ?]
  | H : (_ ≫= _) = Some _ |- _ => apply bind_Some in H as (? & ? & H)
  | H : checked_sub _ _ = Some _ |- _ => apply checked_sub_Some in H as [-> ?]
  | H : checked_add _ _ _ = Some _ |- _ => apply checked_Some in H as [-> ?]
  end.
  destruct (_ ≫= _) as [fee |] eqn:Hq; cbn in *; [| lia].
  apply bind_Some in Hq as (n & [Hne ->]%checked_div_Some & Hq). apply try_balance_Some in Hq as [-> [Hq0 _]].
  split; [done |]. intros _.
  destruct (integer_sqrt_spec k_last Hk) as [Hrl _]. destruct (integer_sqrt_spec (r0 * r1) ltac:(nia)) as [Hrk _].
  set (rk := integer_sqrt (r0 * r1)) in *. set (rl := integer_sqrt k_last) in *.
  assert (0 < rk * fee_point + rl) as Hd by nia.
  pose proof (floor_mul_le (total * (rk - rl)) _ Hd) as Hle. set (f := total * (rk - rl) / (rk * fee_point + rl)) in *.
  assert (0 ≤ f * (rk * fee_point)) by nia. lia.
Qed.
End sqrt.

(** ** Claims of a bootstrap *)

Lemma square_le_inv a b : 0 ≤ b → a * a ≤ b * b → a ≤ b.
Proof. intros Hb Hab. destruct (Z.le_gt_cases a b); [done | nia]. Qed.
(** Roots add up: the triangle inequality without roots. *)
Lemma root_add k a b x y :
  0 ≤ k → 0 ≤ a → 0 ≤ b → 0 ≤ x → 0 ≤ y → a * a * k ≤ x * x → b * b * k ≤ y * y →
  (a + b) * (a + b) * k ≤ (x + y) * (x + y).
Proof.
  intros Hk Ha Hb Hx Hy Hax Hby. assert (a * b * k ≤ x * y) as Hab; [| nia].
  apply square_le_inv; [nia |].
  transitivity (a * a * k * (b * b * k)); [lia |]. transitivity (x * x * (b * b * k)).
  - apply Z.mul_le_mono_nonneg_r; [| done]. apply Z.mul_nonneg_nonneg; [apply Z.mul_nonneg_nonneg |]; done.
  - transitivity (x * x * (y * y)); [| lia]. apply Z.mul_le_mono_nonneg_l; [apply Z.mul_nonneg_nonneg |]; done.
Qed.

Definition claim_weight (accumulated contributed : Z * Z) : Z :=
  contributed.1 * accumulated.2 + contributed.2 * accumulated.1.

Lemma exact_amount_bound a s b s' d n :
  0 ≤ a → 0 ≤ s → 0 ≤ b → 0 ≤ s' → 0 < d → exact_amount a s b s' d = Some n → 0 ≤ n ∧ n * (2 * d) ≤ a * s + b * s'.
Proof.
  intros Ha Hs Hb Hs' Hd Hn. unfold exact_amount, checked_mul, checked_add in Hn.
  repeat (apply bind_Some in Hn as (? & [-> _]%checked_Some & Hn)). apply checked_div_Some in Hn as [_ ->].
  split; [apply Z.div_pos; nia |]. replace (2 * d) with (d * 2) by lia. apply floor_mul_le. lia.
Qed.
Lemma claim_liquidity_bound `{IntegerSqrt} contributed accumulated l :
  0 ≤ contributed.1 → 0 ≤ contributed.2 → 0 < accumulated.1 → 0 < accumulated.2 →
  claim_liquidity contributed accumulated = Ok l →
  0 ≤ l ∧ l * l * (4 * (accumulated.1 * accumulated.2)) ≤
    claim_weight accumulated contributed * claim_weight accumulated contributed.
Proof.
  destruct contributed as [c0 c1], accumulated as [s0 s1]. cbn. intros Hc0 Hc1 Hs0 Hs1 Hl.
  unfold claim_liquidity in Hl. cbn in Hl. outcome_inv.
  match goal with H0 : exact_amount c0 s1 c1 s0 s1 = Some ?x, H1 : exact_amount c1 s0 c0 s1 s0 = Some ?y |- _ =>
    apply exact_amount_bound in H0 as [Hx0 Hx]; [| lia..]; apply exact_amount_bound in H1 as [Hy0 Hy]; [| lia..];
    apply root_liquidity_Some in Hl as (Hl0 & Hl & _); [| done..]; set (e0 := x) in *; set (e1 := y) in * end.
  split; [done |]. unfold claim_weight. cbn. set (N := c0 * s1 + c1 * s0) in *.
  assert (e1 * (2 * s0) ≤ N) as Hy' by (unfold N; lia).
  assert (e0 * (2 * s1) * (e1 * (2 * s0)) ≤ N * N) as HN.
  { transitivity (N * (e1 * (2 * s0))); [apply Z.mul_le_mono_nonneg_r; nia | apply Z.mul_le_mono_nonneg_l; nia]. }
  transitivity (e0 * e1 * (4 * (s0 * s1))); [apply Z.mul_le_mono_nonneg_r; nia | lia].
Qed.

Import DexStore DexMath DexGeneralError DexGeneral.

Lemma at_balance_eq c x v : at_balance c c x x v = v.
Proof. unfold at_balance. by rewrite decide_True. Qed.
Lemma at_balance_ne c d x y v : c ≠ d ∨ x ≠ y → at_balance c d x y v = 0.
Proof. intros. unfold at_balance. rewrite decide_False; naive_solver. Qed.
Lemma at_currency_eq c v : at_currency c c v = v.
Proof. unfold at_currency. by rewrite decide_True. Qed.
Lemma at_currency_ne c d v : c ≠ d → at_currency c d v = 0.
Proof. intros. unfold at_currency. by rewrite decide_False. Qed.

Section pairs.
Context `{DexEnv}.

Lemma sort_sorted a b : asset_le (sort_asset_id a b).1 (sort_asset_id a b).2.
Proof.
  unfold sort_asset_id. case_bool_decide as Hb; [done |]. cbn.
  by destruct (total asset_le a b).
Qed.
Lemma sort_of_sorted a b : asset_le a b → sort_asset_id a b = (a, b).
Proof.
  intros Hab. unfold sort_asset_id. case_bool_decide as Hb; [| done].
  by rewrite (anti_symm asset_le a b Hab Hb).
Qed.
Lemma sort_idem a b : sort_asset_id (sort_asset_id a b).1 (sort_asset_id a b).2 = sort_asset_id a b.
Proof. rewrite sort_of_sorted by apply sort_sorted. by destruct (sort_asset_id a b). Qed.
Lemma sort_comm a b : sort_asset_id a b = sort_asset_id b a.
Proof.
  unfold sort_asset_id. repeat case_bool_decide; try done.
  - by rewrite (anti_symm asset_le a b).
  - by destruct (total asset_le a b).
Qed.
Lemma sort_cases a b : sort_asset_id a b = (a, b) ∨ sort_asset_id a b = (b, a).
Proof. unfold sort_asset_id. case_bool_decide; auto. Qed.
Lemma pair_account_sorted a b : pair_account_id (sort_asset_id a b).1 (sort_asset_id a b).2 = pair_account_id a b.
Proof. unfold pair_account_id. by rewrite sort_idem. Qed.
Lemma lp_asset_sorted a b : lp_asset_id (sort_asset_id a b).1 (sort_asset_id a b).2 = lp_asset_id a b.
Proof. unfold lp_asset_id. by rewrite sort_idem. Qed.
(** No two pairs share a liquidity token. *)
Lemma lp_asset_inj a b a' b' lp :
  lp_asset_id a b = Some lp → lp_asset_id a' b' = Some lp → sort_asset_id a b = sort_asset_id a' b'.
Proof.
  unfold lp_asset_id, generate_lp_asset_id, CurrencyId.join_lp_token. cbn.
  destruct (sort_asset_id a b) as [x y], (sort_asset_id a' b') as [x' y']. cbn.
  intros Hx Hx'. destruct x, y, x', y'; by simplify_eq/=.
Qed.

(** ** The ledger *)

Lemma on_ledger_Ok {A} (m : M ledger TError A) d a d' :
  on_ledger m d = Ok (a, d') ↔ ∃ l, m (tokens d) = Ok (a, l) ∧ d' = mkDex _ l (dex d) (block_number d).
Proof.
  unfold on_ledger. destruct (m (tokens d)) as [[x l] | | |];
    (split; [intros Hr; try discriminate Hr; injection Hr as <- <-; eauto | intros (l' & Hl & ->); try done]).
  by injection Hl as <- <-.
Qed.

(** What the steps of an operation leave alone: the storage of the pallet and the block. *)
Definition beyond_tokens (d : Dex) := (dex d, block_number d).
Lemma on_ledger_storage {A} (m : M ledger TError A) : leaves beyond_tokens (on_ledger m).
Proof. intros d a d' (l & _ & ->)%on_ledger_Ok. done. Qed.

Lemma transfer_free c x y v d d' e z :
  transfer c x y v d = Ok (tt, d') → free e z d' = free e z d + at_balance c e y z v - at_balance c e x z v.
Proof.
  intros (l & Hl & ->)%on_ledger_Ok. apply transfer_moves, moved_free with (d := e) (y := z) in Hl.
  unfold free. cbn. lia.
Qed.
Lemma transfer_issuance c x y v d d' e :
  transfer c x y v d = Ok (tt, d') → total_issuance e (tokens d') = total_issuance e (tokens d).
Proof. intros (l & Hl & ->)%on_ledger_Ok. apply transfer_moves, moved_issuance with (d := e) in Hl. cbn. lia. Qed.
Lemma mint_issuance c x v d d' e :
  mint c x v d = Ok (tt, d') → total_issuance e (tokens d') = total_issuance e (tokens d) + at_currency c e v.
Proof. intros (l & Hl & ->)%on_ledger_Ok. by apply deposit_moves, moved_issuance with (d := e) in Hl. Qed.
Lemma burn_issuance c x v d d' e :
  burn c x v d = Ok (tt, d') → total_issuance e (tokens d') = total_issuance e (tokens d) - at_currency c e v.
Proof. intros (l & Hl & ->)%on_ledger_Ok. apply withdraw_moves, moved_issuance with (d := e) in Hl. cbn. lia. Qed.
Lemma trading_Ok p d m d' : trading p d = Ok (m, d') ↔ d' = d ∧ pair_status p d = Trading m.
Proof.
  unfold trading. split.
  - intros Ht. outcome_inv. destruct (pair_status p d) eqn:Hs; [| done..]. outcome_inv. done.
  - intros [-> Hs]. rewrite run_gets. by rewrite Hs.
Qed.

(** ** One pair of a path *)

Lemma swap_out_Ok a b y to d d' :
  a ≠ b → 0 ≤ y → swap_out a b y to d = Ok (tt, d') →
  beyond_tokens d' = beyond_tokens d ∧ y ≤ free b (pair_account_id a b) d ∧
  ∀ e z, free e z d' = free e z d + at_balance b e to z y - at_balance b e (pair_account_id a b) z y.
Proof.
  intros Hab Hy Hs. unfold swap_out in Hs. pose proof (pair_account_sorted a b) as Hacc.
  assert (∀ c v, 0 ≤ v → whenM (v >? 0) (transfer c (pair_account_id a b) to v) d = Ok (tt, d') →
    beyond_tokens d' = beyond_tokens d ∧
    ∀ e z, free e z d' = free e z d + at_balance c e to z v - at_balance c e (pair_account_id a b) z v) as Hmove.
  { intros c v Hv. rewrite Z.gtb_ltb. destruct (Z.ltb_spec 0 v) as [Hpos | Hz]; cbn.
    - intros Ht. split; [by apply on_ledger_storage in Ht | intros e z; by apply transfer_free].
    - intros [= <-]. split; [done |]. intros e z. assert (v = 0) as -> by lia. unfold at_balance. repeat case_decide; lia. }
  destruct (sort_cases a b) as [Hs' | Hs']; rewrite Hs' in Hs, Hacc; cbn in Hacc; cbv iota beta in Hs.
  - rewrite decide_True in Hs by done. cbv iota beta in Hs. unfold pair_swap in Hs.
    apply M_bind_Ok in Hs as (m & d1 & [-> _]%trading_Ok & Hs). outcome_inv.
    match goal with H : _ && _ = true |- _ => apply andb_true_iff in H as [_ Hle%Z.leb_le] end.
    match goal with H : whenM (0 >? 0) _ _ = Ok _ |- _ => injection H as <- <- end.
    destruct (Hmove b y Hy Hs) as [Hb Hf]. auto.
  - rewrite decide_False in Hs by done. cbv iota beta in Hs. rewrite Hacc in Hs. unfold pair_swap in Hs.
    apply M_bind_Ok in Hs as (m & d1 & [-> _]%trading_Ok & Hs). outcome_inv.
    match goal with H : _ && _ = true |- _ => apply andb_true_iff in H as [Hle%Z.leb_le _] end.
    injection Hs as <-. match goal with H : whenM _ _ _ = Ok (?u, _) |- _ => destruct u; rename H into Hs end.
    destruct (Hmove b y Hy Hs) as [Hb Hf]. auto.
Qed.
End pairs.

(** ** A path *)
Section path.
Context `{DexEnv}.

Fixpoint hops (path : list CurrencyId.t) : list (CurrencyId.t * CurrencyId.t) :=
  match path with
  | a :: ((b :: _) as path) => (a, b) :: hops path
  | _ => []
  end.
Definition hop_account (h : CurrencyId.t * CurrencyId.t) : AccountId := pair_account_id h.1 h.2.
Definition hop_accounts (path : list CurrencyId.t) : list AccountId := hop_account <$> hops path.

(** Balances [f], after the amounts have gone through the pairs of the path. *)
Fixpoint hops_moved (f : CurrencyId.t → AccountId → Z) (amounts : list Z) (path : list CurrencyId.t) (d : Dex) : Prop :=
  match amounts, path with
  | x :: ((y :: _) as amounts), a :: ((b :: _) as path) =>
      free a (pair_account_id a b) d = f a (pair_account_id a b) + x ∧
      free b (pair_account_id a b) d = f b (pair_account_id a b) - y ∧
      hops_moved f amounts path d
  | _, _ => True
  end.
Lemma hops_moved_ext f g amounts path d :
  (∀ e z, z ∈ hop_accounts path → f e z = g e z) → hops_moved f amounts path d → hops_moved g amounts path d.
Proof.
  revert amounts. induction path as [| a [| b path] IH]; intros [| x [| y amounts]] Hfg; try done.
  intros (Ha & Hb & Hm). assert (pair_account_id a b ∈ hop_accounts (a :: b :: path)) as Hin by (cbn; left).
  cbn [hops_moved]. rewrite <- !(Hfg _ _ Hin). split_and!; [done.. |].
  apply (IH (y :: amounts)); [| done]. intros e z Hz. apply Hfg. cbn. by right.
Qed.

Lemma swap_moves rest : ∀ more recipient f d d' a b x y,
  length more = length rest → Forall (Z.le 0) (x :: y :: more) →
  Forall (λ h : _ * _, h.1 ≠ h.2) (hops (a :: b :: rest)) →
  NoDup (hop_accounts (a :: b :: rest)) → recipient ∉ hop_accounts (a :: b :: rest) →
  (∀ e z, free e z d = f e z + at_balance a e (pair_account_id a b) z x) →
  swap (x :: y :: more) (a :: b :: rest) recipient d = Ok (tt, d') →
  hops_moved f (x :: y :: more) (a :: b :: rest) d' ∧ beyond_tokens d' = beyond_tokens d ∧
  ∀ e z, z ∉ hop_accounts (a :: b :: rest) → z ≠ recipient → free e z d' = f e z.
Proof.
  induction rest as [| c rest IH]; intros more recipient f d d' a b x y Hlen Hpos Hne Hnd Hrec Hf Hs.
  - destruct more; [| done]. apply Forall_cons_1 in Hpos as [Hx [Hy _]%Forall_cons_1].
    apply Forall_cons_1 in Hne as [Hab _]. cbn in Hab. cbn [swap] in Hs.
    apply swap_out_Ok in Hs as (Hb & _ & Hfree); [| done..].
    assert (recipient ≠ pair_account_id a b) as Hr by (intros ->; apply Hrec; by left).
    split; [| split; [done |]].
    + cbn [hops_moved]. split; [| split; [| done]]; rewrite Hfree, Hf.
      * rewrite !(at_balance_ne b a), at_balance_eq by auto. lia.
      * rewrite !(at_balance_ne a b), (at_balance_ne b b recipient), at_balance_eq by auto. lia.
    + intros e z Hz Hzr. assert (pair_account_id a b ≠ z) by (intros <-; apply Hz; by left).
      rewrite Hfree, Hf, !at_balance_ne by auto. lia.
  - destruct more as [| w more]; [done |]. cbn in Hlen. injection Hlen as Hlen.
    apply Forall_cons_1 in Hpos as [Hx Hpos]. pose proof Hpos as [Hy _]%Forall_cons_1.
    cbn [hops] in Hne. apply Forall_cons_1 in Hne as [Hab Hne]. cbn in Hab.
    apply NoDup_cons in Hnd as [Hacc Hnd]. apply not_elem_of_cons in Hrec as [Hr Hrec].
    cbn [swap] in Hs. apply M_bind_Ok in Hs as ([] & d1 & Hout & Hs).
    apply swap_out_Ok in Hout as (Hb & _ & Hfree); [| done..].
    set (acc := pair_account_id a b) in *. change (hop_account (a, b)) with acc in *.
    assert (pair_account_id b c ≠ acc) as Hnext by (intros He; apply Hacc; rewrite <- He; by left).
    set (f' := λ e z, f e z + at_balance a e acc z x - at_balance b e acc z y).
    apply (IH more recipient f' d1 d' b c y w) in Hs as (Hm & Hb' & Hrest); [| done..|].
    + assert (∀ e z, z ≠ acc → f' e z = f e z) as Hf'.
      { intros e z Hz. unfold f'. rewrite !at_balance_ne by auto. lia. }
      split; [cbn [hops_moved]; split; [| split] | split].
      * rewrite Hrest by done. unfold f'. rewrite at_balance_eq, at_balance_ne by auto. lia.
      * rewrite Hrest by done. unfold f'. rewrite at_balance_eq, at_balance_ne by auto. lia.
      * apply (hops_moved_ext f' f (y :: w :: more) (b :: c :: rest)); [| exact Hm].
        intros e z Hz. apply Hf'. intros ->. by apply Hacc.
      * by rewrite Hb', Hb.
      * intros e z Hz Hzr. apply not_elem_of_cons in Hz as [Hz Hz']. by rewrite Hrest, Hf'.
    + intros e z. rewrite Hfree, Hf. unfold f'. lia.
Qed.

(** ** Quotes *)

Definition product (h : CurrencyId.t * CurrencyId.t) (d : Dex) : Z :=
  free h.1 (hop_account h) d * free h.2 (hop_account h) d.
Fixpoint quoted (amounts : list Z) (path : list CurrencyId.t) (d : Dex) : Prop :=
  match amounts, path with
  | x :: ((y :: _) as amounts), a :: ((b :: _) as path) =>
      let acc := pair_account_id a b in
      free a acc d * free b acc d ≤ (free a acc d + x) * (free b acc d - y) ∧ quoted amounts path d
  | _, _ => True
  end.

Lemma check_k_Ok r0 r1 x y u : check_k r0 r1 x y = Ok u → r0 * r1 ≤ (r0 + x) * (r1 - y) ∧ fits BALANCE (r0 + x) ∧ y ≤ r1.
Proof.
  unfold check_k, checked_mul, checked_add. intros Hc. outcome_inv.
  repeat match goal with
  | H : checked _ _ = Some _ |- _ => apply checked_Some in H as [-> ?]
  | H : checked_sub _ _ = Some _ |- _ => apply checked_sub_Some in H as [-> ?]
  end. rewrite Z.leb_le in *. split_and!; [lia | done | done].
Qed.
Lemma step_out_Ok x a b d y :
  step_out x a b d = Ok y →
  0 < y ∧ free a (pair_account_id a b) d * free b (pair_account_id a b) d ≤
    (free a (pair_account_id a b) d + x) * (free b (pair_account_id a b) d - y).
Proof.
  unfold step_out. intros Hs. outcome_inv.
  match goal with H : check_k _ _ _ _ = Ok _ |- _ => apply check_k_Ok in H as (Hk & _) end.
  match goal with H : (y >? 0) = true |- _ => rewrite Z.gtb_ltb, Z.ltb_lt in H end. done.
Qed.
Lemma step_in_Ok y b a d x :
  step_in y b a d = Ok x →
  0 < x ∧ free a (pair_account_id a b) d * free b (pair_account_id a b) d ≤
    (free a (pair_account_id a b) d + x) * (free b (pair_account_id a b) d - y).
Proof.
  assert (pair_account_id b a = pair_account_id a b) as He by (unfold pair_account_id; by rewrite sort_comm).
  unfold step_in. rewrite He. intros Hs. outcome_inv.
  match goal with H : check_k _ _ _ _ = Ok _ |- _ => apply check_k_Ok in H as (Hk & _) end.
  match goal with H : (1 <=? x) = true |- _ => rewrite Z.leb_le in H end. split; [lia | done].
Qed.

Lemma amounts_out_Ok path : ∀ x a d amounts,
  amounts_out x a path d = Ok amounts →
  length amounts = length path ∧ Forall (Z.le 0) amounts ∧ quoted (x :: amounts) (a :: path) d.
Proof.
  induction path as [| b path IH]; intros x a d amounts Hs; cbn [amounts_out] in Hs; outcome_inv; [done |].
  match goal with H : step_out _ _ _ _ = Ok _ |- _ => apply step_out_Ok in H as [Hy Hk] end.
  match goal with H : amounts_out _ _ _ _ = Ok _ |- _ => apply IH in H as (Hlen & Hpos & Hq) end.
  split; [cbn; by rewrite Hlen |]. split; [constructor; [lia | done] |]. done.
Qed.
Lemma get_amount_out_by_path_Ok x path d amounts :
  get_amount_out_by_path x path d = Ok amounts →
  ∃ a b rest y more, path = a :: b :: rest ∧ amounts = x :: y :: more ∧ length more = length rest ∧
    Forall (Z.le 0) (y :: more) ∧ quoted amounts path d.
Proof.
  unfold get_amount_out_by_path. destruct path as [| a [| b rest]]; [done.. |]. intros Hs. outcome_inv.
  match goal with H : amounts_out _ _ _ _ = Ok ?l |- _ => apply amounts_out_Ok in H as (Hlen & Hpos & Hq); destruct l as [| y more] end;
    [done |]. injection Hlen as Hlen. naive_solver.
Qed.

(** A quote extended at its end. *)
Lemma quoted_snoc amounts path x y a b d :
  length amounts = length path → quoted (amounts ++ [x]) (path ++ [a]) d →
  free a (pair_account_id a b) d * free b (pair_account_id a b) d ≤
    (free a (pair_account_id a b) d + x) * (free b (pair_account_id a b) d - y) →
  quoted (amounts ++ [x; y]) (path ++ [a; b]) d.
Proof.
  revert path. induction amounts as [| v amounts IH]; intros [| c path] Hlen Hq Hk; try done.
  injection Hlen as Hlen. specialize (IH path Hlen). destruct amounts as [| v' amounts], path as [| c' path]; try done.
  - destruct Hq as [Hv _]. by repeat split.
  - destruct Hq as [Hv Hq]. split; [done |]. by apply IH.
Qed.
Lemma amounts_in_Ok rpath : ∀ y b d amounts,
  amounts_in y b rpath d = Ok amounts →
  length amounts = length rpath ∧ Forall (Z.le 0) amounts ∧
  quoted (reverse amounts ++ [y]) (reverse rpath ++ [b]) d.
Proof.
  induction rpath as [| a rpath IH]; intros y b d amounts Hs; cbn [amounts_in] in Hs; outcome_inv; [done |].
  match goal with H : step_in _ _ _ _ = Ok ?v |- _ => apply step_in_Ok in H as [Hx Hk]; rename v into x end.
  match goal with H : amounts_in _ _ _ _ = Ok _ |- _ => apply IH in H as (Hlen & Hpos & Hq) end.
  split; [cbn; by rewrite Hlen |]. split; [constructor; [lia | done] |].
  rewrite !reverse_cons, <- !(assoc_L (++)). apply quoted_snoc; [by rewrite !length_reverse | done | done].
Qed.
Lemma get_amount_in_by_path_Ok y path d amounts :
  0 ≤ y → get_amount_in_by_path y path d = Ok amounts →
  length amounts = length path ∧ (2 ≤ length path)%nat ∧ Forall (Z.le 0) amounts ∧ quoted amounts path d.
Proof.
  unfold get_amount_in_by_path. intros Hy Hs. destruct (reverse path) as [| b [| a rest]] eqn:Hr; [done.. |].
  assert (path = reverse (a :: rest) ++ [b]) as -> by (by rewrite <- (reverse_involutive path), Hr, reverse_cons).
  outcome_inv. match goal with H : amounts_in _ _ _ _ = Ok ?l |- _ => apply amounts_in_Ok in H as (Hlen & Hpos & Hq) end.
  rewrite reverse_cons, !length_app, !length_reverse, Hlen. split; [done |]. split; [cbn; lia |]. split; [| done].
  apply Forall_app. split; [by apply Forall_reverse | by constructor].
Qed.

(** What was quoted on the balances before is what the pairs have after. *)
Lemma quoted_product amounts : ∀ path d d',
  length amounts = length path → quoted amounts path d → hops_moved (λ e z, free e z d) amounts path d' →
  Forall (λ h, product h d ≤ product h d') (hops path).
Proof.
  induction amounts as [| x amounts IH]; intros [| a path] d d' Hlen; try done. injection Hlen as Hlen.
  destruct amounts as [| y amounts], path as [| b path]; try done.
  intros [Hk Hq] (Ha & Hb & Hm). cbn [hops]. constructor; [| exact (IH (b :: path) d d' Hlen Hq Hm)].
  unfold product, hop_account. cbn. rewrite Ha, Hb. exact Hk.
Qed.

(** The first transfer and the loop, for amounts that were quoted. *)
Lemma paid_swap_products who x y more a b rest recipient d d1 d' :
  let amounts := x :: y :: more in let path := a :: b :: rest in
  length more = length rest → Forall (Z.le 0) amounts → quoted amounts path d →
  Forall (λ h : _ * _, h.1 ≠ h.2) (hops path) → NoDup (hop_accounts path) →
  who ∉ hop_accounts path → recipient ∉ hop_accounts path →
  transfer a who (pair_account_id a b) x d = Ok (tt, d1) → swap amounts path recipient d1 = Ok (tt, d') →
  Forall (λ h, product h d ≤ product h d') (hops path).
Proof.
  intros amounts path Hlen Hpos Hq Hne Hnd Hwho Hrec Ht Hs.
  apply (quoted_product amounts); [cbn; by rewrite Hlen | done |].
  set (f := λ e z, free e z d - at_balance a e who z x).
  apply (hops_moved_ext f).
  { intros e z Hz. unfold f. rewrite at_balance_ne by (right; by intros ->). lia. }
  refine (proj1 (swap_moves rest more recipient f d1 d' a b x y Hlen Hpos Hne Hnd Hrec _ Hs)).
  intros e z. rewrite (transfer_free _ _ _ _ _ _ _ _ Ht). unfold f. lia.
Qed.
End path.
