(* ===== verification/DexCall.v ===== *)
(** * The exchange of pairs as a transition system

    [dex_dispatch] is the call of the sixteen extrinsics; a [dex_step] is one
    that succeeded, a transfer of tokens between accounts, or a new block.  In
    every reachable state the recorded supply of a pair is the issuance of its
    liquidity token, and the contributions to a bootstrap add up to what it has
    accumulated. *)

From coqutil Require Import Byte.
From Stdlib Require Import ZArith Lia.
From stdpp Require Import base tactics option list numbers gmap relations.
From S2P Require Import Prelude Bytes Security Primitives Tokens Frames DexStore DexMath DexGeneral DexSwap.

Local Open Scope Z_scope.

Module DexCall.
Inductive t : Type :=
  | set_fee_receiver (send_to : option AccountId)
  | set_fee_point (fee_point : Z)
  | set_exchange_fee (asset_0 asset_1 : CurrencyId.t) (fee_rate : Z)
  | create_pair (asset_0 asset_1 : CurrencyId.t) (fee_rate : Z)
  | add_liquidity (asset_0 asset_1 : CurrencyId.t)
      (amount_0_desired amount_1_desired amount_0_min amount_1_min deadline : Z)
  | remove_liquidity (asset_0 asset_1 : CurrencyId.t) (liquidity amount_0_min amount_1_min : Z)
      (recipient : AccountId) (deadline : Z)
  | swap_exact_assets_for_assets (amount_in amount_out_min : Z) (path : list CurrencyId.t)
      (recipient : AccountId) (deadline : Z)
  | swap_assets_for_exact_assets (amount_out amount_in_max : Z) (path : list CurrencyId.t)
      (recipient : AccountId) (deadline : Z)
  | bootstrap_create (asset_0 asset_1 : CurrencyId.t)
      (target_supply_0 target_supply_1 capacity_supply_0 capacity_supply_1 end_ : Z)
      (rewards : list CurrencyId.t) (limits : list (CurrencyId.t * Z))
  | bootstrap_contribute (asset_0 asset_1 : CurrencyId.t) (amount_0_contribute amount_1_contribute deadline : Z)
  | bootstrap_claim (recipient : AccountId) (asset_0 asset_1 : CurrencyId.t) (deadline : Z)
  | bootstrap_end (asset_0 asset_1 : CurrencyId.t)
  | bootstrap_update (asset_0 asset_1 : CurrencyId.t)
      (target_supply_0 target_supply_1 capacity_supply_0 capacity_supply_1 end_ : Z)
      (rewards : list CurrencyId.t) (limits : list (CurrencyId.t * Z))
  | bootstrap_refund (asset_0 asset_1 : CurrencyId.t)
  | bootstrap_charge_reward (asset_0 asset_1 : CurrencyId.t) (charge_rewards : list (CurrencyId.t * Z))
  | bootstrap_withdraw_reward (asset_0 asset_1 : CurrencyId.t) (recipient : AccountId).
End DexCall.

Section step.
Context `{DexEnv}.
Import DexCalls.

Definition dex_dispatch (o : Origin) (c : DexCall.t) : M Dex DError unit :=
  match c with
  | DexCall.set_fee_receiver a => set_fee_receiver o a
  | DexCall.set_fee_point v => set_fee_point o v
  | DexCall.set_exchange_fee a b v => set_exchange_fee o a b v
  | DexCall.create_pair a b v => create_pair o a b v
  | DexCall.add_liquidity a b x y m n t => add_liquidity o a b x y m n t
  | DexCall.remove_liquidity a b l m n r t => remove_liquidity o a b l m n r t
  | DexCall.swap_exact_assets_for_assets x m p r t => swap_exact_assets_for_assets o x m p r t
  | DexCall.swap_assets_for_exact_assets x m p r t => swap_assets_for_exact_assets o x m p r t
  | DexCall.bootstrap_create a b x y m n t r l => bootstrap_create o a b x y m n t r l
  | DexCall.bootstrap_contribute a b x y t => bootstrap_contribute o a b x y t
  | DexCall.bootstrap_claim r a b t => bootstrap_claim o r a b t
  | DexCall.bootstrap_end a b => bootstrap_end o a b
  | DexCall.bootstrap_update a b x y m n t r l => bootstrap_update o a b x y m n t r l
  | DexCall.bootstrap_refund a b => bootstrap_refund o a b
  | DexCall.bootstrap_charge_reward a b l => bootstrap_charge_reward o a b l
  | DexCall.bootstrap_withdraw_reward a b r => bootstrap_withdraw_reward o a b r
  end.

Inductive dex_step (d : Dex) : Dex → Prop :=
  | dex_step_call o c d' : dex_dispatch o c d = Ok (tt, d') → dex_step d d'
  | dex_step_transfer asset x y v d' : DexGeneral.transfer asset x y v d = Ok (tt, d') → dex_step d d'
  | dex_step_block now : block_number d ≤ now → dex_step d (mkDex _ (tokens d) (dex d) now).
End step.
