(* ===== verification/DexSupply.v ===== *)
(** * Liquidity tokens, contributions to bootstraps and changes of liquidity

    [wf]: a pair in trade has its own account, its liquidity token and a recorded
    supply equal to the issuance of that token; what a pair in a bootstrap has
    accumulated is the sum of the contributions to it.  Every step keeps [wf].
    The second part has the reserves and the recorded supply after a change of
    liquidity, and the claims on a bootstrap against the liquidity minted when it
    ended. *)

From coqutil Require Import Byte.
From Stdlib Require Import ZArith Lia.
From stdpp Require Import base tactics option list numbers gmap relations.
From S2P Require Import Prelude Bytes Security Primitives Tokens Frames DexStore DexMath DexGeneral DexSwap DexCall.

Local Open Scope Z_scope.
Import DexStore DexMath DexGeneralError DexGeneral DexCalls.

Section supply.
Context `{DexEnv}.

Definition personal (d : Dex) := BootstrapPersonalSupply (dex d).
Definition contributed_0 (p : Pair) : gmap (Pair * AccountId) (Z * Z) → Z :=
  msum (λ k v, if decide (k.1 = p) then v.1 else 0).
Definition contributed_1 (p : Pair) : gmap (Pair * AccountId) (Z * Z) → Z :=
  msum (λ k v, if decide (k.1 = p) then v.2 else 0).
Definition contributed (p : Pair) (m : gmap (Pair * AccountId) (Z * Z)) : Z * Z := (contributed_0 p m, contributed_1 p m).
Definition supply_of (s : PairStatus) : Z := match s with Trading m => total_supply m | _ => 0 end.
(** The contributions a status stands for; none are recorded in trade. *)
Definition contributions_of (s : PairStatus) : option (Z * Z) :=
  match s with Bootstrap p => Some (accumulated_supply p) | Disable => Some (0, 0) | Trading _ => None end.

Record wf (d : Dex) : Prop := {
  wf_lp a b lp : lp_pairs (sort_asset_id a b) d = Some lp → lp_asset_id a b = Some lp;
  wf_account a b m : pair_status (sort_asset_id a b) d = Trading m → pair_account m = pair_account_id a b;
  wf_supply a b lp :
    lp_asset_id a b = Some lp → total_issuance lp (tokens d) = supply_of (pair_status (sort_asset_id a b) d);
  wf_contributions p x : contributions_of (pair_status p d) = Some x → contributed p (personal d) = x;
  wf_ended p q : bootstrap_end_status p d = Bootstrap q → ∃ m, pair_status p d = Trading m;
}.

(** ** Steps that [wf] does not see *)

Definition view (d : Dex) := (PairStatuses (dex d), LiquidityPairs (dex d), personal d, BootstrapEndStatus (dex d)).
Definition calm (d d' : Dex) : Prop :=
  view d' = view d ∧ ∀ c, total_issuance c (tokens d') = total_issuance c (tokens d).
#[local] Instance calm_preorder : PreOrder calm.
Proof.
  split; [done |]. intros d1 d2 d3 [Hv Hi] [Hv' Hi']. split; [congruence |]. intros c. by rewrite Hi'.
Qed.
Lemma calm_wf d d' : calm d d' → wf d → wf d'.
Proof.
  intros [[= Hs Hl Hp He] Hi] [Hlp Hacc Hsup Hcon Hend].
  split; unfold pair_status, bootstrap_end_status, lp_pairs, personal in *; intros; rewrite ?Hs, ?Hl, ?Hp, ?He, ?Hi in *; eauto.
Qed.

Lemma calm_update f : (∀ s, PairStatuses (f s) = PairStatuses s) → (∀ s, LiquidityPairs (f s) = LiquidityPairs s) →
  (∀ s, BootstrapPersonalSupply (f s) = BootstrapPersonalSupply s) →
  (∀ s, BootstrapEndStatus (f s) = BootstrapEndStatus s) → respects calm (update f).
Proof.
  intros Hs Hl Hp He. apply respects_modify. intros d. split; [| done]. unfold view, personal. cbn. by rewrite Hs, Hl, Hp, He.
Qed.
Lemma calm_transfer c x y v : respects calm (transfer c x y v).
Proof.
  intros d [] d' Ht. split; [| intros e; by eapply transfer_issuance].
  apply on_ledger_storage in Ht. injection Ht as Hd _. unfold view, personal. by rewrite Hd.
Qed.
Ltac calm_step :=
  first [ apply calm_transfer
        | (apply calm_update; intros; reflexivity)
        | respects_step ].
Ltac calm := repeat calm_step.

Lemma calm_mutate_k a b k : respects calm (mutate_k_last a b k).
Proof. unfold mutate_k_last. calm. Qed.
Lemma calm_event e : respects calm (deposit_event e).
Proof. unfold deposit_event. calm. Qed.
Lemma calm_record_k a b x : respects calm (record_k a b x).
Proof. unfold record_k. repeat first [apply calm_mutate_k | calm_step]. Qed.
Lemma calm_protocol_fee r0 r1 a b t : respects calm (mint_protocol_fee r0 r1 a b t).
Proof. unfold mint_protocol_fee. repeat first [apply calm_mutate_k | calm_step]. Qed.
Lemma calm_swap amounts path to : respects calm (swap amounts path to).
Proof.
  revert amounts to. assert (∀ a b y to, respects calm (swap_out a b y to)) as Hout.
  { intros. unfold swap_out, pair_swap, trading. calm. }
  induction path as [| a path IH]; intros [| x [| y amounts]] to; cbn [swap]; try solve [calm].
  destruct path as [| b rest]; [calm |]. destruct amounts as [| z amounts]; [apply Hout |].
  destruct rest as [| c rest]; [calm |]. apply respects_bind; [exact _ | apply Hout | intros _; apply (IH (y :: z :: amounts))].
Qed.
Lemma calm_swap_exact who x m path to : respects calm (inner_swap_exact_assets_for_assets who x m path to).
Proof. unfold inner_swap_exact_assets_for_assets. repeat first [apply calm_swap | apply calm_event | calm_step]. Qed.
Lemma calm_swap_for_exact who y m path to : respects calm (inner_swap_assets_for_exact_assets who y m path to).
Proof. unfold inner_swap_assets_for_exact_assets. repeat first [apply calm_swap | apply calm_event | calm_step]. Qed.
Lemma calm_pay_rewards x y s t l : respects calm (pay_rewards x y s t l).
Proof. induction l as [| [c v] l IH]; cbn [pay_rewards]; [calm |]. repeat first [apply IH | calm_step]. Qed.
Lemma calm_distribute x y a b s t : respects calm (bootstrap_distribute_reward x y a b s t).
Proof. unfold bootstrap_distribute_reward. repeat first [apply calm_pay_rewards | apply calm_event | calm_step]. Qed.
Lemma calm_charge who l m : respects calm (charge_each who l m).
Proof. revert m. induction l as [| [c v] l IH]; intros m; cbn [charge_each]; [calm |]. repeat first [apply IH | calm_step]. Qed.
Lemma calm_put_rewards p l m : respects calm (put_rewards_and_limits p l m).
Proof. unfold put_rewards_and_limits. calm. Qed.
Lemma calm_deadline t : respects calm (before_deadline t).
Proof. unfold before_deadline. calm. Qed.

(** ** Steps that it does *)

(** A pair gets a new status, with the issuance and contributions that go with it. *)
Lemma wf_put a b s d d' :
  let p := sort_asset_id a b in
  wf d →
  PairStatuses (dex d') = <[p := s]> (PairStatuses (dex d)) →
  (∀ q lp, lp_pairs q d' = Some lp → lp_pairs q d = Some lp ∨ q = p ∧ lp_asset_id a b = Some lp) →
  (∀ q, q ≠ p → contributed q (personal d') = contributed q (personal d)) →
  (∀ x, contributions_of s = Some x → contributed p (personal d') = x) →
  (∀ lp c, lp_asset_id a b = Some lp → total_issuance c (tokens d') =
     total_issuance c (tokens d) + at_currency lp c (supply_of s - supply_of (pair_status p d))) →
  (lp_asset_id a b = None → ∀ c, total_issuance c (tokens d') = total_issuance c (tokens d)) →
  (∀ m, s = Trading m → pair_account m = pair_account_id a b) →
  (∀ q x, bootstrap_end_status q d' = Bootstrap x →
     (∃ x', bootstrap_end_status q d = Bootstrap x') ∨ q = p ∧ ∃ m, s = Trading m) →
  (∀ m, pair_status p d = Trading m → ∃ m', s = Trading m') →
  wf d'.
Proof.
  intros p [Hlp Hacc Hsup Hcon Hend] Hs Hpairs Hother Hx Hiss Hnone Ha Hend' Hst.
  assert (∀ q, pair_status q d' = if decide (q = p) then s else pair_status q d) as Hstatus.
  { intros q. unfold pair_status. rewrite Hs. case_decide as Hq; [subst q; by rewrite lookup_insert_eq |].
    by rewrite lookup_insert_ne. }
  assert (∀ a' b', sort_asset_id a' b' = p → lp_asset_id a' b' = lp_asset_id a b ∧ pair_account_id a' b' = pair_account_id a b) as Hsame.
  { intros a' b' Hq. rewrite <- (lp_asset_sorted a' b'), <- (pair_account_sorted a' b'), Hq. unfold p.
    by rewrite lp_asset_sorted, pair_account_sorted. }
  split.
  - intros a' b' lp Hq. destruct (Hpairs _ _ Hq) as [Hq' | [Hq' Hab]]; [by apply Hlp |].
    destruct (Hsame _ _ Hq') as [-> _]. done.
  - intros a' b' m Hm. rewrite Hstatus in Hm. case_decide as Hq; [| by apply Hacc].
    destruct (Hsame _ _ Hq) as [_ ->]. by apply Ha.
  - intros a' b' lp Hl. rewrite Hstatus. case_decide as Hq.
    + destruct (Hsame _ _ Hq) as [He _]. rewrite He in Hl. rewrite (Hiss lp lp Hl), at_currency_eq.
      rewrite (Hsup a b lp Hl). fold p. lia.
    + destruct (lp_asset_id a b) as [lp' |] eqn:Hab; [| rewrite Hnone by done; by apply Hsup].
      rewrite (Hiss lp' lp eq_refl), at_currency_ne; [rewrite Z.add_0_r; by apply Hsup |].
      intros ->. apply Hq. by eapply lp_asset_inj.
  - intros q x. rewrite Hstatus. case_decide as Hq; [subst q; apply Hx |].
    intros Hc. rewrite Hother by done. by apply Hcon.
  - intros q x He. rewrite Hstatus. case_decide as Hq.
    + subst q. destruct (Hend' _ _ He) as [[x' He'] | [_ Hm]]; [| done]. destruct (Hend _ _ He') as [m Hm]. eauto.
    + destruct (Hend' _ _ He) as [[x' He'] | [? _]]; [by eapply Hend | done].
Qed.

(** [put_status] after calm steps, when supply and contributions are as before. *)
Lemma wf_put_calm a b s d d1 d' :
  wf d → calm d d1 → put_status (sort_asset_id a b) s d1 = Ok (tt, d') →
  supply_of s = supply_of (pair_status (sort_asset_id a b) d) →
  (∀ x, contributions_of s = Some x → contributions_of (pair_status (sort_asset_id a b) d) = Some x) →
  (∀ m, s = Trading m → pair_account m = pair_account_id a b) →
  (∀ m, pair_status (sort_asset_id a b) d = Trading m → ∃ m', s = Trading m') → wf d'.
Proof.
  intros Hwf Hc Hp Hsup Hcon Ha Hst. injection Hp as <-. pose proof Hc as [[= Hs Hl Hpers He] Hi].
  apply (wf_put a b s d); try done.
  - cbn. by rewrite Hs.
  - intros q lp. unfold lp_pairs. cbn. rewrite Hl. auto.
  - intros q _. unfold personal. cbn. unfold personal in Hpers. by rewrite Hpers.
  - intros x Hx. apply Hcon, (wf_contributions _ Hwf) in Hx. rewrite <- Hx. unfold personal in *. cbn. by rewrite Hpers.
  - intros lp c _. cbn. rewrite Hi, Hsup, Z.sub_diag. unfold at_currency. case_decide; lia.
  - unfold bootstrap_end_status. cbn. rewrite He. eauto.
Qed.
Lemma pair_status_calm d d' p : calm d d' → pair_status p d' = pair_status p d.
Proof. intros [[= Hs _ _ _] _]. unfold pair_status. by rewrite Hs. Qed.

(** *** Liquidity *)

Definition issues (lp : CurrencyId.t) (v : Z) (d d' : Dex) : Prop :=
  view d' = view d ∧ ∀ c, total_issuance c (tokens d') = total_issuance c (tokens d) + at_currency lp c v.
Lemma calm_issues lp d d' : calm d d' → issues lp 0 d d'.
Proof. intros [Hv Hi]. split; [done |]. intros c. rewrite Hi. unfold at_currency. case_decide; lia. Qed.
Lemma issues_trans lp v w d1 d2 d3 : issues lp v d1 d2 → issues lp w d2 d3 → issues lp (v + w) d1 d3.
Proof.
  intros [Hv Hi] [Hv' Hi']. split; [congruence |]. intros c. rewrite Hi', Hi. unfold at_currency. case_decide; lia.
Qed.
Lemma view_mint c x v d d' : mint c x v d = Ok (tt, d') → issues c v d d'.
Proof.
  intros Hm. split; [| intros e; by apply (mint_issuance _ _ _ _ _ e) in Hm].
  apply on_ledger_storage in Hm. injection Hm as Hd _. unfold view, personal. by rewrite Hd.
Qed.
Lemma view_burn c x v d d' : burn c x v d = Ok (tt, d') → issues c (- v) d d'.
Proof.
  intros Hm. split.
  - apply on_ledger_storage in Hm. injection Hm as Hd _. unfold view, personal. by rewrite Hd.
  - intros e. apply (burn_issuance _ _ _ _ _ e) in Hm. rewrite Hm, MapLedger.at_currency_neg. lia.
Qed.
Lemma pay_fee_Ok lp fee m d m' d' :
  pay_protocol_fee lp fee m d = Ok (m', d') →
  pair_account m' = pair_account m ∧ issues lp (total_supply m' - total_supply m) d d'.
Proof.
  intros Hp. assert (∀ d, issues lp (total_supply m - total_supply m) d d) as Hrefl.
  { intros e. rewrite Z.sub_diag. by apply calm_issues. }
  unfold pay_protocol_fee in Hp. outcome_inv. destruct (fee_meta d).1 as [fee_to |]; [| injection Hp as <- <-; auto].
  destruct (fee >? 0); [| injection Hp as <- <-; auto].
  apply M_bind_Ok in Hp as ([] & d1 & Hm & Hp). outcome_inv.
  match goal with H : checked_add _ _ _ = Some _ |- _ => apply checked_Some in H as [-> _] end.
  split; [done |]. cbn. apply view_mint in Hm. by replace (total_supply m + fee - total_supply m) with fee by lia.
Qed.

Lemma wf_put_issues a b m m' lp v d d1 d' :
  wf d → pair_status (sort_asset_id a b) d = Trading m → lp_pairs (sort_asset_id a b) d = Some lp →
  issues lp v d d1 → put_status (sort_asset_id a b) (Trading m') d1 = Ok (tt, d') →
  total_supply m' = total_supply m + v → pair_account m' = pair_account m → wf d'.
Proof.
  intros Hwf Hm Hlp [[= Hs Hl Hp He] Hi] Hput Htot Hacc. injection Hput as <-.
  pose proof (wf_lp _ Hwf _ _ _ Hlp) as Hab.
  apply (wf_put a b (Trading m') d); try done.
  - cbn. by rewrite Hs.
  - intros q lp'. unfold lp_pairs. cbn. rewrite Hl. auto.
  - intros q _. unfold personal in *. cbn. by rewrite Hp.
  - intros lp' c Hlp'. rewrite Hab in Hlp'. injection Hlp' as <-. cbn. rewrite Hi, Hm. cbn. f_equal. f_equal. lia.
  - by rewrite Hab.
  - intros m0 [= <-]. rewrite Hacc. by apply (wf_account _ Hwf).
  - unfold bootstrap_end_status. cbn. rewrite He. eauto.
  - eauto.
Qed.

(** Everything a change of liquidity does beside the ledger and the new status. *)
Ltac issue_step :=
  match goal with
  | H : mint_protocol_fee _ _ _ _ _ ?d = Ok (_, ?d') |- _ =>
      apply calm_protocol_fee in H
  | H : pay_protocol_fee _ _ _ ?d = Ok (_, ?d') |- _ =>
      apply pay_fee_Ok in H as [? H]
  | H : transfer _ _ _ _ ?d = Ok (?u, ?d') |- _ => destruct u; apply calm_transfer in H
  | H : record_k _ _ _ ?d = Ok (?u, ?d') |- _ => destruct u; apply calm_record_k in H
  | H : deposit_event _ ?d = Ok (?u, ?d') |- _ => destruct u; apply calm_event in H
  | H : mint _ _ _ ?d = Ok (?u, ?d') |- _ => destruct u; apply view_mint in H
  | H : burn _ _ _ ?d = Ok (?u, ?d') |- _ => destruct u; apply view_burn in H
  | H : calm ?d ?d' |- issues ?lp _ _ _ => apply (calm_issues lp) in H
  | H : checked_add _ _ _ = Some _ |- _ => apply checked_Some in H as [-> _]
  | H : checked_sub _ _ = Some _ |- _ => apply checked_sub_Some in H as [-> _]
  end.

Lemma wf_add who a b x y m n d d' : wf d → inner_add_liquidity who a b x y m n d = Ok (tt, d') → wf d'.
Proof.
  intros Hwf Hr. unfold inner_add_liquidity in Hr. apply M_bind_Ok in Hr as (pm & d0 & [-> Hm]%trading_Ok & Hr).
  outcome_inv. match goal with H : (match ?v with (_, _) => _ end) _ = Ok _ |- _ => destruct v as [amount_0 amount_1] end.
  outcome_inv. repeat issue_step.
  eapply (wf_put_issues a b pm); [exact Hwf | exact Hm | done | | exact Hr | |].
  - repeat issue_step. repeat (eapply issues_trans; [eassumption |]). by apply calm_issues.
  - cbn. lia.
  - cbn. congruence.
Qed.
Lemma wf_remove who a b l m n to d d' : wf d → inner_remove_liquidity who a b l m n to d = Ok (tt, d') → wf d'.
Proof.
  intros Hwf Hr. unfold inner_remove_liquidity in Hr. apply M_bind_Ok in Hr as (pm & d0 & [-> Hm]%trading_Ok & Hr).
  outcome_inv. repeat issue_step.
  eapply (wf_put_issues a b pm); [exact Hwf | exact Hm | done | | exact Hr | |].
  - repeat issue_step. repeat (eapply issues_trans; [eassumption |]). by apply calm_issues.
  - cbn. lia.
  - cbn. congruence.
Qed.

(** *** Bootstraps *)

Lemma contributed_insert p who v m q :
  contributed q (<[(p, who) := v]> m) =
    ((contributed q m).1 + (if decide (p = q) then v.1 - (default (0, 0) (m !! (p, who))).1 else 0),
     (contributed q m).2 + (if decide (p = q) then v.2 - (default (0, 0) (m !! (p, who))).2 else 0)).
Proof.
  unfold contributed, contributed_0, contributed_1. cbn. rewrite !msum_insert. unfold entry. cbn.
  destruct (m !! (p, who)); cbn; case_decide; f_equal; lia.
Qed.
Lemma contributed_delete p who v m q :
  m !! (p, who) = Some v →
  contributed q (delete (p, who) m) =
    ((contributed q m).1 - (if decide (p = q) then v.1 else 0), (contributed q m).2 - (if decide (p = q) then v.2 else 0)).
Proof.
  intros Hv. unfold contributed, contributed_0, contributed_1. cbn. rewrite !msum_delete. unfold entry. rewrite Hv. cbn. done.
Qed.

Lemma add_pair_Ok x y z : add_pair x y = Ok z → z = (x.1 + y.1, x.2 + y.2).
Proof.
  unfold add_pair. intros Hz. outcome_inv.
  repeat match goal with H : checked_add _ _ _ = Some _ |- _ => apply checked_Some in H as [-> _] end. done.
Qed.
(** A status without supply before and after, with the contributions changed as said. *)
Lemma wf_put_bootstrap a b s d d' :
  wf d → supply_of s = 0 → (∀ m, s ≠ Trading m) → (∀ m, pair_status (sort_asset_id a b) d ≠ Trading m) →
  PairStatuses (dex d') = <[sort_asset_id a b := s]> (PairStatuses (dex d)) →
  LiquidityPairs (dex d') = LiquidityPairs (dex d) → BootstrapEndStatus (dex d') = BootstrapEndStatus (dex d) →
  (∀ c, total_issuance c (tokens d') = total_issuance c (tokens d)) →
  (∀ q, q ≠ sort_asset_id a b → contributed q (personal d') = contributed q (personal d)) →
  (∀ x, contributions_of s = Some x → contributed (sort_asset_id a b) (personal d') = x) →
  wf d'.
Proof.
  intros Hwf Hnew Hnt Hold Hs Hl He Hi Hother Hx.
  apply (wf_put a b s d); try done.
  - intros q lp. unfold lp_pairs. rewrite Hl. auto.
  - intros lp c _. rewrite Hi, Hnew. unfold at_currency.
    destruct (pair_status _ d) as [m | |] eqn:Ho; [by destruct (Hold m) | |]; cbn; case_decide; lia.
  - intros m Hm. by destruct (Hnt m).
  - unfold bootstrap_end_status. rewrite He. eauto.
  - intros m Hm. by destruct (Hold m).
Qed.

Lemma wf_contribute who a b x y d d' : wf d → do_bootstrap_contribute who a b x y d = Ok (tt, d') → wf d'.
Proof.
  intros Hwf Hr. unfold do_bootstrap_contribute in Hr. apply M_bind_Ok in Hr as (s & d0 & [-> ->]%gets_Ok & Hr).
  destruct (pair_status (sort_asset_id a b) d) as [| pm |] eqn:Hs; [done | | done]. outcome_inv.
  match goal with H : (match ?v with (_, _) => _ end) _ = Ok _ |- _ => destruct v as [v0 v1] end. outcome_inv.
  repeat match goal with H : add_pair _ _ = Ok _ |- _ => apply add_pair_Ok in H as -> end.
  repeat match goal with H : transfer _ _ _ _ _ = Ok (?u, _) |- _ => destruct u; apply calm_transfer in H end.
  match goal with H : calm d ?d1, H' : calm ?d1 ?d2 |- _ =>
    assert (calm d d2) as Hc by (by transitivity d1) end.
  repeat match goal with H : put_status _ _ _ = Ok _ |- _ => injection H as <- <-
    | H : deposit_event _ _ = Ok _ |- _ => injection H as <- <- end. injection Hr as <-.
  pose proof Hc as [[= Hps Hpl Hp Hpe] Hi].
  apply (wf_put_bootstrap a b (Bootstrap (set_accumulated ((accumulated_supply pm).1 + x0, (accumulated_supply pm).2 + x3) pm)) d);
    [done | done | done | by rewrite Hs | by rewrite <- Hps | by rewrite <- Hpl | by rewrite <- Hpe | done | |].
  - intros q Hq. unfold personal in *. cbn. rewrite Hp, contributed_insert, !decide_False, !Z.add_0_r by done.
    done.
  - intros z [= <-]. unfold personal in *. cbn. rewrite Hp, contributed_insert, !decide_True by done.
    rewrite (wf_contributions _ Hwf (sort_asset_id a b) (accumulated_supply pm)) by (by rewrite Hs).
    cbn. f_equal; lia.
Qed.

Lemma take_contribution_Ok p who d c d' :
  take_contribution p who d = Ok (c, d') →
  personal d !! (p, who) = Some c ∧ d' = on_storage (with_BootstrapPersonalSupply (delete (p, who))) d.
Proof. intros Ht. unfold take_contribution, update in Ht. outcome_inv. done. Qed.

(** A contribution is taken out of a pair in trade. *)
Lemma wf_taken a b m who c d d1 d' :
  wf d → pair_status (sort_asset_id a b) d = Trading m →
  take_contribution (sort_asset_id a b) who d = Ok (c, d1) → calm d1 d' → wf d'.
Proof.
  intros Hwf Hm [Hc ->]%take_contribution_Ok Hcalm. eapply calm_wf; [exact Hcalm |].
  destruct Hwf as [Hlp Hacc Hsup Hcon Hend]. split; try done. intros p x Hx.
  unfold personal in *. cbn. rewrite (contributed_delete _ _ _ _ _ Hc).
  rewrite !decide_False; [rewrite !Z.sub_0_r; rewrite (Hcon p x Hx); by destruct x | intros <-..];
    change (contributions_of (pair_status (sort_asset_id a b) d) = Some x) in Hx; by rewrite Hm in Hx.
Qed.

Lemma wf_claim who to a b d d' : wf d → do_bootstrap_claim who to a b d = Ok (tt, d') → wf d'.
Proof.
  intros Hwf Hr. unfold do_bootstrap_claim in Hr. apply M_bind_Ok in Hr as (s & d0 & [-> ->]%gets_Ok & Hr).
  destruct (pair_status (sort_asset_id a b) d) as [m | |] eqn:Hs; [| done..].
  apply M_bind_Ok in Hr as (c & d1 & Ht & Hr). eapply wf_taken; [exact Hwf | exact Hs | exact Ht |].
  revert Hr. apply (respects_bind calm); [respects |]. intros [| p |]; [respects.. | | respects].
  repeat first [apply calm_distribute | apply calm_event | calm_step].
Qed.

Lemma wf_refund who a b d d' : wf d → do_bootstrap_refund who a b d = Ok (tt, d') → wf d'.
Proof.
  intros Hwf Hr. unfold do_bootstrap_refund in Hr. apply M_bind_Ok in Hr as (s & d0 & [-> ->]%gets_Ok & Hr).
  apply M_bind_Ok in Hr as (e & d0 & [-> ->]%gets_Ok & Hr).
  assert (∀ c d1 d2 d3, take_contribution (sort_asset_id a b) who d = Ok (c, d1) → calm d1 d2 → calm d3 d' →
    match pair_status (sort_asset_id a b) d with
    | Bootstrap p =>
        d3 = on_storage (with_PairStatuses <[sort_asset_id a b :=
          Bootstrap (set_accumulated ((accumulated_supply p).1 - c.1, (accumulated_supply p).2 - c.2) p)]>) d2
    | Trading _ => d3 = d2
    | Disable => False
    end → wf d') as Hkey.
  { intros c d1 d2 d3 Ht Hc Hc' Hst. eapply calm_wf; [exact Hc' |].
    destruct (pair_status (sort_asset_id a b) d) as [m | p |] eqn:Hs; [subst d3; by eapply wf_taken | | done].
    apply take_contribution_Ok in Ht as [Ht ->]. destruct Hc as [[= Hps Hpl Hp Hpe] Hi]. subst d3.
    eapply (wf_put_bootstrap a b); [exact Hwf | | | by rewrite Hs | cbn; by rewrite Hps | done | done | done | |]; [done | done | |].
    - intros q Hq. unfold personal in *. cbn. rewrite Hp, (contributed_delete _ _ _ _ _ Ht), !decide_False, !Z.sub_0_r by done. done.
    - intros z [= <-]. unfold personal in *. cbn. rewrite Hp, (contributed_delete _ _ _ _ _ Ht), !decide_True by done.
      rewrite (wf_contributions _ Hwf (sort_asset_id a b) (accumulated_supply p)) by (by rewrite Hs). done. }
  apply M_bind_Ok in Hr as (params & d0 & Hpar & Hr).
  assert (d0 = d ∧ pair_status (sort_asset_id a b) d ≠ Disable) as [-> Hnd].
  { destruct (pair_status (sort_asset_id a b) d) as [m | p |] eqn:Hs, (bootstrap_end_status (sort_asset_id a b) d) as [m' | q |] eqn:He;
      try discriminate Hpar; try (by injection Hpar as _ <-).
    destruct (wf_ended _ Hwf _ _ He) as [m Hm]. by rewrite Hs in Hm. }
  apply M_bind_Ok in Hr as (disabled & d0 & [-> ->]%gets_Ok & Hr).
  apply M_bind_Ok in Hr as ([] & d0 & [_ ->]%ensureM_Ok & Hr).
  apply M_bind_Ok in Hr as (c & d1 & Ht & Hr). apply M_bind_Ok in Hr as ([] & d2 & H1%calm_transfer & Hr).
  apply M_bind_Ok in Hr as ([] & d3 & H2%calm_transfer & Hr). apply M_bind_Ok in Hr as ([] & d4 & Hst & Hr%calm_event).
  apply (Hkey c d1 d3 d4); [done | by transitivity d2 | done |].
  destruct (pair_status (sort_asset_id a b) d) as [m | p |]; [by injection Hst as <- | | done].
  unfold put_status, update in Hst. outcome_inv.
  repeat match goal with H : checked_sub _ _ = Some _ |- _ => apply checked_sub_Some in H as [-> _] end. done.
Qed.

(** A pair starts to trade: created without supply, or at the end of a bootstrap. *)
Lemma wf_open a b m lp d d' :
  let p := sort_asset_id a b in
  wf d → (∀ m', pair_status p d ≠ Trading m') → pair_account m = pair_account_id a b → lp_asset_id a b = Some lp →
  PairStatuses (dex d') = <[p := Trading m]> (PairStatuses (dex d)) →
  LiquidityPairs (dex d') = <[p := lp]> (LiquidityPairs (dex d)) → personal d' = personal d →
  (∀ q, q ≠ p → bootstrap_end_status q d' = bootstrap_end_status q d) →
  (∀ c, total_issuance c (tokens d') = total_issuance c (tokens d) + at_currency lp c (total_supply m)) →
  wf d'.
Proof.
  intros p Hwf Hold Hacc Hlp Hs Hl Hp He Hi.
  apply (wf_put a b (Trading m) d); try done.
  - intros q lp'. unfold lp_pairs. rewrite Hl. destruct (decide (q = p)) as [-> | Hq]; [| rewrite lookup_insert_ne by done; auto].
    rewrite lookup_insert_eq. intros [= <-]. auto.
  - intros q _. by rewrite Hp.
  - intros lp' c Hlp'. rewrite Hlp in Hlp'. injection Hlp' as <-. rewrite Hi. cbn. f_equal. f_equal.
    destruct (pair_status _ d) as [m' | |] eqn:Ho; [by destruct (Hold m') | |]; cbn; lia.
  - by rewrite Hlp.
  - by intros m' [= <-].
  - intros q x Hx. destruct (decide (q = p)) as [-> | Hq]; [right; eauto |]. rewrite He in Hx by done. eauto.
  - intros m' Hm'. by destruct (Hold m').
Qed.

Lemma wf_create o a b fee d d' : wf d → create_pair o a b fee d = Ok (tt, d') → wf d'.
Proof.
  intros Hwf Hr. unfold create_pair, mutate_lp_pairs, update in Hr. outcome_inv.
  apply calm_event in Hr. eapply calm_wf; [exact Hr |].
  match goal with H : match _ with _ => _ end _ = Ok (_, ?e), Hl : lp_asset_id a b = Some ?v |- _ =>
    rename H into Hput, e into d1, v into lp, Hl into Hlp end.
  set (m := mkMetadata (pair_account_id (sort_asset_id a b).1 (sort_asset_id a b).2) 0 fee) in *.
  assert (pair_account m = pair_account_id a b) as Hacc by apply pair_account_sorted.
  assert ((∀ m', pair_status (sort_asset_id a b) d ≠ Trading m') ∧ ∃ g,
    d1 = on_storage (λ s, with_PairStatuses <[sort_asset_id a b := Trading m]> (with_BootstrapEndStatus g s)) d ∧
    ∀ q e, q ≠ sort_asset_id a b → g e !! q = e !! q) as (Hold & g & -> & Hg).
  { destruct (pair_status (sort_asset_id a b) d) as [m0 | p |] eqn:Hs; [done | |]; split; try done; unfold put_status, update in Hput.
    - outcome_inv. destruct (bootstrap_disable p d); [| done]. outcome_inv. exists <[sort_asset_id a b := Bootstrap p]>.
      split; [done |]. intros q e Hq. by rewrite lookup_insert_ne.
    - outcome_inv. exists id. destruct d as [? []]. done. }
  apply (wf_open a b m lp d); try done.
  - intros q Hq. unfold bootstrap_end_status. cbn. by rewrite Hg.
  - intros c. change (total_supply m) with 0. unfold at_currency. destruct (decide (lp = c)); by rewrite Z.add_0_r.
Qed.

Lemma wf_end o a b d d' : wf d → bootstrap_end o a b d = Ok (tt, d') → wf d'.
Proof.
  intros Hwf Hr. unfold bootstrap_end, mutate_lp_pairs, do_end_bootstrap in Hr. outcome_inv.
  match goal with H : lp_asset_id a b = Some ?v |- _ => rename v into lp, H into Hlp end.
  match goal with H : update _ _ = Ok _ |- _ => unfold update in H end. outcome_inv.
  destruct (pair_status (sort_asset_id a b) _) as [| p |] eqn:Hs; [done | | done].
  change (pair_status (sort_asset_id a b) d = Bootstrap p) in Hs. outcome_inv.
  repeat match goal with H : transfer _ _ _ _ _ = Ok (?u, _) |- _ => destruct u; apply calm_transfer in H end.
  repeat match goal with H : mint _ _ _ _ = Ok (?u, _) |- _ => destruct u; apply view_mint in H end.
  match goal with H : lp_pairs _ _ = Some _ |- _ =>
    unfold lp_pairs in H; cbn in H; rewrite lookup_insert_eq in H; injection H as <- end.
  apply calm_event in Hr. eapply calm_wf; [exact Hr |].
  match goal with H : calm ?d0 ?d1, H' : calm ?d1 ?d2, Hi : issues lp ?v ?d2 ?d3 |- _ =>
    apply (calm_issues lp) in H, H'; pose proof (issues_trans _ _ _ _ _ _ H (issues_trans _ _ _ _ _ _ H' Hi)) as [[= Hps Hpl Hp He] Hiss] end.
  repeat match goal with H : put_status _ _ _ = Ok _ |- _ => injection H as <- <- | H : update _ _ = Ok _ |- _ => injection H as <- <- end.
  set (m := mkMetadata _ _ _).
  apply (wf_open a b m lp d); try done.
  - intros m'. by rewrite Hs.
  - apply pair_account_sorted.
  - cbn. by rewrite Hps.
  - intros q Hq. unfold bootstrap_end_status. cbn. by rewrite lookup_insert_ne, He.
Qed.

Ltac calm_calls :=
  repeat first [ apply calm_swap_exact | apply calm_swap_for_exact | apply calm_deadline | apply calm_event
               | apply calm_charge | calm_step ].
Lemma wf_set_fee o a b fee d d' : wf d → set_exchange_fee o a b fee d = Ok (tt, d') → wf d'.
Proof.
  intros Hwf Hr. unfold set_exchange_fee in Hr. outcome_inv. apply calm_event in Hr. eapply calm_wf; [exact Hr |].
  match goal with H : match _ with _ => _ end _ = Ok (?u, _) |- _ => destruct u; rename H into Hp end.
  destruct (pair_status (sort_asset_id a b) d) as [m | |] eqn:Hs; [| done..].
  eapply (wf_put_calm a b); [exact Hwf | reflexivity | exact Hp | by rewrite Hs | done | |].
  - intros m' [= <-]. cbn. by apply (wf_account _ Hwf).
  - eauto.
Qed.
(** Creating or changing a bootstrap. *)
Lemma wf_bootstrap a b p d d1 d' :
  wf d → calm d d1 → put_status (sort_asset_id a b) (Bootstrap p) d1 = Ok (tt, d') →
  contributions_of (pair_status (sort_asset_id a b) d) = Some (accumulated_supply p) → wf d'.
Proof.
  intros Hwf Hc Hp Hcon. eapply (wf_put_calm a b); [exact Hwf | exact Hc | exact Hp | | | done |].
  - by destruct (pair_status _ d).
  - by intros x [= <-].
  - intros m Hm. by rewrite Hm in Hcon.
Qed.
Lemma wf_bootstrap_create o a b x y m n t r l d d' : wf d → bootstrap_create o a b x y m n t r l d = Ok (tt, d') → wf d'.
Proof.
  intros Hwf Hr. unfold bootstrap_create in Hr. outcome_inv. apply calm_event in Hr. eapply calm_wf; [exact Hr |].
  match goal with H : match _ with _ => _ end _ = Ok (?u, _) |- _ => destruct u; rename H into Hp end.
  destruct (pair_status (sort_asset_id a b) d) as [| p |] eqn:Hs; [done | |]; outcome_inv;
    match goal with H : put_rewards_and_limits _ _ _ _ = Ok (?u, _) |- _ => destruct u; apply calm_put_rewards in H end;
    (eapply wf_bootstrap; [exact Hwf | eassumption | exact Hp |]); by rewrite Hs.
Qed.
Lemma wf_bootstrap_update o a b x y m n t r l d d' : wf d → bootstrap_update o a b x y m n t r l d = Ok (tt, d') → wf d'.
Proof.
  intros Hwf Hr. unfold bootstrap_update in Hr. outcome_inv. apply calm_event in Hr. eapply calm_wf; [exact Hr |].
  match goal with H : match _ with _ => _ end _ = Ok (?u, _) |- _ => destruct u; rename H into Hp end.
  destruct (pair_status (sort_asset_id a b) d) as [| p |] eqn:Hs; [done | | done]; outcome_inv.
  match goal with H : put_rewards_and_limits _ _ _ _ = Ok (?u, _) |- _ => destruct u; apply calm_put_rewards in H end.
  eapply wf_bootstrap; [exact Hwf | eassumption | exact Hp |]. by rewrite Hs.
Qed.

(** ** Every step *)

Lemma wf_dispatch o c d d' : wf d → dex_dispatch o c d = Ok (tt, d') → wf d'.
Proof.
  assert (∀ m : M Dex DError unit, respects calm m → wf d → m d = Ok (tt, d') → wf d') as Hcalm.
  { intros m Hm Hwf Hr. eapply calm_wf; [by eapply Hm | done]. }
  destruct c; cbn [dex_dispatch].
  - apply Hcalm. unfold set_fee_receiver. calm_calls.
  - apply Hcalm. unfold set_fee_point. calm_calls.
  - apply wf_set_fee.
  - apply wf_create.
  - intros Hwf Hr. unfold add_liquidity, before_deadline in Hr. outcome_inv. by eapply wf_add.
  - intros Hwf Hr. unfold remove_liquidity, before_deadline in Hr. outcome_inv. by eapply wf_remove.
  - apply Hcalm. unfold swap_exact_assets_for_assets. calm_calls.
  - apply Hcalm. unfold swap_assets_for_exact_assets. calm_calls.
  - apply wf_bootstrap_create.
  - intros Hwf Hr. unfold bootstrap_contribute, before_deadline in Hr. outcome_inv. by eapply wf_contribute.
  - intros Hwf Hr. unfold bootstrap_claim, before_deadline in Hr. outcome_inv. by eapply wf_claim.
  - apply wf_end.
  - apply wf_bootstrap_update.
  - intros Hwf Hr. unfold bootstrap_refund in Hr. outcome_inv. by eapply wf_refund.
  - apply Hcalm. unfold bootstrap_charge_reward. calm_calls.
  - apply Hcalm. unfold bootstrap_withdraw_reward. calm_calls.
Qed.
Lemma wf_dex_step d d' : wf d → dex_step d d' → wf d'.
Proof.
  intros Hwf [o c d1 Hd | c x y v d1 Ht | now _]; [by eapply wf_dispatch | | by destruct Hwf].
  eapply calm_wf; [by eapply calm_transfer | done].
Qed.
Lemma wf_steps d d' : wf d → rtc dex_step d d' → wf d'.
Proof. intros Hwf. induction 1 as [| d1 d2 d3 Hs _ IH]; [done |]. by apply IH, (wf_dex_step d1). Qed.
End supply.

(** Before the first pair: no liquidity tokens. *)
Record dex_genesis `{DexEnv} (d : Dex) : Prop := {
  genesis_pairs : PairStatuses (dex d) = ∅ ∧ LiquidityPairs (dex d) = ∅;
  genesis_bootstraps : BootstrapPersonalSupply (dex d) = ∅ ∧ BootstrapEndStatus (dex d) = ∅;
  genesis_issuance a b lp : lp_asset_id a b = Some lp → total_issuance lp (tokens d) = 0;
}.
Lemma wf_genesis `{DexEnv} d : dex_genesis d → wf d.
Proof.
  intros [[Hs Hl] [Hp He] Hi]. split.
  - intros a b lp. unfold lp_pairs. by rewrite Hl.
  - intros a b m. unfold pair_status. by rewrite Hs.
  - intros a b lp Hlp. unfold pair_status. rewrite Hs. cbn. by eapply Hi.
  - intros p x. unfold pair_status, personal. rewrite Hs, Hp. by intros [= <-].
  - intros p q. unfold bootstrap_end_status. by rewrite He.
Qed.

Import DexStore DexMath DexGeneralError DexGeneral DexCalls.

Section liquidity.
Context `{DexEnv}.

(** ** Only balances of the liquidity token change *)

Definition beside (lp : CurrencyId.t) (d d' : Dex) : Prop := ∀ e z, e ≠ lp → free e z d' = free e z d.
#[local] Instance beside_preorder lp : PreOrder (beside lp).
Proof. split; [done |]. intros d1 d2 d3 H1 H2 e z He. by rewrite H2, H1. Qed.

Lemma mint_free c x v d d' e z : mint c x v d = Ok (tt, d') → free e z d' = free e z d + at_balance c e x z v.
Proof. intros (l & Hl & ->)%on_ledger_Ok. apply deposit_moves, moved_free with (d := e) (y := z) in Hl. exact Hl. Qed.
Lemma beside_mint lp x v : respects (beside lp) (mint lp x v).
Proof.
  intros d [] d' Hm e z He. rewrite (mint_free _ _ _ _ _ _ _ Hm), at_balance_ne by auto. lia.
Qed.
Lemma beside_burn lp x v : respects (beside lp) (burn lp x v).
Proof.
  intros d [] d' (l & Hl & ->)%on_ledger_Ok e z He. apply withdraw_moves, moved_free with (d := e) (y := z) in Hl.
  unfold free. cbn. rewrite Hl, at_balance_ne by auto. lia.
Qed.
Lemma beside_update lp f : respects (beside lp) (update f).
Proof. by apply respects_modify. Qed.
Ltac beside_step := first [apply beside_mint | apply beside_burn | apply beside_update | respects_step].
Lemma beside_fee lp fee m : respects (beside lp) (pay_protocol_fee lp fee m).
Proof. unfold pay_protocol_fee. repeat beside_step. Qed.
Lemma beside_protocol_fee lp r0 r1 a b t : respects (beside lp) (mint_protocol_fee r0 r1 a b t).
Proof. unfold mint_protocol_fee, mutate_k_last. repeat beside_step. Qed.
Lemma beside_record_k lp a b x : respects (beside lp) (record_k a b x).
Proof. unfold record_k, mutate_k_last. repeat beside_step. Qed.

(** A liquidity token is not an asset of a pair. *)
Lemma lp_fresh a b lp : lp_asset_id a b = Some lp → a ≠ lp ∧ b ≠ lp.
Proof.
  unfold lp_asset_id, generate_lp_asset_id, CurrencyId.join_lp_token.
  destruct (sort_cases a b) as [-> | ->]; cbn; destruct a, b; cbn; intros; by simplify_eq.
Qed.

(** ** Reserves and supply after a change of liquidity *)

Definition reserve (a b c : CurrencyId.t) (d : Dex) : Z := free c (pair_account_id a b) d.

(** The protocol fee moves nothing but the liquidity token, and is none without a receiver. *)
Lemma charged_fee lp r0 r1 a b m fee m1 d d1 d2 :
  mint_protocol_fee r0 r1 a b (total_supply m) d = Ok (fee, d1) → pay_protocol_fee lp fee m d1 = Ok (m1, d2) →
  pair_account m1 = pair_account m ∧ ((fee_meta d).1 = None → m1 = m) ∧ beside lp d d2 ∧
  total_supply m ≤ total_supply m1.
Proof.
  intros Hm Hp. split_and!.
  - by apply pay_fee_Ok in Hp as [? _].
  - intros Hn. unfold mint_protocol_fee in Hm. outcome_inv. rewrite Hn in Hm. outcome_inv.
    unfold pay_protocol_fee in Hp. outcome_inv. destruct (fee_meta d1).1; by injection Hp as <-.
  - apply (beside_protocol_fee lp) in Hm. apply beside_fee in Hp. by transitivity d1.
  - unfold pay_protocol_fee in Hp. outcome_inv. destruct (fee_meta d1).1; [| by injection Hp as <-].
    destruct (Z.gtb_spec fee 0); [| by injection Hp as <-]. outcome_inv.
    match goal with H : checked_add _ _ _ = Some _ |- _ => apply checked_Some in H as [-> _] end. cbn. lia.
Qed.

Ltac besides := by repeat first [eassumption | etransitivity; [eassumption |]].
Ltac unit_runs := repeat match goal with u : unit |- _ => destruct u end.
Ltac beside_inv lp :=
  repeat match goal with
  | H : mint lp _ _ ?d = Ok (_, ?d') |- _ => apply beside_mint in H
  | H : burn lp _ _ ?d = Ok (_, ?d') |- _ => apply beside_burn in H
  | H : record_k _ _ _ ?d = Ok (_, ?d') |- _ => apply (beside_record_k lp) in H
  | H : deposit_event _ ?d = Ok (_, ?d') |- _ => apply (beside_update lp) in H
  end.

(** Two transfers between [x] and [y], with only the liquidity token moving otherwise. *)
Lemma transfers_moved lp a b x y v w d d1 d2 d3 d' z :
  a ≠ b → a ≠ lp → b ≠ lp → beside lp d d1 →
  transfer a x y v d1 = Ok (tt, d2) → transfer b x y w d2 = Ok (tt, d3) → beside lp d3 d' →
  free a z d' = free a z d + at_balance a a y z v - at_balance a a x z v ∧
  free b z d' = free b z d + at_balance b b y z w - at_balance b b x z w.
Proof.
  intros Hab Ha Hb H1 Ht1 Ht2 H2. rewrite !H2, <- !(H1 _ z) by done.
  rewrite !(transfer_free _ _ _ _ _ _ _ _ Ht2), !(transfer_free _ _ _ _ _ _ _ _ Ht1).
  rewrite !(at_balance_ne b a), !(at_balance_ne a b) by auto. lia.
Qed.

Lemma add_liquidity_Ok who a b x y n0 n1 m d d' :
  wf d → a ≠ b → who ≠ pair_account_id a b → pair_status (sort_asset_id a b) d = Trading m →
  inner_add_liquidity who a b x y n0 n1 d = Ok (tt, d') →
  ∃ x0 x1 fee m', let total := total_supply m + fee in
    let l := calculate_liquidity x0 x1 (reserve a b a d) (reserve a b b d) total in
    calculate_added_amount x y n0 n1 (reserve a b a d) (reserve a b b d) = Ok (x0, x1) ∧
    reserve a b a d' = reserve a b a d + x0 ∧ reserve a b b d' = reserve a b b d + x1 ∧
    pair_status (sort_asset_id a b) d' = Trading m' ∧ total_supply m' = total + l ∧ 0 < l ∧ 0 ≤ fee ∧
    ((fee_meta d).1 = None → fee = 0).
Proof.
  intros Hwf Hab Hwho Hm Hr. pose proof (wf_account _ Hwf _ _ _ Hm) as Hacc.
  unfold inner_add_liquidity in Hr. apply M_bind_Ok in Hr as (pm & d0 & [-> Hm']%trading_Ok & Hr).
  rewrite Hm in Hm'. injection Hm' as <-. outcome_inv.
  match goal with H : (match ?v with (_, _) => _ end) _ = Ok _, H' : calculate_added_amount _ _ _ _ _ _ = Ok ?v |- _ =>
    destruct v as [amount_0 amount_1]; rename H' into Hadd end.
  outcome_inv. match goal with H : lp_pairs _ _ = Some ?v |- _ => rename v into lp; apply (wf_lp _ Hwf) in H; apply lp_fresh in H as [Ha Hb] end.
  match goal with H : mint_protocol_fee _ _ _ _ _ _ = Ok _, H' : pay_protocol_fee _ _ _ _ = Ok (?w, _) |- _ =>
    rename w into m1; destruct (charged_fee _ _ _ _ _ _ _ _ _ _ _ H H') as (Hacc1 & Hsame & ? & Hge); clear H H' end.
  rewrite Hacc1, Hacc in *. pose proof Hr as Hst. unfold put_status in Hr. unit_runs. beside_inv lp.
  apply (beside_update lp) in Hr.
  match goal with Ht1 : transfer a _ _ _ ?d1 = _, Ht2 : transfer b _ _ _ _ = Ok (_, ?d3) |- _ =>
    destruct (transfers_moved lp _ _ _ _ _ _ d d1 _ d3 d' (pair_account_id a b) Hab Ha Hb
      ltac:(besides) Ht1 Ht2 ltac:(besides)) as [Ra Rb] end.
  unfold checked_add in *. match goal with H : checked _ _ = Some _ |- _ => apply checked_Some in H as [-> _] end.
  match type of Hst with put_status _ (Trading ?m') _ = _ =>
    exists amount_0, amount_1, (total_supply m1 - total_supply m), m' end.
  cbv zeta. unfold reserve. rewrite Zplus_minus.
  rewrite at_balance_eq, at_balance_ne in Ra, Rb by auto. rewrite Z.gtb_lt in *.
  split_and!; [done | lia | lia | | done | done | lia |].
  - injection Hst as <-. unfold pair_status. cbn. by rewrite lookup_insert_eq.
  - intros Hn. rewrite (Hsame Hn). lia.
Qed.
(** Shares without a reserve: nothing can be added. *)
Lemma add_to_empty_fails who a b x y n0 n1 m d :
  wf d → a ≠ b → who ≠ pair_account_id a b → pair_status (sort_asset_id a b) d = Trading m → 0 < total_supply m →
  reserve a b a d = 0 → is_ok (inner_add_liquidity who a b x y n0 n1 d) = false.
Proof.
  intros Hwf Hab Hwho Hm Ht Hr. destruct (inner_add_liquidity _ _ _ _ _ _ _ d) as [[[] d'] | | |] eqn:Ha; [| done..].
  destruct (add_liquidity_Ok _ _ _ _ _ _ _ _ _ _ Hwf Hab Hwho Hm Ha) as (x0 & x1 & fee & m' & _ & _ & _ & _ & _ & Hl & Hf & _).
  rewrite Hr in Hl. unfold calculate_liquidity in Hl. destruct (Z.eqb_spec (total_supply m + fee) 0); [lia |].
  rewrite share_amount_empty in Hl. lia.
Qed.

Lemma remove_liquidity_Ok who a b l n0 n1 to m d d' :
  wf d → a ≠ b → to ≠ pair_account_id a b → pair_status (sort_asset_id a b) d = Trading m →
  inner_remove_liquidity who a b l n0 n1 to d = Ok (tt, d') →
  let x c := calculate_share_amount l (total_supply m) (reserve a b c d) in
  (∀ c, c = a ∨ c = b →
    reserve a b c d' = reserve a b c d - x c ∧ free c to d' = free c to d + x c) ∧
  ∃ fee m', is_Some (lp_asset_id a b) ∧
    pair_status (sort_asset_id a b) d' = Trading m' ∧ total_supply m' = total_supply m + fee - l ∧
    l ≤ total_supply m + fee ∧ ((fee_meta d).1 = None → fee = 0).
Proof.
  intros Hwf Hab Hto Hm Hr. pose proof (wf_account _ Hwf _ _ _ Hm) as Hacc.
  unfold inner_remove_liquidity in Hr. apply M_bind_Ok in Hr as (pm & d0 & [-> Hm']%trading_Ok & Hr).
  rewrite Hm in Hm'. injection Hm' as <-. outcome_inv.
  match goal with H : lp_pairs _ _ = Some ?v |- _ => rename v into lp; apply (wf_lp _ Hwf) in H; rename H into Hlp; pose proof (lp_fresh _ _ _ Hlp) as [Ha Hb] end.
  match goal with H : mint_protocol_fee _ _ _ _ _ _ = Ok _, H' : pay_protocol_fee _ _ _ _ = Ok (?w, _) |- _ =>
    rename w into m1; destruct (charged_fee _ _ _ _ _ _ _ _ _ _ _ H H') as (Hacc1 & Hsame & ? & Hge); clear H H' end.
  rewrite Hacc1, Hacc in *. pose proof Hr as Hst. unfold put_status in Hr. unit_runs. beside_inv lp.
  apply (beside_update lp) in Hr.
  match goal with Ht1 : transfer a _ _ _ ?d1 = _, Ht2 : transfer b _ _ _ _ = Ok (_, ?d3) |- _ =>
    pose proof (λ z, transfers_moved lp _ _ _ _ _ _ d d1 _ d3 d' z Hab Ha Hb
      ltac:(besides) Ht1 Ht2 ltac:(besides)) as Rz end.
  match goal with H : checked_sub _ _ = Some _ |- _ => apply checked_sub_Some in H as [-> Hle] end.
  split.
  - intros c Hc. pose proof (Rz (pair_account_id a b)) as [Ra Rb]. pose proof (Rz to) as [Ta Tb].
    rewrite at_balance_ne, at_balance_eq in Ra, Rb by auto. rewrite at_balance_eq, at_balance_ne in Ta, Tb by auto.
    unfold reserve. destruct Hc as [-> | ->]; lia.
  - match type of Hst with put_status _ (Trading ?m') _ = _ => exists (total_supply m1 - total_supply m), m' end.
    cbn. split_and!; [by eexists | | lia | lia |].
    + injection Hst as <-. unfold pair_status. cbn. by rewrite lookup_insert_eq.
    + intros Hn. rewrite (Hsame Hn). lia.
Qed.

(** ** Contributions are amounts *)

Definition unsigned (d : Dex) : Prop := ∀ k v, personal d !! k = Some v → 0 ≤ v.1 ∧ 0 ≤ v.2.
Definition keeps_unsigned (d d' : Dex) : Prop := unsigned d → unsigned d'.
#[local] Instance keeps_unsigned_preorder : PreOrder keeps_unsigned.
Proof. split; [intros d Hd; exact Hd |]. intros d1 d2 d3 H1 H2 Hd. by apply H2, H1. Qed.

Lemma unsigned_ledger {A} (m : M ledger TError A) : respects keeps_unsigned (on_ledger m).
Proof. intros d a d' (l & _ & ->)%on_ledger_Ok Hd. exact Hd. Qed.
Lemma unsigned_update f : (∀ s, BootstrapPersonalSupply (f s) = BootstrapPersonalSupply s) → respects keeps_unsigned (update f).
Proof. intros Hf. apply respects_modify. intros d Hd k v. unfold personal. cbn. rewrite Hf. apply Hd. Qed.
Lemma unsigned_calm {A} (m : M Dex DError A) : respects calm m → respects keeps_unsigned m.
Proof. intros Hm d a d' Hr Hd. destruct (Hm _ _ _ Hr) as [[= _ _ Hp _] _]. unfold unsigned. by rewrite Hp. Qed.
Lemma unsigned_take p who : respects keeps_unsigned (take_contribution p who).
Proof.
  intros d c d' [_ ->]%take_contribution_Ok Hd k v. unfold personal. cbn. rewrite lookup_delete_Some. intros [_ Hk]. by eapply Hd.
Qed.
Lemma add_pair_unsigned x y z : add_pair x y = Ok z → 0 ≤ z.1 ∧ 0 ≤ z.2.
Proof.
  unfold add_pair, checked_add. intros Ha. outcome_inv.
  repeat match goal with H : checked _ _ = Some _ |- _ => apply checked_Some in H as [-> [? _]] end. done.
Qed.
Lemma unsigned_contribute who a b x y : respects keeps_unsigned (do_bootstrap_contribute who a b x y).
Proof.
  intros d u d' Hr Hd. unfold do_bootstrap_contribute in Hr. apply M_bind_Ok in Hr as (s & d0 & [-> ->]%gets_Ok & Hr).
  destruct (pair_status (sort_asset_id a b) d) as [| pm |]; [done | | done]. outcome_inv.
  match goal with H : (match ?v with (_, _) => _ end) _ = Ok _ |- _ => destruct v as [v0 v1] end. outcome_inv.
  unit_runs. unfold update in Hr. outcome_inv.
  repeat match goal with H : transfer _ _ _ _ _ = Ok _ |- _ => apply (unsigned_calm _ (calm_transfer _ _ _ _)) in H
    | H : put_status _ _ _ = Ok _ |- _ => injection H as <-
    | H : deposit_event _ _ = Ok _ |- _ => injection H as <- end.
  intros k v. unfold personal. cbn. rewrite lookup_insert_Some. intros [[_ <-] | [_ Hk]]; [by eapply add_pair_unsigned |].
  match goal with H1 : keeps_unsigned d ?d1, H2 : keeps_unsigned ?d1 ?d2 |- _ => by apply (H2 (H1 Hd) k v) end.
Qed.

Ltac unsigned_step :=
  first [ apply unsigned_take | apply unsigned_contribute | apply unsigned_ledger
        | (apply unsigned_calm; first [ apply calm_protocol_fee | apply calm_record_k | apply calm_swap_exact
            | apply calm_swap_for_exact | apply calm_distribute | apply calm_charge | apply calm_put_rewards ])
        | (apply unsigned_update; reflexivity)
        | respects_step ].
Lemma unsigned_dispatch o c : respects keeps_unsigned (dex_dispatch o c).
Proof.
  destruct c; cbn [dex_dispatch];
    repeat first [ unsigned_step
                 | progress unfold set_fee_receiver, set_fee_point, set_exchange_fee, create_pair, add_liquidity,
                     remove_liquidity, swap_exact_assets_for_assets, swap_assets_for_exact_assets, bootstrap_create,
                     bootstrap_contribute, bootstrap_claim, bootstrap_end, bootstrap_update, bootstrap_refund,
                     bootstrap_charge_reward, bootstrap_withdraw_reward
                 | progress unfold inner_add_liquidity, inner_remove_liquidity, pay_protocol_fee, do_bootstrap_claim,
                     do_bootstrap_refund, do_end_bootstrap, before_deadline, mutate_lp_pairs, put_status, deposit_event,
                     trading, transfer, mint, burn ].
Qed.
Lemma unsigned_steps d d' : unsigned d → rtc dex_step d d' → unsigned d'.
Proof.
  intros Hd. induction 1 as [| d1 d2 d3 Hs _ IH]; [done |]. apply IH.
  destruct Hs as [o c d2 Hr | e x y v d2 Ht | now _]; [by eapply unsigned_dispatch | by eapply unsigned_ledger |].
  exact Hd.
Qed.

(** ** Claims on a bootstrap *)

(** What all contributors to the pair can claim. *)
Definition claim_of (p : Pair) (accumulated : Z * Z) (k : Pair * AccountId) (contributed : Z * Z) : Z :=
  if decide (k.1 = p) then match claim_liquidity contributed accumulated with Ok l => l | _ => 0 end else 0.
Definition claims (p : Pair) (accumulated : Z * Z) : gmap (Pair * AccountId) (Z * Z) → Z :=
  msum (claim_of p accumulated).

Lemma claims_bound p accumulated m :
  0 < accumulated.1 → 0 < accumulated.2 → (∀ k v, m !! k = Some v → 0 ≤ v.1 ∧ 0 ≤ v.2) →
  let w := claim_weight accumulated (contributed p m) in let c := claims p accumulated m in
  0 ≤ c ∧ 0 ≤ w ∧ c * c * (4 * (accumulated.1 * accumulated.2)) ≤ w * w.
Proof.
  intros Hs0 Hs1. induction m as [| k v m Hk IH] using map_ind; intros Hm.
  { cbv zeta. unfold claims, claim_weight, contributed, contributed_0, contributed_1. cbn [fst snd]. rewrite !msum_empty. lia. }
  assert (∀ k' v', m !! k' = Some v' → 0 ≤ v'.1 ∧ 0 ≤ v'.2) as Hm'.
  { intros k' v' Hk'. apply (Hm k'). rewrite lookup_insert_ne; [done | congruence]. }
  destruct (IH Hm') as (Hc & Hw & Hle). destruct (Hm k v (lookup_insert_eq _ _ _)) as [H0 H1]. cbv zeta.
  unfold claims, claim_of, contributed, contributed_0, contributed_1, claim_weight in *. cbn [fst snd] in *. rewrite !msum_fresh by done.
  case_decide as Hp; cbn; [| done].
  set (c := msum _ m) in *. set (c0 := msum (λ k v, if decide (k.1 = p) then v.1 else 0) m) in *.
  set (c1 := msum (λ k v, if decide (k.1 = p) then v.2 else 0) m) in *.
  assert (0 ≤ claim_weight accumulated v) as Hv by (unfold claim_weight; nia).
  replace ((v.1 + c0) * accumulated.2 + (v.2 + c1) * accumulated.1)
    with (claim_weight accumulated v + (c0 * accumulated.2 + c1 * accumulated.1)) by (unfold claim_weight; lia).
  destruct (claim_liquidity v accumulated) as [l | | |] eqn:Hl;
    [| split_and!; [lia.. |]; etransitivity; [exact Hle | apply Z.mul_le_mono_nonneg; lia] ..].
  apply claim_liquidity_bound in Hl as [Hl0 Hl]; [| done..].
  split_and!; [lia.. |]. apply root_add; [nia | done..].
Qed.

Lemma claims_covered p accumulated m total :
  contributed p m = accumulated → (∀ k v, m !! k = Some v → 0 ≤ v.1 ∧ 0 ≤ v.2) →
  root_liquidity accumulated.1 accumulated.2 = Some total → 0 < total →
  0 ≤ claims p accumulated m ≤ total.
Proof.
  intros Hc Hm Hroot Ht.
  assert (0 ≤ accumulated.1 ∧ 0 ≤ accumulated.2) as [H0 H1].
  { rewrite <- Hc. cbn. split; apply msum_nonneg; intros k v Hk; case_decide; try done; by apply (Hm k v). }
  apply root_liquidity_Some in Hroot as (_ & Hle & Hlt); [| done..].
  destruct (claims_bound p accumulated m ltac:(nia) ltac:(nia) Hm) as (Hc0 & _ & Hb). rewrite Hc in Hb. unfold claim_weight in Hb.
  split; [done |]. set (c := claims p accumulated m) in *. set (k := accumulated.1 * accumulated.2) in *.
  assert (c * c ≤ k) by (unfold k in *; nia). assert (c < total + 1); [| lia].
  destruct (Z.lt_ge_cases c (total + 1)); [done | nia].
Qed.
Lemma transfer_other c x y v d d' e z :
  transfer c x y v d = Ok (tt, d') → c ≠ e → personal d' = personal d ∧ free e z d' = free e z d.
Proof.
  intros Ht He. split; [by apply calm_transfer in Ht as [[= _ _ Hp _] _] |].
  rewrite (transfer_free _ _ _ _ _ _ _ _ Ht), !at_balance_ne by auto. lia.
Qed.
Lemma bootstrap_end_Ok o a b d d' :
  wf d → bootstrap_end o a b d = Ok (tt, d') →
  ∃ p lp m, let pair := sort_asset_id a b in
    pair_status pair d = Bootstrap p ∧ lp_asset_id a b = Some lp ∧ pair_status pair d' = Trading m ∧
    root_liquidity (accumulated_supply p).1 (accumulated_supply p).2 = Some (total_supply m) ∧ 0 < total_supply m ∧
    bootstrap_end_status pair d' = Bootstrap p ∧ personal d' = personal d ∧
    free lp (pair_account_id a b) d' = free lp (pair_account_id a b) d + total_supply m.
Proof.
  intros Hwf Hr. unfold bootstrap_end, mutate_lp_pairs, do_end_bootstrap, update in Hr. outcome_inv.
  match goal with H : lp_asset_id a b = Some ?v |- _ => rename v into lp, H into Hlp end.
  destruct (pair_status (sort_asset_id a b) _) as [| p |] eqn:Hs; [done | | done].
  change (pair_status (sort_asset_id a b) d = Bootstrap p) in Hs. outcome_inv. unit_runs.
  match goal with H : lp_pairs _ _ = Some _ |- _ =>
    unfold lp_pairs in H; cbn in H; rewrite lookup_insert_eq in H; injection H as <- end.
  pose proof Hlp as Hlp'. rewrite <- lp_asset_sorted in Hlp'. apply lp_fresh in Hlp' as [Ha Hb].
  rewrite pair_account_sorted in *. injection Hr as <-.
  match goal with H : put_status _ (Trading ?m) ?d1 = Ok _ |- _ =>
    exists p, lp, m; set (l := total_supply m); rename d1 into d3; injection H as <- end.
  repeat match goal with H : transfer _ _ _ _ _ = Ok _ |- _ => apply (transfer_other _ _ _ _ _ _ lp (pair_account_id a b)) in H as [? ?]; [| done] end.
  match goal with H : mint _ _ _ ?d1 = Ok _ |- _ =>
    pose proof (view_mint _ _ _ _ _ H) as [[= _ _ Hp3 _] _]; apply (mint_free _ _ _ _ _ lp (pair_account_id a b)) in H;
    rewrite at_balance_eq in H; rename H into Hm end.
  cbv zeta. unfold pair_status, bootstrap_end_status, personal in *. cbn. rewrite !lookup_insert_eq.
  assert (0 < l ∧ root_liquidity (accumulated_supply p).1 (accumulated_supply p).2 = Some l) as [Hl Hroot].
  { unfold l, calculate_liquidity in *. cbn in *. rewrite Z.gtb_lt in *. destruct (root_liquidity _ _); cbn in *; [done | lia]. }
  split_and!; try done; [cbn in *; congruence |]. change (free lp (pair_account_id a b) d3 = free lp (pair_account_id a b) d + l).
  unfold free, l in *. cbn in *. congruence.
Qed.
End liquidity.
