(* ===== verification/DexProps.v ===== *)
(** * What the exchange of pairs guarantees

    The recorded supply of a pair is the issuance of its liquidity token, and a
    query computes what a removal pays.  Swaps never lower the product of the
    reserves on a path that uses each pair once; without a protocol fee, adding
    and removing liquidity never lowers what a share is worth; a quoted input
    buys the output it was quoted for; the claims on a bootstrap are covered by
    the liquidity minted at its end. *)

From coqutil Require Import Byte.
From Stdlib Require Import ZArith Lia.
From stdpp Require Import base tactics option list numbers gmap relations.
From S2P Require Import Prelude Bytes Security Primitives Tokens Frames DexStore DexMath DexGeneral DexSwap DexCall DexSupply.

Local Open Scope Z_scope.
Import DexStore DexMath DexGeneralError DexGeneral DexCalls.

Section props.
Context `{DexEnv}.

(** C14: in every state the exchange reaches from its genesis, the supply recorded for a pair
    in trade is the issuance of its liquidity token, and the pair has the account derived from
    its assets. *)
Theorem lp_supply_is_issuance d0 d a b m lp :
  dex_genesis d0 → rtc dex_step d0 d →
  pair_status (sort_asset_id a b) d = Trading m → lp_asset_id a b = Some lp →
  total_supply m = total_issuance lp (tokens d) ∧ pair_account m = pair_account_id a b.
Proof.
  intros Hg Hs Hm Hlp. pose proof (wf_steps _ _ (wf_genesis _ Hg) Hs) as Hwf.
  split; [| by apply (wf_account _ Hwf)]. by rewrite (wf_supply _ Hwf a b lp Hlp), Hm.
Qed.

(** C15: a swap along a path, in either direction, lowers the product of the reserves of no
    pair on it, if the path uses every pair once, each step is between distinct assets, and
    the swap goes between accounts that are not those of its pairs. *)
Theorem swaps_keep_products who amount limit path recipient d d' :
  inner_swap_exact_assets_for_assets who amount limit path recipient d = Ok (tt, d') ∨
  inner_swap_assets_for_exact_assets who amount limit path recipient d = Ok (tt, d') →
  0 ≤ amount → Forall (λ h : _ * _, h.1 ≠ h.2) (hops path) → NoDup (hop_accounts path) →
  who ∉ hop_accounts path → recipient ∉ hop_accounts path →
  Forall (λ h, product h d ≤ product h d') (hops path).
Proof.
  intros Hr Hpos Hne Hnd Hwho Hrec.
  assert (∀ d1 e, deposit_event e d1 = Ok (tt, d') → ∀ h, product h d' = product h d1) as Hev.
  { intros d1 e [= <-] h. done. }
  destruct Hr as [Hr | Hr].
  - unfold inner_swap_exact_assets_for_assets in Hr. outcome_inv.
    match goal with H : get_amount_out_by_path _ _ _ = Ok _ |- _ =>
      apply get_amount_out_by_path_Ok in H as (a & b & rest & y & more & -> & -> & Hlen & Hf & Hq) end.
    repeat match goal with H : first_pair _ = Ok _ |- _ => injection H as <- | H : unwrap (head _) = Ok _ |- _ => injection H as <-
      | u : unit |- _ => destruct u end.
    eapply Forall_impl; [eapply (paid_swap_products who amount y more a b rest recipient); try done; by constructor |].
    intros h Hh. by rewrite (Hev _ _ Hr).
  - unfold inner_swap_assets_for_exact_assets in Hr. outcome_inv.
    match goal with H : get_amount_in_by_path _ _ _ = Ok ?l |- _ =>
      destruct (get_amount_in_by_path_Ok _ _ _ _ Hpos H) as (Hlen & Hlen2 & Hf & Hq); clear H; rename l into amounts end.
    destruct amounts as [| v [| y more]], path as [| a [| b rest]]; cbn in Hlen, Hlen2; try lia.
    repeat match goal with H : first_pair _ = Ok _ |- _ => injection H as <- | H : unwrap (head _) = Ok _ |- _ => injection H as <-
      | u : unit |- _ => destruct u end.
    eapply Forall_impl; [eapply (paid_swap_products who v y more a b rest recipient); try done; congruence |].
    intros h Hh. by rewrite (Hev _ _ Hr).
Qed.

(** C18: an input quoted for an output buys at least that output at the same reserves and fee,
    and neither quote lowers the product of the reserves. *)
Theorem quotes_agree output input_reserve output_reserve fee input output' :
  0 < output → 0 < input_reserve → 0 ≤ output_reserve → 0 ≤ fee →
  get_amount_in output input_reserve output_reserve fee = Ok input →
  get_amount_out input input_reserve output_reserve fee = Ok output' →
  output ≤ output' ∧
  input_reserve * output_reserve ≤ (input_reserve + input) * (output_reserve - output) ∧
  input_reserve * output_reserve ≤ (input_reserve + input) * (output_reserve - output').
Proof.
  intros Ho Hi Hr Hf Hin Hout. pose proof (amount_in_keeps_product _ _ _ _ _ Ho Hi Hf Hin) as (Hx & _ & Hk).
  split; [eapply amount_in_out; [exact Ho | exact Hi | exact Hf | exact Hin | exact Hout] |]. split; [done |]. eapply amount_out_keeps_product; eauto. lia.
Qed.

(** A removal of liquidity in a reachable state pays its recipient, from the account of the
    pair, exactly what the query for it computes from the issuance of the liquidity token. *)
Theorem remove_pays_preview d0 who a b l n0 n1 to d d' :
  dex_genesis d0 → rtc dex_step d0 d → a ≠ b → to ≠ pair_account_id a b →
  inner_remove_liquidity who a b l n0 n1 to d = Ok (tt, d') →
  ∃ x y, calculate_remove_liquidity a b l d = Some (x, y) ∧
    free a (pair_account_id a b) d' = free a (pair_account_id a b) d - x ∧ free a to d' = free a to d + x ∧
    free b (pair_account_id a b) d' = free b (pair_account_id a b) d - y ∧ free b to d' = free b to d + y.
Proof.
  intros Hg Hs Hab Hto Hr. pose proof (wf_steps _ _ (wf_genesis _ Hg) Hs) as Hwf.
  pose proof Hr as Hr'. unfold inner_remove_liquidity in Hr'. apply M_bind_Ok in Hr' as (m & d1 & [-> Hm]%trading_Ok & _).
  destruct (remove_liquidity_Ok _ _ _ _ _ _ _ _ _ _ Hwf Hab Hto Hm Hr) as (Hmoved & fee & m' & [lp Hlp] & _).
  destruct (Hmoved a (or_introl eq_refl)) as [Ha Hta], (Hmoved b (or_intror eq_refl)) as [Hb Htb].
  unfold calculate_remove_liquidity. rewrite Hlp. cbn. rewrite (wf_supply _ Hwf _ _ _ Hlp), Hm. cbn. eauto 10.
Qed.

(** C16: without a receiver of the protocol fee, neither adding nor removing liquidity, to an
    account that is not that of the pair, lowers the part of either reserve that stands behind a share. *)
Theorem liquidity_keeps_share_value d0 who a b x y n0 n1 to m d d' :
  dex_genesis d0 → rtc dex_step d0 d → (fee_meta d).1 = None → a ≠ b → to ≠ pair_account_id a b →
  pair_status (sort_asset_id a b) d = Trading m → 0 < total_supply m →
  0 ≤ reserve a b a d → 0 ≤ reserve a b b d → 0 ≤ x → 0 ≤ y →
  inner_add_liquidity to a b x y n0 n1 d = Ok (tt, d') ∨
  inner_remove_liquidity who a b x n0 n1 to d = Ok (tt, d') →
  ∃ m', pair_status (sort_asset_id a b) d' = Trading m' ∧
    reserve a b a d * total_supply m' ≤ reserve a b a d' * total_supply m ∧
    reserve a b b d * total_supply m' ≤ reserve a b b d' * total_supply m.
Proof.
  intros Hg Hs Hn Hab Hto Hm Ht Ha Hb Hx Hy Hr. pose proof (wf_steps _ _ (wf_genesis _ Hg) Hs) as Hwf.
  destruct Hr as [Hr | Hr].
  - destruct (add_liquidity_Ok _ _ _ _ _ _ _ _ _ _ Hwf Hab Hto Hm Hr)
      as (x0 & x1 & fee & m' & Hadd & Ra & Rb & Hm' & Hsup & _ & _ & Hfee).
    rewrite (Hfee Hn), Z.add_0_r in Hsup. destruct (added_amount_nonneg _ _ _ _ _ _ _ _ Hx Hy Hadd) as [H0 H1].
    pose proof (calculate_liquidity_bound x0 x1 _ _ _ H0 H1 Ha Hb Ht) as [L0 L1].
    exists m'. rewrite Ra, Rb, Hsup. split; [done |]. lia.
  - destruct (remove_liquidity_Ok _ _ _ _ _ _ _ _ _ _ Hwf Hab Hto Hm Hr) as (Hmoved & fee & m' & _ & Hm' & Hsup & _ & Hfee).
    rewrite (Hfee Hn), Z.add_0_r in Hsup.
    destruct (Hmoved a (or_introl eq_refl)) as [-> _], (Hmoved b (or_intror eq_refl)) as [-> _].
    destruct (share_amount_le x _ _ Hx Ha Ht), (share_amount_le x _ _ Hx Hb Ht). exists m'. rewrite Hsup. split; [done |]. lia.
Qed.

(** C17: the end of a bootstrap opens the pair with liquidity minted to its account, and all claims
    the recorded contributions give right to, rounded as they are, are covered by it. *)
Theorem claims_within_minted d0 o a b d d' :
  dex_genesis d0 → rtc dex_step d0 d → bootstrap_end o a b d = Ok (tt, d') →
  ∃ lp m p, let pair := sort_asset_id a b in
    lp_asset_id a b = Some lp ∧ pair_status pair d' = Trading m ∧ bootstrap_end_status pair d' = Bootstrap p ∧
    free lp (pair_account_id a b) d' = free lp (pair_account_id a b) d + total_supply m ∧
    0 ≤ claims pair (accumulated_supply p) (personal d') ≤ total_supply m.
Proof.
  intros Hg Hs Hr. pose proof (wf_steps _ _ (wf_genesis _ Hg) Hs) as Hwf.
  assert (unsigned d) as Hun.
  { apply (unsigned_steps d0); [| done]. intros k v. unfold personal. by rewrite (proj1 (genesis_bootstraps _ Hg)). }
  destruct (bootstrap_end_Ok _ _ _ _ _ Hwf Hr) as (p & lp & m & Hp & Hlp & Hm & Hroot & Hpos & He & Hpers & Hfree).
  exists lp, m, p. split_and!; try done; rewrite Hpers.
  - apply (claims_covered _ _ _ (total_supply m)); try done. apply (wf_contributions _ Hwf). by rewrite Hp.
  - apply (claims_covered _ _ _ (total_supply m)); try done. apply (wf_contributions _ Hwf). by rewrite Hp.
Qed.
End props.
