(* ===== verification/DexExamples.v ===== *)
(** * A run of the exchange of pairs

    Three pools and a bootstrap on a map ledger.  The witnesses of the theorems
    on the exchange are read off the run; the last theorems show two orders of
    computation that let a pair lose value. *)

From coqutil Require Import Byte.
From Stdlib Require Import ZArith Lia.
From stdpp Require Import base tactics option list numbers gmap relations countable.
From S2P Require Import Prelude Bytes Security Primitives Tokens Frames DexStore DexMath DexGeneral DexSwap DexCall DexSupply DexProps.

Local Open Scope Z_scope.
Import DexStore DexMath DexGeneralError DexGeneral DexCalls.

(** ** The environment: assets ordered by their codes *)

Definition toy_withdraw (c : CurrencyId.t) (x : AccountId) (v : Z) : M MapLedger.t TError unit :=
  MapLedger.withdraw_free c x v;; modify (MapLedger.add_issuance c (- v)).
Definition asset_code (c : CurrencyId.t) : Z :=
  match c with
  | CurrencyId.Token s => TokenSymbol.into s
  | CurrencyId.ForeignAsset n | CurrencyId.LendToken n | CurrencyId.StableLpToken n => n
  | CurrencyId.LpToken _ _ => 0
  end.
Definition by_encoding : relation CurrencyId.t := λ x y, (encode x ≤ encode y)%positive.
#[local] Instance by_encoding_dec : RelDecision by_encoding := λ x y, Pos.le_dec (encode x) (encode y).
#[local] Instance by_encoding_total : TotalOrder by_encoding.
Proof.
  unfold by_encoding. split; [split; [split |] |].
  - intros x. done.
  - intros x y z. lia.
  - intros x y H1 H2. apply (inj encode). lia.
  - intros x y. unfold strict. destruct (Pos.lt_total (encode x) (encode y)) as [Hlt | [He | Hlt]]; [left; lia | | right; right; lia].
    right; left. by apply (inj encode).
Qed.

#[program] Definition floor_sqrt : IntegerSqrt := {| integer_sqrt := Z.sqrt |}.
Next Obligation.
  intros n Hn. destruct (Z.sqrt_spec n Hn) as [H1 H2]. split; [apply Z.sqrt_nonneg |]. unfold Z.succ in H2. lia.
Qed.
#[local] Instance toy_dex : DexEnv.
Proof.
  refine {|
    dex_currency := MapLedger.map_ledger;
    dex_sqrt := floor_sqrt;
    ml_withdraw := toy_withdraw : CurrencyId.t → AccountId → Z → M (ledger (MultiCurrency := MapLedger.map_ledger)) TError unit;
    asset_le := by_encoding;
    pair_sub_account a b := [u8 77; u8 (asset_code a); u8 (asset_code b)];
    bootstrap_account_id := [u8 78];
  |}.
  intros c x v l l' Hw. unfold toy_withdraw in Hw. apply M_bind_Ok in Hw as ([] & l1 & Hw & Hm).
  apply modify_Ok in Hm as ->. apply MapLedger.withdraw_free_moved in Hw.
  eapply MapLedger.moved_ext; [apply (MapLedger.moved_trans _ _ _ _ _ _ _ _ _ _ _ _ Hw (MapLedger.add_issuance_moved c (- v) l1)) | ..];
    intros; cbn; rewrite ?MapLedger.at_currency_neg; lia.
Defined.

(** ** The run *)

Definition ALICE : AccountId := [u8 1].
Definition BOB : AccountId := [u8 2].
Definition TREASURY : AccountId := [u8 3].
Definition dot : CurrencyId.t := CurrencyId.Token TokenSymbol.DOT.
Definition intr : CurrencyId.t := CurrencyId.Token TokenSymbol.INTR.
Definition ibtc : CurrencyId.t := CurrencyId.Token TokenSymbol.IBTC.
Definition funds : Z := 10 ^ 6.
Definition dex_start : Dex :=
  mkDex _ (MapLedger.mkLedger
    {[(dot, ALICE) := funds; (intr, ALICE) := funds; (ibtc, ALICE) := funds;
      (dot, BOB) := funds; (intr, BOB) := funds; (ibtc, BOB) := funds]} ∅
    {[dot := 2 * funds; intr := 2 * funds; ibtc := 2 * funds]}) empty_storage 1.

Definition dex_run (oc : Origin * DexCall.t) (d : Dex) : Dex :=
  match dex_dispatch oc.1 oc.2 d with Ok (_, d') => d' | _ => d end.
Definition dex_runs (l : list (Origin * DexCall.t)) (d : Dex) : Dex := fold_left (λ d oc, dex_run oc d) l d.
Fixpoint dex_all_run (l : list (Origin * DexCall.t)) (d : Dex) : bool :=
  match l with
  | [] => true
  | oc :: l => is_ok (dex_dispatch oc.1 oc.2 d) && dex_all_run l (dex_run oc d)
  end.
Definition at_block (now : Z) (d : Dex) : Dex := mkDex _ (tokens d) (dex d) now.

Lemma dex_run_Ok oc d : is_ok (dex_dispatch oc.1 oc.2 d) = true → dex_dispatch oc.1 oc.2 d = Ok (tt, dex_run oc d).
Proof. unfold dex_run. by destruct (dex_dispatch oc.1 oc.2 d) as [[[] d'] | | |]. Qed.
Lemma dex_runs_reachable l d d' :
  rtc dex_step d d' → dex_all_run l d' = true → rtc dex_step d (dex_runs l d').
Proof.
  revert d'. induction l as [| oc l IH]; intros d' Hd Ha; [exact Hd |].
  apply andb_true_iff in Ha as [Hc Hl]. cbn. apply IH; [| exact Hl]. eapply rtc_r; [exact Hd |].
  apply (dex_step_call _ oc.1 oc.2), dex_run_Ok, Hc.
Qed.
Lemma dex_start_genesis : dex_genesis dex_start.
Proof.
  split; [done | done |]. intros a b lp Hlp. apply lp_fresh in Hlp as Hne.
  unfold lp_asset_id, generate_lp_asset_id, CurrencyId.join_lp_token in Hlp.
  destruct (CurrencyId.to_lp_token (sort_asset_id a b).1), (CurrencyId.to_lp_token (sort_asset_id a b).2);
    cbn in Hlp; try done. injection Hlp as <-. done.
Qed.

(** Pools of a thousand each, without a fee. *)
Definition pool (a b : CurrencyId.t) : list (Origin * DexCall.t) :=
  [(Root, DexCall.create_pair a b 0); (Signed ALICE, DexCall.add_liquidity a b 1000 1000 0 0 10)].
Definition pools : Dex := dex_runs (pool dot intr ++ pool intr ibtc ++ pool ibtc dot) dex_start.
Lemma pools_reachable : rtc dex_step dex_start pools.
Proof. apply dex_runs_reachable; [apply rtc_refl | vm_refl]. Qed.

Definition lp_dot_intr : CurrencyId.t := default dot (lp_asset_id dot intr).
Definition pool_account : AccountId := pair_account_id dot intr.
Definition dot_intr_status : PairStatus := Trading (mkMetadata pool_account 1000 0).

Lemma lp_supply_is_issuance_witness :
  pair_status (sort_asset_id dot intr) pools = Trading (mkMetadata pool_account 1000 0) ∧
  1000 = total_issuance lp_dot_intr (tokens pools).
Proof.
  assert (pair_status (sort_asset_id dot intr) pools = Trading (mkMetadata pool_account 1000 0)) as Hm by vm_refl.
  split; [exact Hm |].
  refine (proj1 (lp_supply_is_issuance dex_start pools dot intr _ lp_dot_intr dex_start_genesis pools_reachable Hm _)).
  clear. vm_refl.
Defined.

(** ** More witnesses *)

Definition result {A} (m : M Dex DError A) (d : Dex) : Dex := match m d with Ok (_, d') => d' | _ => d end.
Lemma result_Ok (m : M Dex DError unit) d : is_ok (m d) = true → m d = Ok (tt, result m d).
Proof. unfold result. by destruct (m d) as [[[] d'] | | |]. Qed.

Definition straight : list CurrencyId.t := [dot; intr; ibtc].
Definition sell (path : list CurrencyId.t) : M Dex DError unit := inner_swap_exact_assets_for_assets BOB 100 0 path BOB.
Lemma swaps_keep_products_witness :
  sell straight pools = Ok (tt, result (sell straight) pools) ∧
  Forall (λ h, product h pools ≤ product h (result (sell straight) pools)) (hops straight).
Proof.
  assert (sell straight pools = Ok (tt, result (sell straight) pools)) as Hs by (apply result_Ok; vm_refl).
  split; [exact Hs |]. revert Hs. generalize (result (sell straight) pools). generalize pools. intros d d' Hs.
  refine (swaps_keep_products BOB 100 0 straight BOB d d' (or_introl Hs) _ _ _ _ _); clear.
  - done.
  - by repeat constructor.
  - by apply (bool_decide_unpack (NoDup (hop_accounts straight))).
  - by apply (bool_decide_unpack (BOB ∉ hop_accounts straight)).
  - by apply (bool_decide_unpack (BOB ∉ hop_accounts straight)).
Defined.

Lemma quotes_agree_witness :
  get_amount_in 90 1000 1000 30 = Ok 100 ∧ get_amount_out 100 1000 1000 30 = Ok 90 ∧ 1000 * 1000 ≤ (1000 + 100) * (1000 - 90).
Proof.
  assert (get_amount_in 90 1000 1000 30 = Ok 100) as Hi by vm_refl.
  assert (get_amount_out 100 1000 1000 30 = Ok 90) as Ho by vm_refl.
  split; [exact Hi |]. split; [exact Ho |].
  refine (proj1 (proj2 (quotes_agree 90 1000 1000 30 100 90 _ _ _ _ Hi Ho))); clear; by vm_compute.
Defined.

Definition take_out (l : Z) : M Dex DError unit := inner_remove_liquidity ALICE dot intr l 0 0 BOB.
Lemma remove_pays_preview_witness :
  take_out 333 pools = Ok (tt, result (take_out 333) pools) ∧
  ∃ x y, calculate_remove_liquidity dot intr 333 pools = Some (x, y) ∧
    free dot BOB (result (take_out 333) pools) = free dot BOB pools + x.
Proof.
  assert (take_out 333 pools = Ok (tt, result (take_out 333) pools)) as Hr by (apply result_Ok; vm_refl).
  split; [exact Hr |]. pose proof dex_start_genesis as Hg. pose proof pools_reachable as Hs. revert Hr Hg Hs.
  generalize (result (take_out 333) pools). generalize dex_start pools. intros d0 d d' Hr Hg Hs.
  destruct (remove_pays_preview d0 ALICE dot intr 333 0 0 BOB d d' Hg Hs ltac:(done) ltac:(done) Hr)
    as (x & y & Hp & _ & Hx & _). by exists x, y.
Defined.
Lemma liquidity_keeps_share_value_witness :
  take_out 333 pools = Ok (tt, result (take_out 333) pools) ∧
  ∃ m', pair_status (sort_asset_id dot intr) (result (take_out 333) pools) = Trading m' ∧
    reserve dot intr dot pools * total_supply m' ≤ reserve dot intr dot (result (take_out 333) pools) * 1000.
Proof.
  assert (take_out 333 pools = Ok (tt, result (take_out 333) pools)) as Hr by (apply result_Ok; vm_refl).
  split; [exact Hr |]. pose proof dex_start_genesis as Hg. pose proof pools_reachable as Hs.
  assert ((fee_meta pools).1 = None) as Hn by vm_refl.
  assert (pair_status (sort_asset_id dot intr) pools = Trading (mkMetadata pool_account 1000 0)) as Hm by vm_refl.
  assert (reserve dot intr dot pools = 1000) as Ha by vm_refl. assert (reserve dot intr intr pools = 1000) as Hb by vm_refl.
  revert Hr Hg Hs Hn Hm Ha Hb. generalize (result (take_out 333) pools). generalize dex_start pools. intros d0 d d' Hr Hg Hs Hn Hm Ha Hb.
  refine (match liquidity_keeps_share_value d0 ALICE dot intr 333 0 0 0 BOB (mkMetadata pool_account 1000 0) d d' Hg Hs Hn
    _ _ Hm _ _ _ _ _ (or_intror Hr) with ex_intro _ m' (conj H1 (conj H2 _)) => ex_intro _ m' (conj H1 H2) end);
    rewrite ?Ha, ?Hb; done.
Defined.

(** A bootstrap with two contributors. *)
Definition contributed_to : list (Origin * DexCall.t) :=
  [(Root, DexCall.bootstrap_create dot intr 1000 500 3000 1500 100 [] []);
   (Signed ALICE, DexCall.bootstrap_contribute dot intr 700 200 50);
   (Signed BOB, DexCall.bootstrap_contribute intr dot 601 333 50)].
Definition closing : Dex := at_block 100 (dex_runs contributed_to dex_start).
Definition ended : Dex := result (bootstrap_end (Signed BOB) dot intr) closing.
Lemma closing_reachable : rtc dex_step dex_start closing.
Proof.
  eapply rtc_r; [apply (dex_runs_reachable contributed_to); [apply rtc_refl | vm_refl] |]. apply dex_step_block.
  apply (bool_decide_unpack (block_number (dex_runs contributed_to dex_start) ≤ 100)). vm_cast_no_check I.
Qed.
Lemma claims_within_minted_witness :
  bootstrap_end (Signed BOB) dot intr closing = Ok (tt, ended) ∧
  claims (sort_asset_id dot intr) (1033, 801) (personal ended) = 908 ∧
  ∃ lp m, lp_asset_id dot intr = Some lp ∧ free lp pool_account ended = free lp pool_account closing + total_supply m.
Proof.
  assert (bootstrap_end (Signed BOB) dot intr closing = Ok (tt, ended)) as He by (apply result_Ok; vm_refl).
  split; [exact He |]. split; [vm_refl |]. pose proof dex_start_genesis as Hg. pose proof closing_reachable as Hs. revert He Hg Hs.
  unfold pool_account. generalize ended closing dex_start. intros d' d d0 He Hg Hs.
  destruct (claims_within_minted d0 (Signed BOB) dot intr d d' Hg Hs He) as (lp & m & p & Hlp & _ & _ & Hf & _). by exists lp, m.
Defined.

(** ** What the order of the steps lets through *)

(** On a path that uses a pair twice a swap can lower the product of the reserves. The
    quotes of all steps are taken on the balances before the swap, and the check of the product
    with them; the swap itself does not check. *)
Theorem repeated_pair_lowers_product :
  let path := [dot; intr; ibtc; dot; intr] in let d' := result (sell path) pools in
  rtc dex_step dex_start pools ∧ is_ok (sell path pools) = true ∧
  product (dot, intr) pools = 1000000 ∧ product (dot, intr) d' = 988175.
Proof. split; [exact pools_reachable |]. split_and!; vm_refl. Qed.

Definition with_receiver : list (Origin * DexCall.t) :=
  [(Root, DexCall.set_fee_receiver (Some TREASURY)); (Root, DexCall.set_fee_point 5);
   (Root, DexCall.create_pair dot intr 30);
   (Signed ALICE, DexCall.add_liquidity dot intr 100000 100000 0 0 10);
   (Signed BOB, DexCall.swap_exact_assets_for_assets 50000 0 [dot; intr] BOB 10);
   (Signed ALICE, DexCall.remove_liquidity dot intr 100000 0 0 ALICE 10)].
Definition emptied : Dex := dex_runs with_receiver dex_start.
Lemma emptied_reachable : rtc dex_step dex_start emptied.
Proof. apply dex_runs_reachable; [apply rtc_refl | vm_refl]. Qed.
(** A removal of liquidity pays shares of the supply before the protocol fee is minted. The
    last holder takes both reserves whole, the shares minted as the fee are left without
    anything behind them, and from then on nobody can add liquidity to the pair. *)
Theorem removal_strands_protocol_fee :
  rtc dex_step dex_start emptied ∧
  pair_status (sort_asset_id dot intr) emptied = Trading (mkMetadata pool_account 8 30) ∧
  free lp_dot_intr TREASURY emptied = 8 ∧ reserve dot intr dot emptied = 0 ∧ reserve dot intr intr emptied = 0 ∧
  ∀ who x y n0 n1, who ≠ pool_account → is_ok (inner_add_liquidity who dot intr x y n0 n1 emptied) = false.
Proof.
  assert (pair_status (sort_asset_id dot intr) emptied = Trading (mkMetadata pool_account 8 30)) as Hm by vm_refl.
  assert (reserve dot intr dot emptied = 0) as Ha by vm_refl.
  split; [exact emptied_reachable |]. split; [exact Hm |]. split; [vm_refl |]. split; [exact Ha |]. split; [vm_refl |].
  intros who x y n0 n1 Hwho. pose proof (wf_steps _ _ (wf_genesis _ dex_start_genesis) emptied_reachable) as Hwf.
  by apply (add_to_empty_fails who dot intr x y n0 n1 _ emptied Hwf ltac:(done) Hwho Hm).
Qed.
