(* ===== verification/Farming.v ===== *)
(** * The farming pallet ([crates/farming/src/lib.rs])

    Holders stake a liquidity token, which reserves it, and share the rewards
    of its schedules through an instance of the reward pallet.  The state is the
    token ledger, that instance and the schedules.  [FarmEnv] has what the
    pallet takes from its [Config] and from libraries: the ledger, fixed-point
    products, the order of currencies, the accounts of the pools and of the
    treasury, and the order in which the schedules are visited. *)

From coqutil Require Import Byte.
From Stdlib Require Import ZArith Lia.
From stdpp Require Import base list numbers gmap tactics option.
From S2P Require Import Prelude Bytes Security Primitives FixedPoint Reward Tokens Bridge Frames.

Local Open Scope Z_scope.

Module FarmingError.
Inductive t : Type := InsufficientStake | BadRewardLength.
End FarmingError.

Module FarmingStore.
Record RewardSchedule : Type := mkSchedule { period_count : Z; per_period : Z }.
Definition no_schedule : RewardSchedule := mkSchedule 0 0.
(** Width of [u128] and of the period count. *)
Definition BALANCE_WIDTH : Z := 128.
Definition COUNT_WIDTH : Z := 32.
(** [RewardSchedule::total] and [RewardSchedule::take] *)
Definition total (self : RewardSchedule) : option Z := checked_mul BALANCE_WIDTH (per_period self) (period_count self).
Definition take (self : RewardSchedule) : option (Z * RewardSchedule) :=
  if period_count self >? 0 then
    Some (per_period self, mkSchedule (saturating_sub (period_count self) 1) (per_period self))
  else None.

Inductive Event : Type :=
  | RewardScheduleUpdated (pool_currency_id reward_currency_id : CurrencyId.t) (period_count per_period : Z)
  | RewardDistributed (pool_currency_id reward_currency_id : CurrencyId.t) (amount : Z)
  | RewardClaimed (account_id : AccountId) (pool_currency_id reward_currency_id : CurrencyId.t) (amount : Z).

Record Storage : Type := mkStorage {
  RewardSchedules : gmap (CurrencyId.t * CurrencyId.t) RewardSchedule;
  events : list Event;
}.
Definition empty_storage : Storage := mkStorage ∅ [].
Definition with_RewardSchedules f (s : Storage) : Storage := mkStorage (f (RewardSchedules s)) (events s).
Definition with_event e (s : Storage) : Storage := mkStorage (RewardSchedules s) (events s ++ [e]).
End FarmingStore.

(** Errors of the pallet and of those it calls. *)
Inductive FarmModule : Type :=
  | FarmE (e : FarmingError.t)
  | FarmTokensE (e : TokensError.t)
  | FarmRewardE (e : Reward.Error).
Abbreviation FError := (DispatchError FarmModule).
Definition farm_error (e : FarmingError.t) : FError := ModuleError (FarmE e).

Class FarmEnv : Type := {
  farm_currency :: MultiCurrency;
  farm_fixed :: SignedFixedPoint;
  farm_currency_le : relation CurrencyId.t;
  farm_currency_le_dec :: RelDecision farm_currency_le;
  schedule_iter :: StorageIter (CurrencyId.t * CurrencyId.t);
  (** [FarmingPalletId::into_sub_account_truncating] *)
  pool_account_id : CurrencyId.t → AccountId;
  TreasuryAccountId : AccountId;
}.

(** [FarmingRewards] of the runtime: a pool per liquidity token. *)
Definition FarmPools `{FarmEnv} : Type :=
  Reward.Storage (PoolId := CurrencyId.t) (StakeId := AccountId) (CurrencyId := CurrencyId.t).
Record Farm `{FarmEnv} : Type := mkFarm {
  farm_tokens : ledger;
  farm_pools : FarmPools;
  farm_store : FarmingStore.Storage;
}.

Module Farming.
Import FarmingStore FarmingError.
Section farming.
Context `{FarmEnv}.

Abbreviation F := (M Farm FError).

(** Constants of the runtime *)
Definition RewardPeriod : Z := 5.
Definition MaxRewardCurrencies : Z := 10.

Definition put_tokens (l : ledger) (s : Farm) : Farm := mkFarm _ l (farm_pools s) (farm_store s).
Definition put_pools (p : FarmPools) (s : Farm) : Farm := mkFarm _ (farm_tokens s) p (farm_store s).
Definition on_store (f : Storage → Storage) (s : Farm) : Farm := mkFarm _ (farm_tokens s) (farm_pools s) (f (farm_store s)).
Definition update (f : Storage → Storage) : F unit := modify (on_store f).
Definition deposit_event (e : Event) : F unit := update (with_event e).
Definition on_tokens {A} (m : M ledger TError A) : F A := inside farm_tokens put_tokens FarmTokensE m.
Definition on_pools {A} (m : M FarmPools Reward.RError A) : F A := inside farm_pools put_pools FarmRewardE m.
Definition transfer (c : CurrencyId.t) (from to : AccountId) (amount : Z) : F unit :=
  on_tokens (ml_transfer c from to amount).
Definition free (c : CurrencyId.t) (who : AccountId) (s : Farm) : Z := free_balance c who (farm_tokens s).

Definition reward_schedules (pool_currency_id reward_currency_id : CurrencyId.t) (s : Farm) : RewardSchedule :=
  default no_schedule (RewardSchedules (farm_store s) !! (pool_currency_id, reward_currency_id)).
Definition total_rewards (pool_currency_id reward_currency_id : CurrencyId.t) (s : Farm) : Z :=
  default 0 (total (reward_schedules (CurrencyId.sort pool_currency_id) reward_currency_id s)).

(** ** Every [RewardPeriod] blocks *)

Definition try_distribute_reward (pool_currency_id reward_currency_id : CurrencyId.t) (amount : Z) (s : Farm) : bool * Farm :=
  transactional (on_pools (RewardsApi.distribute_reward MaxRewardCurrencies pool_currency_id reward_currency_id amount)) s.
(** One schedule; it is only taken from if the reward could be distributed. *)
Definition run_schedule (key : CurrencyId.t * CurrencyId.t) (reward_schedule : RewardSchedule) (s : Farm) : Farm :=
  match take reward_schedule with
  | Some (amount, reward_schedule) =>
      match try_distribute_reward key.1 key.2 amount s with
      | (true, s) => on_store (λ t, with_event (RewardDistributed key.1 key.2 amount)
                                      (with_RewardSchedules <[key := reward_schedule]> t)) s
      | (false, s) => s
      end
  | None => on_store (with_RewardSchedules (delete key)) s
  end.
Fixpoint run_schedules (schedules : list ((CurrencyId.t * CurrencyId.t) * RewardSchedule)) (s : Farm) : Farm :=
  match schedules with
  | [] => s
  | (key, reward_schedule) :: schedules => run_schedules schedules (run_schedule key reward_schedule s)
  end.
Definition on_initialize (now : Z) (s : Farm) : Farm :=
  if now mod RewardPeriod =? 0 then run_schedules (storage_iter (RewardSchedules (farm_store s))) s else s.

(** ** Extrinsics *)

Definition update_reward_schedule (origin : Origin) (pool_currency_id reward_currency_id : CurrencyId.t)
    (period_count' amount : Z) : F unit :=
  lift (ensure_root origin);;
  let pool_currency_id := CurrencyId.sort pool_currency_id in
  let pool_account := pool_account_id pool_currency_id in
  transfer reward_currency_id TreasuryAccountId pool_account amount;;
  schedule ← gets (reward_schedules pool_currency_id reward_currency_id);
  total_period_count ← lift (ok_or (checked_add COUNT_WIDTH (period_count schedule) period_count') (Arithmetic Overflow));
  total_free ← gets (free reward_currency_id pool_account);
  let total_per_period := if total_period_count =? 0 then 0 else total_free / total_period_count in
  deposit_event (RewardScheduleUpdated pool_currency_id reward_currency_id total_period_count total_per_period);;
  update (with_RewardSchedules <[(pool_currency_id, reward_currency_id) := mkSchedule total_period_count total_per_period]>).
Definition remove_reward_schedule (origin : Origin) (pool_currency_id reward_currency_id : CurrencyId.t) : F unit :=
  lift (ensure_root origin);;
  let pool_currency_id := CurrencyId.sort pool_currency_id in
  let pool_account := pool_account_id pool_currency_id in
  total_free ← gets (free reward_currency_id pool_account);
  transfer reward_currency_id pool_account TreasuryAccountId total_free;;
  update (with_RewardSchedules (delete (pool_currency_id, reward_currency_id)));;
  deposit_event (RewardScheduleUpdated pool_currency_id reward_currency_id 0 0).

Definition ensure_rewards_len (pool_currency_id : CurrencyId.t) (length_rewards : Z) : F unit :=
  len ← gets (λ s, RewardsApi.reward_currencies_len pool_currency_id (farm_pools s));
  ensureM (len <=? length_rewards) (farm_error BadRewardLength).
Definition deposit (origin : Origin) (pool_currency_id : CurrencyId.t) (length_rewards : Z) : F unit :=
  who ← lift (ensure_signed origin);
  let pool_currency_id := CurrencyId.sort pool_currency_id in
  ensure_rewards_len pool_currency_id length_rewards;;
  amount ← gets (free pool_currency_id who);
  on_tokens (ml_reserve pool_currency_id who amount);;
  on_pools (RewardsApi.deposit_stake farm_currency_le pool_currency_id who amount).
Definition unreserve (c : CurrencyId.t) (who : AccountId) (amount : Z) : F Z := λ s,
  let '(remaining, l) := ml_unreserve c who amount (farm_tokens s) in Ok (remaining, put_tokens l s).
Definition withdraw (origin : Origin) (pool_currency_id : CurrencyId.t) (amount length_rewards : Z) : F unit :=
  who ← lift (ensure_signed origin);
  let pool_currency_id := CurrencyId.sort pool_currency_id in
  ensure_rewards_len pool_currency_id length_rewards;;
  remaining ← unreserve pool_currency_id who amount;
  ensureM (remaining =? 0) (farm_error InsufficientStake);;
  on_pools (RewardsApi.withdraw_stake farm_currency_le pool_currency_id who amount).
Definition claim (origin : Origin) (pool_currency_id reward_currency_id : CurrencyId.t) : F unit :=
  who ← lift (ensure_signed origin);
  let pool_currency_id := CurrencyId.sort pool_currency_id in
  reward ← on_pools (RewardsApi.withdraw_reward pool_currency_id who reward_currency_id);
  transfer reward_currency_id (pool_account_id pool_currency_id) who reward;;
  deposit_event (RewardClaimed who pool_currency_id reward_currency_id reward).
End farming.
End Farming.

Module FarmingCall.
Inductive t : Type :=
  | update_reward_schedule (pool_currency_id reward_currency_id : CurrencyId.t) (period_count amount : Z)
  | remove_reward_schedule (pool_currency_id reward_currency_id : CurrencyId.t)
  | deposit (pool_currency_id : CurrencyId.t) (length_rewards : Z)
  | withdraw (pool_currency_id : CurrencyId.t) (amount length_rewards : Z)
  | claim (pool_currency_id reward_currency_id : CurrencyId.t).
End FarmingCall.

Section step.
Context `{FarmEnv}.

Definition farming_dispatch (o : Origin) (c : FarmingCall.t) : M Farm FError unit :=
  match c with
  | FarmingCall.update_reward_schedule p r n v => Farming.update_reward_schedule o p r n v
  | FarmingCall.remove_reward_schedule p r => Farming.remove_reward_schedule o p r
  | FarmingCall.deposit p n => Farming.deposit o p n
  | FarmingCall.withdraw p v n => Farming.withdraw o p v n
  | FarmingCall.claim p r => Farming.claim o p r
  end.

(** An extrinsic, the start of a block, a transfer of tokens, or minted tokens. *)
Inductive farming_step (s : Farm) : Farm → Prop :=
  | farming_step_call o c s' : farming_dispatch o c s = Ok (tt, s') → farming_step s s'
  | farming_step_block now : farming_step s (Farming.on_initialize now s)
  | farming_step_transfer c x y v s' : Farming.transfer c x y v s = Ok (tt, s') → farming_step s s'
  | farming_step_mint c x v s' : Farming.on_tokens (ml_deposit c x v) s = Ok (tt, s') → farming_step s s'.
End step.
