(* ===== verification/FarmingProps.v ===== *)
(** * What the farming pallet guarantees

    Staked liquidity tokens are those reserved; a round of payments takes out
    of the schedules what it adds to the rewards; a schedule is covered by the
    account of its pool when it is set. *)

From coqutil Require Import Byte.
From Stdlib Require Import ZArith Lia.
From stdpp Require Import base tactics option list numbers gmap relations.
From S2P Require Import Prelude Bytes Security Primitives FixedPoint Reward RewardProps Tokens Bridge Frames Farming.

Local Open Scope Z_scope.
Import FarmingStore FarmingError Farming.

Section farming.
Context `{FarmEnv}.

(** ** Stakes and reservations *)

Definition staked (p : CurrencyId.t) (who : AccountId) (s : Farm) : Z := Reward.stake p who (farm_pools s).
Definition reserved (p : CurrencyId.t) (who : AccountId) (s : Farm) : Z := reserved_balance p who (farm_tokens s).
Definition stake_excess (p : CurrencyId.t) (who : AccountId) (s : Farm) : Z := reserved p who s * DIV - staked p who s.

Lemma stake_ext p who (t t' : FarmPools) : Reward.Stake t' = Reward.Stake t → Reward.stake p who t' = Reward.stake p who t.
Proof. unfold Reward.stake. by intros ->. Qed.

Lemma distribute_stake p c v (t : FarmPools) u t' :
  RewardsApi.distribute_reward MaxRewardCurrencies p c v t = Ok (u, t') → Reward.Stake t' = Reward.Stake t.
Proof.
  destruct u. unfold RewardsApi.distribute_reward. intros Hd. outcome_inv.
  match goal with H : Reward.distribute_reward _ _ _ ?r _ = _ |- _ => destruct (decide (r = 0)) as [-> |] end.
  - unfold Reward.distribute_reward in Hd. by injection Hd as <-.
  - match goal with H : Reward.distribute_reward _ _ _ _ _ = _ |- _ => apply distribute_reward_spec in H as (? & _ & _ & _ & _ & ? & _); done end.
Qed.
Lemma withdraw_reward_stake p who c (t : FarmPools) v t' :
  RewardsApi.withdraw_reward p who c t = Ok (v, t') → Reward.Stake t' = Reward.Stake t.
Proof.
  unfold RewardsApi.withdraw_reward. intros Hd. outcome_inv.
  match goal with H : Reward.withdraw_reward _ _ _ _ = _ |- _ => by apply withdraw_reward_spec in H as (? & _ & _ & _ & _ & ? & _) end.
Qed.
Lemma deposit_stake_stake p who v (t : FarmPools) u t' q z :
  RewardsApi.deposit_stake farm_currency_le p who v t = Ok (u, t') →
  Reward.stake q z t' = Reward.stake q z t + at_balance p q who z (v * DIV).
Proof.
  destruct u. unfold RewardsApi.deposit_stake, RewardsApi.from_balance. intros Hd. outcome_inv.
  match goal with H : to_fixed _ = Some _ |- _ => apply to_fixed_Some in H as [-> _] end.
  match goal with H : Reward.deposit_stake _ _ _ _ _ = _ |- _ => apply deposit_stake_moved in H; rewrite (stake_moved_stake _ _ _ _ _ _ _ _ H) end.
  unfold at_balance. repeat case_decide; naive_solver lia.
Qed.
Lemma withdraw_stake_stake p who v (t : FarmPools) u t' q z :
  RewardsApi.withdraw_stake farm_currency_le p who v t = Ok (u, t') →
  Reward.stake q z t' = Reward.stake q z t - at_balance p q who z (v * DIV).
Proof.
  destruct u. unfold RewardsApi.withdraw_stake, RewardsApi.from_balance. intros Hd. outcome_inv.
  match goal with H : to_fixed _ = Some _ |- _ => apply to_fixed_Some in H as [-> _] end.
  match goal with H : Reward.withdraw_stake _ _ _ _ _ = _ |- _ => apply withdraw_stake_moved in H as [_ H]; rewrite (stake_moved_stake _ _ _ _ _ _ _ _ H) end.
  unfold at_balance. repeat case_decide; naive_solver lia.
Qed.

Lemma stake_excess_transfer c x y v p who : leaves (stake_excess p who) (transfer c x y v).
Proof.
  apply respects_inside. intros s [] l Hl. unfold same, stake_excess, staked, reserved. cbn.
  apply transfer_moves in Hl. rewrite (moved_reserved _ _ _ _ _ _ _ _ Hl). by rewrite Z.add_0_r.
Qed.
Lemma stake_excess_mint c x v p who : leaves (stake_excess p who) (on_tokens (ml_deposit c x v)).
Proof.
  apply respects_inside. intros s [] l Hl. unfold same, stake_excess, staked, reserved. cbn.
  apply deposit_moves in Hl. rewrite (moved_reserved _ _ _ _ _ _ _ _ Hl). by rewrite Z.add_0_r.
Qed.
Lemma stake_excess_update f p who : leaves (stake_excess p who) (update f).
Proof. by apply respects_modify. Qed.
(** An operation of the pools that moves no stake. *)
Lemma stake_excess_pools {A} (m : M FarmPools Reward.RError A) p who :
  (∀ t a t', m t = Ok (a, t') → Reward.Stake t' = Reward.Stake t) → leaves (stake_excess p who) (on_pools m).
Proof.
  intros Hm. apply respects_inside. intros s a t Ht. unfold same, stake_excess, staked, reserved. cbn.
  by rewrite (stake_ext _ _ _ _ (Hm _ _ _ Ht)).
Qed.
Lemma stake_excess_deposit o q n p who : leaves (stake_excess p who) (deposit o q n).
Proof.
  intros s u s' Hr. unfold deposit, ensure_rewards_len in Hr. outcome_inv.
  match goal with H : on_tokens _ _ = Ok (?v, _) |- _ => destruct v; apply inside_Ok in H as (l & Hl%reserve_moves & ->) end.
  apply inside_Ok in Hr as (t & Ht & ->). cbn in Ht. unfold same, stake_excess, staked, reserved. cbn.
  rewrite (deposit_stake_stake _ _ _ _ _ _ _ _ Ht), (moved_reserved _ _ _ _ _ _ _ _ Hl).
  unfold at_balance. case_decide; lia.
Qed.
Lemma stake_excess_withdraw o q v n p who : leaves (stake_excess p who) (withdraw o q v n).
Proof.
  intros s u s' Hr. unfold withdraw, ensure_rewards_len in Hr. outcome_inv.
  match goal with H : unreserve _ _ _ _ = Ok _ |- _ => unfold unreserve in H; destruct (ml_unreserve _ _ _ _) as [r l] eqn:Hl; injection H as <- <- end.
  match goal with H : (r =? 0) = true |- _ => apply Z.eqb_eq in H as -> end. apply unreserve_moves in Hl as [_ Hl].
  apply inside_Ok in Hr as (t & Ht & ->). cbn in Ht. unfold same, stake_excess, staked, reserved. cbn.
  rewrite (withdraw_stake_stake _ _ _ _ _ _ _ _ Ht), (moved_reserved _ _ _ _ _ _ _ _ Hl), Z.sub_0_r.
  unfold at_balance. case_decide; lia.
Qed.
Lemma stake_excess_dispatch o c p who : leaves (stake_excess p who) (farming_dispatch o c).
Proof.
  destruct c; cbn [farming_dispatch]; [| | apply stake_excess_deposit | apply stake_excess_withdraw |].
  all: unfold update_reward_schedule, remove_reward_schedule, claim, deposit_event;
    repeat first [ apply stake_excess_transfer | apply stake_excess_update
                 | (apply stake_excess_pools; intros; by eapply withdraw_reward_stake) | respects_step ].
Qed.

Lemma stake_excess_run_schedule key sch s p who : stake_excess p who (run_schedule key sch s) = stake_excess p who s.
Proof.
  unfold run_schedule. destruct (take sch) as [[amount sch'] |]; [| done].
  unfold try_distribute_reward, transactional. destruct (on_pools _ s) as [[u s'] | | |] eqn:Hd; [| done..].
  change (stake_excess p who s' = stake_excess p who s). revert Hd. apply stake_excess_pools. intros. by eapply distribute_stake.
Qed.
Lemma stake_excess_run_schedules l s p who : stake_excess p who (run_schedules l s) = stake_excess p who s.
Proof.
  revert s. induction l as [| [key sch] l IH]; intros s; cbn [run_schedules]; [done |]. by rewrite IH, stake_excess_run_schedule.
Qed.
Lemma stake_excess_step s s' p who : farming_step s s' → stake_excess p who s' = stake_excess p who s.
Proof.
  intros [o c s1 Hd | now | c x y v s1 Ht | c x v s1 Ht].
  - by eapply stake_excess_dispatch.
  - unfold on_initialize. destruct (_ =? 0); [apply stake_excess_run_schedules | done].
  - by eapply stake_excess_transfer.
  - by eapply stake_excess_mint.
Qed.

(** C19: stakes and reservations stay together. In every state reached from one without stakes,
    what an account has staked in a pool is what was reserved of its liquidity tokens since. *)
Theorem stakes_are_reserved s0 s p who :
  (∀ p who, staked p who s0 = 0) → rtc farming_step s0 s →
  staked p who s = (reserved p who s - reserved p who s0) * DIV.
Proof.
  intros H0 Hs. assert (stake_excess p who s = stake_excess p who s0) as He.
  { clear H0. induction Hs as [| s1 s2 s3 Hs _ IH]; [done |]. rewrite IH. by apply stake_excess_step. }
  unfold stake_excess in He. rewrite H0 in He. lia.
Qed.

(** ** Payments of the schedules *)

Definition schedules (s : Farm) : gmap (CurrencyId.t * CurrencyId.t) RewardSchedule := RewardSchedules (farm_store s).
(** What the schedules still pay in a currency, and what the pools were given in it. *)
Definition planned (c : CurrencyId.t) (s : Farm) : Z :=
  msum (λ k v, if decide (k.2 = c) then per_period v * period_count v else 0) (schedules s).
Definition given (c : CurrencyId.t) (s : Farm) : Z := Reward.total_rewards c (farm_pools s).

Lemma distribute_given p c v (t : FarmPools) t' d :
  RewardsApi.distribute_reward MaxRewardCurrencies p c v t = Ok (tt, t') →
  Reward.total_rewards d t' = Reward.total_rewards d t + at_currency c d (v * DIV).
Proof.
  unfold RewardsApi.distribute_reward, RewardsApi.from_balance. intros Hd. outcome_inv.
  match goal with H : to_fixed _ = Some _ |- _ => apply to_fixed_Some in H as [-> _] end.
  unfold at_currency. destruct (decide (v * DIV = 0)) as [Hz | Hne].
  - rewrite Hz in *. unfold Reward.distribute_reward in Hd. injection Hd as <-. case_decide; lia.
  - apply distribute_reward_spec in Hd as (? & _ & _ & _ & Ht & _); [| done]. unfold Reward.total_rewards at 1. rewrite Ht.
    case_decide as Hc; [subst; by rewrite lookup_insert_eq |]. rewrite lookup_insert_ne by done. unfold Reward.total_rewards. lia.
Qed.

(** What a round does to a schedule: a period less, or the schedule gone, or nothing. *)
Definition paid_once (sch : RewardSchedule) (after : option RewardSchedule) : Prop :=
  if decide (0 < period_count sch)
  then after = Some sch ∨ after = Some (mkSchedule (period_count sch - 1) (per_period sch))
  else after = None.

Lemma run_schedule_Ok key sch s :
  schedules s !! key = Some sch → 0 ≤ period_count sch →
  (∀ c, given c (run_schedule key sch s) + planned c (run_schedule key sch s) * DIV = given c s + planned c s * DIV) ∧
  paid_once sch (schedules (run_schedule key sch s) !! key) ∧
  (∀ k, k ≠ key → schedules (run_schedule key sch s) !! k = schedules s !! k).
Proof.
  intros Hk Hn. unfold run_schedule, take, paid_once. rewrite Z.gtb_ltb.
  destruct (Z.ltb_spec 0 (period_count sch)) as [Hpos | Hz].
  - rewrite decide_True by done. unfold try_distribute_reward, transactional.
    destruct (on_pools _ s) as [[[] s'] | | |] eqn:Hd; [| auto..].
    apply inside_Ok in Hd as (t & Hd & ->). unfold schedules, given, planned in *. cbn.
    replace (saturating_sub (period_count sch) 1) with (period_count sch - 1) by (unfold saturating_sub; lia).
    split; [| split; [right; by rewrite lookup_insert_eq | intros k Hne; by rewrite lookup_insert_ne]].
    intros c. unfold schedules. cbn. rewrite msum_insert. unfold entry. rewrite Hk, (distribute_given _ _ _ _ _ _ Hd). cbn.
    unfold at_currency. case_decide; lia.
  - rewrite decide_False by lia. unfold schedules, given, planned in *. cbn.
    split; [| split; [by rewrite lookup_delete_eq | intros k Hne; by rewrite lookup_delete_ne]].
    intros c. unfold schedules. cbn. rewrite msum_delete. unfold entry. rewrite Hk. cbn.
    assert (period_count sch = 0) as -> by lia. case_decide; lia.
Qed.
Lemma run_schedules_Ok l s :
  NoDup l.*1 → (∀ k v, (k, v) ∈ l → schedules s !! k = Some v ∧ 0 ≤ period_count v) →
  (∀ c, given c (run_schedules l s) + planned c (run_schedules l s) * DIV = given c s + planned c s * DIV) ∧
  (∀ k v, (k, v) ∈ l → paid_once v (schedules (run_schedules l s) !! k)) ∧
  (∀ k, k ∉ l.*1 → schedules (run_schedules l s) !! k = schedules s !! k).
Proof.
  revert s. induction l as [| [key sch] l IH]; intros s Hnd Hl; cbn [run_schedules].
  { split; [done |]. split; [by intros ? ? ?%not_elem_of_nil | done]. }
  apply NoDup_cons in Hnd as [Hkey Hnd]. cbn in Hkey.
  destruct (Hl key sch) as [Hk Hn]; [by left |]. destruct (run_schedule_Ok key sch s Hk Hn) as (Hc & Hp & Ho).
  assert (∀ k v, (k, v) ∈ l → k ≠ key) as Hne.
  { intros k v Hin ->. apply Hkey. by apply (list_elem_of_fmap_2 fst _ _ Hin). }
  destruct (IH (run_schedule key sch s) Hnd) as (IHc & IHp & IHo).
  { intros k v Hin. rewrite Ho by by eapply Hne. apply Hl. by right. }
  split_and!.
  - intros c. by rewrite IHc.
  - intros k v [[= -> ->] | Hin]%elem_of_cons; [by rewrite IHo | by apply IHp].
  - intros k [Hk' Hin]%not_elem_of_cons. by rewrite IHo, Ho.
Qed.

(** C20: a round of payments gives the pools exactly what it takes out of the schedules, in every
    currency; each schedule has at most one period less afterwards, and is gone when it had none
    left. *)
Theorem round_pays_schedules now s :
  now mod RewardPeriod = 0 → (∀ k v, schedules s !! k = Some v → 0 ≤ period_count v) →
  let s' := on_initialize now s in
  (∀ c, given c s' + planned c s' * DIV = given c s + planned c s * DIV) ∧
  (∀ k, match schedules s !! k with
        | Some v => paid_once v (schedules s' !! k)
        | None => schedules s' !! k = None
        end).
Proof.
  intros Hnow Hs. unfold on_initialize. rewrite Hnow. cbn [Z.eqb].
  set (l := storage_iter (RewardSchedules (farm_store s))).
  assert (l ≡ₚ map_to_list (schedules s)) as Hl by apply storage_iter_perm.
  destruct (run_schedules_Ok l s) as (Hc & Hp & Ho).
  { rewrite Hl. apply NoDup_fst_map_to_list. }
  { intros k v Hin. rewrite Hl in Hin. apply elem_of_map_to_list in Hin. eauto. }
  split; [exact Hc |]. intros k. destruct (schedules s !! k) as [v |] eqn:Hk.
  - apply Hp. rewrite Hl. by apply elem_of_map_to_list.
  - rewrite Ho; [done |]. rewrite Hl. intros ((k' & v) & Hkk & Hin)%list_elem_of_fmap. cbn in Hkk. subst k'.
    apply elem_of_map_to_list in Hin. congruence.
Qed.

(** When a schedule is set, the account of its pool holds everything the schedule will pay. *)
Theorem update_is_funded o p r n v s s' :
  update_reward_schedule o p r n v s = Ok (tt, s') → 0 ≤ free r (pool_account_id (CurrencyId.sort p)) s' →
  let sch := reward_schedules (CurrencyId.sort p) r s' in
  period_count sch = period_count (reward_schedules (CurrencyId.sort p) r s) + n ∧
  0 ≤ per_period sch * period_count sch ≤ free r (pool_account_id (CurrencyId.sort p)) s'.
Proof.
  intros Hr Hf. unfold update_reward_schedule, update, deposit_event in Hr. outcome_inv.
  match goal with H : transfer _ _ _ _ _ = Ok (?u, _) |- _ => destruct u; apply inside_Ok in H as (l & _ & ->) end.
  repeat match goal with H : update _ _ = Ok _ |- _ => injection H as _ <- end.
  match goal with H : checked_add _ _ _ = Some ?c |- _ => rename c into count; apply checked_Some in H as [Hcount [Hpos _]] end.
  unfold reward_schedules, free in *. cbn in *. rewrite lookup_insert_eq. cbn. split; [exact Hcount |].
  destruct (Z.eqb_spec count 0) as [-> | Hne]; [lia |]. rewrite Z.mul_comm.
  split; [apply Z.mul_nonneg_nonneg; [lia | apply Z.div_pos; lia] | apply Z.mul_div_le; lia].
Qed.
End farming.
