(* ===== verification/FarmingExamples.v ===== *)
(** * A run of the farming pallet

    A liquidity token, a schedule of ten payments and one holder who stakes.
    The witnesses of the theorems are read off the run; the last theorem shows a
    schedule set on rewards that are already owed. *)

From coqutil Require Import Byte.
From Stdlib Require Import ZArith Lia.
From stdpp Require Import base tactics option list numbers gmap relations countable.
From S2P Require Import Prelude Bytes Security Primitives FixedPoint Reward RewardProps Tokens Bridge BridgeExamples Frames Farming FarmingProps.

Local Open Scope Z_scope.
Import FarmingStore Farming.

Definition POOL : AccountId := [u8 88].
Definition TREASURY : AccountId := [u8 3].
#[local] Instance toy_farm : FarmEnv := {|
  farm_currency := MapLedger.map_ledger;
  farm_fixed := floor_fixed;
  farm_currency_le := λ x y, (encode x ≤ encode y)%positive;
  farm_currency_le_dec := λ x y, Pos.le_dec (encode x) (encode y);
  schedule_iter := list_iter (CurrencyId.t * CurrencyId.t);
  pool_account_id _ := POOL;
  TreasuryAccountId := TREASURY;
|}.

Definition lp : CurrencyId.t := CurrencyId.LpToken (LpToken.Token TokenSymbol.DOT) (LpToken.Token TokenSymbol.INTR).
Definition farm_start : Farm :=
  mkFarm _ (MapLedger.mkLedger {[(lp, ALICE) := 500; (INTR, TREASURY) := 100000]} ∅ {[lp := 500; INTR := 100000]})
    Reward.empty_storage empty_storage.

Definition farm_run (oc : Origin * FarmingCall.t) (s : Farm) : Farm :=
  match farming_dispatch oc.1 oc.2 s with Ok (_, s') => s' | _ => s end.
Definition blocks (n : nat) (s : Farm) : Farm := Nat.iter n (on_initialize 5) s.
Lemma farm_run_Ok oc s : is_ok (farming_dispatch oc.1 oc.2 s) = true → farming_dispatch oc.1 oc.2 s = Ok (tt, farm_run oc s).
Proof. unfold farm_run. by destruct (farming_dispatch oc.1 oc.2 s) as [[[] s'] | | |]. Qed.
Lemma farm_run_reachable oc s s' :
  rtc farming_step s s' → is_ok (farming_dispatch oc.1 oc.2 s') = true → rtc farming_step s (farm_run oc s').
Proof. intros Hs Hr. eapply rtc_r; [exact Hs |]. by apply (farming_step_call _ oc.1 oc.2), farm_run_Ok. Qed.
Lemma blocks_reachable n s s' : rtc farming_step s s' → rtc farming_step s (blocks n s').
Proof.
  intros Hs. induction n as [| n IH]; [exact Hs |]. eapply rtc_r; [exact IH |]. apply (farming_step_block _ 5).
Qed.

(** Alice stakes all she has; a thousand are to be paid in ten rounds. *)
Definition stakes : Origin * FarmingCall.t := (Signed ALICE, FarmingCall.deposit lp 0).
Definition schedules_1000 : Origin * FarmingCall.t := (Root, FarmingCall.update_reward_schedule lp INTR 10 1000).
Definition staked_farm : Farm := farm_run stakes farm_start.
Definition scheduled : Farm := farm_run schedules_1000 staked_farm.
Definition paid : Farm := blocks 11 scheduled.
Lemma scheduled_reachable : rtc farming_step farm_start scheduled.
Proof. apply farm_run_reachable; [apply farm_run_reachable; [apply rtc_refl |] |]; vm_refl. Qed.

(** ** Witnesses *)

Lemma stakes_are_reserved_witness :
  rtc farming_step farm_start scheduled ∧
  staked lp ALICE scheduled = (reserved lp ALICE scheduled - reserved lp ALICE farm_start) * DIV.
Proof.
  split; [exact scheduled_reachable |].
  refine (stakes_are_reserved farm_start scheduled lp ALICE _ scheduled_reachable). clear. by intros p who.
Defined.

Definition counts_fit (m : gmap (CurrencyId.t * CurrencyId.t) RewardSchedule) : bool :=
  forallb (λ kv : _ * RewardSchedule, 0 <=? period_count kv.2) (map_to_list m).
Lemma counts_fit_spec m : counts_fit m = true → ∀ k v, m !! k = Some v → 0 ≤ period_count v.
Proof.
  unfold counts_fit. rewrite forallb_forall. intros Hm k v Hk. apply Z.leb_le, (Hm (k, v)).
  by apply list_elem_of_In, elem_of_map_to_list.
Qed.
Lemma round_pays_schedules_witness :
  planned INTR scheduled = 1000 ∧ planned INTR (on_initialize 5 scheduled) = 900 ∧
  given INTR (on_initialize 5 scheduled) + planned INTR (on_initialize 5 scheduled) * DIV =
    given INTR scheduled + planned INTR scheduled * DIV.
Proof.
  assert (counts_fit (schedules scheduled) = true) as Hc by vm_refl.
  split; [vm_refl |]. split; [vm_refl |].
  exact (proj1 (round_pays_schedules 5 scheduled eq_refl (counts_fit_spec _ Hc)) INTR).
Defined.

Lemma update_is_funded_witness :
  farming_dispatch schedules_1000.1 schedules_1000.2 staked_farm = Ok (tt, scheduled) ∧
  free INTR POOL scheduled = 1000 ∧
  per_period (reward_schedules lp INTR scheduled) * period_count (reward_schedules lp INTR scheduled) ≤ free INTR POOL scheduled.
Proof.
  assert (farming_dispatch schedules_1000.1 schedules_1000.2 staked_farm = Ok (tt, scheduled)) as Hr
    by (apply farm_run_Ok; vm_refl).
  assert (free INTR POOL scheduled = 1000) as Hf by vm_refl.
  split; [exact Hr |]. split; [exact Hf |]. revert Hr Hf. generalize scheduled, staked_farm. intros s' s Hr Hf.
  refine (proj2 (proj2 (update_is_funded Root lp INTR 10 1000 s s' Hr _))).
  change (0 ≤ free INTR POOL s'). rewrite Hf. clear. by vm_compute.
Defined.

(** ** What an update lets through *)

Definition extended : Farm := farm_run (Root, FarmingCall.update_reward_schedule lp INTR 10 0) paid.
Definition owed : Farm := blocks 10 extended.
(** An update of a schedule spreads the whole free balance of the pool's account, also the
    rewards that were distributed and not claimed yet. A schedule of 1000 is paid out; it is
    extended by ten periods with no new rewards; the only holder is then due 2000 of an account
    that holds 1000, and cannot claim anything any more. *)
Theorem unclaimed_rewards_counted_twice :
  rtc farming_step farm_start owed ∧ free INTR POOL owed = 1000 ∧
  RewardsApi.compute_reward lp ALICE INTR (farm_pools paid) = Ok 1000 ∧
  is_ok (farming_dispatch (Signed ALICE) (FarmingCall.claim lp INTR) paid) = true ∧
  RewardsApi.compute_reward lp ALICE INTR (farm_pools owed) = Ok 2000 ∧
  is_ok (farming_dispatch (Signed ALICE) (FarmingCall.claim lp INTR) owed) = false.
Proof.
  split; [| split_and!; vm_refl]. apply blocks_reachable. unfold extended.
  apply farm_run_reachable; [apply blocks_reachable, scheduled_reachable | vm_refl].
Qed.
