(* ===== verification/Emission.v ===== *)
(** * Inflation and block rewards ([crates/supply/src/lib.rs, crates/annuity/src/lib.rs])

    Once a period the supply pallet mints an inflation and hands it to the
    accounts of the two annuities and to the treasury; in every block each
    annuity gives a share of its account to its reward pool.  Both run at the
    start of a block, outside of a storage layer: an error is printed and what
    was written before it stays.  The handlers and providers are those of the
    runtime ([parachain/runtime/interlay/src/lib.rs]).  [EmissionEnv] has the
    ledger, the fixed-point products and the accounts of the pallets. *)

From coqutil Require Import Byte.
From Stdlib Require Import ZArith Lia.
From stdpp Require Import base tactics option list numbers gmap.
From S2P Require Import Prelude Bytes Security Primitives FixedPoint Reward Tokens Frames.

Local Open Scope Z_scope.

Module SupplyStore.
Inductive Event : Type := Inflated (total_inflation : Z).
Record Storage : Type := mkStorage {
  StartHeight : option Z;
  LastEmission : Z;
  Inflation : Z;
  events : list Event;
}.
Definition empty_storage : Storage := mkStorage None 0 0 [].
Definition with_StartHeight f (s : Storage) := mkStorage (f (StartHeight s)) (LastEmission s) (Inflation s) (events s).
Definition with_LastEmission f (s : Storage) := mkStorage (StartHeight s) (f (LastEmission s)) (Inflation s) (events s).
Definition with_Inflation f (s : Storage) := mkStorage (StartHeight s) (LastEmission s) (f (Inflation s)) (events s).
Definition with_event e (s : Storage) := mkStorage (StartHeight s) (LastEmission s) (Inflation s) (events s ++ [e]).
End SupplyStore.

Module AnnuityStore.
Inductive Event : Type := BlockReward (amount : Z).
Record Storage : Type := mkStorage {
  RewardPerBlock : Z;
  RewardPerWrapped : option Z;
  events : list Event;
}.
Definition empty_storage : Storage := mkStorage 0 None [].
Definition with_RewardPerBlock f (s : Storage) := mkStorage (f (RewardPerBlock s)) (RewardPerWrapped s) (events s).
Definition with_RewardPerWrapped f (s : Storage) := mkStorage (RewardPerBlock s) (f (RewardPerWrapped s)) (events s).
Definition with_event e (s : Storage) := mkStorage (RewardPerBlock s) (RewardPerWrapped s) (events s ++ [e]).
End AnnuityStore.

(** Parts in a million of an amount. *)
Definition PERMILL : Z := 1000000.

Class EmissionEnv : Type := {
  em_currency :: MultiCurrency;
  em_fixed :: SignedFixedPoint;
  (** [Currency::deposit_creating], which does not fail *)
  deposit_creating : CurrencyId.t → AccountId → Z → ledger → ledger;
  deposit_creating_moves c x v l :
    0 ≤ v → fits 128 (total_issuance c l + v) → fits 128 (free_balance c x l + v) →
    moved free_balance reserved_balance total_issuance
      (λ d z, at_balance c d x z v) (λ _ _, 0) (λ d, at_currency c d v) l (deposit_creating c x v l);
  (** a transfer only fails if the balance is too low *)
  transfer_succeeds c x y v l : 0 ≤ v ≤ free_balance c x l → is_ok (ml_transfer c x y v l) = true;
  (** [FixedU128::checked_mul_int] *)
  checked_mul_int : Z → Z → option Z;
  checked_mul_int_within a n c : checked_mul_int a n = Some c → fits 128 c ∧ Z.abs (c * DIV - a * n) < DIV;
  (** [Permill * u128], rounded to the nearest *)
  permill_mul : Z → Z → Z;
  permill_mul_nearest p a : 0 ≤ p → 0 ≤ a → 0 ≤ permill_mul p a ∧ 2 * Z.abs (permill_mul p a * PERMILL - p * a) ≤ PERMILL;
  (** currencies and derived accounts of the runtime *)
  NativeCurrencyId : CurrencyId.t;
  WrappedCurrencyId : CurrencyId.t;
  SupplyAccount : AccountId;
  EscrowAnnuityAccount : AccountId;
  VaultAnnuityAccount : AccountId;
  FeeAccount : AccountId;
  Treasury : AccountId;
}.

(** [EscrowRewards] and [VaultCapacity] of the runtime, a pool each. *)
Definition EscrowPool `{EmissionEnv} : Type :=
  Reward.Storage (PoolId := unit) (StakeId := AccountId) (CurrencyId := CurrencyId.t).
Definition VaultPool `{EmissionEnv} : Type :=
  Reward.Storage (PoolId := unit) (StakeId := CurrencyId.t) (CurrencyId := CurrencyId.t).
Record Chain `{EmissionEnv} : Type := mkChain {
  em_tokens : ledger;
  escrow_pool : EscrowPool;
  vault_pool : VaultPool;
  supply : SupplyStore.Storage;
  escrow_annuity : AnnuityStore.Storage;
  vault_annuity : AnnuityStore.Storage;
}.
Inductive EmissionModule : Type :=
  | EmissionTokensE (e : TokensError.t)
  | EmissionRewardE (e : Reward.Error)
  | Unsupported.
Abbreviation EError := (DispatchError EmissionModule).

(** ** Constants of the runtime *)
Definition YEARS : Z := 2628000.
Definition VAULT_INFLATION_REWARDS : Z := 400000.
Definition ESCROW_INFLATION_REWARDS : Z := 67000.
Definition MaxEscrowCurrencies : Z := 1.
Definition MaxVaultCurrencies : Z := 2.

Section chain.
Context `{EmissionEnv}.

Definition put_tokens (l : ledger) (s : Chain) : Chain :=
  mkChain _ l (escrow_pool s) (vault_pool s) (supply s) (escrow_annuity s) (vault_annuity s).
Definition put_escrow_pool (p : EscrowPool) (s : Chain) : Chain :=
  mkChain _ (em_tokens s) p (vault_pool s) (supply s) (escrow_annuity s) (vault_annuity s).
Definition put_vault_pool (p : VaultPool) (s : Chain) : Chain :=
  mkChain _ (em_tokens s) (escrow_pool s) p (supply s) (escrow_annuity s) (vault_annuity s).
Definition on_supply (f : SupplyStore.Storage → SupplyStore.Storage) (s : Chain) : Chain :=
  mkChain _ (em_tokens s) (escrow_pool s) (vault_pool s) (f (supply s)) (escrow_annuity s) (vault_annuity s).
Definition on_escrow_annuity (f : AnnuityStore.Storage → AnnuityStore.Storage) (s : Chain) : Chain :=
  mkChain _ (em_tokens s) (escrow_pool s) (vault_pool s) (supply s) (f (escrow_annuity s)) (vault_annuity s).
Definition on_vault_annuity (f : AnnuityStore.Storage → AnnuityStore.Storage) (s : Chain) : Chain :=
  mkChain _ (em_tokens s) (escrow_pool s) (vault_pool s) (supply s) (escrow_annuity s) (f (vault_annuity s)).

Definition native_free (who : AccountId) (s : Chain) : Z := free_balance NativeCurrencyId who (em_tokens s).
(** [Currency::total_balance] *)
Definition total_balance (who : AccountId) (s : Chain) : Z :=
  native_free who s + reserved_balance NativeCurrencyId who (em_tokens s).
Definition native_transfer (from to : AccountId) (amount : Z) : M Chain EError unit :=
  inside em_tokens put_tokens EmissionTokensE (ml_transfer NativeCurrencyId from to amount).
(** [let _ = transfer(..)]: whether it ended well, and the state. *)
Definition try_transfer (from to : AccountId) (amount : Z) (s : Chain) : bool * Chain :=
  transactional (native_transfer from to amount) s.
End chain.

(** ** The annuity pallet, for an instance of it *)

Module Annuity.
Import AnnuityStore.

(** [Config] with its [BlockRewardProvider]; an error of the provider keeps what it wrote. *)
Record Instance_ `{EmissionEnv} : Type := mkInstance {
  store : Chain → Storage;
  on_store : (Storage → Storage) → Chain → Chain;
  account_id : AccountId;
  distribute_block_reward : AccountId → Z → Chain → bool * Chain;
  withdraw_reward : AccountId → M Chain EError Z;
  EmissionPeriod : Z;
}.

Section annuity.
Context `{EmissionEnv} (T : Instance_).

Definition reward_per_block (s : Chain) : Z := RewardPerBlock (store T s).
Definition reward_per_wrapped (s : Chain) : option Z := RewardPerWrapped (store T s).
(** [TotalWrapped] of the runtime *)
Definition TotalWrapped (s : Chain) : Z := total_issuance WrappedCurrencyId (em_tokens s).
Definition min_reward_per_block (s : Chain) : Z :=
  match reward_per_wrapped s with
  | Some per_wrapped => Z.min (reward_per_block s) (Z.min (per_wrapped * TotalWrapped s) (2 ^ 128 - 1))
  | None => reward_per_block s
  end.
Definition begin_block (s : Chain) : bool * Chain :=
  let reward := min_reward_per_block s in
  distribute_block_reward T (account_id T) reward (on_store T (with_event (BlockReward reward)) s).
Definition on_initialize (s : Chain) : Chain := (begin_block s).2.
Definition update_reward_per_block (s : Chain) : Chain :=
  let reward := if EmissionPeriod T =? 0 then 0 else total_balance (account_id T) s / EmissionPeriod T in
  on_store T (with_RewardPerBlock (λ _, reward)) s.

Definition withdraw_rewards (origin : Origin) : M Chain EError unit :=
  dest ← lift (ensure_signed origin);
  value ← withdraw_reward T dest;
  native_transfer (account_id T) dest value.
Definition update_rewards (origin : Origin) : M Chain EError unit :=
  lift (ensure_root origin);; modify update_reward_per_block.
Definition set_reward_per_wrapped (origin : Origin) (per_wrapped : Z) : M Chain EError unit :=
  lift (ensure_root origin);; modify (on_store T (with_RewardPerWrapped (λ _, Some per_wrapped))).
End annuity.
End Annuity.

(** ** The two instances of the runtime *)

Module Providers.
Section providers.
Context `{EmissionEnv}.

(** The rewards stay in the account of the annuity until they are withdrawn. *)
Definition escrow_distribute (_from : AccountId) (amount : Z) (s : Chain) : bool * Chain :=
  let '(ok, p) := RewardsApi.try_distribute_reward MaxEscrowCurrencies tt NativeCurrencyId amount (escrow_pool s) in
  (ok, put_escrow_pool p s).
Definition escrow_withdraw (who : AccountId) : M Chain EError Z :=
  inside escrow_pool put_escrow_pool EmissionRewardE (RewardsApi.withdraw_reward tt who NativeCurrencyId).
(** The rewards go to the account of the fee pallet first. *)
Definition vault_distribute (from : AccountId) (amount : Z) (s : Chain) : bool * Chain :=
  match try_transfer from FeeAccount amount s with
  | (false, s) => (false, s)
  | (true, s) =>
      let '(ok, p) := RewardsApi.try_distribute_reward MaxVaultCurrencies tt NativeCurrencyId amount (vault_pool s) in
      (ok, put_vault_pool p s)
  end.

Definition EscrowAnnuity : Annuity.Instance_ :=
  Annuity.mkInstance _ escrow_annuity on_escrow_annuity EscrowAnnuityAccount escrow_distribute escrow_withdraw YEARS.
Definition VaultAnnuity : Annuity.Instance_ :=
  Annuity.mkInstance _ vault_annuity on_vault_annuity VaultAnnuityAccount vault_distribute
    (λ _, fail (ModuleError Unsupported)) YEARS.

(** [DealWithRewards]; failed transfers are ignored. *)
Definition on_inflation (from : AccountId) (amount : Z) (s : Chain) : Chain :=
  let vault_inflation := permill_mul VAULT_INFLATION_REWARDS amount in
  let escrow_inflation := permill_mul ESCROW_INFLATION_REWARDS amount in
  let s := (try_transfer from VaultAnnuityAccount vault_inflation s).2 in
  let s := Annuity.update_reward_per_block VaultAnnuity s in
  let s := (try_transfer from EscrowAnnuityAccount escrow_inflation s).2 in
  let s := Annuity.update_reward_per_block EscrowAnnuity s in
  (try_transfer from Treasury (saturating_sub (saturating_sub amount vault_inflation) escrow_inflation) s).2.
End providers.
End Providers.

(** ** The supply pallet *)

Module Supply.
Import SupplyStore.
Section supply.
Context `{EmissionEnv}.

Definition InflationPeriod : Z := YEARS.

Definition set_start_height_and_inflation (origin : Origin) (start_height inflation : Z) : M Chain EError unit :=
  lift (ensure_root origin);;
  modify (on_supply (λ t, with_Inflation (λ _, inflation) (with_StartHeight (λ _, Some start_height) t))).

(** The next start is set before the inflation is computed, and stays if that overflows. *)
Definition begin_block (height : Z) (s : Chain) : bool * Chain :=
  match StartHeight (supply s) with
  | Some start_height =>
      if height =? start_height then
        let s := on_supply (with_StartHeight (λ _, Some (wrap BN (start_height + InflationPeriod)))) s in
        match checked_mul_int (Inflation (supply s)) (total_issuance NativeCurrencyId (em_tokens s)) with
        | None => (false, s)
        | Some total_inflation =>
            let s := on_supply (with_LastEmission (λ _, total_inflation)) s in
            let s := put_tokens (deposit_creating NativeCurrencyId SupplyAccount total_inflation (em_tokens s)) s in
            let s := Providers.on_inflation SupplyAccount total_inflation s in
            (true, on_supply (with_event (Inflated total_inflation)) s)
        end
      else (true, s)
  | None => (true, s)
  end.
Definition on_initialize (height : Z) (s : Chain) : Chain := (begin_block height s).2.
End supply.
End Supply.

(** ** The start of a block, in the order of the pallets *)
Definition start_of_block `{EmissionEnv} (height : Z) (s : Chain) : Chain :=
  Annuity.on_initialize Providers.VaultAnnuity
    (Annuity.on_initialize Providers.EscrowAnnuity (Supply.on_initialize height s)).
