(* ===== verification/EmissionProps.v ===== *)
(** * What inflation and block rewards guarantee

    An inflation goes out whole, to the annuities and the treasury; the vault
    annuity can pay its reward in every block of a period.  The last two
    theorems show rewards that are counted twice and rewards that are moved
    without being distributed. *)

From coqutil Require Import Byte.
From Stdlib Require Import ZArith Lia.
From stdpp Require Import base tactics option list numbers gmap relations.
From S2P Require Import Prelude Bytes Security Primitives FixedPoint Reward RewardProps Tokens Frames Emission.

Local Open Scope Z_scope.
Import Providers.

Section emission.
Context `{EmissionEnv}.

Definition at_account (x z : AccountId) (v : Z) : Z := if decide (x = z) then v else 0.

(** A transfer of native tokens that the balance covers. *)
Lemma try_transfer_Ok x y v s :
  0 ≤ v ≤ native_free x s →
  ∃ l, try_transfer x y v s = (true, put_tokens l s) ∧
    (∀ z, free_balance NativeCurrencyId z l = native_free z s + at_account y z v - at_account x z v) ∧
    (∀ z, reserved_balance NativeCurrencyId z l = reserved_balance NativeCurrencyId z (em_tokens s)) ∧
    (∀ c, total_issuance c l = total_issuance c (em_tokens s)).
Proof.
  intros Hv. pose proof (transfer_succeeds NativeCurrencyId x y v (em_tokens s) Hv) as Hok.
  unfold try_transfer, transactional, native_transfer, inside.
  destruct (ml_transfer _ _ _ _ _) as [[[] l] | | |] eqn:Ht; [| done..]. exists l. split; [done |].
  apply transfer_moves in Ht. split_and!; intros.
  - rewrite (moved_free _ _ _ _ _ _ _ _ Ht). unfold native_free, at_balance, at_account. repeat case_decide; naive_solver lia.
  - rewrite (moved_reserved _ _ _ _ _ _ _ _ Ht). lia.
  - rewrite (moved_issuance _ _ _ _ _ _ _ _ Ht). lia.
Qed.

Lemma shares_fit a :
  0 ≤ a → let v := permill_mul VAULT_INFLATION_REWARDS a in let e := permill_mul ESCROW_INFLATION_REWARDS a in
  0 ≤ v ∧ 0 ≤ e ∧ v + e ≤ a.
Proof.
  intros Ha. pose proof (permill_mul_nearest VAULT_INFLATION_REWARDS a ltac:(done) Ha) as [Hv0 Hv].
  pose proof (permill_mul_nearest ESCROW_INFLATION_REWARDS a ltac:(done) Ha) as [He0 He].
  unfold VAULT_INFLATION_REWARDS, ESCROW_INFLATION_REWARDS, PERMILL in *. cbv zeta. split_and!; [done.. | lia].
Qed.

Definition native_reserved (x : AccountId) (s : Chain) : Z := reserved_balance NativeCurrencyId x (em_tokens s).
Definition issued (s : Chain) : Z := total_issuance NativeCurrencyId (em_tokens s).

Lemma NoDup_four {A} (a b c d : A) :
  NoDup [a; b; c; d] → a ≠ b ∧ a ≠ c ∧ a ≠ d ∧ b ≠ c ∧ b ≠ d ∧ c ≠ d.
Proof. rewrite !NoDup_cons. set_solver. Qed.

(** C21: at its start height the supply pallet mints the inflation of the issuance and hands all of
    it on: the annuities of vaults and of escrow get their shares, rounded, the treasury the rest,
    and each annuity spreads its whole account over a period. *)
Theorem inflation_goes_out height a s :
  SupplyStore.StartHeight (supply s) = Some height →
  checked_mul_int (SupplyStore.Inflation (supply s)) (total_issuance NativeCurrencyId (em_tokens s)) = Some a →
  0 ≤ native_free SupplyAccount s → fits 128 (native_free SupplyAccount s + a) →
  fits 128 (total_issuance NativeCurrencyId (em_tokens s) + a) →
  NoDup [SupplyAccount; VaultAnnuityAccount; EscrowAnnuityAccount; Treasury] →
  let s' := Supply.on_initialize height s in
  let v := permill_mul VAULT_INFLATION_REWARDS a in let e := permill_mul ESCROW_INFLATION_REWARDS a in
  total_issuance NativeCurrencyId (em_tokens s') = total_issuance NativeCurrencyId (em_tokens s) + a ∧
  (∀ z, native_free z s' = native_free z s + at_account VaultAnnuityAccount z v +
     at_account EscrowAnnuityAccount z e + at_account Treasury z (a - v - e)) ∧
  SupplyStore.LastEmission (supply s') = a ∧
  SupplyStore.StartHeight (supply s') = Some (wrap BN (height + YEARS)) ∧
  AnnuityStore.RewardPerBlock (vault_annuity s') = total_balance VaultAnnuityAccount s' / YEARS ∧
  AnnuityStore.RewardPerBlock (escrow_annuity s') = total_balance EscrowAnnuityAccount s' / YEARS.
Proof.
  intros Hstart Ha Hfree Hfit Hiss Hnd. cbv zeta. unfold Supply.on_initialize, Supply.begin_block.
  rewrite Hstart, Z.eqb_refl. cbn [supply SupplyStore.Inflation on_supply SupplyStore.with_StartHeight em_tokens].
  rewrite Ha. pose proof (checked_mul_int_within _ _ _ Ha) as [[Ha0 _] _].
  destruct (shares_fit a Ha0) as (Hv & He & Hle). set (v := permill_mul VAULT_INFLATION_REWARDS a) in *.
  set (e := permill_mul ESCROW_INFLATION_REWARDS a) in *.
  pose proof (deposit_creating_moves NativeCurrencyId SupplyAccount a (em_tokens s) Ha0 Hiss Hfit) as Hd.
  unfold on_inflation. fold v e.
  match goal with |- context [try_transfer SupplyAccount VaultAnnuityAccount v ?t] => set (s1 := t) end.
  assert (∀ z, native_free z s1 = native_free z s + at_account SupplyAccount z a) as H1.
  { intros z. unfold native_free, s1. cbn. rewrite (moved_free _ _ _ _ _ _ _ _ Hd). unfold at_balance, at_account.
    repeat case_decide; naive_solver lia. }
  assert (∀ z, native_reserved z s1 = native_reserved z s) as R1.
  { intros z. unfold native_reserved, s1. cbn. rewrite (moved_reserved _ _ _ _ _ _ _ _ Hd). lia. }
  assert (issued s1 = issued s + a) as I1.
  { unfold issued, s1. cbn. rewrite (moved_issuance _ _ _ _ _ _ _ _ Hd). unfold at_currency. case_decide; [lia | done]. }
  apply NoDup_four in Hnd as (Hsv & Hse & Hst & Hve & Hvt & Het).
  destruct (try_transfer_Ok SupplyAccount VaultAnnuityAccount v s1) as (l1 & -> & F1 & RS1 & IS1).
  { rewrite H1. unfold at_account. case_decide; [lia | done]. }
  cbn [snd].
  destruct (try_transfer_Ok SupplyAccount EscrowAnnuityAccount e
    (Annuity.update_reward_per_block VaultAnnuity (put_tokens l1 s1))) as (l2 & -> & F2 & RS2 & IS2).
  { change (native_free SupplyAccount _) with (free_balance NativeCurrencyId SupplyAccount l1).
    rewrite F1, H1. unfold at_account. repeat case_decide; naive_solver lia. }
  cbn [snd].
  assert (saturating_sub (saturating_sub a v) e = a - v - e) as ->.
  { unfold saturating_sub. lia. }
  destruct (try_transfer_Ok SupplyAccount Treasury (a - v - e)
    (Annuity.update_reward_per_block EscrowAnnuity
      (put_tokens l2 (Annuity.update_reward_per_block VaultAnnuity (put_tokens l1 s1))))) as (l3 & -> & F3 & RS3 & IS3).
  { change (native_free SupplyAccount _) with (free_balance NativeCurrencyId SupplyAccount l2).
    rewrite F2. change (native_free SupplyAccount _) with (free_balance NativeCurrencyId SupplyAccount l1).
    rewrite F1, H1. unfold at_account. repeat case_decide; naive_solver lia. }
  change (∀ z, free_balance NativeCurrencyId z l1 = native_free z s1 + at_account VaultAnnuityAccount z v - at_account SupplyAccount z v) in F1.
  change (∀ z, free_balance NativeCurrencyId z l2 = free_balance NativeCurrencyId z l1 + at_account EscrowAnnuityAccount z e - at_account SupplyAccount z e) in F2.
  change (∀ z, free_balance NativeCurrencyId z l3 = free_balance NativeCurrencyId z l2 + at_account Treasury z (a - v - e) - at_account SupplyAccount z (a - v - e)) in F3.
  cbn. rewrite IS3. unfold total_balance, native_free. cbn. rewrite IS2. cbn. rewrite IS1.
  split_and!; try done.
  - intros z. rewrite F3, F2, F1, H1. unfold native_free, at_account. repeat case_decide; naive_solver lia.
  - f_equal. rewrite F3, F2, RS3. cbn. rewrite RS2. unfold at_account. repeat case_decide; naive_solver lia.
  - f_equal. rewrite F3, RS3. unfold at_account. cbn. repeat case_decide; naive_solver lia.
Qed.

(** ** Rewards of a block *)

Abbreviation vault_block := (Annuity.on_initialize VaultAnnuity).
Abbreviation escrow_block := (Annuity.on_initialize EscrowAnnuity).
Abbreviation to_vaults r := (λ p, (RewardsApi.try_distribute_reward MaxVaultCurrencies tt NativeCurrencyId r p).2).

(** A block in which the account covers the reward: it moves to the fee account, and the pool is told. *)
Lemma vault_block_pays s :
  let r := Annuity.min_reward_per_block VaultAnnuity s in
  0 ≤ r ≤ native_free VaultAnnuityAccount s →
  let s' := vault_block s in
  Annuity.min_reward_per_block VaultAnnuity s' = r ∧ vault_pool s' = to_vaults r (vault_pool s) ∧
  ∀ z, native_free z s' = native_free z s + at_account FeeAccount z r - at_account VaultAnnuityAccount z r.
Proof.
  intros r Hr. cbv zeta. unfold Annuity.on_initialize, Annuity.begin_block. fold r.
  cbn [Annuity.distribute_block_reward Annuity.account_id Annuity.on_store VaultAnnuity]. unfold vault_distribute.
  destruct (try_transfer_Ok VaultAnnuityAccount FeeAccount r
    (on_vault_annuity (AnnuityStore.with_event (AnnuityStore.BlockReward r)) s) Hr) as (l & -> & Hf & _ & Hi).
  destruct (RewardsApi.try_distribute_reward _ _ _ _ _) as [ok p].
  split_and!; [| done |].
  - unfold r, Annuity.min_reward_per_block, Annuity.TotalWrapped. cbn. by rewrite Hi.
  - intros z. apply Hf.
Qed.

(** C23: once its reward per block is set from its balance, of which nothing is reserved, the account of the vault annuity covers
    the reward of every block of a period: each block moves the same reward to the fee account and
    hands it to the pool of vaults. *)
Theorem vault_rewards_last n s :
  native_reserved VaultAnnuityAccount s = 0 → 0 ≤ native_free VaultAnnuityAccount s →
  let s0 := Annuity.update_reward_per_block VaultAnnuity s in
  let r := Annuity.min_reward_per_block VaultAnnuity s0 in
  0 ≤ r → Z.of_nat n ≤ YEARS →
  let s' := Nat.iter n vault_block s0 in
  vault_pool s' = Nat.iter n (to_vaults r) (vault_pool s) ∧ 
  ∀ z, native_free z s' = native_free z s + at_account FeeAccount z (Z.of_nat n * r) - at_account VaultAnnuityAccount z (Z.of_nat n * r).
Proof.
  intros Hres Hfree s0 r Hr Hn.
  assert (YEARS * r ≤ native_free VaultAnnuityAccount s) as Hy.
  { assert (r ≤ AnnuityStore.RewardPerBlock (vault_annuity s0)) as Hle.
    { unfold r, Annuity.min_reward_per_block. case_match; [apply Z.le_min_l | done]. }
    change (AnnuityStore.RewardPerBlock (vault_annuity s0)) with (total_balance VaultAnnuityAccount s / YEARS) in Hle.
    unfold total_balance in Hle. unfold native_reserved in Hres. rewrite Hres, Z.add_0_r in Hle.
    pose proof (Z.mul_div_le (native_free VaultAnnuityAccount s) YEARS ltac:(done)). unfold YEARS in *. lia. }
  enough (let s' := Nat.iter n vault_block s0 in Annuity.min_reward_per_block VaultAnnuity s' = r ∧
    vault_pool s' = Nat.iter n (to_vaults r) (vault_pool s) ∧ ∀ z, native_free z s' = native_free z s +
      at_account FeeAccount z (Z.of_nat n * r) - at_account VaultAnnuityAccount z (Z.of_nat n * r)) as [_ Hall] by exact Hall.
  induction n as [| n IH].
  { cbn. split_and!; try done. intros z. unfold at_account. repeat case_decide; cbn; unfold native_free; cbn; lia. }
  destruct (IH ltac:(lia)) as (Hm & Hp & Hf). cbn [Nat.iter]. 
  destruct (vault_block_pays (Nat.iter n vault_block s0)) as (Hm' & Hp' & Hf').
  { rewrite Hm, Hf. split; [done |]. unfold at_account. repeat case_decide; naive_solver nia. }
  rewrite Hm in Hm', Hp', Hf'. rewrite Hp in Hp'. split_and!; [done.. |].
  intros z. rewrite Hf', Hf. unfold at_account. repeat case_decide; lia.
Qed.

(** An error in the start of a block does not undo what was done before it: when nobody has a
    stake in the pool of vaults, the reward of the block still moves to the fee account although it
    is handed to no one. *)
Theorem failed_distribution_keeps_transfer s :
  let r := Annuity.min_reward_per_block VaultAnnuity s in
  0 < r ≤ native_free VaultAnnuityAccount s → is_Some (to_fixed r) → Reward.total_stake tt (vault_pool s) = 0 →
  (Annuity.begin_block VaultAnnuity s).1 = false ∧ vault_pool (vault_block s) = vault_pool s ∧
  ∀ z, native_free z (vault_block s) = native_free z s + at_account FeeAccount z r - at_account VaultAnnuityAccount z r.
Proof.
  intros r Hr [x Hx] Hts. pose proof Hx as [-> _]%to_fixed_Some.
  destruct (vault_block_pays s) as (_ & Hp & Hf); [fold r; lia |]. fold r in Hp, Hf.
  assert (RewardsApi.try_distribute_reward MaxVaultCurrencies tt NativeCurrencyId r (vault_pool s) = (false, vault_pool s)) as Ht.
  { assert ((r * DIV =? 0) = false) as Hz by (unfold DIV; lia).
    unfold RewardsApi.try_distribute_reward, RewardsApi.distribute_reward, RewardsApi.from_balance. rewrite Hx. cbn [ok_or].
    unfold Reward.distribute_reward, Reward.distribute_reward_steps. rewrite Hz. cbn [Reward.run_steps].
    by rewrite run_lift, Hz, !run_gets, Hts. }
  rewrite Ht in Hp. split_and!; [| exact Hp | exact Hf].
  unfold Annuity.begin_block. fold r.
  cbn [Annuity.distribute_block_reward Annuity.account_id Annuity.on_store VaultAnnuity]. unfold vault_distribute.
  destruct (try_transfer_Ok VaultAnnuityAccount FeeAccount r
    (on_vault_annuity (AnnuityStore.with_event (AnnuityStore.BlockReward r)) s)) as (l & -> & _).
  { change (0 ≤ r ≤ native_free VaultAnnuityAccount s). lia. }
  change (vault_pool (put_tokens _ _)) with (vault_pool s). by rewrite Ht.
Qed.

(** A block whose reward is shared out among the holders of vote escrow: no token moves. *)
Lemma escrow_block_owes s :
  AnnuityStore.RewardPerWrapped (escrow_annuity s) = None → (Annuity.begin_block EscrowAnnuity s).1 = true →
  let s' := escrow_block s in
  Reward.total_rewards NativeCurrencyId (escrow_pool s') =
    Reward.total_rewards NativeCurrencyId (escrow_pool s) + AnnuityStore.RewardPerBlock (escrow_annuity s) * DIV ∧
  em_tokens s' = em_tokens s ∧ AnnuityStore.RewardPerWrapped (escrow_annuity s') = None ∧
  AnnuityStore.RewardPerBlock (escrow_annuity s') = AnnuityStore.RewardPerBlock (escrow_annuity s).
Proof.
  intros Hnone. unfold Annuity.on_initialize, Annuity.begin_block, Annuity.min_reward_per_block, Annuity.reward_per_wrapped.
  cbn [Annuity.store EscrowAnnuity]. rewrite Hnone.
  cbn [Annuity.distribute_block_reward Annuity.account_id Annuity.on_store EscrowAnnuity]. unfold escrow_distribute.
  set (r := Annuity.reward_per_block EscrowAnnuity s). change (AnnuityStore.RewardPerBlock (escrow_annuity s)) with r.
  change (escrow_pool (on_escrow_annuity _ s)) with (escrow_pool s).
  destruct (RewardsApi.try_distribute_reward _ _ _ _ _) as [ok p] eqn:Hp. intros Hok. cbn [fst] in Hok. subst ok.
  assert (RewardsApi.distribute_reward MaxEscrowCurrencies tt NativeCurrencyId r (escrow_pool s) = Ok (tt, p)) as Hd.
  { pose proof (f_equal fst Hp) as Hk. cbn [fst RewardsApi.try_distribute_reward] in Hk.
    destruct (RewardsApi.distribute_reward _ _ _ _ _) as [[[] q] | | |] eqn:Hd; try discriminate Hk.
    rewrite (RewardsApi.try_distribute_reward_Ok _ _ _ _ _ _ Hd) in Hp. by injection Hp as ->. }
  unfold RewardsApi.distribute_reward, RewardsApi.from_balance in Hd.
  apply M_bind_Ok in Hd as (x & t & Hx & Hd). apply lift_Ok in Hx as [Hx ->]. apply ok_or_Ok in Hx.
  apply to_fixed_Some in Hx as [-> _]. split_and!; [| done..].
  change (escrow_pool (true, put_escrow_pool p _).2) with p.
  destruct (Z.eqb_spec (r * DIV) 0) as [Hz | Hne].
  - rewrite Hz in Hd |- *. injection Hd as <-. lia.
  - apply distribute_reward_spec in Hd as (_ & _ & _ & _ & Ht & _); [| done].
    unfold Reward.total_rewards at 1. by rewrite Ht, lookup_insert_eq.
Qed.

(** C24: the rewards shared out among the holders of vote escrow stay in the account of the annuity
    until they are withdrawn, and are counted again: after [n] blocks the holders are owed [n]
    rewards more, but the reward per block of the next period comes from the same balance. *)
Theorem escrow_rewards_counted_twice n s :
  AnnuityStore.RewardPerWrapped (escrow_annuity s) = None →
  (∀ k, (k < n)%nat → (Annuity.begin_block EscrowAnnuity (Nat.iter k escrow_block s)).1 = true) →
  let s' := Nat.iter n escrow_block s in
  Reward.total_rewards NativeCurrencyId (escrow_pool s') = Reward.total_rewards NativeCurrencyId (escrow_pool s) +
    Z.of_nat n * AnnuityStore.RewardPerBlock (escrow_annuity s) * DIV ∧
  em_tokens s' = em_tokens s ∧
  AnnuityStore.RewardPerBlock (escrow_annuity (Annuity.update_reward_per_block EscrowAnnuity s')) =
    total_balance EscrowAnnuityAccount s / YEARS.
Proof.
  intros Hnone Hall. cbv zeta.
  enough (let s' := Nat.iter n escrow_block s in
    Reward.total_rewards NativeCurrencyId (escrow_pool s') = Reward.total_rewards NativeCurrencyId (escrow_pool s) +
      Z.of_nat n * AnnuityStore.RewardPerBlock (escrow_annuity s) * DIV ∧ em_tokens s' = em_tokens s ∧
    AnnuityStore.RewardPerWrapped (escrow_annuity s') = None ∧
    AnnuityStore.RewardPerBlock (escrow_annuity s') = AnnuityStore.RewardPerBlock (escrow_annuity s)) as (Ht & Hl & _).
  { split_and!; [done.. |]. unfold total_balance, native_free. rewrite <- Hl. done. }
  cbv zeta. induction n as [| n IH]; [split_and!; try done; cbn; lia |].
  destruct IH as (Ht & Hl & Hn & Hr); [intros k Hk; apply Hall; lia |].
  destruct (escrow_block_owes _ Hn (Hall n ltac:(lia))) as (Ht' & Hl' & Hn' & Hr').
  change (Nat.iter (S n) escrow_block s) with (escrow_block (Nat.iter n escrow_block s)).
  rewrite Ht', Hl', Hr', Ht, Hr. split_and!; [lia | done..].
Qed.

(** ** What is minted *)

Lemma try_transfer_issued x y v s : issued (try_transfer x y v s).2 = issued s.
Proof.
  unfold try_transfer, transactional, native_transfer, inside. case_match eqn:Hm; [| done..].
  destruct (ml_transfer _ _ _ _ _) as [[[] l] | | |] eqn:Ht; try discriminate Hm. injection Hm as <-. cbn.
  apply transfer_moves in Ht. unfold issued. cbn. rewrite (moved_issuance _ _ _ _ _ _ _ _ Ht). lia.
Qed.
Lemma escrow_block_issued s : issued (escrow_block s) = issued s.
Proof.
  unfold Annuity.on_initialize, Annuity.begin_block. cbn [Annuity.distribute_block_reward EscrowAnnuity].
  unfold escrow_distribute. by destruct (RewardsApi.try_distribute_reward _ _ _ _ _).
Qed.
Lemma vault_block_issued s : issued (vault_block s) = issued s.
Proof.
  unfold Annuity.on_initialize, Annuity.begin_block.
  cbn [Annuity.distribute_block_reward Annuity.account_id Annuity.on_store VaultAnnuity]. unfold vault_distribute.
  match goal with |- context [try_transfer ?x ?y ?v ?t] => pose proof (try_transfer_issued x y v t) as Ht;
    destruct (try_transfer x y v t) as [[] s1] end; [| exact Ht].
  by destruct (RewardsApi.try_distribute_reward _ _ _ _ _).
Qed.
Lemma on_inflation_issued x a s : issued (on_inflation x a s) = issued s.
Proof.
  unfold on_inflation. rewrite try_transfer_issued. unfold Annuity.update_reward_per_block at 1.
  etransitivity; [apply (try_transfer_issued _ _ _ (Annuity.update_reward_per_block VaultAnnuity _)) |].
  apply (try_transfer_issued x VaultAnnuityAccount).
Qed.

(** The inflation of a block. *)
Definition inflation_at (height : Z) (s : Chain) : Z :=
  if decide (SupplyStore.StartHeight (supply s) = Some height) then
    default 0 (checked_mul_int (SupplyStore.Inflation (supply s)) (issued s))
  else 0.

(** C22: whatever fails in it, the start of a block mints no native tokens but the inflation that is
    due at its height, and rewards are paid out of what has been minted. (The issuance and the balance
    of the supply account fit a [u128] with it.) *)
Theorem block_mints_inflation height s :
  fits 128 (issued s + inflation_at height s) → fits 128 (native_free SupplyAccount s + inflation_at height s) →
  issued (start_of_block height s) = issued s + inflation_at height s.
Proof.
  intros Hfit Hfree. unfold start_of_block. rewrite vault_block_issued, escrow_block_issued.
  unfold inflation_at in *. unfold Supply.on_initialize, Supply.begin_block.
  destruct (SupplyStore.StartHeight (supply s)) as [start |]; [| rewrite decide_False by done; cbn; lia].
  destruct (Z.eqb_spec height start) as [-> | Hne]; [| rewrite decide_False by congruence; cbn; lia].
  rewrite decide_True in * by done. cbn [supply SupplyStore.Inflation on_supply SupplyStore.with_StartHeight em_tokens].
  fold (issued s). destruct (checked_mul_int _ _) as [a |] eqn:Ha; [| cbn; unfold issued; cbn; lia]. cbn [default] in *.
  pose proof (checked_mul_int_within _ _ _ Ha) as [[Ha0 _] _].
  pose proof (deposit_creating_moves NativeCurrencyId SupplyAccount a (em_tokens s) Ha0 Hfit Hfree) as Hd.
  change (issued (on_inflation SupplyAccount a (put_tokens (deposit_creating NativeCurrencyId SupplyAccount a (em_tokens s))
    (on_supply (SupplyStore.with_LastEmission (λ _, a)) (on_supply (SupplyStore.with_StartHeight (λ _, Some (wrap BN (start + Supply.InflationPeriod)))) s)))) = issued s + a).
  rewrite on_inflation_issued. unfold issued. cbn. rewrite (moved_issuance _ _ _ _ _ _ _ _ Hd).
  unfold at_currency. case_decide; [done | naive_solver].
Qed.
End emission.
