(* ===== verification/EmissionExamples.v ===== *)
(** * A run of inflation and block rewards

    A map ledger, an inflation of two per cent and one holder of vote escrow. *)

From coqutil Require Import Byte.
From Stdlib Require Import ZArith Lia.
From stdpp Require Import base tactics option list numbers gmap relations countable.
From S2P Require Import Prelude Bytes Security Primitives FixedPoint Reward RewardProps Tokens Bridge BridgeExamples Frames Emission EmissionProps.

Local Open Scope Z_scope.
Import Providers.

Definition permill_nearest (p a : Z) : Z := (2 * (p * a) + PERMILL) / (2 * PERMILL).
Lemma permill_nearest_within p a :
  0 ≤ p → 0 ≤ a → 0 ≤ permill_nearest p a ∧ 2 * Z.abs (permill_nearest p a * PERMILL - p * a) ≤ PERMILL.
Proof.
  intros Hp Ha. unfold permill_nearest, PERMILL. pose proof (Z.mul_nonneg_nonneg p a Hp Ha) as Hn.
  generalize dependent (p * a). intros n Hn. Z.div_mod_to_equations. lia.
Qed.
Definition mul_int_floor_u128 (a n : Z) : option Z := checked 128 (a * n / DIV).
Lemma mul_int_floor_u128_within a n c :
  mul_int_floor_u128 a n = Some c → fits 128 c ∧ Z.abs (c * DIV - a * n) < DIV.
Proof. intros [-> Hf]%checked_Some. split; [done |]. by apply floor_within. Qed.

Definition minted (c : CurrencyId.t) (x : AccountId) (v : Z) (l : MapLedger.t) : MapLedger.t :=
  MapLedger.add_issuance c v (MapLedger.add_free c x v l).

#[local] Instance toy_emission : EmissionEnv.
Proof.
  refine {|
    em_currency := MapLedger.map_ledger;
    em_fixed := floor_fixed;
    deposit_creating := minted : CurrencyId.t → AccountId → Z → ledger (MultiCurrency := MapLedger.map_ledger) → _;
    checked_mul_int := mul_int_floor_u128;
    checked_mul_int_within := mul_int_floor_u128_within;
    permill_mul := permill_nearest;
    permill_mul_nearest := permill_nearest_within;
    NativeCurrencyId := INTR;
    WrappedCurrencyId := IBTC;
    SupplyAccount := [u8 1; u8 1];
    EscrowAnnuityAccount := [u8 1; u8 2];
    VaultAnnuityAccount := [u8 1; u8 3];
    FeeAccount := [u8 1; u8 4];
    Treasury := [u8 1; u8 5];
  |}.
  - intros c x v l _ _ _. eapply MapLedger.moved_ext;
      [apply (MapLedger.moved_trans _ _ _ _ _ _ _ _ _ _ _ _ (MapLedger.add_free_moved c x v l) (MapLedger.add_issuance_moved c v _)) | ..];
      intros; cbn; lia.
  - intros c x y v l [_ Hv]. change (v ≤ MapLedger.free_of c x l) in Hv. cbn.
    unfold MapLedger.transfer, MapLedger.withdraw_free. rewrite run_assoc, run_gets.
    by rewrite (proj2 (Z.leb_le _ _) Hv).
Defined.

(** ** The run *)

Definition by_code : relation CurrencyId.t := λ c d, (encode c ≤ encode d)%positive.
#[local] Instance by_code_dec : RelDecision by_code := λ c d, Pos.le_dec (encode c) (encode d).
Definition stake_100 : EscrowPool :=
  match RewardsApi.deposit_stake by_code tt ALICE 100 Reward.empty_storage with
  | Ok (_, p) => p
  | _ => Reward.empty_storage
  end.
Definition chain_start : Chain :=
  mkChain _ (MapLedger.mkLedger {[(INTR, ALICE) := 1000000000000]} ∅ {[INTR := 1000000000000]}) stake_100 Reward.empty_storage
    (SupplyStore.mkStorage (Some 10) 0 (DIV / 50) []) AnnuityStore.empty_storage AnnuityStore.empty_storage.
Definition inflated : Chain := Supply.on_initialize 10 chain_start.

Lemma inflation_goes_out_witness :
  native_free VaultAnnuityAccount inflated = 8000000000 ∧ native_free EscrowAnnuityAccount inflated = 1340000000 ∧
  native_free Treasury inflated = 10660000000 ∧ AnnuityStore.RewardPerBlock (vault_annuity inflated) = 3044.
Proof.
  destruct (inflation_goes_out 10 20000000000 chain_start) as (_ & Hf & _ & _ & Hv & _);
    [vm_refl | vm_refl | vm_compute; done | vm_compute; done | vm_compute; done | |].
  { repeat constructor; set_solver. }
  fold inflated in Hf, Hv. split_and!; [rewrite Hf; vm_refl.. |].
  rewrite Hv. unfold total_balance. rewrite Hf. vm_refl.
Defined.

Lemma vault_rewards_last_witness :
  native_free FeeAccount (Nat.iter 5 (Annuity.on_initialize VaultAnnuity) inflated) = 15220.
Proof.
  destruct (vault_rewards_last 5 inflated) as [_ Hf]; [vm_refl | vm_compute; done | vm_compute; done | vm_compute; done |].
  change inflated with (Annuity.update_reward_per_block VaultAnnuity inflated).
  rewrite Hf. vm_refl.
Defined.

Lemma failed_distribution_keeps_transfer_witness :
  native_free FeeAccount (Annuity.on_initialize VaultAnnuity inflated) = 3044.
Proof.
  destruct (failed_distribution_keeps_transfer inflated) as (_ & _ & Hf); [vm_compute; done | exists (3044 * DIV); vm_refl | vm_refl |].
  rewrite Hf. vm_refl.
Defined.

Lemma escrow_rewards_counted_twice_witness :
  let s := Nat.iter 5 (Annuity.on_initialize EscrowAnnuity) inflated in
  Reward.total_rewards INTR (escrow_pool s) = 2545 * DIV ∧
  AnnuityStore.RewardPerBlock (escrow_annuity (Annuity.update_reward_per_block EscrowAnnuity s)) = 509.
Proof.
  destruct (escrow_rewards_counted_twice 5 inflated) as (Ht & _ & Hr); [vm_refl | |].
  { intros k Hk. do 5 (destruct k as [| k]; [vm_refl |]). lia. }
  split; [exact (eq_trans Ht ltac:(vm_refl)) | exact (eq_trans Hr ltac:(vm_refl))].
Defined.

Lemma block_mints_inflation_witness : issued (start_of_block 10 chain_start) = 1020000000000.
Proof. rewrite (block_mints_inflation 10 chain_start); [vm_refl | vm_compute; done | vm_compute; done]. Defined.
